(* ===== verification/_CoqProject ===== *)
-Q . S2P
Prelude.v
Slices.v
InnerHash.v
Descriptor.v
VerityDigest.v
MerkleSpec.v
ToyHash.v
MerkleTree.v
FileVerifier.v
FileHandleCache.v
VerityFs.v
VerityFsProofs.v
VerityFsInstances.v
VerityMetadata.v
RustString.v
RustPath.v
VerityCmd.v
VerityCmdProofs.v
VerityCmdInstances.v
VerityMain.v
VerityMount.v
VerityMountInstances.v
FlatBuffersRuntime.v
MetadataGenerated.v
MetadataBuffer.v
FlatBuffersInstances.v
Sys.v
Cmd.v
Blkid.v
Luks2.v
Luks2Spec.v
KeyProvider.v
Mkfs.v
MkfsProofs.v
DummyDevice.v
Blktrace.v
BlktraceProofs.v
CachedSource.v
VolumeConfig.v
CryptCmd.v
CryptCmdProofs.v
CryptShow.v
ToyMachine.v
CryptInstances.v
FdeConfig.v
FdeBoot.v
FdeBootProofs.v
FdeInstances.v
GrubConfig.v
GrubProofs.v
Nbd.v
FdeDisk.v
FdeDiskImpl.v
FdeDiskProofs.v
DiskResources.v
FdeHostProofs.v
HostInstances.v
BlktraceInstances.v
Passthrough.v
PassthroughInstances.v
Template.v
TemplateProofs.v
TemplateInstances.v
Dispatch.v
DeviceMapper.v
