(* ===== verification/Prelude.v ===== *)
(** * cryptpilot: a verification development

    cryptpilot protects the data of confidential instances.  It has four
    programs on two libraries.  [verity-core] computes fs-verity digests;
    [verity-fuse] serves a directory whose blocks are verified against them,
    and [cryptpilot-verity] makes, checks and opens such directories.
    [cryptpilot-core] runs external commands, LUKS2, mkfs, key providers and
    the runtime measurement; [cryptpilot-crypt] initialises and opens encrypted
    volumes with it, and [cryptpilot-fde] boots an encrypted or verified root
    file system and computes the reference values of a disk image on a host.

    ** How programs are modelled

    Pure functions of the source are functions.  Machine integers are [Z] with
    the wrap-around written out ([wrap64]), bytes are [Byte.byte], strings their
    sequences of bytes ([RustString]), paths their components ([RustPath]) or
    their text.  [result] is [Result] with a third outcome for a panic, and
    [let?] is [?].  The digest and the file system thread their state.  A
    command of [cryptpilot-core] and its clients is a [prog] ([Sys]): a tree of
    system calls whose branches depend on the answers, so that a theorem about
    all handlers is a theorem about all behaviours of the system, [run_n] is a
    crash after any number of calls, and [all_ops] speaks of all calls.  A drop
    is a program run where its value goes out of scope.  What an operation
    relies on of the system (libcryptsetup, block devices, hash functions, TOML
    and object file parsers, the layout of kernel structures) is a class whose
    laws are its documented behaviour, with a concrete instance for witnesses.
    The class [Cryptsetup] has frame laws: a call that does not concern the
    header or the data of a device leaves both alone.  The start of a program
    with a device among its arguments counts as concerning it ([touches]),
    unless it is one of the listed commands that only probe or activate, so mkfs
    on a device is a write; the theorems that use the frame suppose that the
    command users configure to provide a key does not name the device
    ([key_clean]), and a loop device that is attached for mkfs was free, so that
    it held no header ([loop_free], [fresh_answer]).
    The context of errors, log output, delays, colours and environment variables
    of child processes are left out.

    The host of the verity commands ([Host]) has files, directories and, for
    each path, whether a write to it fails, and after how many bytes.  File names
    are byte sequences; the metadata records their lossy conversion to UTF-8
    ([to_string_lossy]), so the theorems on format either suppose valid names or
    speak of the recorded ones.

    ** Files

    Shared: [Prelude] (bytes, results, integers, strings), [Slices],
    [RustString], [RustPath], [Sys] (programs, runs, crashes, traces), [Cmd]
    (fs/cmd.rs, fs/kernel_module.rs).

    verity-core: [InnerHash] and [VerityDigest] (digest.rs, config.rs),
    [Descriptor] (descriptor.rs), [MerkleTree] (tree.rs).  [MerkleSpec] states
    the fs-verity Merkle tree over a whole file and proves that the streaming
    digest computes it for any sequence of writes, up to its capacity, where it
    panics; [MerkleTree] that a measurement binds the content, or a collision is
    exhibited.

    verity-fuse: [FileVerifier] (file_verifier/), [FileHandleCache]
    (file_handle_cache.rs), [VerityFs] (filesystem.rs).  [VerityFsProofs]: what
    a read returns are bytes of the measured file, over any backing store; reads
    of an honest store are complete; every block in the cache of every reachable
    state has been verified.

    cryptpilot-verity: [VerityMetadata] (metadata/mod.rs) and [VerityCmd] (cmd/,
    cli.rs); [VerityCmdProofs]: format then verify succeeds on valid
    names, verify detects every change, metadata is read back and bound by its
    hash; [VerityCmdInstances] shows what happens to a name that is not UTF-8.
    [VerityMain] (the dispatch): no command writes a file that is not its output.
    [VerityMount] composes format, open and the file system: over any untrusted
    host full reads of a mount return formatted bytes, unless blocks this very
    read obtained exhibit a collision, and an unchanged directory is read back
    (a read that asks for a block past the last one gets EIO).
    [FlatBuffersRuntime] is the interface of the flatbuffers crate: a builder
    with its assertions on nesting and its largest size, a verifier with its
    limits on depth and tables, and readers.  [MetadataGenerated] is
    metadata_generated.rs over it, and [MetadataBuffer] the builder calls of
    serialize_metadata: the generated accessors read back what the generated
    builders wrote, building never trips an assertion, and the generated code
    implements the class [FlatBuffers] the commands are proved against.

    verity-fuse, the passthrough binary: [Passthrough] (bin/verity-fuse.rs):
    the preload ends and numbers exactly the files of the source tree.

    cryptpilot-core: [Blkid], [Luks2], [KeyProvider], [Mkfs], [DummyDevice],
    [Blktrace], [DeviceMapper], [Nbd] (fs/mount.rs, fs/nbd.rs), and the
    measurement and the cloud vendor in [FdeConfig].  [Luks2Spec] is the interface of libcryptsetup
    ([Cryptsetup]) and what the functions of luks2.rs do over it.
    [MkfsProofs]: the replay of a recorded mkfs copies the touched pages and
    nothing else.  [BlktraceProofs]: records that arrive whole are never lost
    between the relay channels and the recorded pages, in every interleaving; cancelled
    readers end; recordings are torn down.

    cryptpilot-crypt: [VolumeConfig] (config/), [CachedSource] (config/cached.rs
    of both programs, as a transition system of concurrent calls), [CryptCmd]
    (cmd/), [CryptShow] (its table).  [CryptCmdProofs]: a volume is never marked
    ready before its init has succeeded, at any crash point; init changes nothing unless allowed; what
    was initialised opens; the boot service writes to one-time volumes only;
    what config check means.

    The template generators of both programs: [Template] (bin/gen-template/);
    [TemplateProofs]: annotation keeps the data of a document, whatever the
    documentation.  Their mains: [Dispatch] (main.rs, bin/host.rs, cmd/mod.rs):
    which configuration a command is run on, through the cache.

    cryptpilot-fde: [FdeConfig] (config/, boot_service/), [FdeBoot] (the two
    stages of the boot), [GrubConfig] (the parsing in disk/grub.rs, mod.rs and
    partition_table.rs), [FdeDisk] (artifacts, reference values, the trait of a
    disk), [FdeDiskImpl] (disk/current.rs, external.rs, kernel.rs and the host
    commands).  [FdeBootProofs]: when there is an fde section
    the root file system is the verified one, the
    delta volume is crash safe and reused exactly when it should be, an
    untrusted configuration is measured.  [GrubProofs]: menu entries, variables,
    partitions.  [FdeDiskProofs]: paths and links on a mounted disk.
    [DiskResources]: a logic of held resources; a host command that ends has
    passed every mount, directory, nbd device and udev rule to the call that
    gives it back, and leaves behind what that call failed for.  [FdeHostProofs]: the
    reference values printed, the hash of a dump is the hash that is measured,
    config check.

    [ToyHash], [ToyMachine] and the files named [...Instances] give concrete
    hash functions, machines and data, and apply the theorems to them.

    ** Fuel and bounds

    Loops over data are structural.  The fuel of a read of a file handle, of
    symbolic links, of a relay reader and of the preload of a directory tree
    bounds loops of the source that depend on the system; the theorems say how
    much is enough ([pread_file_data_correct], [real_path_follows],
    [relay_reader_terminates], [passthrough_preload_correct]) and where none is
    ([symlink_loop_diverges]): a program whose bound on symbolic links is
    used up makes the call [StillLooping], which the source does not have, and
    theorems about runs that end exclude it.  The limits of the flatbuffers crate are
    parameters of its interface; [too_many_files_refused] says what the default
    ones mean for the number of files.

    ** Not modelled

    The flatbuffers crate and the kernel bindings (parameters), the Debug
    implementations of the generated code, argument parsing and logging, the
    drawing of tables, the build scripts, async_defer (drops are programs run
    where a value goes out of scope), and what the shell script that grows a
    partition does (its text is [expand_script], its run an answer). *)

From stdpp Require Import base list numbers strings gmap.
From Stdlib Require Import ZArith Lia.
From Stdlib.Strings Require Import Byte.

(** ** Scope, tactics and hint databases *)

Declare Scope rust_scope.
Delimit Scope rust_scope with rust.
Open Scope rust_scope.

Create HintDb cryptpilot discriminated.
Create Rewrite HintDb cryptpilot_len.

(** ** Bytes *)

Abbreviation byte := Byte.byte.
Abbreviation bytes := (list Byte.byte).

#[global] Instance byte_eq_dec : EqDecision byte := Byte.byte_eq_dec.

(** [n as u8]: the low eight bits. *)
Definition byte_of_Z (z : Z) : byte :=
  match Byte.of_N (Z.to_N (z mod 256)) with
  | Some b => b
  | None => Byte.x00
  end.

Definition Z_of_byte (b : byte) : Z := Z.of_N (Byte.to_N b).

Lemma Z_of_byte_range b : (0 <= Z_of_byte b < 256)%Z.
Proof.
  unfold Z_of_byte. pose proof (Byte.to_N_bounded b). lia.
Qed.

Lemma Z_of_byte_of_Z z : Z_of_byte (byte_of_Z z) = (z mod 256)%Z.
Proof.
  unfold Z_of_byte, byte_of_Z.
  pose proof (Z.mod_pos_bound z 256 ltac:(lia)) as Hb.
  destruct (Byte.of_N (Z.to_N (z mod 256))) as [b|] eqn:E.
  - apply Byte.to_of_N in E. rewrite E, Z2N.id; lia.
  - apply Byte.of_N_None_iff in E. lia.
Qed.

Lemma byte_of_Z_of_byte b : byte_of_Z (Z_of_byte b) = b.
Proof.
  unfold byte_of_Z. rewrite Z.mod_small by apply Z_of_byte_range.
  unfold Z_of_byte. rewrite N2Z.id, Byte.of_to_N. done.
Qed.

(** ** Machine integers

    [usize] and [u64] are 64 bits wide on the supported targets.  The crates
    set no [overflow-checks], so the release profile wraps. *)

Definition u64_modulus : Z := 2 ^ 64.
Definition wrap64 (z : Z) : Z := z mod u64_modulus.

Lemma wrap64_small z : (0 <= z < u64_modulus)%Z -> wrap64 z = z.
Proof. apply Z.mod_small. Qed.

Lemma wrap64_add_l a b : wrap64 (wrap64 a + b) = wrap64 (a + b).
Proof. apply Zplus_mod_idemp_l. Qed.

Lemma wrap64_add_r a b : wrap64 (a + wrap64 b) = wrap64 (a + b).
Proof. apply Zplus_mod_idemp_r. Qed.

Lemma wrap64_mul_l a b : wrap64 (wrap64 a * b) = wrap64 (a * b).
Proof. apply Zmult_mod_idemp_l. Qed.

Lemma wrap64_idem a : wrap64 (wrap64 a) = wrap64 a.
Proof. apply Z.mod_mod. done. Qed.

(** [u64::div_ceil] *)
Definition div_ceil (a b : Z) : Z := if decide (0 < a mod b)%Z then (a / b + 1)%Z else (a / b)%Z.

Lemma div_ceil_bounds a b :
  (0 < b -> 0 <= a -> (div_ceil a b - 1) * b < a <= div_ceil a b * b)%Z.
Proof.
  intros Hb Ha. unfold div_ceil. pose proof (Z.div_mod a b ltac:(lia)) as E.
  pose proof (Z.mod_pos_bound a b Hb). destruct (decide (0 < a mod b)%Z); nia.
Qed.

(** [u64::to_le_bytes] and friends: [n] little-endian bytes. *)
Fixpoint to_le_bytes (n : nat) (z : Z) : bytes :=
  match n with
  | O => []
  | S n => byte_of_Z z :: to_le_bytes n (z / 256)
  end.

Lemma to_le_bytes_length n z : length (to_le_bytes n z) = n.
Proof. revert z. induction n; intros z; simpl; auto. Qed.

Lemma to_le_bytes_inj n : forall a b,
  (0 <= a < 256 ^ Z.of_nat n)%Z -> (0 <= b < 256 ^ Z.of_nat n)%Z ->
  to_le_bytes n a = to_le_bytes n b -> a = b.
Proof.
  induction n as [|n IH]; intros a b Ha Hb E.
  - simpl in *. lia.
  - rewrite Nat2Z.inj_succ, Z.pow_succ_r in Ha, Hb by lia.
    simpl in E. injection E as E0 E1.
    apply (f_equal Z_of_byte) in E0. rewrite !Z_of_byte_of_Z in E0.
    apply IH in E1; [|split; [apply Z.div_pos|apply Z.div_lt_upper_bound]; lia..].
    rewrite (Z.div_mod a 256), (Z.div_mod b 256) by lia. congruence.
Qed.

(** ** Strings *)

Lemma string_cons_app a s t : String a s +:+ t = String a (s +:+ t).
Proof. done. Qed.

Lemma string_app_nil_r s : s +:+ "" = s.
Proof. induction s as [|a s IH]; [done|]. by rewrite string_cons_app, IH. Qed.

Lemma string_app_assoc a b d : a +:+ (b +:+ d) = (a +:+ b) +:+ d.
Proof. induction a as [|x a IH]; [done|]. by rewrite !string_cons_app, IH. Qed.

Lemma string_length_app a b : String.length (a +:+ b) = (String.length a + String.length b)%nat.
Proof. induction a as [|x a IH]; [done|]. rewrite string_cons_app. simpl. by rewrite IH. Qed.

(** ** Results

    [Ok]/[Err] are Rust's [Result]; [Panic] is an unwinding panic (a failed
    [assert!], an [unwrap] of [None], an index out of range). *)

Inductive result (E A : Type) : Type :=
| Ok (a : A)
| Err (e : E)
| Panic.
Arguments Ok {E A} a.
Arguments Err {E A} e.
Arguments Panic {E A}.

Definition rbind {E A B} (r : result E A) (f : A -> result E B) : result E B :=
  match r with
  | Ok a => f a
  | Err e => Err e
  | Panic => Panic
  end.

Definition rmap {E A B} (f : A -> B) (r : result E A) : result E B :=
  rbind r (fun a => Ok (f a)).

(** [Result::map_err]. *)
Definition map_err {E F A} (f : E -> F) (r : result E A) : result F A :=
  match r with
  | Ok a => Ok a
  | Err e => Err (f e)
  | Panic => Panic
  end.

(** [Option::ok_or]. *)
Definition ok_or {E A} (o : option A) (e : E) : result E A :=
  match o with Some a => Ok a | None => Err e end.

(** A partial computation whose only failure is a panic. *)
Definition unwrap {E A} (o : option A) : result E A :=
  match o with Some a => Ok a | None => Panic end.

Definition is_ok {E A} (r : result E A) : bool :=
  match r with Ok _ => true | _ => false end.

Notation "'let?' x ':=' r 'in' k" := (rbind r (fun x => k))
  (at level 10, x pattern, r at level 100, k at level 200)
  : rust_scope.

Lemma rbind_ok {E A B} (r : result E A) (f : A -> result E B) b :
  rbind r f = Ok b <-> exists a, r = Ok a /\ f a = Ok b.
Proof.
  destruct r; simpl; split; try discriminate; [by eauto | by intros (? & [= ->] & ?) | |];
    by intros (? & ? & ?).
Qed.

Lemma ok_or_ok {E A} (o : option A) (e : E) a : ok_or o e = Ok a <-> o = Some a.
Proof. destruct o; simpl; split; congruence. Qed.

Lemma map_err_ok {E F A} (f : E -> F) (r : result E A) a :
  map_err f r = Ok a <-> r = Ok a.
Proof. destruct r; simpl; split; congruence. Qed.

(** Invert a hypothesis [_ = Ok _] through binds and conversions. *)
Ltac inv_ok :=
  repeat match goal with
  | H : rbind _ _ = Ok _ |- _ =>
      apply rbind_ok in H; destruct H as (? & ? & H)
  | H : ok_or _ _ = Ok _ |- _ => apply ok_or_ok in H
  | H : map_err _ _ = Ok _ |- _ => apply map_err_ok in H
  | H : Ok _ = Ok _ |- _ => injection H as H; subst
  | H : Err _ = Ok _ |- _ => discriminate H
  | H : Panic = Ok _ |- _ => discriminate H
  end.

(** ** Evaluated options *)

Definition is_none {A} (o : option A) : bool := match o with Some _ => false | None => true end.

Lemma is_none_eq {A} (o : option A) : is_none o = true -> o = None.
Proof. by destruct o. Qed.

Lemma some_default {A} (o : option A) d : is_none o = false -> o = Some (default d o).
Proof. by destruct o. Qed.
