(* ===== verification/Slices.v ===== *)
(** * Slices

    The slice operations of Rust's standard library the crates use:
    [[T]::chunks], [chunks_exact], zero filling and sub-slices, with the facts
    about them that the Merkle tree and the FUSE read path share. *)

From stdpp Require Import base list numbers.
From Stdlib Require Import Lia.
From S2P Require Import Prelude.

(** ** Zero bytes and padding *)

Definition zeros (n : nat) : bytes := replicate n Byte.x00.

(** [data] followed by zero bytes up to [n] bytes. *)
Definition pad_to (n : nat) (data : bytes) : bytes := data ++ zeros (n - length data).

Lemma zeros_length n : length (zeros n) = n.
Proof. apply length_replicate. Qed.

Lemma zeros_app n m : zeros (n + m) = zeros n ++ zeros m.
Proof. apply replicate_add. Qed.

Lemma take_zeros k n : take k (zeros n) = zeros (k `min` n).
Proof. apply take_replicate. Qed.

Lemma pad_to_length n data : length data <= n -> length (pad_to n data) = n.
Proof. intros. unfold pad_to. rewrite length_app, zeros_length. lia. Qed.

Lemma pad_to_full n data : length data = n -> pad_to n data = data.
Proof. intros <-. unfold pad_to. rewrite Nat.sub_diag. apply app_nil_r. Qed.

Lemma pad_to_inj n a b :
  length a = length b -> pad_to n a = pad_to n b -> a = b.
Proof. unfold pad_to. intros ? E. by apply app_inj_1 in E as []. Qed.

Lemma pad_to_app_zeros n k data :
  length data + k <= n -> pad_to n (data ++ zeros k) = pad_to n data.
Proof.
  intros. unfold pad_to. rewrite length_app, zeros_length, <- app_assoc, <- zeros_app.
  f_equal. f_equal. lia.
Qed.

(** ** [[T]::chunks] *)

Section Chunks.
Context {A : Type}.
Implicit Types (l : list A) (ls : list (list A)).

Fixpoint chunks_aux (fuel n : nat) (l : list A) : list (list A) :=
  match fuel, l with
  | S fuel, _ :: _ => take n l :: chunks_aux fuel n (drop n l)
  | _, _ => []
  end.

(** [l.chunks(n)]; every step consumes at least one element when [n > 0], so
    [length l] steps are enough. *)
Definition chunks (n : nat) (l : list A) : list (list A) := chunks_aux (length l) n l.

Lemma chunks_aux_enough n l f1 f2 :
  0 < n -> length l <= f1 -> length l <= f2 -> chunks_aux f1 n l = chunks_aux f2 n l.
Proof.
  intros Hn. revert f2 l. induction f1 as [|f1 IH]; intros f2 l H1 H2.
  - destruct l; simpl in *; [by destruct f2|lia].
  - destruct l as [|x l]; [by destruct f2|]. destruct f2 as [|f2]; simpl in *; [lia|].
    f_equal. destruct n; [lia|]. simpl. apply IH; rewrite length_drop; lia.
Qed.

Lemma chunks_nil n : chunks n [] = [].
Proof. done. Qed.

Lemma chunks_step n l :
  0 < n -> l <> [] -> chunks n l = take n l :: chunks n (drop n l).
Proof.
  intros Hn Hl. unfold chunks. destruct l as [|x l]; [done|]. simpl.
  f_equal. apply chunks_aux_enough; [done| |]; rewrite length_drop; simpl; lia.
Qed.

Lemma chunks_app_full n l rest :
  0 < n -> length l = n -> chunks n (l ++ rest) = l :: chunks n rest.
Proof.
  intros Hn Hl. rewrite chunks_step by (destruct l; simpl in *; [lia|done]).
  by rewrite take_app_length', drop_app_length'.
Qed.

Lemma chunks_small n l : l <> [] -> length l <= n -> chunks n l = [l].
Proof.
  intros Hl Hn. rewrite chunks_step; [|destruct l; simpl in *; [done|lia]|done].
  by rewrite take_ge, drop_ge.
Qed.

Lemma chunks_concat_app n ls rest :
  0 < n -> Forall (fun c => length c = n) ls ->
  chunks n (concat ls ++ rest) = ls ++ chunks n rest.
Proof.
  intros Hn. induction 1 as [|c ls Hc _ IH]; [done|]. simpl.
  by rewrite <- app_assoc, chunks_app_full, IH.
Qed.

Lemma chunks_concat n ls :
  0 < n -> Forall (fun c => length c = n) ls -> chunks n (concat ls) = ls.
Proof.
  intros. rewrite <- (app_nil_r (concat ls)), chunks_concat_app by done.
  by rewrite chunks_nil, app_nil_r.
Qed.

(** Every list is a run of full chunks and a shorter non-empty last one. *)
Lemma chunks_decompose n l :
  0 < n -> l <> [] ->
  exists full last, l = concat full ++ last /\ Forall (fun c => length c = n) full /\
    0 < length last <= n.
Proof.
  intros Hn. induction l as [l IH] using (induction_ltof1 _ length).
  unfold ltof in IH. intros Hl.
  destruct (decide (length l <= n)) as [Hle|Hgt].
  - exists [], l. destruct l; [done|]. simpl in *. repeat split; auto; lia.
  - destruct (IH (drop n l)) as (full & last & E & Hf & Hlast).
    + rewrite length_drop. lia.
    + intros E%(f_equal length). rewrite length_drop in E. simpl in E. lia.
    + exists (take n l :: full), last. split; [|split; [|done]].
      * simpl. by rewrite <- app_assoc, <- E, take_drop.
      * constructor; [|done]. rewrite length_take. lia.
Qed.

(** The same with a shorter, possibly empty, remainder. *)
Lemma chunks_decompose_rem n l :
  0 < n ->
  exists full part, l = concat full ++ part /\ Forall (fun c => length c = n) full /\
    length part < n.
Proof.
  intros Hn. destruct (decide (l = [])) as [->|Hl]; [by exists [], []|].
  destruct (chunks_decompose n l) as (full & last & -> & Hf & Hlast); [done..|].
  destruct (decide (length last = n)).
  - exists (full ++ [last]), []. rewrite concat_app. simpl. rewrite !app_nil_r.
    split; [done|]. split; [|done]. by apply Forall_app_2; [|constructor].
  - exists full, last. split; [done|]. split; [done|]. lia.
Qed.

Lemma length_concat_full n ls :
  Forall (fun c => length c = n) ls -> length (concat ls) = length ls * n.
Proof. induction 1; simpl; [done|]. rewrite length_app. lia. Qed.

Lemma concat_full_inj n ls1 ls2 :
  Forall (fun c => length c = n) ls1 -> Forall (fun c => length c = n) ls2 ->
  length ls1 = length ls2 -> concat ls1 = concat ls2 -> ls1 = ls2.
Proof.
  intros H1. revert ls2. induction H1 as [|c1 ls1 Hc1 _ IH]; intros ls2 H2 Hlen E.
  - by destruct ls2.
  - destruct H2 as [|c2 ls2 Hc2 H2]; [done|]. simpl in *.
    apply app_inj_1 in E as [-> E]; [|congruence]. f_equal. apply IH; [done|lia|done].
Qed.

Lemma concat_chunks n l : 0 < n -> concat (chunks n l) = l.
Proof.
  intros Hn. destruct (decide (l = [])) as [->|Hl]; [done|].
  destruct (chunks_decompose n l) as (full & last & -> & Hf & Hlast); [done..|].
  rewrite chunks_concat_app, concat_app, chunks_small by (done || lia || by destruct last; simpl in *; [lia|]).
  simpl. by rewrite app_nil_r.
Qed.

Lemma chunks_Forall_le n l : 0 < n -> Forall (fun c => 0 < length c <= n) (chunks n l).
Proof.
  intros Hn. destruct (decide (l = [])) as [->|Hl]; [constructor|].
  destruct (chunks_decompose n l) as (full & last & -> & Hf & Hlast); [done..|].
  rewrite chunks_concat_app, chunks_small by (done || lia || by destruct last; simpl in *; [lia|]).
  apply Forall_app_2; [|by constructor].
  apply Forall_forall. intros c Hc. rewrite Forall_forall in Hf. rewrite (Hf c Hc). lia.
Qed.

(** [chunks_exact]: the full chunks and the remainder. *)
Definition chunks_exact (n : nat) (l : list A) : list (list A) * list A :=
  let k := length l / n in
  (chunks n (take (k * n) l), drop (k * n) l).

Lemma chunks_exact_app n ls part :
  0 < n -> Forall (fun c => length c = n) ls -> length part < n ->
  chunks_exact n (concat ls ++ part) = (ls, part).
Proof.
  intros Hn Hf Hp. unfold chunks_exact.
  pose proof (length_concat_full n ls Hf) as HL.
  rewrite length_app, HL, (Nat.add_comm (_ * _)), Nat.div_add by lia.
  rewrite Nat.div_small by done. simpl.
  rewrite take_app_length', drop_app_length' by done. by rewrite chunks_concat.
Qed.
End Chunks.

#[export] Hint Rewrite zeros_length @length_app @length_take @length_drop : cryptpilot_len.

(** ** Sub-slices *)

(** [l[start..end]] for [start <= end <= l.len()]. *)
Definition slice {A} (l : list A) (s e : nat) : list A := take (e - s) (drop s l).

Lemma slice_length {A} (l : list A) s e :
  s <= e -> e <= length l -> length (slice l s e) = e - s.
Proof. intros. unfold slice. rewrite length_take, length_drop. lia. Qed.

Lemma slice_empty {A} (l : list A) s e : e <= s -> slice l s e = [].
Proof. intros. unfold slice. by replace (e - s) with 0 by lia. Qed.

Lemma slice_past {A} (l : list A) s e : length l <= s -> slice l s e = [].
Proof. intros. unfold slice. rewrite drop_ge by done. apply take_nil. Qed.

Lemma slice_app {A} (l : list A) a b c : a <= b -> b <= c -> slice l a b ++ slice l b c = slice l a c.
Proof.
  intros Hab Hbc. unfold slice. replace (c - a) with ((b - a) + (c - b)) by lia.
  rewrite <- take_take_drop. f_equal. rewrite drop_drop. do 2 f_equal. lia.
Qed.

(** The [k]-th chunk. *)
Lemma chunks_lookup {A} n (l : list A) k c :
  0 < n -> chunks n l !! k = Some c -> c = slice l (k * n) (k * n + n) /\ k * n < length l.
Proof.
  intros Hn. revert l. induction k as [|k IH]; intros l E.
  - destruct (decide (l = [])) as [->|Hl]; [done|]. rewrite chunks_step in E by done.
    injection E as <-. unfold slice. simpl. rewrite Nat.sub_0_r, drop_0. split; [done|].
    by destruct l; simpl; [|lia].
  - destruct (decide (l = [])) as [->|Hl]; [done|]. rewrite chunks_step in E by done.
    simpl in E. apply IH in E as [-> Hk]. rewrite length_drop in Hk. split; [|simpl; lia].
    unfold slice. rewrite drop_drop. f_equal; simpl; lia.
Qed.

Lemma chunks_lookup_some {A} n (l : list A) k :
  0 < n -> k * n < length l -> chunks n l !! k = Some (slice l (k * n) (k * n + n)).
Proof.
  intros Hn. revert l. induction k as [|k IH]; intros l Hk.
  - rewrite chunks_step by (done || by destruct l; simpl in *; [lia|]). simpl.
    unfold slice. by rewrite Nat.sub_0_r, drop_0.
  - rewrite chunks_step by (done || by destruct l; simpl in *; [lia|]). simpl.
    rewrite IH by (rewrite length_drop; simpl in Hk; lia). f_equal.
    unfold slice. rewrite drop_drop. f_equal; simpl; lia.
Qed.

(** A sub-slice of a slice, inside the list. *)
Lemma slice_slice {A} (l : list A) a b s e :
  s <= e -> e <= b - a -> slice (slice l a b) s e = slice l (a + s) (a + e).
Proof.
  intros Hse He. unfold slice. rewrite skipn_firstn_comm, drop_drop, take_take. f_equal; lia.
Qed.

(** Padding does not change what is there. *)
Lemma slice_pad n l s e : s <= e -> e <= length l -> slice (pad_to n l) s e = slice l s e.
Proof.
  intros Hse He. unfold slice, pad_to. rewrite drop_app_le by lia.
  rewrite take_app_le by (rewrite length_drop; lia). done.
Qed.

(** A slice ends with the list. *)
Lemma slice_clamp {A} (l : list A) a b : slice l a (b `min` length l) = slice l a b.
Proof.
  unfold slice. destruct (decide (b <= length l)); [by rewrite Nat.min_l by lia|].
  rewrite Nat.min_r by lia. by rewrite !take_ge by (rewrite length_drop; lia).
Qed.

Lemma slice_length_min {A} (l : list A) a b : length (slice l a b) = (b - a) `min` (length l - a).
Proof. unfold slice. by rewrite length_take, length_drop. Qed.
