(* ===== verification/InnerHash.v ===== *)
(** * Inner hash functions and fixed-size blocks

    [verity-core/src/config.rs] and the first half of
    [verity-core/src/digest.rs]: the [InnerHash] trait over the RustCrypto
    [Digest] interface, the salted initial state, and [FixedSizeBlock], the
    hash state of one Merkle-tree block together with the bytes it still
    lacks.  SHA-256 and SHA-512 themselves live in the [sha2] crate: they are
    the type-class parameter [InnerHash], and what this code relies on is
    [InnerHashSpec]. *)

From stdpp Require Import base list numbers option.
From Stdlib Require Import Lia.
From S2P Require Import Prelude Slices.

(** ** config.rs *)

Definition MAX_DIGEST_SIZE : nat := 64.
Definition MAX_SALT_SIZE : nat := 32.
Definition MAX_LEVELS : nat := 8.
Definition DEFAULT_BLOCK_SIZE : nat := 4096.

Inductive InnerHashAlgorithm := Sha256 | Sha512.

(** [as u8]: the discriminants. *)
Definition algorithm_as_u8 (a : InnerHashAlgorithm) : Z :=
  match a with Sha256 => 1 | Sha512 => 2 end.

(** [InnerHashAlgorithm::default]. *)
Definition algorithm_default : InnerHashAlgorithm := Sha256.

(** ** The [Digest] interface *)

Class InnerHash := {
  D : Type;
  OutputSize : nat;
  BlockSize : nat;
  INNER_HASH_ALGORITHM : InnerHashAlgorithm;
  digest_new : D;
  digest_update : D -> bytes -> D;
  digest_finalize : D -> bytes;
}.

(** The hash of one message. *)
Definition hash `{InnerHash} (m : bytes) : bytes :=
  digest_finalize (digest_update digest_new m).

(** What [digest::Digest] documents and [sha2] provides: hashing piecewise is
    hashing the concatenation, the output has [OutputSize] bytes; and what
    config.rs and the comments of digest.rs say of the supported algorithms:
    the output sizes are powers of two of at most [MAX_DIGEST_SIZE] bytes. *)
Class InnerHashSpec `{InnerHash} : Prop := {
  digest_pieces cs :
    digest_finalize (foldl digest_update digest_new cs) = hash (concat cs);
  digest_finalize_length d : length (digest_finalize d) = OutputSize;
  output_size_pow2 : exists k, OutputSize = 2 ^ k;
  output_size_max : OutputSize <= MAX_DIGEST_SIZE;
  block_size_pos : 0 < BlockSize;
}.

Section InnerHashOps.
Context `{InnerHash}.

Definition ZEROES_LEN : nat := 128.
Definition ZEROES : bytes := zeros ZEROES_LEN.

Definition update_zeroes (self : D) (amount : nat) : D :=
  let quotient := amount / ZEROES_LEN in
  let remainder := amount mod ZEROES_LEN in
  let self := if decide (remainder <> 0) then digest_update self (take remainder ZEROES)
              else self in
  Nat.iter quotient (fun self => digest_update self ZEROES) self.

(** [None] is the panic of [checked_sub(..).unwrap()]. *)
Definition update_padded (self : D) (data : bytes) (padded_size : nat) : option D :=
  let self := digest_update self data in
  if decide (length data <= padded_size)
  then Some (update_zeroes self (padded_size - length data))
  else None.

Definition salt_to_digest (salt : bytes) : option D :=
  foldl (fun d chunk => d ← d; update_padded d chunk BlockSize)
    (Some digest_new) (chunks BlockSize salt).
End InnerHashOps.

(** ** [FsVerityConfig] *)

Record FsVerityConfig `{InnerHash} := mkConfig {
  block_size : nat;
  salt : bytes;
  salted_digest : D;
}.
Arguments mkConfig {_}.
Arguments block_size {_}.
Arguments salt {_}.
Arguments salted_digest {_}.

(** [usize::is_power_of_two]. *)
Definition is_power_of_two (n : nat) : bool := bool_decide (0 < n) && bool_decide (n = 2 ^ Nat.log2 n).

Section FsVerityConfig.
Context `{InnerHash}.

(** [FsVerityConfig::new]; [None] is a failed [assert!]. *)
Definition config_new (block_size : nat) (salt : bytes) : option (FsVerityConfig) :=
  guard (length salt <= MAX_SALT_SIZE);;
  guard (is_power_of_two block_size = true);;
  guard (OutputSize * 2 <= block_size);;
  guard (OutputSize <= MAX_DIGEST_SIZE);;
  salted_digest ← salt_to_digest salt;
  Some (mkConfig block_size salt salted_digest).

Definition inner_hash_algorithm (_ : FsVerityConfig) : InnerHashAlgorithm :=
  INNER_HASH_ALGORITHM.
End FsVerityConfig.

(** ** [FixedSizeBlock] *)

Record FixedSizeBlock `{InnerHash} := mkBlock {
  inner : D;
  remaining : nat;
}.
Arguments mkBlock {_}.
Arguments inner {_}.
Arguments remaining {_}.

Section FixedSizeBlock.
Context `{InnerHash}.

Definition block_new (config : FsVerityConfig) : FixedSizeBlock :=
  mkBlock (salted_digest config) (block_size config).

(** Panics when the data does not fit. *)
Definition append (self : FixedSizeBlock) (data : bytes) : option (FixedSizeBlock) :=
  let inner := digest_update (inner self) data in
  if decide (length data <= remaining self)
  then Some (mkBlock inner (remaining self - length data))
  else None.

Definition fill_to_end (self : FixedSizeBlock) : FixedSizeBlock :=
  mkBlock (update_zeroes (inner self) (remaining self)) 0.

(** The updated block and the data that does not fit. *)
Definition overflowing_append (self : FixedSizeBlock) (data : bytes)
  : option (FixedSizeBlock * bytes) :=
  let n := remaining self `min` length data in
  self ← append self (take n data);
  Some (self, drop n data).

Definition block_finalize_into (self : FixedSizeBlock) : bytes :=
  digest_finalize (inner (fill_to_end self)).

(** The digest written to [dest] and the reset block. *)
Definition finalize_into_and_reset (self : FixedSizeBlock) (config : FsVerityConfig)
  : bytes * FixedSizeBlock :=
  let self := fill_to_end self in
  (digest_finalize (inner self), block_new config).
End FixedSizeBlock.

(** ** What the hash states have absorbed *)

Section Absorbed.
Context `{InnerHashSpec}.

(** [absorbed d m]: the state [d] is reached from the initial one by feeding
    it the message [m] in some pieces. *)
Definition absorbed (d : D) (m : bytes) : Prop :=
  exists cs, d = foldl digest_update digest_new cs /\ concat cs = m.

Lemma absorbed_new : absorbed digest_new [].
Proof. by exists []. Qed.

Lemma absorbed_update d m data : absorbed d m -> absorbed (digest_update d data) (m ++ data).
Proof.
  intros (cs & -> & <-). exists (cs ++ [data]).
  rewrite foldl_app, concat_app. simpl. by rewrite app_nil_r.
Qed.

Lemma absorbed_finalize d m : absorbed d m -> digest_finalize d = hash m.
Proof. intros (cs & -> & <-). apply digest_pieces. Qed.

Lemma hash_length m : length (hash m) = OutputSize.
Proof. apply digest_finalize_length. Qed.

Lemma output_size_pos : 0 < OutputSize.
Proof. destruct output_size_pow2 as [k ->]. apply Nat.neq_0_lt_0, Nat.pow_nonzero. lia. Qed.

Lemma absorbed_iter_zeroes q d m :
  absorbed d m ->
  absorbed (Nat.iter q (fun d => digest_update d ZEROES) d) (m ++ zeros (q * ZEROES_LEN)).
Proof.
  induction q as [|q IH]; intros Hd; [by rewrite app_nil_r|].
  rewrite Nat.mul_succ_l, zeros_app, app_assoc. apply absorbed_update, IH, Hd.
Qed.

Lemma absorbed_update_zeroes d m n : absorbed d m -> absorbed (update_zeroes d n) (m ++ zeros n).
Proof.
  intros Hd. unfold update_zeroes.
  pose proof (Nat.div_mod_eq n ZEROES_LEN) as E.
  set (q := n / ZEROES_LEN) in *. set (r := n mod ZEROES_LEN) in *.
  replace n with (r + q * ZEROES_LEN) at 1 by lia.
  rewrite zeros_app, app_assoc. apply absorbed_iter_zeroes.
  destruct (decide (r <> 0)) as [Hr|Hr].
  - assert (take r ZEROES = zeros r) as ->.
    { unfold ZEROES, zeros. rewrite take_replicate. f_equal.
      pose proof (Nat.mod_upper_bound n ZEROES_LEN ltac:(done)). unfold r. lia. }
    by apply absorbed_update.
  - assert (r = 0) as -> by lia. by rewrite app_nil_r.
Qed.

Lemma update_padded_spec d m data n :
  length data <= n -> absorbed d m ->
  exists d', update_padded d data n = Some d' /\ absorbed d' (m ++ pad_to n data).
Proof.
  intros Hn Hd. unfold update_padded, pad_to. rewrite decide_True by done.
  eexists; split; [done|]. rewrite app_assoc.
  by apply absorbed_update_zeroes, absorbed_update.
Qed.

Lemma update_padded_panics d data n : n < length data -> update_padded d data n = None.
Proof. intros. unfold update_padded. by rewrite decide_False by lia. Qed.

(** The salt, zero-padded to a multiple of the hash input block size. *)
Definition salt_prefix (salt : bytes) : bytes :=
  concat (map (pad_to BlockSize) (chunks BlockSize salt)).

Lemma salt_to_digest_spec salt0 :
  exists d, salt_to_digest salt0 = Some d /\ absorbed d (salt_prefix salt0).
Proof.
  unfold salt_to_digest, salt_prefix.
  pose proof (chunks_Forall_le BlockSize salt0 block_size_pos) as Hc.
  enough (forall d m, absorbed d m -> exists d',
    foldl (fun d chunk => d ← d; update_padded d chunk BlockSize) (Some d)
      (chunks BlockSize salt0) = Some d' /\
    absorbed d' (m ++ concat (map (pad_to BlockSize) (chunks BlockSize salt0)))) as G
    by apply (G _ [] absorbed_new).
  induction Hc as [|c cs Hc _ IH]; intros d m Hd; simpl; [exists d; by rewrite app_nil_r|].
  destruct (update_padded_spec d m c BlockSize ltac:(lia) Hd) as (d' & -> & Hd').
  rewrite app_assoc. by apply IH.
Qed.

Lemma salt_prefix_nil : salt_prefix [] = [].
Proof. done. Qed.
End Absorbed.

(** ** Well-formed configurations *)

Section WellFormedConfig.
Context `{InnerHashSpec}.

(** What [config_new] establishes. *)
Record config_wf (c : FsVerityConfig) : Prop := {
  cw_salt : length (salt c) <= MAX_SALT_SIZE;
  cw_pow2 : exists k, block_size c = 2 ^ k;
  cw_min : OutputSize * 2 <= block_size c;
  cw_digest : absorbed (salted_digest c) (salt_prefix (salt c));
}.

Lemma is_power_of_two_spec n : is_power_of_two n = true <-> exists k, n = 2 ^ k.
Proof.
  unfold is_power_of_two. rewrite andb_true_iff, !bool_decide_eq_true. split.
  - intros [_ ?]. eauto.
  - intros [k ->]. rewrite Nat.log2_pow2 by lia. split; [|done].
    apply Nat.neq_0_lt_0, Nat.pow_nonzero. lia.
Qed.

Lemma config_new_wf bs sl c :
  config_new bs sl = Some c ->
  config_wf c /\ block_size c = bs /\ salt c = sl.
Proof.
  unfold config_new. intros E.
  destruct (salt_to_digest_spec sl) as (d & Ed & Hd). rewrite Ed in E.
  simplify_option_eq.
  split; [|done]. constructor; simpl; auto. by apply is_power_of_two_spec.
Qed.

Lemma config_new_some bs sl :
  length sl <= MAX_SALT_SIZE -> (exists k, bs = 2 ^ k) -> OutputSize * 2 <= bs ->
  exists c, config_new bs sl = Some c /\ config_wf c /\ block_size c = bs /\ salt c = sl.
Proof.
  intros Hs Hp Hm. destruct (salt_to_digest_spec sl) as (d & Ed & Hd).
  apply is_power_of_two_spec in Hp as Hp'.
  exists (mkConfig bs sl d). split; [|split; [by constructor|done]].
  unfold config_new. rewrite Ed.
  rewrite !option_guard_True by (done || apply output_size_max). done.
Qed.

(** The "compression factor": digests per block. *)
Definition compression_factor (c : FsVerityConfig) : nat := block_size c / OutputSize.

Lemma block_size_factor c :
  config_wf c -> block_size c = compression_factor c * OutputSize.
Proof.
  intros [_ [k Hk] Hm _]. unfold compression_factor.
  destruct output_size_pow2 as [j Hj]. rewrite Hk, Hj in *.
  assert (j <= k).
  { destruct (decide (j <= k)); [done|]. exfalso.
    pose proof (Nat.pow_le_mono_r 2 k j ltac:(lia) ltac:(lia)).
    pose proof (Nat.pow_nonzero 2 j ltac:(lia)). lia. }
  replace k with (k - j + j) by lia. rewrite Nat.pow_add_r, Nat.div_mul; [done|].
  apply Nat.pow_nonzero. lia.
Qed.

Lemma compression_factor_ge_2 c : config_wf c -> 2 <= compression_factor c.
Proof.
  intros Hc. pose proof (block_size_factor c Hc). pose proof (cw_min c Hc).
  pose proof output_size_pos. nia.
Qed.
End WellFormedConfig.
