(* ===== verification/Descriptor.v ===== *)
(** * The fs-verity descriptor

    [verity-core/src/descriptor.rs]: the descriptor of a file (hash algorithm,
    block size, file size, root hash and salt) and its salted hash, the
    "verity measurement" that identifies the file.  The bytes that are hashed
    are laid out as the kernel's [struct fsverity_descriptor]; the layout is
    injective, so a measurement binds every field. *)

From stdpp Require Import base list numbers option.
From Stdlib Require Import ZArith Lia.
From S2P Require Import Prelude Slices InnerHash.

Record FsVerityDescriptor := mkDescriptor {
  version : Z;
  hash_algorithm : Z;
  log_blocksize : Z;
  data_size : Z;
  root_hash : bytes;
  desc_salt : bytes;
}.

(** [1 << self.log_blocksize]: the shift distance of a 64-bit integer is taken
    modulo 64 when overflow is not checked. *)
Definition descriptor_block_size (self : FsVerityDescriptor) : Z :=
  wrap64 (Z.shiftl 1 (log_blocksize self mod 64)).

Section Descriptor.
Context `{InnerHash}.

(** [None] is the panic of an [update_padded] whose data does not fit. *)
Definition to_descriptor_hash (self : FsVerityDescriptor) : option bytes :=
  digest ← salt_to_digest (desc_salt self);
  let digest := digest_update digest [byte_of_Z (version self)] in
  let digest := digest_update digest [byte_of_Z (hash_algorithm self)] in
  let digest := digest_update digest [byte_of_Z (log_blocksize self)] in
  let digest := digest_update digest [byte_of_Z (Z.of_nat (length (desc_salt self)))] in
  let digest := update_zeroes digest 4 in
  let digest := digest_update digest (to_le_bytes 8 (data_size self)) in
  digest ← update_padded digest (root_hash self) 64;
  digest ← update_padded digest (desc_salt self) 32;
  let digest := update_zeroes digest 144 in
  Some (digest_finalize digest).
End Descriptor.

(** The hashed bytes, [struct fsverity_descriptor]: [version],
    [hash_algorithm], [log_blocksize], [salt_size], [__reserved_0x04],
    [data_size], [root_hash], [salt], [__reserved]. *)
Definition descriptor_bytes (d : FsVerityDescriptor) : bytes :=
  [byte_of_Z (version d)] ++ [byte_of_Z (hash_algorithm d)] ++
  [byte_of_Z (log_blocksize d)] ++ [byte_of_Z (Z.of_nat (length (desc_salt d)))] ++
  zeros 4 ++ to_le_bytes 8 (data_size d) ++ pad_to 64 (root_hash d) ++
  pad_to 32 (desc_salt d) ++ zeros 144.

(** The values a descriptor's fields can have: [u8] and [u64] integers, a root
    hash of [n] bytes and a salt within the kernel's limit. *)
Record descriptor_wf (n : nat) (d : FsVerityDescriptor) : Prop := {
  dw_version : (0 <= version d < 256)%Z;
  dw_algorithm : (0 <= hash_algorithm d < 256)%Z;
  dw_log : (0 <= log_blocksize d < 256)%Z;
  dw_size : (0 <= data_size d < u64_modulus)%Z;
  dw_root : length (root_hash d) = n;
  dw_salt : length (desc_salt d) <= MAX_SALT_SIZE;
}.

Lemma byte_of_Z_inj a b :
  (0 <= a < 256)%Z -> (0 <= b < 256)%Z -> byte_of_Z a = byte_of_Z b -> a = b.
Proof.
  intros Ha Hb E%(f_equal Z_of_byte). rewrite !Z_of_byte_of_Z in E.
  by rewrite !Z.mod_small in E.
Qed.

Lemma descriptor_bytes_length n d :
  n <= MAX_DIGEST_SIZE -> descriptor_wf n d -> length (descriptor_bytes d) = 256.
Proof.
  intros Hn [_ _ _ _ Hr Hs]. unfold MAX_DIGEST_SIZE, MAX_SALT_SIZE, descriptor_bytes in *.
  rewrite !length_app, !pad_to_length, !zeros_length, to_le_bytes_length by lia.
  done.
Qed.

Lemma descriptor_bytes_inj n d1 d2 :
  n <= MAX_DIGEST_SIZE -> descriptor_wf n d1 -> descriptor_wf n d2 ->
  descriptor_bytes d1 = descriptor_bytes d2 -> d1 = d2.
Proof.
  intros Hn [V1 A1 L1 S1 R1 T1] [V2 A2 L2 S2 R2 T2] E.
  unfold MAX_DIGEST_SIZE, MAX_SALT_SIZE, descriptor_bytes in *.
  apply app_inj_1 in E as [[= Ev] E]; [|done].
  apply app_inj_1 in E as [[= Ea] E]; [|done].
  apply app_inj_1 in E as [[= El] E]; [|done].
  apply app_inj_1 in E as [[= Es] E]; [|done].
  apply app_inj_1 in E as [_ E]; [|done].
  apply app_inj_1 in E as [Ed E]; [|by rewrite !to_le_bytes_length].
  apply app_inj_1 in E as [Er E]; [|by rewrite !pad_to_length by lia].
  apply app_inj_1 in E as [Et _]; [|by rewrite !pad_to_length by lia].
  apply byte_of_Z_inj in Ev, Ea, El, Es; [|lia..].
  apply pad_to_inj in Er; [|lia]. apply pad_to_inj in Et; [|lia].
  apply to_le_bytes_inj in Ed; [|done..].
  destruct d1, d2; simpl in *; congruence.
Qed.

Section Measurement.
Context `{InnerHashSpec}.

(** The code hashes exactly [descriptor_bytes], after the salt. *)
Lemma to_descriptor_hash_spec d :
  descriptor_wf OutputSize d ->
  to_descriptor_hash d = Some (hash (salt_prefix (desc_salt d) ++ descriptor_bytes d)).
Proof.
  intros [_ _ _ _ Hr Hs]. pose proof output_size_max as Hmax.
  unfold MAX_DIGEST_SIZE, MAX_SALT_SIZE in *.
  unfold to_descriptor_hash, descriptor_bytes.
  destruct (salt_to_digest_spec (desc_salt d)) as (d0 & -> & Hd0). simpl.
  set (dg := update_zeroes (digest_update _ [byte_of_Z (Z.of_nat _)]) 4).
  assert (absorbed dg (salt_prefix (desc_salt d) ++ [byte_of_Z (version d)] ++
    [byte_of_Z (hash_algorithm d)] ++ [byte_of_Z (log_blocksize d)] ++
    [byte_of_Z (Z.of_nat (length (desc_salt d)))] ++ zeros 4)) as Hdg.
  { rewrite !app_assoc. unfold dg. by apply absorbed_update_zeroes, absorbed_update, absorbed_update,
      absorbed_update, absorbed_update. }
  eapply absorbed_update in Hdg.
  destruct (update_padded_spec _ _ (root_hash d) 64 ltac:(lia) Hdg) as (d1 & E1 & Hd1).
  rewrite E1. simpl.
  destruct (update_padded_spec _ _ (desc_salt d) 32 Hs Hd1) as (d2 & E2 & Hd2).
  rewrite E2. simpl. f_equal.
  erewrite absorbed_finalize by by apply absorbed_update_zeroes.
  f_equal. by rewrite <- !app_assoc.
Qed.

(** Two descriptors with the same measurement are equal, or the two
    hashed messages are a collision. *)
Lemma measurement_binds d1 d2 m :
  descriptor_wf OutputSize d1 -> descriptor_wf OutputSize d2 ->
  to_descriptor_hash d1 = Some m -> to_descriptor_hash d2 = Some m ->
  d1 = d2 \/
  (let x := salt_prefix (desc_salt d1) ++ descriptor_bytes d1 in
   let y := salt_prefix (desc_salt d2) ++ descriptor_bytes d2 in
   x <> y /\ hash x = hash y).
Proof.
  intros W1 W2 E1 E2. rewrite to_descriptor_hash_spec in E1, E2 by done.
  destruct (decide (descriptor_bytes d1 = descriptor_bytes d2)) as [E|E].
  - left. by eapply descriptor_bytes_inj; [apply output_size_max|..].
  - right. split; [|congruence]. intros [_ Ex]%app_inj_2; [done|].
    pose proof output_size_max. by rewrite !(descriptor_bytes_length OutputSize).
Qed.
End Measurement.
