(* ===== verification/VerityDigest.v ===== *)
(** * The streaming fs-verity digest

    The rest of [verity-core/src/digest.rs]: [FsVerityDigest], which computes
    the fs-verity Merkle tree of a stream of writes while keeping one hash
    state per tree level, its [Update], [FixedOutput], [Reset] and [Write]
    implementations and the constructors that choose the algorithm at run
    time.  [MerkleSpec] gives the tree it is meant to compute. *)

From stdpp Require Import base list numbers option.
From Stdlib Require Import ZArith Lia.
From S2P Require Import Prelude Slices InnerHash Descriptor.

(** [MerkleTree<D>] of tree.rs: the level-1 hashes. *)
Definition MerkleTree : Type := list bytes.

Definition append_level_1_hash (self : MerkleTree) (h : bytes) : MerkleTree := self ++ [h].

Record FsVerityDigest `{InnerHash} := mkDigest {
  config : FsVerityConfig;
  levels : list FixedSizeBlock;
  merkle_tree : MerkleTree;
}.
Arguments mkDigest {_}.
Arguments config {_}.
Arguments levels {_}.
Arguments merkle_tree {_}.

(** [usize::trailing_zeros]. *)
Fixpoint ctz (p : positive) : Z :=
  match p with
  | xO p => 1 + ctz p
  | _ => 0
  end.

Definition trailing_zeros (n : nat) : Z :=
  match Z.of_nat n with
  | Zpos p => ctz p
  | _ => 64
  end.

Section FsVerityDigest.
Context `{InnerHash}.

(** [None] is a panic throughout. *)
Definition new_with_salt_and_block_size (salt : bytes) (block_size : nat)
  : option FsVerityDigest :=
  config ← config_new block_size salt;
  Some (mkDigest config [] []).

Definition new_with_salt (salt : bytes) : option FsVerityDigest :=
  new_with_salt_and_block_size salt DEFAULT_BLOCK_SIZE.

Definition digest_new_empty_salt : option FsVerityDigest := new_with_salt [].

(** The loop over [self.levels.iter_mut().enumerate()] for one chunk: the
    levels, the data that still has to go to a new top level, and the
    recorded tree. *)
Fixpoint append_to_levels (config : FsVerityConfig) (level_index : nat)
    (keep_space_for_one_digest : bool) (overflow : bytes)
    (levels : list FixedSizeBlock) (tree : MerkleTree)
  : option (list FixedSizeBlock * bytes * MerkleTree) :=
  match levels with
  | [] => Some ([], overflow, tree)
  | level :: rest =>
    '(level, overflow) ← overflowing_append level overflow;
    let flush :=
      let '(tmp, level) := finalize_into_and_reset level config in
      level ← append level overflow;
      let tree := if decide (level_index = 0) then append_level_1_hash tree tmp else tree in
      '(rest, overflow, tree) ← append_to_levels config (S level_index) true tmp rest tree;
      Some (level :: rest, overflow, tree) in
    if keep_space_for_one_digest then
      if decide (OutputSize <= remaining level) then
        guard (overflow = []);; Some (level :: rest, overflow, tree)
      else flush
    else
      if decide (overflow = []) then Some (level :: rest, overflow, tree)
      else flush
  end.

(** One iteration of the loop over the chunks of the input. *)
Definition update_chunk (self : FsVerityDigest) (chunk : bytes) : option FsVerityDigest :=
  '(levels, overflow, tree) ←
    append_to_levels (config self) 0 false chunk (levels self) (merkle_tree self);
  if decide (overflow = []) then Some (mkDigest (config self) levels tree)
  else
    guard (length levels < MAX_LEVELS);;
    level ← append (block_new (config self)) overflow;
    Some (mkDigest (config self) (levels ++ [level]) tree).

Definition update (self : FsVerityDigest) (data : bytes) : option FsVerityDigest :=
  foldl (fun self chunk => self ← self; update_chunk self chunk) (Some self)
    (chunks (block_size (config self)) data).

(** The loop of [finalize_into_fs_verity_stuffs]: flush every level into the
    next; [total_size] and [scale] are [usize]. *)
Fixpoint flush_levels (config : FsVerityConfig) (level_index : nat)
    (total_size scale : Z) (last_digest overflow : bytes)
    (levels : list FixedSizeBlock) (tree : MerkleTree) : option (Z * bytes * MerkleTree) :=
  match levels with
  | [] => Some (total_size, last_digest, tree)
  | level :: rest =>
    let total_size :=
      wrap64 (total_size +
        wrap64 (scale * (Z.of_nat (block_size config) - Z.of_nat (remaining level)))) in
    level ← append level overflow;
    let last_digest := block_finalize_into level in
    let tree :=
      if decide (level_index = 0) then append_level_1_hash tree last_digest else tree in
    flush_levels config (S level_index) total_size
      (wrap64 (scale * Z.of_nat (block_size config / OutputSize)))
      last_digest last_digest rest tree
  end.

Definition finalize_into_fs_verity_stuffs (self : FsVerityDigest)
  : option (FsVerityDescriptor * MerkleTree) :=
  '(total_size, last_digest, tree) ←
    flush_levels (config self) 0 0 1 (zeros OutputSize) [] (levels self) (merkle_tree self);
  Some ({| version := 1;
           hash_algorithm := algorithm_as_u8 (inner_hash_algorithm (config self));
           log_blocksize := trailing_zeros (block_size (config self)) mod 256;
           data_size := total_size;
           root_hash := last_digest;
           desc_salt := salt (config self) |}, tree).

(** [FixedOutput::finalize_into]. *)
Definition finalize_into (self : FsVerityDigest) : option bytes :=
  '(descriptor, _) ← finalize_into_fs_verity_stuffs self;
  to_descriptor_hash descriptor.

Definition reset (self : FsVerityDigest) : option FsVerityDigest :=
  new_with_salt_and_block_size (salt (config self)) (block_size (config self)).

(** The output and the reset digest. *)
Definition finalize_into_reset (self : FsVerityDigest) : option (bytes * FsVerityDigest) :=
  new ← new_with_salt_and_block_size (salt (config self)) (block_size (config self));
  out ← finalize_into self;
  Some (out, new).

(** [Write::write]: the new state and the number of bytes accepted. *)
Definition write (self : FsVerityDigest) (buf : bytes) : option (FsVerityDigest * nat) :=
  self ← update self buf;
  Some (self, length buf).
End FsVerityDigest.

(** ** Choosing the algorithm at run time *)

(** [Box<dyn DynFsVerityDigest>]: a digest together with its hash function. *)
Inductive DynFsVerityDigest : Type :=
| BoxDigest (h : InnerHash) (self : FsVerityDigest).

Section Dyn.
(** The [sha2] implementations. *)
Variables (sha256 sha512 : InnerHash).

Definition dyn_hash (inner_hash : InnerHashAlgorithm) : InnerHash :=
  match inner_hash with
  | Sha256 => sha256
  | Sha512 => sha512
  end.

Definition new_dyn_with_salt_and_block_size (inner_hash : InnerHashAlgorithm)
    (salt : bytes) (block_size : nat) : option DynFsVerityDigest :=
  match inner_hash with
  | Sha256 => d ← @new_with_salt_and_block_size sha256 salt block_size; Some (BoxDigest sha256 d)
  | Sha512 => d ← @new_with_salt_and_block_size sha512 salt block_size; Some (BoxDigest sha512 d)
  end.

Definition new_dyn_with_salt (inner_hash : InnerHashAlgorithm) (salt : bytes)
  : option DynFsVerityDigest :=
  match inner_hash with
  | Sha256 => d ← @new_with_salt sha256 salt; Some (BoxDigest sha256 d)
  | Sha512 => d ← @new_with_salt sha512 salt; Some (BoxDigest sha512 d)
  end.

Definition new_dyn (inner_hash : InnerHashAlgorithm) : option DynFsVerityDigest :=
  match inner_hash with
  | Sha256 => d ← @digest_new_empty_salt sha256; Some (BoxDigest sha256 d)
  | Sha512 => d ← @digest_new_empty_salt sha512; Some (BoxDigest sha512 d)
  end.
End Dyn.
