(* ===== verification/MerkleSpec.v ===== *)
(** * The fs-verity Merkle tree, and the streaming digest refines it

    The reference definition follows the kernel's documentation of fs-verity:
    the file is cut into blocks, each block is hashed (salted, the last one
    zero padded), the hashes are packed into blocks again, and so on until one
    hash is left; an empty file has an all-zero root.  The streaming
    [FsVerityDigest] keeps one hash state per level and computes the same
    tree, however the data is split into writes. *)

From stdpp Require Import base list numbers option.
From Stdlib Require Import ZArith Lia.
From S2P Require Import Prelude Slices InnerHash Descriptor VerityDigest.

(** ** Reference tree *)

Section Reference.
Context `{InnerHash}.
Implicit Types (c : FsVerityConfig) (hs : list bytes).

(** The salted hash of one zero-padded block. *)
Definition block_hash c (block : bytes) : bytes :=
  hash (salt_prefix (salt c) ++ pad_to (block_size c) block).

(** The hash of one tree block: the digests it holds, concatenated. *)
Definition group_hash c (group : list bytes) : bytes := block_hash c (concat group).

(** The hashes one level up. *)
Definition next_level c hs : list bytes :=
  map (group_hash c) (chunks (compression_factor c) hs).

Fixpoint root_of_aux (fuel : nat) c hs : bytes :=
  match hs with
  | [] => zeros OutputSize
  | [h] => h
  | _ => match fuel with
         | O => []
         | S fuel => root_of_aux fuel c (next_level c hs)
         end
  end.

(** Every level is shorter than the one below, so [length hs] levels are
    enough. *)
Definition root_of c hs : bytes := root_of_aux (length hs) c hs.

(** The level-1 hashes of a file and its Merkle root. *)
Definition level1 c (data : bytes) : list bytes :=
  map (block_hash c) (chunks (block_size c) data).

Definition merkle_root c (data : bytes) : bytes := root_of c (level1 c data).

(** The descriptor of a file. *)
Definition descriptor_of c (data : bytes) : FsVerityDescriptor :=
  {| version := 1;
     hash_algorithm := algorithm_as_u8 INNER_HASH_ALGORITHM;
     log_blocksize := Z.of_nat (Nat.log2 (block_size c)) mod 256;
     data_size := wrap64 (Z.of_nat (length data));
     root_hash := merkle_root c data;
     desc_salt := salt c |}.

(** The largest file [MAX_LEVELS] levels can hold. *)
Definition max_data_size c : nat :=
  block_size c * compression_factor c ^ (MAX_LEVELS - 1).
End Reference.

(** ** [chunks] and levels *)

Lemma length_chunks_pred {A} n (l : list A) :
  0 < n -> l <> [] -> n * (length (chunks n l) - 1) < length l.
Proof.
  intros Hn Hl.
  destruct (chunks_decompose n l) as (full & last & -> & Hf & Hlast); [done..|].
  rewrite chunks_concat_app, chunks_small by (done || lia || by destruct last; simpl in *; [lia|]).
  rewrite !length_app, (length_concat_full n full Hf). simpl. nia.
Qed.

Lemma length_chunks_lt {A} n (l : list A) :
  2 <= n -> 2 <= length l -> length (chunks n l) < length l.
Proof.
  intros Hn Hl. pose proof (length_chunks_pred n l ltac:(lia)) as Hp.
  destruct l as [|x l]; [simpl in *; lia|]. specialize (Hp ltac:(done)). nia.
Qed.

Lemma ctz_pow2 k : ctz (Pos.pow 2 (Pos.of_nat (S k))) = Z.of_nat (S k).
Proof.
  induction k as [|k IH]; [done|].
  rewrite Nat2Pos.inj_succ, Pos.pow_succ_r by done.
  change (2 * ?p)%positive with (xO p). cbn [ctz]. rewrite IH. lia.
Qed.

Lemma trailing_zeros_pow2 k : trailing_zeros (2 ^ k) = Z.of_nat k.
Proof.
  unfold trailing_zeros. rewrite Nat2Z.inj_pow. destruct k as [|k]; [done|].
  replace (Z.of_nat 2 ^ Z.of_nat (S k))%Z with (Zpos (Pos.pow 2 (Pos.of_nat (S k)))).
  - apply ctz_pow2.
  - rewrite Pos2Z.inj_pow. f_equal. lia.
Qed.

Lemma blocks_bound f bs l n : 0 < l <= bs -> f * bs + l <= bs * n <-> f < n.
Proof. intros Hl. split; intros Hn; nia. Qed.

(** ** The representation invariant *)

Section Representation.
Context `{InnerHashSpec}.
Context (c : FsVerityConfig) (Hc : config_wf c).
Implicit Types (hs : list bytes) (lv : FixedSizeBlock).

(** One level holds [m]: its hash state absorbed the salt and [m], and there
    is room for the rest of the block. *)
Definition holds lv (m : bytes) : Prop :=
  absorbed (inner lv) (salt_prefix (salt c) ++ m) /\
  remaining lv + length m = block_size c.

(** The levels above level 0 represent the hashes that came from below: each
    level holds the digests of its unfinished block, the finished blocks
    have been hashed into the levels above. *)
Inductive rep_up : list bytes -> list FixedSizeBlock -> Prop :=
| rep_up_nil : rep_up [] []
| rep_up_cons full part lv rest :
    Forall (fun g => length g = compression_factor c) full ->
    Forall (fun h => length h = OutputSize) part ->
    length part < compression_factor c ->
    concat full ++ part <> [] ->
    holds lv (concat part) ->
    rep_up (map (group_hash c) full) rest ->
    rep_up (concat full ++ part) (lv :: rest).

(** The state after writing [data]. *)
Inductive rep : bytes -> FsVerityDigest -> Prop :=
| rep_empty : rep [] (mkDigest c [] [])
| rep_data full last lv0 ups :
    Forall (fun b => length b = block_size c) full ->
    0 < length last <= block_size c ->
    holds lv0 last ->
    rep_up (map (block_hash c) full) ups ->
    rep (concat full ++ last) (mkDigest c (lv0 :: ups) (map (block_hash c) full)).

Lemma cf_pos : 2 <= compression_factor c.
Proof. by apply compression_factor_ge_2. Qed.

Lemma block_size_pos' : 0 < block_size c.
Proof. pose proof cw_min c Hc. pose proof output_size_pos. lia. Qed.

Lemma block_hash_length b : length (block_hash c b) = OutputSize.
Proof. apply hash_length. Qed.

Lemma holds_new : holds (block_new c) [].
Proof.
  split; simpl; [|lia]. rewrite app_nil_r. by apply cw_digest.
Qed.

Lemma holds_append lv m data :
  holds lv m -> length m + length data <= block_size c ->
  exists lv', append lv data = Some lv' /\ holds lv' (m ++ data).
Proof.
  intros [Ha Hr] Hl. unfold append. rewrite decide_True by lia.
  eexists; split; [done|]. split; simpl.
  - rewrite app_assoc. by apply absorbed_update.
  - rewrite length_app. lia.
Qed.

Lemma holds_finalize lv m : holds lv m -> block_finalize_into lv = block_hash c m.
Proof.
  intros [Ha Hr]. unfold block_finalize_into, block_hash, pad_to. simpl.
  apply absorbed_finalize. rewrite app_assoc.
  replace (block_size c - length m) with (remaining lv) by lia.
  by apply absorbed_update_zeroes.
Qed.

Lemma holds_overflowing_append lv m data :
  holds lv m ->
  exists lv', overflowing_append lv data =
    Some (lv', drop (block_size c - length m) data) /\
    holds lv' (m ++ take (block_size c - length m) data).
Proof.
  intros Hh. pose proof Hh as [_ Hr]. unfold overflowing_append.
  replace (block_size c - length m) with (remaining lv) by lia.
  assert (take (remaining lv `min` length data) data = take (remaining lv) data) as ->.
  { destruct (decide (remaining lv <= length data)).
    - by rewrite Nat.min_l.
    - rewrite Nat.min_r by lia. by rewrite !take_ge by lia. }
  destruct (holds_append lv m (take (remaining lv) data) Hh) as (lv' & -> & Hlv').
  { rewrite length_take. lia. }
  simpl. exists lv'. split; [|done]. do 2 f_equal.
  destruct (decide (remaining lv <= length data)).
  - by rewrite Nat.min_l.
  - rewrite Nat.min_r by lia. by rewrite !drop_ge by lia.
Qed.

Lemma length_concat_digests (part : list bytes) :
  Forall (fun h => length h = OutputSize) part ->
  length (concat part) = length part * OutputSize.
Proof. apply length_concat_full. Qed.

Lemma block_size_cf : block_size c = compression_factor c * OutputSize.
Proof. by apply block_size_factor. Qed.

Lemma block_finalize_reset lv m :
  holds lv m -> finalize_into_and_reset lv c = (block_hash c m, block_new c).
Proof.
  intros Hh. unfold finalize_into_and_reset. f_equal.
  change (digest_finalize _) with (block_finalize_into lv). by apply holds_finalize.
Qed.

(** The data left for a new top level is nothing, or one digest which
    completes the representation. *)
Definition pending hs (ups : list FixedSizeBlock) (overflow : bytes) : Prop :=
  (overflow = [] /\ rep_up hs ups) \/
  (length overflow = OutputSize /\
   forall lv, holds lv overflow -> rep_up hs (ups ++ [lv])).

(** A level whose block is complete moves it up and starts over. *)
Lemma rep_up_flush full part h lv rest :
  Forall (fun g => length g = compression_factor c) full ->
  length (part ++ [h]) = compression_factor c ->
  holds lv [] ->
  rep_up (map (group_hash c) full ++ [block_hash c (concat (part ++ [h]))]) rest ->
  rep_up ((concat full ++ part) ++ [h]) (lv :: rest).
Proof.
  intros Hfull Hcf Hlv Hr.
  replace ((concat full ++ part) ++ [h]) with (concat (full ++ [part ++ [h]]) ++ [])
    by (rewrite concat_app; simpl; by rewrite !app_nil_r, app_assoc).
  apply rep_up_cons; auto.
  - by apply Forall_app_2; [|constructor].
  - simpl. pose proof cf_pos. lia.
  - rewrite concat_app. simpl. by destruct (concat full), part.
  - by rewrite map_app.
Qed.

(** A digest from below is added to the hierarchy. *)
Lemma append_to_upper_levels i hs ups h tree :
  rep_up hs ups -> length h = OutputSize ->
  exists ups' overflow,
    append_to_levels c (S i) true h ups tree = Some (ups', overflow, tree) /\
    length ups' = length ups /\ pending (hs ++ [h]) ups' overflow.
Proof.
  intros Hrep. revert i h tree.
  induction Hrep as [|full part lv rest Hfull Hpart Hlt Hne Hlv Hrep IH]; intros i h tree Hh.
  { exists [], h. do 2 (split; [done|]). right. split; [done|]. intros lv Hlv.
    apply (rep_up_cons [] [h] lv []); simpl; auto using rep_up_nil.
    - pose proof cf_pos. lia.
    - by rewrite app_nil_r. }
  pose proof block_size_cf as Hbs. pose proof output_size_pos as Hout.
  pose proof (length_concat_digests part Hpart) as Hlen.
  destruct (holds_overflowing_append lv (concat part) h Hlv) as (lv' & E & Hlv').
  cbn [append_to_levels]. rewrite E. cbn [mbind option_bind].
  rewrite drop_ge by nia. rewrite take_ge in Hlv' by nia.
  assert (concat part ++ h = concat (part ++ [h])) as Ecat
    by (rewrite concat_app; simpl; by rewrite app_nil_r).
  pose proof Hlv' as [_ Hrem]. rewrite length_app in Hrem.
  assert (Forall (fun x => length x = OutputSize) (part ++ [h])) as Hpart'
    by (apply Forall_app_2; auto).
  destruct (decide (OutputSize <= remaining lv')) as [Hroom|Hfull'].
  - exists (lv' :: rest), []. do 2 (split; [done|]). left. split; [done|].
    rewrite <- app_assoc. apply rep_up_cons; auto.
    + rewrite length_app. simpl. nia.
    + by destruct (concat full), part.
    + by rewrite <- Ecat.
  - assert (length (part ++ [h]) = compression_factor c) as Hcf
      by (rewrite length_app; simpl; nia).
    rewrite (block_finalize_reset _ _ Hlv'), Ecat.
    destruct (holds_append (block_new c) [] [] holds_new) as (lv0 & E0 & H0'); [simpl; lia|].
    rewrite E0. cbn [mbind option_bind]. rewrite decide_False by done.
    destruct (IH (S i) (block_hash c (concat (part ++ [h]))) tree) as (ups' & ov & -> & Hl & Hp);
      [apply block_hash_length|].
    cbn [mbind option_bind]. exists (lv0 :: ups'), ov. split; [done|]. split; [simpl; congruence|].
    destruct Hp as [[-> Hp]|[Hov Hp]]; [left|right]; (split; [done|]).
    + by apply rep_up_flush.
    + intros lvn Hn. apply rep_up_flush; auto.
Qed.

(** The number of levels is determined by the number of hashes below. *)
Lemma rep_up_levels hs ups :
  rep_up hs ups -> forall k, length hs < compression_factor c ^ k <-> length ups <= k.
Proof.
  induction 1 as [|full part lv rest Hfull Hpart Hlt Hne Hlv Hrep IH]; intros k; simpl.
  { split; [lia|]. intros _. apply Nat.neq_0_lt_0, Nat.pow_nonzero. pose proof cf_pos. lia. }
  rewrite length_app, (length_concat_full _ _ Hfull).
  destruct k as [|k]; simpl.
  - split; [|lia]. intros Hl. destruct Hne. destruct part; [|simpl in *; lia].
    destruct full; [done|]. pose proof cf_pos. simpl in Hl. lia.
  - specialize (IH k). rewrite length_map in IH. rewrite <- Nat.succ_le_mono, <- IH. nia.
Qed.

Lemma rep_levels data st :
  rep data st -> length (levels st) <= MAX_LEVELS <-> length data <= max_data_size c.
Proof.
  unfold max_data_size. change (MAX_LEVELS - 1) with 7. change MAX_LEVELS with 8.
  intros [|full last lv0 ups Hfull Hlast _ Hup]; cbn [levels length]; [lia|].
  rewrite length_app, (length_concat_full _ _ Hfull).
  pose proof (rep_up_levels _ _ Hup 7) as Hk. rewrite length_map in Hk.
  rewrite <- (Nat.succ_le_mono _ 7), <- Hk. symmetry. by apply blocks_bound.
Qed.

(** Level 0 is full: its block is hashed into the tree and the rest of the
    chunk starts a new block. *)
Lemma rep_flush full last a b lv us :
  Forall (fun b => length b = block_size c) full ->
  length (last ++ a) = block_size c -> 0 < length b <= block_size c -> holds lv b ->
  rep_up (map (block_hash c) full ++ [block_hash c (last ++ a)]) us ->
  rep ((concat full ++ last) ++ a ++ b)
    (mkDigest c (lv :: us) (map (block_hash c) full ++ [block_hash c (last ++ a)])).
Proof.
  intros Hfull Hl Hb Hlv.
  replace ((concat full ++ last) ++ a ++ b) with (concat (full ++ [last ++ a]) ++ b)
    by (rewrite concat_app; simpl; by rewrite app_nil_r, <- !app_assoc).
  change [block_hash c (last ++ a)] with (map (block_hash c) [last ++ a]).
  rewrite <- map_app. apply rep_data; auto.
  by apply Forall_app_2; [|constructor].
Qed.

(** Adding one chunk of input to the existing levels. *)
Lemma append_chunk data st chunk :
  rep data st -> 0 < length chunk <= block_size c ->
  exists lvs overflow tree,
    append_to_levels c 0 false chunk (levels st) (merkle_tree st) =
      Some (lvs, overflow, tree) /\
    length lvs = length (levels st) /\ length overflow <= block_size c /\
    (overflow = [] /\ rep (data ++ chunk) (mkDigest c lvs tree) \/
     overflow <> [] /\ forall lv, holds lv overflow ->
       rep (data ++ chunk) (mkDigest c (lvs ++ [lv]) tree)).
Proof.
  intros [|full last lv0 ups Hfull Hlast Hlv Hup] Hchunk;
    cbn [append_to_levels levels merkle_tree].
  { exists [], chunk, []. do 2 (split; [done|]). split; [lia|]. right.
    split; [by destruct chunk; simpl in *; [lia|]|]. intros lv Hlv.
    by apply (rep_data [] chunk lv []); [|lia| |apply rep_up_nil]. }
  destruct (holds_overflowing_append lv0 last chunk Hlv) as (lv' & -> & Hlv').
  cbn [mbind option_bind]. set (n := block_size c - length last) in *.
  destruct (decide (drop n chunk = [])) as [Hov|Hov].
  - exists (lv' :: ups), [], (map (block_hash c) full). rewrite Hov.
    do 2 (split; [done|]). split; [simpl; lia|]. left. split; [done|].
    apply (f_equal length) in Hov. rewrite length_drop in Hov. simpl in Hov.
    rewrite take_ge in Hlv' by lia. rewrite <- app_assoc.
    apply rep_data; [done| |done|done]. rewrite length_app. lia.
  - assert (n < length chunk) as Hn.
    { destruct (decide (n < length chunk)); [done|]. by rewrite drop_ge in Hov by lia. }
    rewrite (block_finalize_reset _ _ Hlv').
    destruct (holds_append (block_new c) [] (drop n chunk) holds_new) as (lv1 & -> & H1);
      [simpl; rewrite length_drop; lia|].
    cbn [mbind option_bind]. rewrite decide_True by done.
    destruct (append_to_upper_levels 0 _ ups (block_hash c (last ++ take n chunk))
      (append_level_1_hash (map (block_hash c) full) (block_hash c (last ++ take n chunk))) Hup)
      as (ups' & ov & -> & Hl & Hp); [apply block_hash_length|].
    simpl. eexists (lv1 :: ups'), ov, _. split; [done|]. split; [simpl; lia|].
    unfold append_level_1_hash.
    assert (forall us, rep_up (map (block_hash c) full ++ [block_hash c (last ++ take n chunk)]) us ->
      rep ((concat full ++ last) ++ chunk)
        (mkDigest c (lv1 :: us) (map (block_hash c) full ++ [block_hash c (last ++ take n chunk)])))
      as Hstep.
    { intros us Hus. pose proof (rep_flush full last (take n chunk) (drop n chunk) lv1 us) as Hf.
      rewrite (take_drop n chunk) in Hf.
      apply Hf; auto; rewrite ?length_app, ?length_take, ?length_drop; lia. }
    destruct Hp as [[-> Hp]|[Hov' Hp]].
    + split; [simpl; lia|]. left. auto.
    + pose proof block_size_cf. pose proof cf_pos. pose proof output_size_pos.
      split; [nia|]. right. split; [by destruct ov; simpl in *; [lia|]|].
      intros lv Hlvn. by apply Hstep, Hp.
Qed.

Lemma rep_config data st : rep data st -> config st = c.
Proof. by intros []. Qed.

Lemma update_chunk_ok data st chunk :
  rep data st -> 0 < length chunk <= block_size c ->
  length (data ++ chunk) <= max_data_size c ->
  exists st', update_chunk st chunk = Some st' /\ rep (data ++ chunk) st'.
Proof.
  intros Hrep Hchunk Hmax. unfold update_chunk. rewrite (rep_config _ _ Hrep).
  destruct (append_chunk data st chunk Hrep Hchunk) as (lvs & ov & tree & -> & Hl & Hov & Hp).
  cbn [mbind option_bind]. destruct Hp as [[-> Hp]|[Hne Hp]]; [by eauto|].
  rewrite decide_False by done.
  destruct (holds_append (block_new c) [] ov holds_new) as (lv & E & Hlv); [done|].
  pose proof (Hp lv Hlv) as Hr. apply rep_levels in Hr as Hlev.
  apply Hlev in Hmax. cbn [levels] in Hmax. rewrite length_app in Hmax. simpl in Hmax.
  rewrite option_guard_True by lia. simpl. rewrite E. simpl. eauto.
Qed.

Lemma update_chunk_panics data st chunk :
  rep data st -> 0 < length chunk <= block_size c ->
  length data <= max_data_size c -> max_data_size c < length (data ++ chunk) ->
  update_chunk st chunk = None.
Proof.
  intros Hrep Hchunk Hmax Hbig. unfold update_chunk. rewrite (rep_config _ _ Hrep).
  destruct (append_chunk data st chunk Hrep Hchunk) as (lvs & ov & tree & -> & Hl & Hov & Hp).
  apply (rep_levels _ _ Hrep) in Hmax. cbn [mbind option_bind].
  destruct Hp as [[-> Hp]|[Hne Hp]].
  - apply rep_levels in Hp as Hlev. cbn [levels] in Hlev. lia.
  - rewrite decide_False by done.
    destruct (holds_append (block_new c) [] ov holds_new) as (lv & E & Hlv); [done|].
    pose proof (Hp lv Hlv) as Hr. apply rep_levels in Hr as Hlev.
    cbn [levels] in Hlev. rewrite length_app in Hlev. simpl in Hlev.
    by rewrite option_guard_False by lia.
Qed.

Lemma foldl_update_none cs :
  foldl (fun self chunk => self ← self; update_chunk self chunk) None cs = None.
Proof. induction cs; auto. Qed.

Lemma update_chunks_ok cs data st :
  rep data st -> Forall (fun b => 0 < length b <= block_size c) cs ->
  length (data ++ concat cs) <= max_data_size c ->
  exists st', foldl (fun self chunk => self ← self; update_chunk self chunk) (Some st) cs
    = Some st' /\ rep (data ++ concat cs) st'.
Proof.
  intros Hrep Hcs. revert data st Hrep. induction Hcs as [|b cs Hb _ IH]; intros data st Hrep Hmax.
  { exists st. simpl. by rewrite app_nil_r. }
  simpl in *. rewrite app_assoc in *.
  destruct (update_chunk_ok data st b Hrep Hb) as (st' & -> & Hrep'); [|by apply IH].
  rewrite !length_app in *. lia.
Qed.

Lemma update_chunks_panics cs data st :
  rep data st -> Forall (fun b => 0 < length b <= block_size c) cs ->
  length data <= max_data_size c -> max_data_size c < length (data ++ concat cs) ->
  foldl (fun self chunk => self ← self; update_chunk self chunk) (Some st) cs = None.
Proof.
  intros Hrep Hcs. revert data st Hrep. induction Hcs as [|b cs Hb _ IH]; intros data st Hrep Hm Hbig.
  { simpl in Hbig. rewrite app_nil_r in Hbig. lia. }
  simpl in *. rewrite app_assoc in *.
  destruct (decide (length (data ++ b) <= max_data_size c)) as [Hle|Hgt].
  - destruct (update_chunk_ok data st b Hrep Hb Hle) as (st' & -> & Hrep'). by eapply IH.
  - rewrite (update_chunk_panics data st b) by (done || lia). apply foldl_update_none.
Qed.

Lemma update_ok data st d :
  rep data st -> length (data ++ d) <= max_data_size c ->
  exists st', update st d = Some st' /\ rep (data ++ d) st'.
Proof.
  intros Hrep Hmax. unfold update. rewrite (rep_config _ _ Hrep).
  pose proof (update_chunks_ok (chunks (block_size c) d) data st Hrep) as Hu.
  rewrite concat_chunks in Hu by apply block_size_pos'.
  apply Hu; [|done]. apply chunks_Forall_le, block_size_pos'.
Qed.

Lemma update_panics data st d :
  rep data st -> length data <= max_data_size c ->
  max_data_size c < length (data ++ d) -> update st d = None.
Proof.
  intros Hrep Hm Hbig. unfold update. rewrite (rep_config _ _ Hrep).
  eapply update_chunks_panics; [done| |done|].
  - apply chunks_Forall_le, block_size_pos'.
  - by rewrite concat_chunks by apply block_size_pos'.
Qed.

(** ** The reference root, level by level *)

Lemma root_of_aux_enough f1 f2 hs :
  length hs <= f1 -> length hs <= f2 -> root_of_aux f1 c hs = root_of_aux f2 c hs.
Proof.
  revert f2 hs. induction f1 as [|f1 IH]; intros f2 hs H1 H2.
  { by destruct hs; [destruct f2|simpl in *; lia]. }
  destruct hs as [|a [|b hs]]; [by destruct f2..|].
  destruct f2 as [|f2]; [simpl in *; lia|]. cbn [root_of_aux].
  pose proof (length_chunks_lt (compression_factor c) (a :: b :: hs) cf_pos) as Hlt.
  simpl in Hlt, H1, H2. specialize (Hlt ltac:(lia)).
  apply IH; unfold next_level; rewrite length_map; simpl in *; lia.
Qed.

Lemma root_of_step hs : 2 <= length hs -> root_of c hs = root_of c (next_level c hs).
Proof.
  intros Hl. unfold root_of.
  pose proof (length_chunks_lt (compression_factor c) hs cf_pos Hl) as Hlt.
  destruct hs as [|a [|b hs]]; [simpl in *; lia..|].
  change (root_of_aux (S (length hs)) c (next_level c (a :: b :: hs)) =
    root_of_aux (length (next_level c (a :: b :: hs))) c (next_level c (a :: b :: hs))).
  apply root_of_aux_enough; unfold next_level; rewrite length_map; simpl in *; lia.
Qed.

Lemma next_level_app full part :
  Forall (fun g => length g = compression_factor c) full ->
  0 < length part <= compression_factor c ->
  next_level c (concat full ++ part) = map (group_hash c) full ++ [group_hash c part].
Proof.
  intros Hfull Hpart. pose proof cf_pos. unfold next_level.
  rewrite chunks_concat_app, chunks_small by (done || lia || by destruct part; simpl in *; [lia|]).
  apply map_app.
Qed.

Lemma level1_app full last :
  Forall (fun b => length b = block_size c) full ->
  0 < length last <= block_size c ->
  level1 c (concat full ++ last) = map (block_hash c) full ++ [block_hash c last].
Proof.
  intros Hfull Hlast. pose proof block_size_pos'. unfold level1.
  rewrite chunks_concat_app, chunks_small by (done || lia || by destruct last; simpl in *; [lia|]).
  apply map_app.
Qed.

(** ** Flushing the levels *)

Lemma flush_upper_levels hs ups : rep_up hs ups ->
  forall i total scale h tree, length h = OutputSize -> wrap64 total = total ->
  flush_levels c (S i) total scale h h ups tree =
    Some (wrap64 (total + scale * (Z.of_nat OutputSize * Z.of_nat (length hs))),
          root_of c (hs ++ [h]), tree).
Proof.
  induction 1 as [|full part lv rest Hfull Hpart Hlt Hne Hlv Hrep IH];
    intros i total scale h tree Hh Ht; cbn [flush_levels].
  { unfold root_of. simpl. rewrite Z.mul_0_r, Z.mul_0_r, Z.add_0_r. congruence. }
  pose proof block_size_cf as Hbs.
  pose proof (length_concat_digests part Hpart) as Hlen.
  destruct (holds_append lv (concat part) h Hlv) as (lv' & -> & Hlv'); [nia|].
  cbn [mbind option_bind]. rewrite decide_False by done.
  rewrite (holds_finalize _ _ Hlv').
  assert (concat part ++ h = concat (part ++ [h])) as ->
    by (rewrite concat_app; simpl; by rewrite app_nil_r).
  fold (group_hash c (part ++ [h])).
  rewrite IH by (apply block_hash_length || apply wrap64_idem).
  rewrite <- (next_level_app full (part ++ [h])) by (done || rewrite length_app; simpl; lia).
  rewrite app_assoc, <- (root_of_step ((concat full ++ part) ++ [h])).
  - do 3 f_equal. destruct Hlv as [_ Hrem].
    rewrite length_map, length_app, (length_concat_full _ _ Hfull).
    rewrite wrap64_add_l, <- wrap64_add_r, wrap64_mul_l, wrap64_add_r.
    rewrite <- Z.add_assoc, <- wrap64_add_r, wrap64_add_l, wrap64_add_r. f_equal.
    replace (Z.of_nat (block_size c) - Z.of_nat (remaining lv))%Z
      with (Z.of_nat (length part) * Z.of_nat OutputSize)%Z by lia.
    fold (compression_factor c). rewrite Nat2Z.inj_add, Nat2Z.inj_mul. ring.
  - rewrite length_app. simpl. by destruct (concat full ++ part); simpl; [|lia].
Qed.

Lemma flush_all data st : rep data st ->
  flush_levels c 0 0 1 (zeros OutputSize) [] (levels st) (merkle_tree st) =
    Some (wrap64 (Z.of_nat (length data)), merkle_root c data, level1 c data).
Proof.
  intros [|full last lv0 ups Hfull Hlast Hlv Hup]; [done|]. cbn [levels merkle_tree flush_levels].
  destruct (holds_append lv0 last [] Hlv) as (lv' & -> & Hlv'); [simpl; lia|].
  rewrite app_nil_r in Hlv'. cbn [mbind option_bind]. rewrite decide_True by done.
  rewrite (holds_finalize _ _ Hlv').
  rewrite (flush_upper_levels _ _ Hup) by (apply block_hash_length || apply wrap64_idem).
  unfold merkle_root. rewrite level1_app by done. unfold append_level_1_hash.
  do 3 f_equal. destruct Hlv as [_ Hrem].
  rewrite length_map, length_app, (length_concat_full _ _ Hfull).
  rewrite wrap64_add_l, <- wrap64_add_r, wrap64_mul_l, wrap64_add_r.
  rewrite <- Z.add_assoc, <- wrap64_add_r, wrap64_add_l, wrap64_add_r.
  fold (compression_factor c). pose proof block_size_cf. f_equal. nia.
Qed.
End Representation.

(** ** The digest computes the reference tree *)

Section Correctness.
Context `{InnerHashSpec}.

(** A sequence of [update]s. *)
Definition update_all (st : FsVerityDigest) (ds : list bytes) : option FsVerityDigest :=
  foldl (fun st d => st ← st; update st d) (Some st) ds.

Lemma foldl_update_all_none ds : foldl (fun st d => st ← st; update st d) None ds = None.
Proof. induction ds; auto. Qed.

Lemma new_rep sl bs st :
  new_with_salt_and_block_size sl bs = Some st ->
  config_wf (config st) /\ rep (config st) [] st /\
  block_size (config st) = bs /\ salt (config st) = sl.
Proof.
  unfold new_with_salt_and_block_size. intros E.
  destruct (config_new bs sl) as [c|] eqn:Ec; [|done]. simplify_eq/=.
  apply config_new_wf in Ec as (? & ? & ?). split; [done|]. split; [|done]. constructor.
Qed.

Lemma update_all_ok c ds data st :
  config_wf c -> rep c data st -> length (data ++ concat ds) <= max_data_size c ->
  exists st', update_all st ds = Some st' /\ rep c (data ++ concat ds) st'.
Proof.
  intros Hc. revert data st. induction ds as [|d ds IH]; intros data st Hrep Hmax.
  { exists st. simpl. by rewrite app_nil_r. }
  unfold update_all in *. simpl in *. rewrite app_assoc in *.
  destruct (update_ok c Hc data st d Hrep) as (st' & -> & Hrep'); [|by apply IH].
  rewrite !length_app in *. lia.
Qed.

Lemma update_all_panics c ds data st :
  config_wf c -> rep c data st -> length data <= max_data_size c ->
  max_data_size c < length (data ++ concat ds) -> update_all st ds = None.
Proof.
  intros Hc. revert data st. induction ds as [|d ds IH]; intros data st Hrep Hm Hbig.
  { simpl in Hbig. rewrite app_nil_r in Hbig. lia. }
  unfold update_all in *. simpl in *. rewrite app_assoc in *.
  destruct (decide (length (data ++ d) <= max_data_size c)) as [Hle|Hgt].
  - destruct (update_ok c Hc data st d Hrep Hle) as (st' & -> & Hrep'). by eapply IH.
  - rewrite (update_panics c Hc data st d) by (done || lia). apply foldl_update_all_none.
Qed.

(** What a digest that did not panic represents. *)
Lemma update_all_rep sl bs st ds st' :
  new_with_salt_and_block_size sl bs = Some st -> update_all st ds = Some st' ->
  rep (config st) (concat ds) st' /\ length (concat ds) <= max_data_size (config st).
Proof.
  intros Hnew E. destruct (new_rep _ _ _ Hnew) as (Hc & Hrep & _ & _).
  destruct (decide (length (concat ds) <= max_data_size (config st))) as [Hle|Hgt]; cycle 1.
  { rewrite (update_all_panics _ ds [] st Hc Hrep) in E by (simpl; lia). done. }
  destruct (update_all_ok _ ds [] st Hc Hrep Hle) as (st'' & E' & Hrep').
  by assert (st'' = st') as -> by congruence.
Qed.

Lemma finalize_rep c data st :
  config_wf c -> rep c data st ->
  finalize_into_fs_verity_stuffs st = Some (descriptor_of c data, level1 c data).
Proof.
  intros Hc Hrep. unfold finalize_into_fs_verity_stuffs.
  rewrite (rep_config c _ _ Hrep), (flush_all c Hc data st Hrep). simpl.
  unfold descriptor_of. do 3 f_equal. f_equal.
  destruct (cw_pow2 c Hc) as [k ->].
  by rewrite trailing_zeros_pow2, Nat.log2_pow2 by lia.
Qed.

Lemma root_of_aux_length f c hs :
  config_wf c -> Forall (fun h => length h = OutputSize) hs -> length hs <= f ->
  length (root_of_aux f c hs) = OutputSize.
Proof.
  intros Hc. revert hs. induction f as [|f IH]; intros hs Hhs Hf.
  - destruct hs as [|a hs]; [|simpl in Hf; lia]. apply zeros_length.
  - destruct hs as [|a [|b hs]]; [apply zeros_length|by inversion Hhs|].
    pose proof (length_chunks_lt (compression_factor c) (a :: b :: hs)
      (compression_factor_ge_2 c Hc) ltac:(simpl; lia)) as Hlt.
    cbn [root_of_aux]. apply IH.
    + apply Forall_fmap, Forall_forall. intros g _. apply hash_length.
    + unfold next_level. rewrite length_map. simpl in *. lia.
Qed.

Lemma merkle_root_length c data : config_wf c -> length (merkle_root c data) = OutputSize.
Proof.
  intros Hc. apply root_of_aux_length; [done| |done].
  apply Forall_fmap, Forall_forall. intros b _. apply hash_length.
Qed.

Lemma descriptor_of_wf c data : config_wf c -> descriptor_wf OutputSize (descriptor_of c data).
Proof.
  intros Hc. constructor; simpl.
  - lia.
  - destruct INNER_HASH_ALGORITHM; simpl; lia.
  - apply Z.mod_pos_bound. lia.
  - apply Z.mod_pos_bound. done.
  - by apply merkle_root_length.
  - apply cw_salt, Hc.
Qed.

Lemma finalize_into_rep c data st :
  config_wf c -> rep c data st ->
  finalize_into st =
    Some (hash (salt_prefix (salt c) ++ descriptor_bytes (descriptor_of c data))).
Proof.
  intros Hc Hrep. unfold finalize_into. rewrite (finalize_rep c data st Hc Hrep). simpl.
  by rewrite to_descriptor_hash_spec by by apply descriptor_of_wf.
Qed.

(** C1: a digest fed with any sequence of writes of at most [max_data_size]
    bytes in total does not panic, and finalizing it gives the fs-verity
    descriptor (root hash, data size, algorithm, block size, salt) and the
    level-1 hashes of the reference Merkle tree of the concatenated data,
    independently of how the data was split into writes. *)
Theorem streaming_digest_correct sl bs st ds :
  new_with_salt_and_block_size sl bs = Some st ->
  length (concat ds) <= max_data_size (config st) ->
  exists st', update_all st ds = Some st' /\
    finalize_into_fs_verity_stuffs st' =
      Some (descriptor_of (config st) (concat ds), level1 (config st) (concat ds)) /\
    finalize_into st' =
      Some (hash (salt_prefix sl ++ descriptor_bytes (descriptor_of (config st) (concat ds)))).
Proof.
  intros Hnew Hmax. destruct (new_rep _ _ _ Hnew) as (Hc & Hrep & _ & <-).
  destruct (update_all_ok _ ds [] st Hc Hrep Hmax) as (st' & E & Hrep').
  exists st'. split; [done|]. split.
  - by apply finalize_rep.
  - by apply finalize_into_rep.
Qed.

(** C36: the [MAX_LEVELS] assertion: a digest panics as soon as more than
    [block_size * compression_factor ^ 7] bytes have been written to it,
    and only then. *)
Theorem streaming_digest_panics_iff sl bs st ds :
  new_with_salt_and_block_size sl bs = Some st ->
  update_all st ds = None <-> max_data_size (config st) < length (concat ds).
Proof.
  intros Hnew. destruct (new_rep _ _ _ Hnew) as (Hc & Hrep & _ & _). split.
  - intros E. destruct (decide (length (concat ds) <= max_data_size (config st))); [|lia].
    destruct (update_all_ok _ ds [] st Hc Hrep) as (st' & E' & _); [done|congruence].
  - intros Hbig. apply (update_all_panics _ ds [] st Hc Hrep); [simpl; lia|done].
Qed.

(** After any writes the digest can be reused: [finalize_into_reset]
    returns the measurement of what was written and a digest equal to a new
    one, and so does [reset]. *)
Theorem finalize_into_reset_correct sl bs st ds st' :
  new_with_salt_and_block_size sl bs = Some st ->
  update_all st ds = Some st' ->
  finalize_into_reset st' =
    Some (hash (salt_prefix sl ++ descriptor_bytes (descriptor_of (config st) (concat ds))), st) /\
  reset st' = Some st.
Proof.
  intros Hnew E. destruct (new_rep _ _ _ Hnew) as (Hc & Hrep & Hbs & Hsl).
  destruct (update_all_rep _ _ _ _ _ Hnew E) as [Hrep' Hle].
  unfold finalize_into_reset, reset. rewrite (rep_config _ _ _ Hrep'), Hsl, Hbs, Hnew.
  split; [|done]. simpl. rewrite (finalize_into_rep _ _ _ Hc Hrep'). simpl. by rewrite Hsl.
Qed.
End Correctness.

(** The default settings: SHA-256 and 4096-byte blocks hold [2 ^ 61] bytes, not
    more than a [u64] can count. *)
Lemma default_max_data_size `{InnerHash} c :
  OutputSize = 32 -> block_size c = DEFAULT_BLOCK_SIZE ->
  Z.of_nat (max_data_size c) = (2 ^ 61)%Z.
Proof.
  intros Ho Hb. unfold max_data_size, compression_factor. rewrite Ho, Hb.
  rewrite Nat2Z.inj_mul, Nat2Z.inj_pow. reflexivity.
Qed.
