(* ===== verification/ToyHash.v ===== *)
(** * A small executable hash function

    An instance of [InnerHash] on which the definitions can be evaluated: a
    64-bit polynomial checksum truncated or extended to [2 ^ k] bytes.  It
    satisfies [InnerHashSpec], so the assumptions of the theorems about the
    Merkle tree are consistent, and it is what the concrete instances below
    and in the other files run on.  It is not collision resistant. *)

From stdpp Require Import base list numbers option.
From Stdlib Require Import ZArith Lia.
From S2P Require Import Prelude Slices InnerHash Descriptor VerityDigest MerkleSpec.

Definition checksum (m : bytes) : Z :=
  foldl (fun a b => (a * 257 + Z_of_byte b + 1) mod 2 ^ 64)%Z 7%Z m.

Definition toy_hash (k : nat) : InnerHash := {|
  D := bytes;
  OutputSize := 2 ^ k;
  BlockSize := 8;
  INNER_HASH_ALGORITHM := Sha256;
  digest_new := [];
  digest_update d m := d ++ m;
  digest_finalize d := to_le_bytes (2 ^ k) (checksum d);
|}.

Lemma toy_hash_spec k : k <= 6 -> @InnerHashSpec (toy_hash k).
Proof.
  intros Hk. constructor; simpl.
  - intros cs. unfold hash. simpl. do 2 f_equal.
    enough (forall d, foldl app d cs = d ++ concat cs) as -> by done.
    induction cs as [|c cs IH]; intros d; simpl; [by rewrite app_nil_r|].
    by rewrite IH, app_assoc.
  - intros d. apply to_le_bytes_length.
  - by exists k.
  - unfold MAX_DIGEST_SIZE. change 64 with (2 ^ 6). by apply Nat.pow_le_mono_r.
  - lia.
Qed.

Definition toy1 : InnerHash := toy_hash 1.
Definition toy5 : InnerHash := toy_hash 5.

#[export] Instance toy1_spec : @InnerHashSpec toy1 := toy_hash_spec 1 ltac:(lia).
#[export] Instance toy5_spec : @InnerHashSpec toy5 := toy_hash_spec 5 ltac:(lia).

#[local] Existing Instance toy1.

(** Bytes from numbers. *)
Definition mk (l : list Z) : bytes := map byte_of_Z l.

(** A digest with 2-byte hashes, 4-byte blocks (two digests per block) and a
    one-byte salt. *)
Definition toy_digest : option (FsVerityDigest) :=
  new_with_salt_and_block_size (mk [9%Z]) 4.

Definition toy_state : FsVerityDigest :=
  match toy_digest with
  | Some st => st
  | None => mkDigest (mkConfig 0 [] digest_new) [] []
  end.

Lemma toy_digest_eq : toy_digest = Some toy_state.
Proof. reflexivity. Qed.

(** Ten bytes in three writes. *)
Definition toy_writes : list bytes :=
  [mk [1; 2; 3]; mk [4; 5; 6; 7; 8]; mk [9; 10]]%Z.

Lemma streaming_digest_correct_witness :
  exists st', update_all toy_state toy_writes = Some st' /\
    finalize_into_fs_verity_stuffs st' =
      Some (descriptor_of (config toy_state) (concat toy_writes),
            level1 (config toy_state) (concat toy_writes)) /\
    finalize_into st' =
      Some (hash (salt_prefix (mk [9%Z]) ++
        descriptor_bytes (descriptor_of (config toy_state) (concat toy_writes)))).
Proof.
  apply (streaming_digest_correct (mk [9%Z]) 4 toy_state toy_writes toy_digest_eq).
  apply Nat.leb_le. vm_compute. reflexivity.
Defined.

Lemma streaming_digest_panics_iff_witness :
  update_all toy_state [zeros 513] = None <->
  max_data_size (config toy_state) < length (concat [zeros 513]).
Proof.
  apply (streaming_digest_panics_iff (mk [9%Z]) 4 toy_state [zeros 513] toy_digest_eq).
Defined.

(** The panic happens: 513 bytes need a ninth level. *)
Example toy_panics : update_all toy_state [zeros 513] = None.
Proof. apply is_none_eq. vm_compute. reflexivity. Qed.

Example toy_fits : is_none (update_all toy_state [zeros 512]) = false.
Proof. vm_compute. reflexivity. Qed.

Definition toy_written : FsVerityDigest := default toy_state (update_all toy_state toy_writes).

Lemma finalize_into_reset_correct_witness :
  finalize_into_reset toy_written =
    Some (hash (salt_prefix (mk [9%Z]) ++
      descriptor_bytes (descriptor_of (config toy_state) (concat toy_writes))), toy_state) /\
  reset toy_written = Some toy_state.
Proof.
  apply (finalize_into_reset_correct (mk [9%Z]) 4 toy_state toy_writes toy_written toy_digest_eq).
  apply some_default. vm_compute. reflexivity.
Defined.
