(* ===== verification/MerkleTree.v ===== *)
(** * The recorded Merkle tree

    [verity-core/src/tree.rs]: the level-1 hashes kept in the metadata of a
    protected file, the reconstruction of the root hash from them, and the
    check of one data block against its level-1 hash. *)

From stdpp Require Import base list numbers option.
From Stdlib Require Import ZArith Lia.
From S2P Require Import Prelude Slices InnerHash Descriptor VerityDigest MerkleSpec ToyHash.

Definition level1_as_bytes (self : MerkleTree) : bytes := concat self.

Definition from_level1_hashes (hashes : list bytes) : MerkleTree := hashes.

Section MerkleTree.
Context `{InnerHash}.

(** [None] is a panic: of the constructor's assertions, or of a tree with
    more than [MAX_LEVELS] levels. *)
Definition rebuild_root_hash (self : MerkleTree) (salt : bytes) (block_size : nat)
  : option bytes :=
  match self with
  | [hash] => Some hash
  | _ =>
    digest ← new_with_salt_and_block_size salt block_size;
    digest ← update_all digest self;
    let padding :=
      (block_size - (length self * OutputSize) mod block_size) mod block_size in
    digest ← update digest (zeros padding);
    '(descriptor, _) ← finalize_into_fs_verity_stuffs digest;
    Some (root_hash descriptor)
  end.

Definition verify_data_block (self : MerkleTree) (block_index block_size : nat) (data : bytes)
  : option bool :=
  if decide (block_size < length data) then Some false
  else match self !! block_index with
    | None => Some false
    | Some expected =>
      digest ← update_padded digest_new data block_size;
      Some (bool_decide (expected = digest_finalize digest))
    end.
End MerkleTree.

(** ** Rebuilding the root *)

Section Rebuild.
Context `{InnerHashSpec}.
Context (c : FsVerityConfig) (Hc : config_wf c).

Definition digests (hs : list bytes) : Prop := Forall (fun h => length h = OutputSize) hs.

Lemma block_hash_pad b k :
  length b + k <= block_size c -> block_hash c (b ++ zeros k) = block_hash c b.
Proof. intros. unfold block_hash. by rewrite pad_to_app_zeros. Qed.

(** The level-1 hashes of the concatenated hashes, padded to whole blocks,
    are the level-2 hashes. *)
Lemma level1_of_hashes hs :
  digests hs ->
  level1 c (concat hs ++
    zeros ((block_size c - (length hs * OutputSize) mod block_size c) mod block_size c)) =
  next_level c hs.
Proof.
  intros Hhs. pose proof (block_size_cf c Hc) as Hbs. pose proof (block_size_pos' c Hc) as Hpos.
  pose proof (cf_pos c Hc) as Hcf. pose proof output_size_pos as Hout.
  destruct (chunks_decompose_rem (compression_factor c) hs ltac:(lia))
    as (full & part & -> & Hfull & Hpart).
  assert (digests (concat full) /\ digests part) as [Hdf Hdp] by by apply Forall_app.
  set (blocks := map (@concat byte) full).
  assert (Forall (fun b => length b = block_size c) blocks) as Hblocks.
  { apply Forall_fmap, Forall_forall. intros g Hg. unfold compose.
    rewrite Forall_forall in Hfull. pose proof (Hfull g Hg) as Hl.
    assert (digests g) as Hg' by (by eapply Forall_concat, Forall_forall in Hdf).
    rewrite (length_concat_full _ _ Hg'), Hl. lia. }
  assert (concat (concat full ++ part) = concat blocks ++ concat part) as ->.
  { rewrite concat_app. f_equal. unfold blocks. clear.
    induction full as [|g full IH]; simpl; [done|]. by rewrite concat_app, IH. }
  assert (map (block_hash c) blocks = map (group_hash c) full) as Hmap
    by (unfold blocks; by rewrite map_map).
  rewrite length_app, (length_concat_full _ _ Hfull).
  replace ((length full * compression_factor c + length part) * OutputSize)
    with (length part * OutputSize + length full * block_size c) by lia.
  rewrite Nat.Div0.mod_add, (Nat.mod_small (length part * OutputSize)) by nia.
  destruct (decide (part = [])) as [->|Hne].
  - simpl. rewrite Nat.sub_0_r, Nat.Div0.mod_same, !app_nil_r. simpl.
    unfold level1, next_level. by rewrite !chunks_concat by (done || lia).
  - assert (0 < length part) by (by destruct part; simpl; [|lia]).
    rewrite Nat.mod_small by nia.
    rewrite next_level_app by (done || lia). rewrite <- app_assoc, level1_app, Hmap; [|done..|].
    + do 2 f_equal. apply block_hash_pad. rewrite (length_concat_full _ _ Hdp). nia.
    + rewrite length_app, zeros_length, (length_concat_full _ _ Hdp). nia.
Qed.

Lemma config_new_complete :
  exists c', config_new (block_size c) (salt c) = Some c' /\
    config_wf c' /\ block_size c' = block_size c /\ salt c' = salt c.
Proof. apply config_new_some; [apply cw_salt, Hc|apply cw_pow2, Hc|apply cw_min, Hc]. Qed.

(** The reference tree depends on the block size and the salt only. *)
Lemma root_of_aux_ext f c' hs :
  block_size c' = block_size c -> salt c' = salt c -> root_of_aux f c' hs = root_of_aux f c hs.
Proof.
  intros Eb Es. revert hs. induction f as [|f IH]; intros hs; [done|].
  destruct hs as [|a [|b hs]]; [done..|]. simpl root_of_aux at 1.
  change (root_of_aux f c' (next_level c' (a :: b :: hs)) =
          root_of_aux f c (next_level c (a :: b :: hs))).
  rewrite IH. f_equal.
  unfold next_level, group_hash, block_hash, compression_factor. by rewrite Eb, Es.
Qed.

Lemma merkle_root_ext c' data :
  block_size c' = block_size c -> salt c' = salt c -> merkle_root c' data = merkle_root c data.
Proof.
  intros Eb Es. unfold merkle_root, root_of. rewrite (root_of_aux_ext _ c') by done.
  unfold level1, block_hash. by rewrite Eb, Es.
Qed.

Lemma padding_bound n : let p := (block_size c - n mod block_size c) mod block_size c in
  forall k, n <= block_size c * k -> n + p <= block_size c * k.
Proof.
  intros p k Hn. pose proof (block_size_pos' c Hc) as Hpos.
  pose proof (Nat.div_mod_eq n (block_size c)) as E.
  pose proof (Nat.mod_upper_bound n (block_size c) ltac:(lia)) as Hm.
  unfold p. destruct (decide (n mod block_size c = 0)) as [Hz|Hz].
  - rewrite Hz, Nat.sub_0_r, Nat.Div0.mod_same. lia.
  - rewrite (Nat.mod_small (_ - _)) by lia.
    assert (n / block_size c < k) by nia.
    pose proof (Nat.mul_le_mono_l (S (n / block_size c)) k (block_size c) ltac:(lia)). lia.
Qed.

Lemma rebuild_root_hash_spec hs :
  digests hs -> length hs * OutputSize <= max_data_size c ->
  rebuild_root_hash hs (salt c) (block_size c) = Some (root_of c hs).
Proof.
  intros Hhs Hmax. pose proof (level1_of_hashes hs Hhs) as HL.
  destruct (decide (length hs = 1)) as [H1|H1]; [by destruct hs as [|h [|]]|].
  assert (root_of c (next_level c hs) = root_of c hs) as Hroot.
  { destruct hs as [|a hs]; [done|]. symmetry. apply root_of_step; [done|].
    simpl in *. lia. }
  transitivity (
    digest ← new_with_salt_and_block_size (salt c) (block_size c);
    digest ← update_all digest hs;
    digest ← update digest (zeros
      ((block_size c - (length hs * OutputSize) mod block_size c) mod block_size c));
    '(descriptor, _) ← finalize_into_fs_verity_stuffs digest;
    Some (root_hash descriptor)); [by destruct hs as [|h [|]]|].
  set (p := (block_size c - _) mod _) in *.
  destruct config_new_complete as (c' & E & Hc' & Eb & Es).
  unfold new_with_salt_and_block_size. rewrite E. cbn [mbind option_bind].
  assert (max_data_size c' = max_data_size c) as Em
    by (unfold max_data_size, compression_factor; by rewrite Eb).
  assert (length (concat hs ++ zeros p) <= max_data_size c) as Hlen.
  { rewrite length_app, zeros_length, (length_concat_full _ _ Hhs). by apply padding_bound. }
  rewrite length_app in Hlen.
  destruct (update_all_ok c' hs [] _ Hc' (rep_empty c')) as (st1 & -> & R1); [simpl; lia|].
  cbn [mbind option_bind].
  destruct (update_ok c' Hc' _ st1 (zeros p) R1) as (st2 & -> & R2);
    [simpl; rewrite length_app; lia|].
  cbn [mbind option_bind]. rewrite (finalize_rep c' _ _ Hc' R2). simpl. f_equal.
  rewrite (merkle_root_ext c') by done. unfold merkle_root. by rewrite HL.
Qed.
End Rebuild.

(** ** What a root hash binds

    Statements of the form "equal, or two of these hashed messages collide":
    the messages range over the finite lists of what is hashed to compute the
    two roots, so the second case is an actual collision of the hash function
    found in the two trees. *)

Definition collision_in `{InnerHash} (ms1 ms2 : list bytes) : Prop :=
  exists x y, In x ms1 /\ In y ms2 /\ x <> y /\ hash x = hash y.

Lemma collision_in_mono `{InnerHash} a a' b b' :
  incl a a' -> incl b b' -> collision_in a b -> collision_in a' b'.
Proof. intros Ha Hb (x & y & Hx & Hy & Hc). exists x, y. auto. Qed.

(** Equal hash lists come from equal messages, or contain a collision. *)
Lemma map_hash_inj `{InnerHash} {A} (f : A -> bytes) l1 l2 :
  Forall2 (fun a b => f a = f b -> a = b) l1 l2 ->
  map (fun a => hash (f a)) l1 = map (fun a => hash (f a)) l2 ->
  l1 = l2 \/ collision_in (map f l1) (map f l2).
Proof.
  induction 1 as [|a b l1 l2 Hab _ IH]; intros E; [by left|]. simpl in E.
  injection E as E1 E2.
  destruct (decide (f a = f b)) as [Ef|Ef].
  - rewrite (Hab Ef). destruct (IH E2) as [->|Hcol]; [by left|]. right.
    eapply collision_in_mono; [| |exact Hcol]; simpl; intros z Hz; by right.
  - right. exists (f a), (f b). simpl. auto.
Qed.

Lemma chunks_aux_Forall2 {A} (R : A -> A -> Prop) n f (l1 l2 : list A) :
  Forall2 R l1 l2 -> Forall2 (Forall2 R) (chunks_aux f n l1) (chunks_aux f n l2).
Proof.
  revert l1 l2. induction f as [|f IH]; intros l1 l2 Hl; [by constructor|].
  destruct Hl as [|a b l1 l2 Hab Hl]; [by constructor|]. cbn [chunks_aux].
  assert (Forall2 R (a :: l1) (b :: l2)) as Hl' by by constructor.
  constructor; [by apply Forall2_take|]. apply IH. by apply Forall2_drop.
Qed.

Lemma chunks_Forall2 {A} (R : A -> A -> Prop) n (l1 l2 : list A) :
  Forall2 R l1 l2 -> Forall2 (Forall2 R) (chunks n l1) (chunks n l2).
Proof.
  intros Hl. unfold chunks. rewrite (Forall2_length Hl). by apply chunks_aux_Forall2.
Qed.

Section Binding.
Context `{InnerHashSpec}.
Context (c : FsVerityConfig) (Hc : config_wf c).
Implicit Types (hs : list bytes).

(** The message hashed for one block, for one group of digests, for all the
    inner nodes above [hs], and for a whole file. *)
Definition block_message (b : bytes) : bytes := salt_prefix (salt c) ++ pad_to (block_size c) b.

Definition group_message (g : list bytes) : bytes := block_message (concat g).

Fixpoint node_messages_aux (fuel : nat) hs : list bytes :=
  match fuel, hs with
  | S fuel, _ :: _ :: _ =>
      map group_message (chunks (compression_factor c) hs) ++
      node_messages_aux fuel (next_level c hs)
  | _, _ => []
  end.

Definition node_messages hs : list bytes := node_messages_aux (length hs) hs.

Definition file_messages (data : bytes) : list bytes :=
  map block_message (chunks (block_size c) data) ++ node_messages (level1 c data).

Definition same_digests hs1 hs2 : Prop :=
  Forall2 (fun a b : bytes => length a = OutputSize /\ length b = OutputSize) hs1 hs2.

Lemma same_digests_intro hs1 hs2 :
  digests hs1 -> digests hs2 -> length hs1 = length hs2 -> same_digests hs1 hs2.
Proof.
  intros H1 H2 Hl. apply Forall2_same_length_lookup. split; [done|].
  intros i a b Ha Hb.
  split; [exact (Forall_lookup_1 _ _ _ _ H1 Ha)|exact (Forall_lookup_1 _ _ _ _ H2 Hb)].
Qed.

Lemma same_digests_concat g1 g2 :
  same_digests g1 g2 -> concat g1 = concat g2 -> g1 = g2.
Proof.
  induction 1 as [|a b g1 g2 [Ha Hb] _ IH]; intros E; [done|]. simpl in E.
  apply app_inj_1 in E as [-> E]; [|congruence]. by rewrite (IH E).
Qed.

Lemma same_digests_length g1 g2 :
  same_digests g1 g2 -> length (concat g1) = length (concat g2).
Proof.
  induction 1 as [|a b g1 g2 [Ha Hb] _ IH]; [done|]. simpl. rewrite !length_app. lia.
Qed.

Lemma block_message_inj a b : length a = length b -> block_message a = block_message b -> a = b.
Proof. unfold block_message. intros Hl E%app_inv_head. by apply pad_to_inj in E. Qed.

Lemma next_level_binds hs1 hs2 :
  same_digests hs1 hs2 -> next_level c hs1 = next_level c hs2 ->
  hs1 = hs2 \/ collision_in (map group_message (chunks (compression_factor c) hs1))
                (map group_message (chunks (compression_factor c) hs2)).
Proof.
  intros Hs E. pose proof (cf_pos c Hc).
  destruct (map_hash_inj group_message (chunks (compression_factor c) hs1)
    (chunks (compression_factor c) hs2)) as [Eq|Hcol]; [|done| |by right].
  - eapply Forall2_impl; [|exact (chunks_Forall2 _ _ _ _ Hs)]. intros g1 g2 Hg Em.
    apply same_digests_concat; [done|]. apply block_message_inj; [|done].
    by apply same_digests_length.
  - left. apply (f_equal (@concat _)) in Eq. by rewrite !concat_chunks in Eq by lia.
Qed.

Lemma next_level_same hs1 hs2 :
  length hs1 = length hs2 -> same_digests (next_level c hs1) (next_level c hs2).
Proof.
  intros Hl. apply same_digests_intro.
  1, 2: apply Forall_fmap, Forall_forall; intros g _; apply hash_length.
  unfold next_level. rewrite !length_map. unfold chunks.
  apply (@Forall2_length _ _ (Forall2 (fun _ _ : bytes => True))).
  rewrite <- Hl. apply chunks_aux_Forall2. apply Forall2_same_length_lookup. done.
Qed.

Lemma root_of_aux_binds f hs1 hs2 :
  same_digests hs1 hs2 -> length hs1 <= f ->
  root_of_aux f c hs1 = root_of_aux f c hs2 ->
  hs1 = hs2 \/ collision_in (node_messages_aux f hs1) (node_messages_aux f hs2).
Proof.
  revert hs1 hs2. induction f as [|f IH]; intros hs1 hs2 Hs Hf E.
  { destruct Hs; [by left|simpl in Hf; lia]. }
  pose proof (Forall2_length Hs) as Hl.
  destruct hs1 as [|a1 [|b1 hs1]], hs2 as [|a2 [|b2 hs2]]; simpl in Hl; try lia; [by left| |].
  { left. simpl in E. congruence. }
  set (h1 := a1 :: b1 :: hs1) in *. set (h2 := a2 :: b2 :: hs2) in *.
  change (root_of_aux f c (next_level c h1) = root_of_aux f c (next_level c h2)) in E.
  pose proof (length_chunks_lt (compression_factor c) h1 (cf_pos c Hc) ltac:(simpl; lia)) as Hlt.
  apply IH in E; [|apply next_level_same; simpl; lia|unfold next_level; rewrite length_map; lia].
  change (node_messages_aux (S f) h1) with (map group_message (chunks (compression_factor c) h1)
    ++ node_messages_aux f (next_level c h1)).
  change (node_messages_aux (S f) h2) with (map group_message (chunks (compression_factor c) h2)
    ++ node_messages_aux f (next_level c h2)).
  destruct E as [E|Hcol].
  - destruct (next_level_binds h1 h2 Hs E) as [Eq|Hcol]; [by left|right].
    eapply collision_in_mono; [..|exact Hcol]; apply incl_appl, incl_refl.
  - right. eapply collision_in_mono; [..|exact Hcol]; apply incl_appr, incl_refl.
Qed.

(** A root hash binds the list of level-1 hashes, once their number is known. *)
Lemma root_of_binds hs1 hs2 :
  digests hs1 -> digests hs2 -> length hs1 = length hs2 ->
  root_of c hs1 = root_of c hs2 ->
  hs1 = hs2 \/ collision_in (node_messages hs1) (node_messages hs2).
Proof.
  intros H1 H2 Hl E. unfold root_of, node_messages in *. rewrite <- Hl in *.
  by apply root_of_aux_binds; [by apply same_digests_intro| |].
Qed.

Lemma level1_digests data : digests (level1 c data).
Proof. apply Forall_fmap, Forall_forall. intros b _. apply hash_length. Qed.

Lemma chunks_same_length {A} n (l1 l2 : list A) :
  length l1 = length l2 -> Forall2 (fun a b => length a = length b) (chunks n l1) (chunks n l2).
Proof.
  intros Hl.
  assert (Forall2 (Forall2 (fun _ _ : A => True)) (chunks n l1) (chunks n l2)) as HF
    by (apply chunks_Forall2; by apply Forall2_same_length_lookup).
  induction HF as [|a b la lb Hab _ IH]; constructor; [|exact IH].
  exact (Forall2_length Hab).
Qed.

Lemma level1_binds d1 d2 :
  length d1 = length d2 -> level1 c d1 = level1 c d2 ->
  d1 = d2 \/ collision_in (map block_message (chunks (block_size c) d1))
              (map block_message (chunks (block_size c) d2)).
Proof.
  intros Hl E. pose proof (block_size_pos' c Hc).
  destruct (map_hash_inj block_message (chunks (block_size c) d1) (chunks (block_size c) d2))
    as [Eq|Hcol]; [|done| |by right].
  - eapply Forall2_impl; [|by apply chunks_same_length]. intros a b. apply block_message_inj.
  - left. apply (f_equal (@concat _)) in Eq. by rewrite !concat_chunks in Eq.
Qed.

Lemma merkle_root_binds d1 d2 :
  length d1 = length d2 -> merkle_root c d1 = merkle_root c d2 ->
  d1 = d2 \/ collision_in (file_messages d1) (file_messages d2).
Proof.
  intros Hl E.
  destruct (root_of_binds (level1 c d1) (level1 c d2)) as [E'|Hcol];
    [apply level1_digests..| |exact E| |].
  - unfold level1. rewrite !length_map.
    exact (Forall2_length (chunks_same_length _ _ _ Hl)).
  - destruct (level1_binds d1 d2 Hl E') as [->|Hcol]; [by left|right].
    eapply collision_in_mono; [..|exact Hcol]; apply incl_appl, incl_refl.
  - right. eapply collision_in_mono; [..|exact Hcol]; apply incl_appr, incl_refl.
Qed.
End Binding.

(** ** Verifying one block *)

Section VerifyBlock.
Context `{InnerHashSpec}.

Lemma unsalted_padded data n :
  length data <= n ->
  exists d, update_padded digest_new data n = Some d /\ digest_finalize d = hash (pad_to n data).
Proof.
  intros Hl. destruct (update_padded_spec digest_new [] data n Hl absorbed_new)
    as (d & E & Hd). exists d. split; [done|]. by apply absorbed_finalize.
Qed.

(** The check compares the unsalted hash of the zero-padded block. *)
Lemma verify_data_block_spec tree i n b :
  verify_data_block tree i n b =
    Some (bool_decide (length b <= n /\ tree !! i = Some (hash (pad_to n b)))).
Proof.
  unfold verify_data_block. destruct (decide (n < length b)) as [Hb|Hb].
  { rewrite bool_decide_eq_false_2; [done|]. lia. }
  destruct (unsalted_padded b n ltac:(lia)) as (d & E & Hd).
  destruct (tree !! i) as [e|].
  - rewrite E. simpl. rewrite Hd. f_equal. apply bool_decide_ext. split.
    + intros ->. split; [lia|done].
    + intros [_ [= ->]]. done.
  - rewrite bool_decide_eq_false_2; [done|]. by intros [_ ?].
Qed.

Lemma level1_lookup c data i :
  level1 c data !! i = block_hash c <$> chunks (block_size c) data !! i.
Proof. apply list_lookup_fmap. Qed.

Lemma level1_lookup_unsalted c data i :
  salt c = [] ->
  level1 c data !! i = (fun b => hash (pad_to (block_size c) b)) <$> chunks (block_size c) data !! i.
Proof.
  intros Es. rewrite level1_lookup. destruct (_ !! i) as [b|]; [|done]. simpl.
  unfold block_hash. by rewrite Es.
Qed.

Lemma verify_data_block_accepts c data i b :
  config_wf c -> salt c = [] ->
  chunks (block_size c) data !! i = Some b ->
  verify_data_block (level1 c data) i (block_size c) b = Some true.
Proof.
  intros Hc Es E. rewrite verify_data_block_spec, level1_lookup_unsalted, E by done.
  f_equal. apply bool_decide_eq_true. split; [|done].
  pose proof (chunks_Forall_le (block_size c) data (block_size_pos' c Hc)) as HF.
  apply (Forall_lookup_1 _ _ _ _ HF) in E. simpl in E. lia.
Qed.

Lemma verify_data_block_sound c data i b :
  salt c = [] ->
  verify_data_block (level1 c data) i (block_size c) b = Some true ->
  exists b0, chunks (block_size c) data !! i = Some b0 /\
    (pad_to (block_size c) b = pad_to (block_size c) b0 \/
     pad_to (block_size c) b <> pad_to (block_size c) b0 /\
     hash (pad_to (block_size c) b) = hash (pad_to (block_size c) b0)).
Proof.
  intros Es E. rewrite verify_data_block_spec, level1_lookup_unsalted in E by done.
  injection E as E. apply bool_decide_eq_true in E as [Hl E].
  destruct (chunks (block_size c) data !! i) as [b0|]; [|done]. simpl in E.
  injection E as E. exists b0. split; [done|].
  destruct (decide (pad_to (block_size c) b = pad_to (block_size c) b0)); auto.
Qed.

(** Block verification is right for unsalted trees: each block of the
    file is accepted at its own index, and whatever is accepted there agrees
    with the file's block up to trailing zeros (or is a hash collision with
    it); the check never panics. *)
Theorem verify_data_block_correct c data i b :
  config_wf c -> salt c = [] ->
  (chunks (block_size c) data !! i = Some b ->
    verify_data_block (level1 c data) i (block_size c) b = Some true) /\
  (verify_data_block (level1 c data) i (block_size c) b = Some true ->
    exists b0, chunks (block_size c) data !! i = Some b0 /\
      (pad_to (block_size c) b = pad_to (block_size c) b0 \/
       pad_to (block_size c) b <> pad_to (block_size c) b0 /\
       hash (pad_to (block_size c) b) = hash (pad_to (block_size c) b0))) /\
  is_Some (verify_data_block (level1 c data) i (block_size c) b).
Proof.
  intros Hc Es. split; [by apply verify_data_block_accepts|].
  split; [by apply verify_data_block_sound|].
  rewrite verify_data_block_spec. by eexists.
Qed.

Lemma salt_prefix_ne sl : sl <> [] -> 0 < length (salt_prefix sl).
Proof.
  intros Hne. pose proof block_size_pos as Hb. unfold salt_prefix.
  rewrite chunks_step by done. simpl. rewrite length_app, pad_to_length; [lia|].
  rewrite length_take. lia.
Qed.

(** With a salt the tree is built from salted hashes, but blocks are
    checked with unsalted ones: any block that passes, the file's own
    included, yields a hash collision between two messages of different
    lengths. *)
Theorem salted_blocks_never_verify c data i b :
  salt c <> [] ->
  verify_data_block (level1 c data) i (block_size c) b = Some true ->
  exists b0, chunks (block_size c) data !! i = Some b0 /\
    let x := salt_prefix (salt c) ++ pad_to (block_size c) b0 in
    let y := pad_to (block_size c) b in
    length y < length x /\ hash x = hash y.
Proof.
  intros Hs E. rewrite verify_data_block_spec, level1_lookup in E. injection E as E.
  apply bool_decide_eq_true in E as [Hl E].
  destruct (chunks (block_size c) data !! i) as [b0|] eqn:Eb; [|done]. simpl in E.
  injection E as E. exists b0. split; [done|]. split; [|exact E].
  pose proof (salt_prefix_ne _ Hs). rewrite length_app, pad_to_length by done.
  unfold pad_to. rewrite length_app, zeros_length. lia.
Qed.
End VerifyBlock.

(** ** The tree of a digest *)

Section Roundtrip.
Context `{InnerHashSpec}.

Lemma level1_length_bound c data :
  config_wf c -> length data <= max_data_size c ->
  length (level1 c data) * OutputSize <= max_data_size c.
Proof.
  intros Hc Hm. pose proof (block_size_pos' c Hc) as Hpos.
  pose proof (cw_min c Hc). pose proof output_size_pos.
  unfold level1. rewrite length_map.
  destruct (decide (data = [])) as [->|Hne]; [simpl; lia|].
  pose proof (length_chunks_pred (block_size c) data Hpos Hne) as Hp.
  unfold max_data_size in *. generalize dependent (compression_factor c ^ (MAX_LEVELS - 1)).
  intros n Hm. set (k := length (chunks _ _)) in *.
  assert (k <= n) by nia. nia.
Qed.

(** The tree recorded by a digest is good for verification: rebuilding
    the root hash from its level-1 hashes, with the same salt and block size,
    neither panics nor differs from the root hash in the descriptor. *)
Theorem rebuild_root_hash_correct sl bs st ds st' desc tree :
  new_with_salt_and_block_size sl bs = Some st ->
  update_all st ds = Some st' ->
  finalize_into_fs_verity_stuffs st' = Some (desc, tree) ->
  rebuild_root_hash tree sl bs = Some (root_hash desc).
Proof.
  intros Hnew E Ef. destruct (new_rep _ _ _ Hnew) as (Hc & Hrep & Hbs & Hsl).
  destruct (update_all_rep _ _ _ _ _ Hnew E) as [Hrep' Hle].
  rewrite (finalize_rep _ _ _ Hc Hrep') in Ef. injection Ef as <- <-.
  rewrite <- Hbs, <- Hsl. apply rebuild_root_hash_spec; [done|apply level1_digests|].
  by apply level1_length_bound.
Qed.

(** The messages hashed for a measurement. *)
Definition measurement_messages (c : FsVerityConfig) (data : bytes) : list bytes :=
  (salt_prefix (salt c) ++ descriptor_bytes (descriptor_of c data)) :: file_messages c data.

Lemma measurement_binds_data c d1 d2 m :
  config_wf c ->
  (Z.of_nat (length d1) < u64_modulus)%Z -> (Z.of_nat (length d2) < u64_modulus)%Z ->
  to_descriptor_hash (descriptor_of c d1) = Some m ->
  to_descriptor_hash (descriptor_of c d2) = Some m ->
  d1 = d2 \/ collision_in (measurement_messages c d1) (measurement_messages c d2).
Proof.
  intros Hc B1 B2 F1 F2.
  pose proof (descriptor_of_wf c d1 Hc) as W1. pose proof (descriptor_of_wf c d2 Hc) as W2.
  destruct (measurement_binds _ _ m W1 W2 F1 F2) as [Ed|[Hne Eh]]; cycle 1.
  { right. eexists _, _. split; [by left|]. split; [by left|]. done. }
  assert (length d1 = length d2) as Hlen.
  { apply (f_equal data_size) in Ed. simpl in Ed. rewrite !wrap64_small in Ed by lia. lia. }
  apply (f_equal root_hash) in Ed. simpl in Ed.
  destruct (merkle_root_binds c Hc _ _ Hlen Ed) as [->|Hcol]; [by left|right].
  eapply collision_in_mono; [..|exact Hcol]; intros x Hx; by right.
Qed.

(** C6: the verity measurement binds the content: two byte streams with the
    same measurement (computed with the same salt and block size, each
    shorter than [2 ^ 64] bytes) are equal, or two of the messages hashed for
    them collide. *)
Theorem measurement_binds_content sl bs st ds1 ds2 st1 st2 m :
  new_with_salt_and_block_size sl bs = Some st ->
  update_all st ds1 = Some st1 -> update_all st ds2 = Some st2 ->
  (Z.of_nat (length (concat ds1)) < u64_modulus)%Z ->
  (Z.of_nat (length (concat ds2)) < u64_modulus)%Z ->
  finalize_into st1 = Some m -> finalize_into st2 = Some m ->
  concat ds1 = concat ds2 \/
  collision_in (measurement_messages (config st) (concat ds1))
    (measurement_messages (config st) (concat ds2)).
Proof.
  intros Hnew E1 E2 B1 B2 F1 F2. destruct (new_rep _ _ _ Hnew) as (Hc & _).
  apply (update_all_rep _ _ _ _ _ Hnew) in E1 as [E1 _], E2 as [E2 _].
  unfold finalize_into in F1, F2.
  rewrite (finalize_rep _ _ _ Hc E1) in F1. rewrite (finalize_rep _ _ _ Hc E2) in F2.
  by apply (measurement_binds_data _ _ _ m).
Qed.
End Roundtrip.

(** ** Concrete instances *)

Section Instances.
#[local] Existing Instance toy1.

Definition toy_config (sl : bytes) : FsVerityConfig :=
  default (mkConfig 0 [] digest_new) (config_new 4 sl).

Lemma toy_config_wf sl : is_none (config_new 4 sl) = false -> config_wf (toy_config sl).
Proof.
  intros E. apply (some_default _ (mkConfig 0 [] digest_new)) in E.
  by apply config_new_wf in E as [? _].
Qed.

Lemma verify_data_block_correct_witness :
  verify_data_block (level1 (toy_config []) (mk [1; 2; 3; 4; 5]%Z)) 1 4 (mk [5%Z]) = Some true.
Proof.
  refine (proj1 (verify_data_block_correct (toy_config []) (mk [1; 2; 3; 4; 5]%Z) 1 (mk [5%Z])
    _ _) _).
  - by apply toy_config_wf.
  - reflexivity.
  - reflexivity.
Defined.

(** The toy hash is weak enough to have a known collision. *)
Lemma salted_blocks_never_verify_witness :
  exists b0, chunks 4 (mk [1%Z]) !! 0 = Some b0 /\
    let x := salt_prefix (mk [9%Z]) ++ pad_to 4 b0 in
    let y := pad_to 4 (mk [0; 0; 217; 57]%Z) in
    length y < length x /\ hash x = hash y.
Proof.
  apply (salted_blocks_never_verify (toy_config (mk [9%Z])) (mk [1%Z]) 0
    (mk [0; 0; 217; 57]%Z)).
  - discriminate.
  - vm_compute. reflexivity.
Defined.

Lemma rebuild_root_hash_correct_witness :
  exists desc tree, finalize_into_fs_verity_stuffs toy_written = Some (desc, tree) /\
    rebuild_root_hash tree (mk [9%Z]) 4 = Some (root_hash desc).
Proof.
  set (r := finalize_into_fs_verity_stuffs toy_written).
  set (p := default (mkDescriptor 0 0 0 0 [] [], []) r).
  assert (r = Some p) as Er by (apply some_default; vm_compute; reflexivity).
  exists (fst p), (snd p). split; [rewrite Er; by destruct p|].
  apply (rebuild_root_hash_correct (mk [9%Z]) 4 toy_state toy_writes toy_written).
  - exact toy_digest_eq.
  - apply some_default. vm_compute. reflexivity.
  - fold r. rewrite Er. by destruct p.
Defined.

Definition toy_measure (ds : list bytes) : option bytes :=
  st ← update_all toy_state ds; finalize_into st.

Lemma measurement_binds_content_witness :
  concat [mk [1; 2]; mk [3]]%Z = concat [mk [1]; mk [2; 3]]%Z \/
  collision_in (measurement_messages (config toy_state) (concat [mk [1; 2]; mk [3]]%Z))
    (measurement_messages (config toy_state) (concat [mk [1]; mk [2; 3]]%Z)).
Proof.
  apply (measurement_binds_content (mk [9%Z]) 4 toy_state [mk [1; 2]; mk [3]]%Z
    [mk [1]; mk [2; 3]]%Z
    (default toy_state (update_all toy_state [mk [1; 2]; mk [3]]%Z))
    (default toy_state (update_all toy_state [mk [1]; mk [2; 3]]%Z))
    (default [] (toy_measure [mk [1; 2]; mk [3]]%Z)) toy_digest_eq).
  1, 2: apply some_default; vm_compute; reflexivity.
  1, 2: vm_compute; reflexivity.
  all: vm_compute; reflexivity.
Defined.
End Instances.
