(* ===== verification/FileVerifier.v ===== *)
(** * Verity information of files and the inode table

    [verity-fuse/src/file_verifier/]: [FileVerityInfo], a file's descriptor,
    recorded tree and expected measurement with its self check;
    [VerifiableFile] and [FileVerifier], the interface the file system is
    written against; and [VerityVerifier], which numbers the files of the
    metadata and their parent directories. *)

From Stdlib Require Import Ascii.
From stdpp Require Import base list numbers option strings gmap.
From Stdlib Require Import ZArith Lia.
From S2P Require Import Prelude Slices InnerHash Descriptor VerityDigest MerkleSpec ToyHash.
From S2P Require Import MerkleTree.

(** ** External crates *)

(** [hex::encode] and [hex::decode]. *)
Class Hex := {
  hex_encode : bytes -> string;
  hex_decode : string -> option bytes;
}.

(** [hex] documents decoding as the inverse of encoding. *)
Class HexSpec `{Hex} : Prop := {
  hex_decode_encode b : hex_decode (hex_encode b) = Some b;
}.

Lemma hex_encode_inj `{HexSpec} a b : hex_encode a = hex_encode b -> a = b.
Proof. intros E%(f_equal hex_decode). rewrite !hex_decode_encode in E. congruence. Qed.

(** The crate [relative_path]: paths compared by components. *)
Class RelativePath := {
  RelPath : Type;
  RelPath_eq_dec :: EqDecision RelPath;
  RelPath_countable :: Countable RelPath;
  rp_from : string -> RelPath;
  rp_is_empty : RelPath -> bool;
  rp_parent : RelPath -> option RelPath;
  rp_join : RelPath -> RelPath -> RelPath;
  rp_depth : RelPath -> nat;
}.

(** The parent is the path without its final component; the empty string is
    the only empty path. *)
Class RelativePathSpec `{RelativePath} : Prop := {
  rp_parent_depth p q : rp_parent p = Some q -> rp_depth q < rp_depth p;
  rp_empty_iff p : rp_is_empty p = true <-> p = rp_from "";
}.

(** ** [FileVerityInfo] *)

Record FileVerityInfo := mkInfo {
  info_path : string;
  descriptor : FsVerityDescriptor;
  info_tree : MerkleTree;
  descriptor_hash : string;
}.

Inductive VerifySelfError :=
| DescriptorHashMismatch (expected got : string)
| RootHashMismatch (expected got : bytes).

Section FileVerityInfo.
Context `{InnerHash, Hex}.

Definition verify_self (self : FileVerityInfo) : result VerifySelfError unit :=
  let? h := unwrap (to_descriptor_hash (descriptor self)) in
  let calculated_descriptor_hash := hex_encode h in
  if decide (calculated_descriptor_hash <> descriptor_hash self)
  then Err (DescriptorHashMismatch (descriptor_hash self) calculated_descriptor_hash)
  else
    let? root := unwrap (rebuild_root_hash (info_tree self) (desc_salt (descriptor self))
      (Z.to_nat (descriptor_block_size (descriptor self)))) in
    if decide (root <> root_hash (descriptor self))
    then Err (RootHashMismatch (root_hash (descriptor self)) root)
    else Ok tt.
End FileVerityInfo.

(** ** The interface of a verifier *)

(** [trait VerifiableFile]. *)
Class VerifiableFile `{RelativePath} (F : Type) := {
  file_ino : F -> Z;
  file_path : F -> RelPath;
  expected_size : F -> option Z;
  file_block_size : F -> option Z;
  file_verify_data_block : F -> nat -> bytes -> result unit unit;
}.

(** [trait FileVerifier]. *)
Class FileVerifier `{RelativePath} (V F : Type) := {
  lookup_by_ino : V -> Z -> option F;
  lookup_by_path : V -> RelPath -> option F;
}.

(** ** [VerityVerifier] *)

Definition ROOT_INO : Z := 1.
Definition ROOT_PATH : string := "".

Inductive EntryKind `{RelativePath} :=
| VerityEnabled (info : FileVerityInfo)
| Directory (path : RelPath).

Record FsEntry `{RelativePath} := mkEntry {
  ino : Z;
  kind : EntryKind;
}.
Arguments mkEntry {_}.
Arguments ino {_}.
Arguments kind {_}.

Section FsEntry.
Context `{InnerHash, RelativePath}.

Definition kind_path (k : EntryKind) : RelPath :=
  match k with
  | VerityEnabled info => rp_from (info_path info)
  | Directory path => path
  end.

Definition entry_path (self : FsEntry) : RelPath := kind_path (kind self).

Definition entry_expected_size (self : FsEntry) : option Z :=
  match kind self with
  | VerityEnabled info => Some (data_size (descriptor info))
  | Directory _ => None
  end.

(** [block_size() as u32]. *)
Definition entry_block_size (self : FsEntry) : option Z :=
  match kind self with
  | VerityEnabled info => Some (descriptor_block_size (descriptor info) mod 2 ^ 32)%Z
  | Directory _ => None
  end.

Definition entry_verify_data_block (self : FsEntry) (block_index : nat) (data : bytes)
  : result unit unit :=
  match kind self with
  | VerityEnabled info =>
    let block_size := Z.to_nat (descriptor_block_size (descriptor info)) in
    let? is_valid := unwrap (verify_data_block (info_tree info) block_index block_size data) in
    if negb is_valid then Err tt else Ok tt
  | Directory _ => Err tt
  end.

#[export] Instance FsEntry_VerifiableFile : VerifiableFile FsEntry := {
  file_ino := ino;
  file_path := entry_path;
  expected_size := entry_expected_size;
  file_block_size := entry_block_size;
  file_verify_data_block := entry_verify_data_block;
}.
End FsEntry.

Record VerityVerifier `{RelativePath} := mkVerifier {
  path_to_ino : gmap RelPath Z;
  ino_to_file : gmap Z FsEntry;
  next_ino : Z;
}.
Arguments mkVerifier {_}.
Arguments path_to_ino {_}.
Arguments ino_to_file {_}.
Arguments next_ino {_}.

Section VerityVerifier.
Context `{RelativePath}.

Definition register_entry (self : VerityVerifier) (path : RelPath) (kind : EntryKind)
  : VerityVerifier :=
  let ino := next_ino self in
  {| next_ino := wrap64 (ino + 1);
     path_to_ino := <[path := ino]> (path_to_ino self);
     ino_to_file := <[ino := mkEntry ino kind]> (ino_to_file self) |}.

(** The [while let Some(parent)] loop; [fuel] bounds the number of parents. *)
Fixpoint register_parents (fuel : nat) (self : VerityVerifier) (current : RelPath)
  : VerityVerifier :=
  match fuel with
  | O => self
  | S fuel =>
    match rp_parent current with
    | None => self
    | Some parent =>
      if rp_is_empty parent then self
      else
        let self :=
          match path_to_ino self !! parent with
          | Some _ => self
          | None => register_entry self parent (Directory parent)
          end in
        register_parents fuel self parent
    end
  end.

Definition register_info (self : VerityVerifier) (info : FileVerityInfo) : VerityVerifier :=
  let path := rp_from (info_path info) in
  let self := register_parents (S (rp_depth path)) self path in
  register_entry self path (VerityEnabled info).

Definition verifier_new (file_infos : list FileVerityInfo) : VerityVerifier :=
  let verifier := {| path_to_ino := ∅; ino_to_file := ∅; next_ino := ROOT_INO |} in
  let verifier := register_entry verifier (rp_from ROOT_PATH) (Directory (rp_from ROOT_PATH)) in
  foldl register_info verifier file_infos.

#[export] Instance VerityVerifier_FileVerifier : FileVerifier VerityVerifier FsEntry := {
  lookup_by_ino self ino := ino_to_file self !! ino;
  lookup_by_path self path := ino ← path_to_ino self !! path; ino_to_file self !! ino;
}.
End VerityVerifier.

(** ** The inode table *)

Section Table.
Context `{RelativePathSpec}.
Implicit Types (v : VerityVerifier) (p q : RelPath).

(** The proper ancestors of a path below the root, nearest first. *)
Fixpoint ancestors_aux (fuel : nat) p : list RelPath :=
  match fuel with
  | O => []
  | S fuel =>
    match rp_parent p with
    | None => []
    | Some q => if rp_is_empty q then [] else q :: ancestors_aux fuel q
    end
  end.

Definition ancestors p : list RelPath := ancestors_aux (S (rp_depth p)) p.

(** The number of parents never exceeds the depth, so more fuel changes
    nothing. *)
Lemma ancestors_aux_enough f1 f2 p :
  rp_depth p < f1 -> rp_depth p < f2 -> ancestors_aux f1 p = ancestors_aux f2 p.
Proof.
  revert f2 p. induction f1 as [|f1 IH]; intros f2 p H1 H2; [lia|].
  destruct f2 as [|f2]; [lia|]. simpl. destruct (rp_parent p) as [q|] eqn:E; [|done].
  destruct (rp_is_empty q); [done|]. f_equal.
  apply rp_parent_depth in E. apply IH; lia.
Qed.

(** The tables agree: a path's inode has an entry with that inode and path,
    and the numbers in use are below the next one. *)
Record verifier_wf v : Prop := {
  vw_path p i : path_to_ino v !! p = Some i ->
    exists e, ino_to_file v !! i = Some e /\ entry_path e = p;
  vw_ino i e : ino_to_file v !! i = Some e -> ino e = i /\ (ROOT_INO <= i < next_ino v)%Z;
  vw_next : (ROOT_INO <= next_ino v < u64_modulus)%Z;
}.

Definition lookup_kind v p : option EntryKind := kind <$> lookup_by_path v p.

(** Room for [n] more entries before the counter wraps. *)
Definition room v (n : nat) : Prop := (next_ino v + Z.of_nat n < u64_modulus)%Z.

Lemma lookup_kind_none v p :
  verifier_wf v -> lookup_kind v p = None <-> path_to_ino v !! p = None.
Proof.
  intros Hv. unfold lookup_kind. simpl. destruct (path_to_ino v !! p) as [i|] eqn:E; [|done].
  destruct (vw_path v Hv p i E) as (e & Ee & _). simpl. by rewrite Ee.
Qed.

Lemma register_entry_next v p k n :
  verifier_wf v -> room v (S n) ->
  next_ino (register_entry v p k) = (next_ino v + 1)%Z /\ room (register_entry v p k) n.
Proof.
  intros Hv Hr. pose proof (vw_next v Hv) as Hn. unfold room, ROOT_INO in *.
  assert (next_ino (register_entry v p k) = next_ino v + 1)%Z as E
    by (simpl; apply wrap64_small; lia).
  split; [done|]. rewrite E. lia.
Qed.

Lemma register_entry_wf v p k n :
  verifier_wf v -> room v (S n) -> kind_path k = p ->
  verifier_wf (register_entry v p k).
Proof.
  intros Hv Hr Hk. destruct (register_entry_next v p k n Hv Hr) as [En Hr'].
  pose proof (vw_next v Hv) as Hn.
  constructor.
  - intros q i. simpl. rewrite lookup_insert_Some. intros [[<- <-]|[Hne E]].
    + eexists. by rewrite lookup_insert_eq.
    + destruct (vw_path v Hv q i E) as (e & Ee & Hp). exists e. split; [|done].
      rewrite lookup_insert_ne; [done|]. apply (vw_ino v Hv) in Ee. lia.
  - intros i e E. rewrite En. simpl in E. apply lookup_insert_Some in E as [[<- <-]|[Hne E]].
    + simpl. lia.
    + apply (vw_ino v Hv) in E. lia.
  - rewrite En. unfold room in Hr. lia.
Qed.

Lemma register_entry_lookup v p k q :
  verifier_wf v ->
  lookup_kind (register_entry v p k) q = if decide (q = p) then Some k else lookup_kind v q.
Proof.
  intros Hv. unfold lookup_kind. simpl. destruct (decide (q = p)) as [->|Hne].
  - rewrite lookup_insert_eq. simpl. by rewrite lookup_insert_eq.
  - rewrite lookup_insert_ne by done. destruct (path_to_ino v !! q) as [i|] eqn:E; [|done].
    simpl. destruct (vw_path v Hv q i E) as (e & Ee & _).
    rewrite lookup_insert_ne; [done|]. apply (vw_ino v Hv) in Ee. lia.
Qed.

Lemma register_parents_spec f v p n :
  verifier_wf v -> room v (length (ancestors_aux f p) + n) ->
  let v' := register_parents f v p in
  verifier_wf v' /\ room v' n /\
  forall q, lookup_kind v' q =
    match lookup_kind v q with
    | Some k => Some k
    | None => if decide (q ∈ ancestors_aux f p) then Some (Directory q) else None
    end.
Proof.
  revert v p. induction f as [|f IH]; intros v p Hv Hr;
    cbn [register_parents ancestors_aux] in *.
  { split; [done|]. split; [done|]. intros q.
    destruct (lookup_kind v q); [done|]. by rewrite decide_False by apply not_elem_of_nil. }
  destruct (rp_parent p) as [r|]; [destruct (rp_is_empty r)|].
  1, 3: split; [done|]; split; [done|]; intros q; destruct (lookup_kind v q); [done|];
    by rewrite decide_False by apply not_elem_of_nil.
  cbn [length Nat.add] in Hr. destruct (path_to_ino v !! r) as [i|] eqn:E.
  - destruct (IH v r Hv) as (Hv' & Hr' & Hq); [unfold room in *; lia|].
    do 2 (split; [done|]). intros q. rewrite Hq.
    destruct (lookup_kind v q) eqn:Eq; [done|].
    apply decide_ext. rewrite elem_of_cons. split; [auto|]. intros [->|?]; [|done].
    apply lookup_kind_none in Eq; [|done]. congruence.
  - pose proof (register_entry_wf v r (Directory r) _ Hv Hr eq_refl) as Hv1.
    destruct (register_entry_next v r (Directory r) _ Hv Hr) as [_ Hr1].
    destruct (IH _ r Hv1 Hr1) as (Hv' & Hr' & Hq).
    do 2 (split; [done|]). intros q. rewrite Hq, register_entry_lookup by done.
    destruct (decide (q = r)) as [->|Hne].
    + apply lookup_kind_none in E; [|done]. rewrite E. rewrite decide_True; [done|].
      by constructor.
    + destruct (lookup_kind v q); [done|]. apply decide_ext. rewrite elem_of_cons.
      split; [auto|]. by intros [?|?].
Qed.

Definition path_of (info : FileVerityInfo) : RelPath := rp_from (info_path info).

(** The last file of the list with the path [p]. *)
Definition last_info p (infos : list FileVerityInfo) : option FileVerityInfo :=
  foldl (fun acc info => if decide (path_of info = p) then Some info else acc) None infos.

(** What the table should hold at [p]. *)
Definition spec_kind (infos : list FileVerityInfo) p : option EntryKind :=
  match last_info p infos with
  | Some info => Some (VerityEnabled info)
  | None =>
    if decide (p = rp_from ROOT_PATH \/ Exists (fun info => p ∈ ancestors (path_of info)) infos)
    then Some (Directory p) else None
  end.

(** At most this many entries are registered. *)
Definition entry_cost (info : FileVerityInfo) : nat := S (length (ancestors (path_of info))).

Definition entry_count (infos : list FileVerityInfo) : nat := 1 + sum_list_with entry_cost infos.

Lemma register_info_spec v info n :
  verifier_wf v -> room v (entry_cost info + n) ->
  let v' := register_info v info in
  verifier_wf v' /\ room v' n /\
  forall q, lookup_kind v' q =
    if decide (q = path_of info) then Some (VerityEnabled info)
    else match lookup_kind v q with
      | Some k => Some k
      | None => if decide (q ∈ ancestors (path_of info)) then Some (Directory q) else None
      end.
Proof.
  intros Hv Hr. unfold register_info. fold (path_of info).
  destruct (register_parents_spec (S (rp_depth (path_of info))) v (path_of info) (S n) Hv)
    as (Hv' & Hr' & Hq).
  { fold (ancestors (path_of info)). unfold room, entry_cost in *. lia. }
  fold (ancestors (path_of info)) in Hq.
  set (v' := register_parents _ v (path_of info)) in *.
  split; [by eapply register_entry_wf|]. split; [by eapply register_entry_next|].
  intros q. rewrite register_entry_lookup by done. by rewrite Hq.
Qed.

Lemma last_info_app p infos info :
  last_info p (infos ++ [info]) =
    if decide (path_of info = p) then Some info else last_info p infos.
Proof. unfold last_info. by rewrite foldl_app. Qed.

Lemma verifier_new_app infos info :
  verifier_new (infos ++ [info]) = register_info (verifier_new infos) info.
Proof. unfold verifier_new. by rewrite foldl_app. Qed.

Lemma spec_kind_app infos info q :
  spec_kind (infos ++ [info]) q =
    if decide (q = path_of info) then Some (VerityEnabled info)
    else match spec_kind infos q with
      | Some k => Some k
      | None => if decide (q ∈ ancestors (path_of info)) then Some (Directory q) else None
      end.
Proof.
  unfold spec_kind. rewrite last_info_app.
  destruct (decide (path_of info = q)) as [E|E].
  { by rewrite decide_True by done. }
  rewrite (decide_False (P := q = path_of info)) by congruence. destruct (last_info q infos); [done|].
  destruct (decide (q = rp_from ROOT_PATH \/ Exists _ infos)) as [Hd|Hd].
  - rewrite decide_True; [done|]. rewrite Exists_app. tauto.
  - apply decide_ext. rewrite Exists_app, Exists_cons, Exists_nil. tauto.
Qed.

Lemma verifier_new_spec infos n :
  (Z.of_nat (1 + entry_count infos + n) < u64_modulus)%Z ->
  verifier_wf (verifier_new infos) /\ room (verifier_new infos) n /\
  forall p, lookup_kind (verifier_new infos) p = spec_kind infos p.
Proof.
  revert n. induction infos as [|info infos IH] using rev_ind; intros n Hn.
  - unfold entry_count in Hn. simpl in Hn.
    set (v0 := {| path_to_ino := ∅; ino_to_file := ∅; next_ino := ROOT_INO |}).
    assert (verifier_wf v0) as Hv0 by (split; simpl; [by intros ?? ?%lookup_empty_Some..|done]).
    assert (room v0 (S n)) as Hr0 by (unfold room; simpl; unfold ROOT_INO; lia).
    split; [by eapply register_entry_wf|]. split; [by eapply register_entry_next|].
    intros p. change (verifier_new []) with
      (register_entry v0 (rp_from ROOT_PATH) (Directory (rp_from ROOT_PATH))).
    rewrite register_entry_lookup by done. unfold spec_kind. simpl last_info.
    destruct (decide (p = rp_from ROOT_PATH)) as [->|Hp].
    + by rewrite decide_True by auto.
    + rewrite decide_False; [done|]. rewrite Exists_nil. tauto.
  - rewrite verifier_new_app. unfold entry_count in *.
    rewrite sum_list_with_app in Hn. cbn [sum_list_with] in Hn.
    destruct (IH (entry_cost info + n)) as (Hv & Hr & Hq); [lia|].
    destruct (register_info_spec _ info n Hv Hr) as (Hv' & Hr' & Hq').
    do 2 (split; [done|]). intros p. by rewrite Hq', Hq, spec_kind_app.
Qed.
End Table.

Section TableProperty.
Context `{RelativePathSpec}.

(** C31: the inode table built from the metadata: every recorded file is found
    under its path with its own verity information (the last one if a path
    is repeated), every parent directory and the root are found as
    directories, nothing else is found; an entry found by path is the one
    found by its inode, and distinct paths have distinct inodes. *)
Theorem verifier_new_correct infos :
  (Z.of_nat (1 + entry_count infos) < u64_modulus)%Z ->
  let v := verifier_new infos in
  (forall p, lookup_kind v p = spec_kind infos p) /\
  (forall p e, lookup_by_path v p = Some e ->
    lookup_by_ino v (ino e) = Some e /\ entry_path e = p) /\
  (forall p q e f, lookup_by_path v p = Some e -> lookup_by_path v q = Some f ->
    ino e = ino f -> p = q).
Proof.
  intros Hn v. destruct (verifier_new_spec infos 0) as (Hv & _ & Hq); [lia|].
  assert (forall p e, lookup_by_path v p = Some e ->
    lookup_by_ino v (ino e) = Some e /\ entry_path e = p) as Hp.
  { intros p e E. simpl in E. destruct (path_to_ino v !! p) as [i|] eqn:Ei; [|done].
    simpl in E. destruct (vw_path v Hv p i Ei) as (e' & Ee' & <-).
    destruct (vw_ino v Hv i e E) as [Hi _]. simpl. rewrite Hi. split; [done|congruence]. }
  split; [done|]. split; [done|]. intros p q e f Ee Ef Eino.
  apply Hp in Ee as [Ee <-], Ef as [Ef <-]. rewrite Eino in Ee. congruence.
Qed.
End TableProperty.

(** ** What the self check and block checks establish *)

Section Authenticity.
Context `{InnerHashSpec, HexSpec, RelativePath}.

Lemma descriptor_block_size_of c data :
  config_wf c -> (Z.of_nat (block_size c) < u64_modulus)%Z ->
  Z.to_nat (descriptor_block_size (descriptor_of c data)) = block_size c.
Proof.
  intros Hc Hb. destruct (cw_pow2 c Hc) as [k Hk].
  unfold descriptor_block_size, descriptor_of. simpl.
  rewrite Hk in *. rewrite Nat.log2_pow2 by lia. rewrite Nat2Z.inj_pow in Hb.
  assert (k < 64).
  { destruct (decide (k < 64)); [done|]. exfalso. unfold u64_modulus in Hb.
    pose proof (Z.pow_le_mono_r 2 64 (Z.of_nat k) ltac:(lia) ltac:(lia)). lia. }
  rewrite (Z.mod_small _ 256), (Z.mod_small _ 64) by lia.
  rewrite Z.shiftl_1_l, wrap64_small.
  - apply Nat2Z.inj. rewrite Z2Nat.id by (apply Z.pow_nonneg; lia).
    by rewrite Nat2Z.inj_pow.
  - split; [apply Z.pow_nonneg; lia|done].
Qed.

(** The information recorded for a file. *)
Definition info_of (path : string) (c : FsVerityConfig) (data : bytes) (tree : MerkleTree)
  : FileVerityInfo :=
  {| info_path := path; descriptor := descriptor_of c data; info_tree := tree;
     descriptor_hash :=
       hex_encode (hash (salt_prefix (salt c) ++ descriptor_bytes (descriptor_of c data))) |}.

Lemma verify_self_info_of path c data tree :
  config_wf c -> (Z.of_nat (block_size c) < u64_modulus)%Z ->
  rebuild_root_hash tree (salt c) (block_size c) = Some (merkle_root c data) ->
  verify_self (info_of path c data tree) = Ok tt.
Proof.
  intros Hc Hb Hr. unfold verify_self. simpl descriptor.
  rewrite to_descriptor_hash_spec by by apply descriptor_of_wf. simpl unwrap. cbn [rbind].
  rewrite decide_False by (intros E; by apply E).
  rewrite descriptor_block_size_of by done. simpl desc_salt. simpl info_tree.
  rewrite Hr. simpl unwrap. cbn [rbind]. by rewrite decide_False by (intros E; by apply E).
Qed.

(** What the digest computes for a file passes the self check of the file
    verifier. *)
Theorem verify_self_accepts path sl bs st ds st' desc tree m :
  new_with_salt_and_block_size sl bs = Some st ->
  (Z.of_nat bs < u64_modulus)%Z ->
  update_all st ds = Some st' ->
  finalize_into_fs_verity_stuffs st' = Some (desc, tree) ->
  finalize_into st' = Some m ->
  verify_self (mkInfo path desc tree (hex_encode m)) = Ok tt.
Proof.
  intros Hnew Hb E Ef Em. destruct (new_rep _ _ _ Hnew) as (Hc & _ & Hbs & Hsl).
  destruct (update_all_rep _ _ _ _ _ Hnew E) as [Hrep Hle].
  rewrite (finalize_rep _ _ _ Hc Hrep) in Ef. injection Ef as <- <-.
  rewrite (finalize_into_rep _ _ _ Hc Hrep) in Em. injection Em as <-.
  apply (verify_self_info_of path (config st)); [done|by rewrite Hbs|].
  apply rebuild_root_hash_spec; [done|apply level1_digests|by apply level1_length_bound].
Qed.

Lemma verify_self_ok info :
  verify_self info = Ok tt ->
  exists h, to_descriptor_hash (descriptor info) = Some h /\
    hex_encode h = descriptor_hash info /\
    rebuild_root_hash (info_tree info) (desc_salt (descriptor info))
      (Z.to_nat (descriptor_block_size (descriptor info))) = Some (root_hash (descriptor info)).
Proof.
  unfold verify_self.
  destruct (to_descriptor_hash (descriptor info)) as [h|]; [|done]. simpl unwrap. cbn [rbind].
  destruct (decide (hex_encode h <> _)) as [|E1]; [done|].
  destruct (rebuild_root_hash _ _ _) as [r|]; [|done]. simpl unwrap. cbn [rbind].
  destruct (decide (r <> _)) as [|E2]; [done|]. intros _.
  apply dec_stable in E1, E2. subst r. by exists h.
Qed.

(** An accepted tree with the right number of hashes is the file's own. *)
Lemma verify_self_tree c data info m :
  config_wf c -> (Z.of_nat (block_size c) < u64_modulus)%Z ->
  (Z.of_nat (length data) < u64_modulus)%Z -> length data <= max_data_size c ->
  m = hash (salt_prefix (salt c) ++ descriptor_bytes (descriptor_of c data)) ->
  verify_self info = Ok tt -> descriptor_hash info = hex_encode m ->
  descriptor_wf OutputSize (descriptor info) -> digests (info_tree info) ->
  length (info_tree info) = length (level1 c data) ->
  descriptor info = descriptor_of c data /\ info_tree info = level1 c data \/
  collision_in
    ((salt_prefix (desc_salt (descriptor info)) ++ descriptor_bytes (descriptor info)) ::
      node_messages c (info_tree info))
    (measurement_messages c data).
Proof.
  intros Hc Hb Hd Hle Hm Hok Hh Hwf Hdig Hcount.
  destruct (verify_self_ok info Hok) as (h & Eh & Ehex & Er).
  rewrite Hh in Ehex. apply hex_encode_inj in Ehex as ->.
  pose proof (descriptor_of_wf c data Hc) as Hwf'.
  destruct (measurement_binds (descriptor info) (descriptor_of c data) m Hwf Hwf' Eh)
    as [Ed|[Hne Ec]].
  { by rewrite to_descriptor_hash_spec, Hm. }
  2: { right. eexists _, _. split; [by left|]. split; [by left|]. done. }
  rewrite Ed in Er. rewrite descriptor_block_size_of in Er by done. simpl in Er.
  rewrite rebuild_root_hash_spec in Er; [|done..|rewrite Hcount; by apply level1_length_bound].
  injection Er as Er.
  destruct (root_of_binds c Hc (info_tree info) (level1 c data)) as [Et|Hcol];
    [done|apply level1_digests|done|done|by left|right].
  eapply collision_in_mono; [..|exact Hcol]; intros x Hx; right; [done|].
  unfold file_messages. apply in_or_app. by right.
Qed.

Lemma entry_verify_ok n info k b :
  entry_verify_data_block (mkEntry n (VerityEnabled info)) k b = Ok tt <->
  verify_data_block (info_tree info) k
    (Z.to_nat (descriptor_block_size (descriptor info))) b = Some true.
Proof.
  unfold entry_verify_data_block. cbn [kind].
  rewrite verify_data_block_spec. cbn [unwrap rbind].
  destruct (bool_decide _); simpl; split; congruence.
Qed.

(** A block accepted by the file's own tree is its block, or collides. *)
Lemma own_block_or_collision c data k b :
  salt c = [] -> verify_data_block (level1 c data) k (block_size c) b = Some true ->
  (exists b0, chunks (block_size c) data !! k = Some b0 /\ pad_to (block_size c) b = pad_to (block_size c) b0) \/
  collision_in [pad_to (block_size c) b] (measurement_messages c data).
Proof.
  intros Hsl (b0 & Hb0 & [Heq|[Hne Hcol]])%verify_data_block_sound; [| |done].
  - left. by exists b0.
  - right. exists (pad_to (block_size c) b), (pad_to (block_size c) b0).
    split; [by left|]. split; [|done]. right. apply in_or_app. left.
    apply in_map_iff. exists b0. split; [unfold block_message; by rewrite Hsl|].
    apply list_elem_of_In. by eapply list_elem_of_lookup_2.
Qed.

(** C2: end to end, for unsalted files: if the information recorded for a
    file passes the self check against the pinned measurement of some data,
    and its tree has one hash per block of that data, then every block that
    verifies at index [k] is the [k]-th block of the data up to trailing
    zeros, or the messages hashed on the way contain a collision. *)
Theorem verified_block_authentic sl bs st ds st' m info n k b :
  new_with_salt_and_block_size sl bs = Some st ->
  sl = [] -> (Z.of_nat bs < u64_modulus)%Z ->
  update_all st ds = Some st' -> finalize_into st' = Some m ->
  (Z.of_nat (length (concat ds)) < u64_modulus)%Z ->
  verify_self info = Ok tt -> descriptor_hash info = hex_encode m ->
  descriptor_wf OutputSize (descriptor info) -> digests (info_tree info) ->
  length (info_tree info) = length (chunks bs (concat ds)) ->
  entry_verify_data_block (mkEntry n (VerityEnabled info)) k b = Ok tt ->
  (exists b0, chunks bs (concat ds) !! k = Some b0 /\ pad_to bs b = pad_to bs b0) \/
  collision_in
    ((salt_prefix (desc_salt (descriptor info)) ++ descriptor_bytes (descriptor info)) ::
      pad_to bs b :: node_messages (config st) (info_tree info))
    (measurement_messages (config st) (concat ds)).
Proof.
  intros Hnew Hsl0 Hb E Em Hd Hok Hh Hwf Hdig Hcount Hver.
  destruct (new_rep _ _ _ Hnew) as (Hc & _ & Hbs & Hsl).
  destruct (update_all_rep _ _ _ _ _ Hnew E) as [Hrep Hle].
  rewrite (finalize_into_rep _ _ _ Hc Hrep) in Em. injection Em as Em.
  set (c := config st) in *. set (data := concat ds) in *. rewrite <- Hbs in *.
  destruct (verify_self_tree c data info m) as [[Ed Et]|Hcol]; try done.
  { unfold level1. by rewrite length_map. }
  2: { right. eapply collision_in_mono; [|apply incl_refl|exact Hcol].
       intros x [<-|Hx]; simpl; auto. }
  apply entry_verify_ok in Hver. rewrite Ed, Et, descriptor_block_size_of in Hver by done.
  apply own_block_or_collision in Hver as [?|Hcol]; [by left|right|congruence].
  eapply collision_in_mono; [|apply incl_refl|exact Hcol]. intros x [<-|[]]; simpl; auto.
Qed.

(** The number of level-1 hashes is not checked against the file size.
    For a file of at least two blocks whose hashes fit in one tree block, the
    one-element tree that holds just the root hash passes the self check
    against the genuine measurement, and the file's first block then verifies
    with the concatenated level-1 hashes as its content. *)
Theorem truncated_tree_accepted path c data n :
  config_wf c -> salt c = [] -> (Z.of_nat (block_size c) < u64_modulus)%Z ->
  2 <= length (level1 c data) <= compression_factor c ->
  let info := info_of path c data [merkle_root c data] in
  verify_self info = Ok tt /\
  entry_verify_data_block (mkEntry n (VerityEnabled info)) 0
    (level1_as_bytes (level1 c data)) = Ok tt.
Proof.
  intros Hc Hs Hb Hl info. split; [by apply verify_self_info_of|].
  apply entry_verify_ok. unfold info. cbn [descriptor info_tree info_of].
  rewrite descriptor_block_size_of by done. rewrite verify_data_block_spec. f_equal.
  apply bool_decide_eq_true. unfold level1_as_bytes.
  rewrite (length_concat_full _ _ (level1_digests c data)), (block_size_cf c Hc).
  split; [nia|]. cbn. f_equal. unfold merkle_root.
  rewrite (root_of_step c Hc) by lia.
  rewrite <- (block_size_cf c Hc).
  pose proof (next_level_app c Hc [] (level1 c data) (List.Forall_nil _)) as HN. simpl in HN.
  rewrite HN by lia. unfold root_of, group_hash, block_hash. simpl. by rewrite Hs.
Qed.
End Authenticity.

(** ** Concrete instances *)

Section Instances.
#[local] Existing Instance toy1.

(** An injective text form: one character per byte. *)
Definition toy_hex : Hex := {|
  hex_encode b := String.string_of_list_byte b;
  hex_decode s := Some (String.list_byte_of_string s);
|}.

Lemma toy_hex_spec : @HexSpec toy_hex.
Proof. constructor. intros b. simpl. f_equal. apply String.list_byte_of_string_of_list_byte. Qed.

(** Paths as lists of components. *)
Fixpoint split_slash (acc : string) (s : string) : list string :=
  match s with
  | EmptyString => [acc]
  | String a s =>
    if decide (a = "/"%char) then acc :: split_slash "" s
    else split_slash (acc ++ String a "") s
  end.

Definition toy_path : RelativePath := {|
  RelPath := list string;
  rp_from s := filter (fun c => c <> "") (split_slash "" s);
  rp_is_empty p := bool_decide (p = []);
  rp_parent p := if decide (p = []) then None else Some (removelast p);
  rp_join p q := p ++ q;
  rp_depth p := length p;
|}.

Lemma toy_path_spec : @RelativePathSpec toy_path.
Proof.
  constructor; simpl.
  - intros p q E. destruct (decide (p = [])) as [->|Hp]; [done|]. injection E as <-.
    destruct (exists_last Hp) as (l & a & ->). rewrite removelast_last, length_app. simpl. lia.
  - intros p. apply bool_decide_eq_true.
Qed.

#[local] Existing Instances toy_hex toy_hex_spec toy_path toy_path_spec.

Definition toy_data : bytes := mk [1; 2; 3; 4; 5; 6; 7]%Z.

Definition toy_info (path : string) : FileVerityInfo :=
  info_of path (toy_config []) toy_data (level1 (toy_config []) toy_data).

Lemma verifier_new_correct_witness :
  lookup_kind (verifier_new [toy_info "etc/app/conf"; toy_info "bin/sh"]) (rp_from "etc/app") =
    spec_kind [toy_info "etc/app/conf"; toy_info "bin/sh"] (rp_from "etc/app") /\
  spec_kind [toy_info "etc/app/conf"; toy_info "bin/sh"] (rp_from "etc/app") =
    Some (Directory ["etc"; "app"]).
Proof.
  split; [|vm_compute; reflexivity].
  refine (proj1 (verifier_new_correct [toy_info "etc/app/conf"; toy_info "bin/sh"] _) _).
  vm_compute. reflexivity.
Defined.

Definition toy_unsalted : FsVerityDigest := mkDigest (toy_config []) [] [].

Lemma toy_unsalted_eq : new_with_salt_and_block_size [] 4 = Some toy_unsalted.
Proof. reflexivity. Qed.

Definition toy_unsalted_end : FsVerityDigest := default toy_unsalted (update_all toy_unsalted [toy_data]).
Definition toy_result := default (mkDescriptor 0 0 0 0 [] [], []) (finalize_into_fs_verity_stuffs toy_unsalted_end).
Definition toy_measurement : bytes := default [] (finalize_into toy_unsalted_end).

Lemma toy_unsalted_end_eq : update_all toy_unsalted [toy_data] = Some toy_unsalted_end.
Proof. apply some_default. vm_compute. reflexivity. Qed.

Lemma verify_self_accepts_witness :
  verify_self (mkInfo "f" (fst toy_result) (snd toy_result) (hex_encode toy_measurement)) = Ok tt.
Proof.
  apply (verify_self_accepts "f" [] 4 toy_unsalted [toy_data] toy_unsalted_end).
  - exact toy_unsalted_eq.
  - reflexivity.
  - exact toy_unsalted_end_eq.
  - vm_compute. reflexivity.
  - vm_compute. reflexivity.
Defined.

Lemma toy_descriptor_wf :
  @descriptor_wf (@OutputSize toy1) (descriptor (toy_info "f")).
Proof. apply (descriptor_of_wf (toy_config [])). by apply toy_config_wf. Qed.

Lemma verified_block_authentic_witness :
  (exists b0, chunks 4 (concat [toy_data]) !! 1 = Some b0 /\
    pad_to 4 (mk [5; 6; 7; 0]%Z) = pad_to 4 b0) \/
  collision_in
    ((salt_prefix [] ++ descriptor_bytes (descriptor (toy_info "f"))) ::
      pad_to 4 (mk [5; 6; 7; 0]%Z) :: node_messages (toy_config []) (info_tree (toy_info "f")))
    (measurement_messages (toy_config []) (concat [toy_data])).
Proof.
  apply (verified_block_authentic [] 4 toy_unsalted [toy_data] toy_unsalted_end toy_measurement
    (toy_info "f") 2 1 (mk [5; 6; 7; 0]%Z) toy_unsalted_eq).
  - reflexivity.
  - reflexivity.
  - exact toy_unsalted_end_eq.
  - vm_compute. reflexivity.
  - reflexivity.
  - vm_compute. reflexivity.
  - vm_compute. reflexivity.
  - exact toy_descriptor_wf.
  - repeat constructor.
  - reflexivity.
  - vm_compute. reflexivity.
Defined.

Lemma truncated_tree_accepted_witness :
  let info := info_of "f" (toy_config []) toy_data [merkle_root (toy_config []) toy_data] in
  verify_self info = Ok tt /\
  entry_verify_data_block (mkEntry 2 (VerityEnabled info)) 0
    (level1_as_bytes (level1 (toy_config []) toy_data)) = Ok tt.
Proof.
  apply (truncated_tree_accepted "f" (toy_config []) toy_data 2).
  - by apply toy_config_wf.
  - reflexivity.
  - reflexivity.
  - vm_compute. lia.
Defined.
End Instances.
