(* ===== verification/FileHandleCache.v ===== *)
(** * File handles and caches of the file system

    [verity-fuse/src/file_handle_cache.rs]: reading a whole block with
    repeated [pread] calls, the pool of open handles and the cache of verified
    blocks.  The operating system is an oracle that answers the [n]-th system
    call as it likes; the [lru] crate is an interface. *)

From stdpp Require Import base list numbers option.
From Stdlib Require Import ZArith Lia.
From S2P Require Import Prelude Slices.

Local Open Scope Z_scope.

(** ** Error numbers (libc) *)

Definition ENOENT : Z := 2.
Definition EINTR : Z := 4.
Definition EIO : Z := 5.
Definition ENOTDIR : Z := 20.
Definition EISDIR : Z := 21.
Definition EINVAL : Z := 22.
Definition EOPNOTSUPP : Z := 95.

(** [std::io::Error]: the raw OS error number, if it has one. *)
Definition io_error : Type := option Z.

Definition raw_os_error_or_eio (e : io_error) : Z := default EIO e.

(** ** [pread] *)

(** The return of [libc::pread]: an error number, or the bytes stored. *)
Inductive pread_ret :=
| PreadErr (errno : Z)
| PreadData (data : bytes).

(** A file's answers: the call number, the offset and the byte count. *)
Definition pread_oracle : Type := nat -> Z -> nat -> pread_ret.

(** A call never stores more than it was asked for. *)
Definition pread_bounded (os : pread_oracle) : Prop :=
  forall n off count data, os n off count = PreadData data -> (length data <= count)%nat.

(** [FileHandle::pread_all]: [buf] is the part of the buffer filled so far and
    [n] numbers the system calls.  [None]: still retrying after [fuel] calls. *)
Fixpoint pread_all (os : pread_oracle) (fuel n : nat) (offset : Z) (size : nat) (buf : bytes)
  : option (result io_error bytes * nat) :=
  if decide (length buf < size)%nat then
    match fuel with
    | O => None
    | S fuel =>
      match os n offset (size - length buf)%nat with
      | PreadErr e =>
        if decide (e = EINTR) then pread_all os fuel (S n) offset size buf
        else Some (Err (Some e), S n)
      | PreadData [] => Some (Ok buf, S n)
      | PreadData data =>
        pread_all os fuel (S n) (wrap64 (offset + Z.of_nat (length data))) size (buf ++ data)
      end
    end
  else Some (Ok buf, n).

(** [FileHandle::pread_file_data]. *)
Definition pread_file_data (os : pread_oracle) (fuel n : nat) (offset : Z) (size : nat)
  : option (result io_error bytes * nat) :=
  pread_all os fuel n offset size [].

(** ** The [lru] crate *)

Class LruCache (K V : Type) := {
  lru : Type;
  lru_new : nat -> lru;
  lru_get : lru -> K -> option V * lru;
  lru_put : lru -> K -> V -> lru;
  lru_peek : lru -> K -> option V;
}.
Arguments lru : clear implicits.
Arguments lru K V {_}.

(** A cache with room for at least one entry: [get] returns what is stored and
    changes the order of use only; [put] stores, and may evict others. *)
Class LruCacheSpec (K V : Type) `{LruCache K V} : Prop := {
  lru_peek_new n k : lru_peek (lru_new n) k = None;
  lru_get_peek c k : fst (lru_get c k) = lru_peek c k;
  lru_peek_get c k k' : lru_peek (snd (lru_get c k)) k' = lru_peek c k';
  lru_peek_put_eq c k v : lru_peek (lru_put c k v) k = Some v;
  lru_peek_put_ne c k v k' w :
    k' <> k -> lru_peek (lru_put c k v) k' = Some w -> lru_peek c k' = Some w;
}.

(** ** The two caches *)

Definition DEFAULT_HANDLE_CACHE_SIZE : nat := 1024.
Definition DEFAULT_BLOCK_CACHE_SIZE : nat := 4096.

(** [NonZeroUsize::new(capacity).unwrap_or(NonZeroUsize::MIN)]. *)
Definition non_zero_or_min (capacity : nat) : nat := if decide (capacity = 0%nat) then 1%nat else capacity.

Definition default_capacity : nat := DEFAULT_BLOCK_CACHE_SIZE.

Record BlockKey := mkKey {
  key_ino : Z;
  block_index : nat;
}.

#[global] Instance BlockKey_eq_dec : EqDecision BlockKey.
Proof. solve_decision. Defined.

Section Caches.
Context `{LruCache Z Z, LruCache BlockKey bytes}.

(** [FileHandlePool]; a handle is the number of its open file. *)
Definition FileHandlePool : Type := lru Z Z.

Definition pool_with_capacity (capacity : nat) : FileHandlePool := lru_new (non_zero_or_min capacity).

Definition pool_new : FileHandlePool := pool_with_capacity DEFAULT_HANDLE_CACHE_SIZE.

(** [FileHandlePool::get_or_open]; [opener] is the result of opening. *)
Definition get_or_open (cache : FileHandlePool) (ino : Z) (opener : unit -> result io_error Z)
  : result io_error Z * FileHandlePool :=
  match lru_get cache ino with
  | (Some cached, cache) => (Ok cached, cache)
  | (None, cache) =>
    match opener tt with
    | Ok file => (Ok file, lru_put cache ino file)
    | Err e => (Err e, cache)
    | Panic => (Panic, cache)
    end
  end.

Definition BlockCache : Type := lru BlockKey bytes.

Definition block_cache_with_capacity (capacity : nat) : BlockCache :=
  lru_new (non_zero_or_min capacity).

Definition block_cache_new : BlockCache := block_cache_with_capacity DEFAULT_BLOCK_CACHE_SIZE.

Definition block_cache_get (self : BlockCache) (key : BlockKey) : option bytes * BlockCache :=
  lru_get self key.

Definition block_cache_put (self : BlockCache) (key : BlockKey) (data : bytes) : BlockCache :=
  lru_put self key data.
End Caches.

(** ** Reading a block *)

Section Pread.
Context (os : pread_oracle).

Lemma pread_all_length fuel n off size buf r n' :
  pread_bounded os -> (length buf <= size)%nat ->
  pread_all os fuel n off size buf = Some (Ok r, n') -> (length r <= size)%nat.
Proof.
  intros Hb. revert n off buf. induction fuel as [|fuel IH]; intros n off buf Hl E; simpl in E.
  - destruct (decide _); [done|]. congruence.
  - destruct (decide _); [|congruence].
    destruct (os n off (size - length buf)%nat) as [e|[|b data]] eqn:Eo; [|congruence|].
    + destruct (decide _); [by eapply IH|congruence].
    + apply Hb in Eo. eapply IH in E; [done|]. rewrite length_app. simpl in *. lia.
Qed.

(** The file behind the handle: every call either is interrupted, or returns
    the next bytes of [content], at least one unless the end is reached. *)
Definition serves (content : bytes) : Prop :=
  forall n off count, 0 <= off ->
    os n off count = PreadErr EINTR \/
    exists k, (k <= count)%nat /\
      os n off count = PreadData (take k (drop (Z.to_nat off) content)) /\
      (take k (drop (Z.to_nat off) content) = [] ->
        count = 0%nat \/ drop (Z.to_nat off) content = []).

(** From call [N] on no call is interrupted. *)
Definition settles (N : nat) : Prop :=
  forall n off count, (N <= n)%nat -> os n off count <> PreadErr EINTR.

Lemma pread_all_serves content N fuel n off size buf :
  serves content -> settles N ->
  (N - n + (size - length buf) < fuel)%nat -> (length buf <= size)%nat ->
  0 <= off -> off + Z.of_nat (size - length buf) < u64_modulus ->
  exists n', pread_all os fuel n off size buf =
    Some (Ok (buf ++ take (size - length buf) (drop (Z.to_nat off) content)), n').
Proof.
  intros Hs HN. revert n off buf. induction fuel as [|fuel IH]; intros n off buf Hf Hl H0 Hm; [lia|].
  simpl. destruct (decide _) as [Hlt|Hge]; cycle 1.
  { exists n. replace (size - length buf)%nat with 0%nat by lia. simpl. by rewrite app_nil_r. }
  destruct (Hs n off (size - length buf)%nat H0) as [E|(k & Hk & E & Hend)]; rewrite E.
  { rewrite decide_True by done. apply IH; try done.
    assert (n < N)%nat; [|lia]. destruct (decide (n < N)%nat); [done|].
    by eapply HN in E; [|lia]. }
  set (rest := drop (Z.to_nat off) content) in *.
  destruct (take k rest) as [|b data] eqn:Et.
  { exists (S n). destruct Hend as [Hc| ->]; [done|lia|]. by rewrite take_nil, app_nil_r. }
  assert (length (b :: data) <= k)%nat as Hlen by (rewrite <- Et, length_take; lia).
  assert (b :: data = take (length (b :: data)) rest) as Epre.
  { rewrite <- Et, length_take. destruct (decide (k <= length rest)%nat).
    - by rewrite Nat.min_l.
    - rewrite Nat.min_r, !take_ge by lia. done. }
  set (d := b :: data) in *. change (match d with [] => _ | _ => ?x end) with x.
  assert (0 < length d)%nat by (simpl; lia).
  rewrite wrap64_small by lia.
  destruct (IH (S n) (off + Z.of_nat (length d)) (buf ++ d)) as (n' & ->);
    [rewrite length_app; lia..|lia|rewrite length_app; lia|].
  exists n'. do 2 f_equal. f_equal. rewrite length_app, <- app_assoc. f_equal.
  rewrite Z2Nat.inj_add, Nat2Z.id by lia. rewrite <- drop_drop. fold rest.
  replace (size - length buf)%nat with (length d + (size - (length buf + length d)))%nat by lia.
  rewrite <- take_take_drop. rewrite <- Epre. done.
Qed.
End Pread.

(** C33: reading a block retries interrupted calls and continues short ones until
    the block or the file ends: if the file serves [content] and interruptions
    stop after some call, the read terminates (within the given number of
    calls) with exactly the bytes of [content] in the range. *)
Theorem pread_file_data_correct os content N n off size :
  serves os content -> settles os N ->
  0 <= off -> off + Z.of_nat size < u64_modulus ->
  exists n', pread_file_data os (S (N - n + size)) n off size =
    Some (Ok (take size (drop (Z.to_nat off) content)), n').
Proof.
  intros Hs HN H0 Hm. unfold pread_file_data.
  destruct (pread_all_serves os content N (S (N - n + size)) n off size []) as (n' & ->);
    simpl; try done; try lia.
  exists n'. by rewrite Nat.sub_0_r.
Qed.

(** A disk that is interrupted twice and then serves two bytes per call. *)
Definition toy_disk (content : bytes) : pread_oracle := fun n off count =>
  if decide (n < 2)%nat then PreadErr EINTR
  else PreadData (take (count `min` 2) (drop (Z.to_nat off) content)).

Lemma toy_disk_serves content : serves (toy_disk content) content.
Proof.
  intros n off count H0. unfold toy_disk. destruct (decide (n < 2)%nat); [by left|right].
  exists (count `min` 2)%nat. split; [lia|]. split; [done|]. intros E.
  apply (f_equal length) in E. rewrite length_take in E. simpl in E.
  destruct (decide (count = 0%nat)); [by left|right].
  apply length_zero_iff_nil. lia.
Qed.

Lemma toy_disk_settles content : settles (toy_disk content) 2.
Proof. intros n off count Hn. unfold toy_disk. by rewrite decide_False by lia. Qed.

Lemma pread_file_data_correct_witness :
  exists n', pread_file_data (toy_disk [Byte.x01; Byte.x02; Byte.x03]) 6 0 1 3 =
    Some (Ok [Byte.x02; Byte.x03], n').
Proof.
  apply (pread_file_data_correct (toy_disk [Byte.x01; Byte.x02; Byte.x03])
    [Byte.x01; Byte.x02; Byte.x03] 2 0 1 3 (toy_disk_serves _) (toy_disk_settles _)).
  - lia.
  - reflexivity.
Defined.

(** ** A cache of one entry *)

(** The smallest cache that satisfies the interface. *)
Definition toy_lru (K V : Type) `{EqDecision K} : LruCache K V := {|
  lru := option (K * V);
  lru_new _ := None;
  lru_get c k :=
    (match c with Some (k', v) => if decide (k = k') then Some v else None | None => None end, c);
  lru_put c k v := Some (k, v);
  lru_peek c k :=
    match c with Some (k', v) => if decide (k = k') then Some v else None | None => None end;
|}.

Lemma toy_lru_spec (K V : Type) `{EqDecision K} : @LruCacheSpec K V (toy_lru K V).
Proof.
  constructor; simpl; try done.
  - intros c k v. by rewrite decide_True.
  - intros c k v k' w Hne E. by rewrite decide_False in E.
Qed.
