(* ===== verification/VerityFs.v ===== *)
(** * The verifying file system

    [verity-fuse/src/filesystem.rs]: the FUSE handlers over an untrusted
    source directory.  The directory, its files and the kernel are the [OS]
    oracle, whose every answer may depend on the number of the call; the
    verifier is the interface of [FileVerifier]; the caches are those of
    [FileHandleCache]. *)

From stdpp Require Import base list numbers option strings gmap.
From Stdlib Require Import ZArith Lia.
From S2P Require Import Prelude Slices InnerHash Descriptor VerityDigest MerkleSpec ToyHash.
From S2P Require Import MerkleTree FileVerifier FileHandleCache.

Local Open Scope Z_scope.

(** ** The environment *)

(** [cap_std::fs::Metadata]; times are in nanoseconds, when available. *)
Record Metadata := mkMetadata {
  md_is_dir : bool;
  md_is_file : bool;
  md_is_symlink : bool;
  md_len : Z;
  md_accessed : option Z;
  md_modified : option Z;
  md_created : option Z;
  md_mode : Z;
  md_nlink : Z;
  md_uid : Z;
  md_gid : Z;
}.

(** A directory entry: its name and its metadata, if they can be read. *)
Record DirEntry := mkDirEntry {
  de_file_name : string;
  de_metadata : option Metadata;
}.

(** System calls on the source directory, by the number of the call. *)
Class OS := {
  os_open : nat -> string -> result io_error Z;
  os_pread : Z -> pread_oracle;
  os_symlink_metadata : nat -> string -> result io_error Metadata;
  os_read_dir : nat -> string -> result io_error (list (option DirEntry));
  os_read_link : nat -> string -> result io_error string;
  os_now : nat -> Z;
}.

(** What filesystem.rs uses of [relative_path] and [OsStr] beyond
    [RelativePath]: [RelativePath::from_path] and [to_logical_path(".")]. *)
Class PathConv `{RelativePath} := {
  rp_from_path : string -> option RelPath;
  to_logical_path : RelPath -> string;
}.

Inductive FileType := FtDirectory | FtRegularFile | FtSymlink.

Record FileAttr := mkAttr {
  attr_ino : Z;
  attr_size : Z;
  attr_blocks : Z;
  attr_atime : Z;
  attr_mtime : Z;
  attr_ctime : Z;
  attr_crtime : Z;
  attr_kind : FileType;
  attr_perm : Z;
  attr_nlink : Z;
  attr_uid : Z;
  attr_gid : Z;
  attr_rdev : Z;
  attr_flags : Z;
  attr_blksize : Z;
}.

Definition FS_BLOCK_SIZE : Z := 4096.

(** ** The state and its monad *)

Record VerityFS `{LruCache Z Z, LruCache BlockKey bytes} := mkFs {
  block_cache : BlockCache;
  handle_cache : FileHandlePool;
  calls : nat;
}.
Arguments mkFs {_ _}.
Arguments block_cache {_ _}.
Arguments handle_cache {_ _}.
Arguments calls {_ _}.

Section Monad.
Context `{LruCache Z Z, LruCache BlockKey bytes}.

(** A handler step: [None] when a read still retries after the given number
    of calls; otherwise an error number or a value, and the new state. *)
Definition M (A : Type) : Type := VerityFS -> option (result Z A * VerityFS).

Definition ret {A} (a : A) : M A := fun s => Some (Ok a, s).

Definition fail {A} (e : Z) : M A := fun s => Some (Err e, s).

Definition mbindM {A B} (x : M A) (f : A -> M B) : M B := fun s =>
  match x s with
  | None => None
  | Some (Ok a, s) => f a s
  | Some (Err e, s) => Some (Err e, s)
  | Some (Panic, s) => Some (Panic, s)
  end.

Definition lift {A} (r : result Z A) : M A := fun s => Some (r, s).

(** A system call. *)
Definition syscall {A} (f : nat -> result Z A) : M A := fun s =>
  Some (f (calls s), mkFs (block_cache s) (handle_cache s) (S (calls s))).
End Monad.

Notation "'let!' x ':=' m 'in' k" := (mbindM m (fun x => k))
  (at level 10, x pattern, m at level 100, k at level 200) : rust_scope.

(** ** Handlers *)

Section VerityFS.
Context {HL1 : LruCache Z Z} {HL2 : LruCache BlockKey bytes}.
Context {HR : RelativePath} {HP : PathConv} {HO : OS}.
Context {V F : Type} {HF : VerifiableFile F} {HV : FileVerifier V F}.
Context (verifier : V).

(** [VerityFS::new_with_block_cache], once the directory is open. *)
Definition fs_new_with_block_cache (block_cache_capacity : nat) : VerityFS :=
  mkFs (block_cache_with_capacity block_cache_capacity) pool_new 0.

Definition fs_new : VerityFS := fs_new_with_block_cache default_capacity.

Definition relative_path_to_path_in_source_dir (relative_path : RelPath) : string :=
  to_logical_path relative_path.

Definition check_metadata_file_size (file : F) (metadata : Metadata) : result Z unit :=
  if md_is_file metadata || md_is_symlink metadata then
    let? expected_size := ok_or (expected_size file) EIO in
    let actual_size := md_len metadata in
    if decide (actual_size <> expected_size) then Err EIO else Ok tt
  else Ok tt.

Definition get_metadata (file : F) : M Metadata :=
  syscall (fun n =>
    let? metadata := map_err raw_os_error_or_eio
      (os_symlink_metadata n (relative_path_to_path_in_source_dir (file_path file))) in
    let? _ := check_metadata_file_size file metadata in
    Ok metadata).

(** The opener wraps the error, which then has no raw error number. *)
Definition open_file_cached (file : F) : M Z := fun s =>
  let opener (_ : unit) :=
    map_err (fun _ : io_error => None : io_error)
      (os_open (calls s) (relative_path_to_path_in_source_dir (file_path file))) in
  let '(r, handles) := get_or_open (handle_cache s) (file_ino file) opener in
  Some (map_err raw_os_error_or_eio r, mkFs (block_cache s) handles (S (calls s))).

(** The block at [block_idx]: from the cache, or read, verified and cached. *)
Definition get_block (fuel : nat) (file : F) (cached_file block_size block_idx : Z) : M bytes := fun s =>
  let key := mkKey (file_ino file) (Z.to_nat block_idx) in
  let block_offset := wrap64 (block_idx * block_size) in
  match block_cache_get (block_cache s) key with
  | (Some cached, blocks) => Some (Ok cached, mkFs blocks (handle_cache s) (calls s))
  | (None, blocks) =>
    match pread_file_data (os_pread cached_file) fuel (calls s) block_offset
            (Z.to_nat block_size) with
    | None => None
    | Some (r, n) =>
      let s := mkFs blocks (handle_cache s) n in
      match map_err raw_os_error_or_eio r with
      | Ok raw_block =>
        match file_verify_data_block file (Z.to_nat block_idx) raw_block with
        | Ok _ =>
          Some (Ok raw_block, mkFs (block_cache_put (block_cache s) key raw_block)
            (handle_cache s) (calls s))
        | Err _ => Some (Err EIO, s)
        | Panic => Some (Panic, s)
        end
      | Err e => Some (Err e, s)
      | Panic => Some (Panic, s)
      end
    end
  end.

(** The loop over the blocks of the request. *)
Fixpoint read_blocks (fuel : nat) (file : F) (cached_file block_size : Z)
    (requested_offset requested_end : Z) (blocks : list Z) (output : bytes) : M bytes :=
  match blocks with
  | [] => ret output
  | block_idx :: blocks =>
    let block_offset := wrap64 (block_idx * block_size) in
    let block_end := wrap64 (block_offset + block_size) in
    let copy_start_in_block := requested_offset `max` block_offset in
    let copy_end_in_block := requested_end `min` block_end in
    if decide (copy_start_in_block >= copy_end_in_block) then
      read_blocks fuel file cached_file block_size requested_offset requested_end blocks output
    else
      let! block_data := get_block fuel file cached_file block_size block_idx in
      let src_start := copy_start_in_block - block_offset in
      let src_end := (copy_end_in_block - block_offset) `min` Z.of_nat (length block_data) in
      let output :=
        if decide (src_start >= src_end) then output
        else output ++ slice block_data (Z.to_nat src_start) (Z.to_nat src_end) in
      read_blocks fuel file cached_file block_size requested_offset requested_end blocks output
  end.

Definition read_file (fuel : nat) (file : F) (offset size : Z) : M bytes :=
  if decide (offset < 0) then fail EINVAL
  else if decide (size = 0) then ret []
  else
    let requested_offset := offset in
    let requested_size := size in
    let requested_end := wrap64 (requested_offset + requested_size) in
    let! block_size := lift (ok_or (file_block_size file) EISDIR) in
    if decide (block_size = 0) then fail EINVAL
    else
      let start_block := requested_offset / block_size in
      let end_block := div_ceil requested_end block_size in
      let num_blocks := end_block - start_block in
      let! cached_file := open_file_cached file in
      read_blocks fuel file cached_file block_size requested_offset requested_end
        (seqZ start_block num_blocks) [].

Definition read_dir (relative_path : RelPath) : M (list (option DirEntry)) :=
  syscall (fun n => map_err raw_os_error_or_eio
    (os_read_dir n (relative_path_to_path_in_source_dir relative_path))).

Definition read_link (relative_path : RelPath) : M string :=
  syscall (fun n => map_err raw_os_error_or_eio
    (os_read_link n (relative_path_to_path_in_source_dir relative_path))).

Definition file_type_of (metadata : Metadata) : option FileType :=
  if md_is_dir metadata then Some FtDirectory
  else if md_is_file metadata then Some FtRegularFile
  else if md_is_symlink metadata then Some FtSymlink
  else None.

Definition metadata_to_attr (metadata : Metadata) (ino : Z) : M FileAttr :=
  syscall (fun n =>
    let? file_type := ok_or (file_type_of metadata) EOPNOTSUPP in
    Ok {| attr_ino := ino;
          attr_size := md_len metadata;
          attr_blocks := wrap64 (md_len metadata / 512 + 1);
          attr_atime := default (os_now n) (md_accessed metadata);
          attr_mtime := default (os_now n) (md_modified metadata);
          attr_ctime := default (os_now n) (md_created metadata);
          attr_crtime := default (os_now n) (md_created metadata);
          attr_kind := file_type;
          attr_perm := Z.land (md_mode metadata) 511;
          attr_nlink := md_nlink metadata mod 2 ^ 32;
          attr_uid := md_uid metadata;
          attr_gid := md_gid metadata;
          attr_rdev := 0;
          attr_flags := 0;
          attr_blksize := FS_BLOCK_SIZE |}).

(** [Filesystem::lookup], [getattr], [read], [open] and [readlink]: the reply
    is the value or the error number. *)
Definition fs_lookup (parent : Z) (name : string) : M FileAttr :=
  let! parent_file := lift (ok_or (lookup_by_ino verifier parent) ENOENT) in
  let parent_path := file_path parent_file in
  let! rel := lift (ok_or (rp_from_path name) EINVAL) in
  let child_path := rp_join parent_path rel in
  let! child_file := lift (ok_or (lookup_by_path verifier child_path) ENOENT) in
  let! metadata := get_metadata child_file in
  metadata_to_attr metadata (file_ino child_file).

Definition fs_getattr (ino : Z) : M FileAttr :=
  let! file := lift (ok_or (lookup_by_ino verifier ino) ENOENT) in
  let! metadata := get_metadata file in
  metadata_to_attr metadata ino.

Definition fs_read (fuel : nat) (ino offset size : Z) : M bytes :=
  let! file := lift (ok_or (lookup_by_ino verifier ino) EINVAL) in
  read_file fuel file offset size.

Definition fs_open (ino : Z) : M unit :=
  let! file := lift (ok_or (lookup_by_ino verifier ino) ENOENT) in
  let! _ := open_file_cached file in
  ret tt.

Definition fs_readlink (ino : Z) : M string :=
  let! file := lift (ok_or (lookup_by_ino verifier ino) ENOENT) in
  read_link (file_path file).

(** One entry of the source directory: listed if it is recorded, has the
    recorded size and a known type. *)
Definition dir_entry (dir_path : RelPath) (entry : DirEntry) : option (Z * FileType * string) :=
  let name := de_file_name entry in
  rel ← rp_from_path name;
  let child_path := rp_join dir_path rel in
  metadata ← de_metadata entry;
  child_file ← lookup_by_path verifier child_path;
  guard (is_ok (check_metadata_file_size child_file metadata) = true);;
  child_type ← file_type_of metadata;
  Some (file_ino child_file, child_type, name).

(** The entries collected before the reply is filled. *)
Definition readdir_entries (ino offset : Z) : M (list (Z * FileType * string)) :=
  let! file := lift (ok_or (lookup_by_ino verifier ino) ENOENT) in
  let dir_path := file_path file in
  let! metadata := get_metadata file in
  if negb (md_is_dir metadata) then fail ENOTDIR
  else
    let dot := if decide (offset <= 0) then [(ino, FtDirectory, ".")] else [] in
    let dotdot := if decide (offset <= 1) then [(ino, FtDirectory, "..")] else [] in
    let! dir_iter := read_dir dir_path in
    ret (dot ++ dotdot ++ omap (fun e => e ← e; dir_entry dir_path e) dir_iter).

(** [readdir]: the entries added to a reply with room for [capacity] of them,
    each with the offset the kernel passes to continue after it. *)
Definition fs_readdir (capacity : nat) (ino offset : Z) : M (list (Z * Z * FileType * string)) :=
  let! entries := readdir_entries ino offset in
  let offset := offset `max` 0 in
  ret (imap (fun i '(ino, ty, name) => (ino, offset + Z.of_nat i + 1, ty, name))
        (take capacity (drop (Z.to_nat offset) entries))).
End VerityFS.
