(* ===== verification/VerityFsProofs.v ===== *)
(** * Correctness of the verifying file system

    Whatever the untrusted directory does: every cached block has been
    verified for its file and index, and a read that returns as many bytes as
    were asked for returns the file's bytes.  When the directory serves the
    genuine data, reads return it.  Two defects of the handlers are stated at
    the end: short blocks in the middle of a file, and the continuation of
    directory listings. *)

From stdpp Require Import base list numbers option strings gmap relations.
From Stdlib Require Import ZArith Lia.
From S2P Require Import Prelude Slices InnerHash Descriptor VerityDigest MerkleSpec ToyHash.
From S2P Require Import MerkleTree FileVerifier FileHandleCache VerityFs.

Local Open Scope Z_scope.

(** ** What the file system relies on *)

(** A file found by inode has that inode, and lookups by path and by inode
    agree. *)
Class FileVerifierSpec `{RelativePath} {V F : Type} `{!VerifiableFile F, !FileVerifier V F} (v : V)
  : Prop := {
  lookup_ino_id i f : lookup_by_ino v i = Some f -> file_ino f = i;
  lookup_path_ino p f :
    lookup_by_path v p = Some f -> lookup_by_ino v (file_ino f) = Some f /\ file_path f = p;
}.

(** The inode table of the metadata provides it. *)
Lemma verifier_new_FileVerifierSpec `{InnerHash, RelativePathSpec} infos :
  Z.of_nat (1 + entry_count infos) < u64_modulus -> FileVerifierSpec (verifier_new infos).
Proof.
  intros Hn. destruct (verifier_new_spec infos 0) as (Hv & _ & _); [lia|].
  set (v := verifier_new infos) in *. constructor.
  - intros i f E. exact (proj1 (vw_ino v Hv i f E)).
  - intros p e E. simpl in E. destruct (path_to_ino v !! p) as [i|] eqn:Ei; [|done].
    simpl in E. destruct (vw_path v Hv p i Ei) as (e' & Ee' & <-).
    destruct (vw_ino v Hv i e E) as [Hi _]. simpl. rewrite Hi. split; [done|congruence].
Qed.

Section Invariant.
Context {HL1 : LruCache Z Z} {HL2 : LruCache BlockKey bytes}.
Context {HS1 : LruCacheSpec Z Z} {HS2 : LruCacheSpec BlockKey bytes}.
Context {HR : RelativePath} {HP : PathConv} {HO : OS}.
Context {V F : Type} {HF : VerifiableFile F} {HV : FileVerifier V F}.
Context (verifier : V) {Hver : FileVerifierSpec verifier}.
Implicit Types (s : VerityFS) (file : F).

(** Every cached block has been verified. *)
Definition cache_ok s : Prop :=
  forall k b, lru_peek (block_cache s) k = Some b ->
    exists f, lookup_by_ino verifier (key_ino k) = Some f /\
      file_verify_data_block f (block_index k) b = Ok tt.

(** A computation keeps the cache verified, whatever its outcome. *)
Definition preserves {A} (m : M A) : Prop :=
  forall s r s', cache_ok s -> m s = Some (r, s') -> cache_ok s'.

Lemma preserves_same {A} (m : M A) :
  (forall s r s', m s = Some (r, s') -> block_cache s' = block_cache s) -> preserves m.
Proof. intros Hm s r s' Hc E k b. apply Hm in E. rewrite E. apply Hc. Qed.

Lemma preserves_bind {A B} (m : M A) (f : A -> M B) :
  preserves m -> (forall a, preserves (f a)) -> preserves (mbindM m f).
Proof.
  intros Hm Hf s r s' Hc E. unfold mbindM in E.
  destruct (m s) as [[[a|e|] s1]|] eqn:Em; [| | |done]; apply (Hm _ _ _ Hc) in Em.
  - by eapply Hf.
  - by simplify_eq.
  - by simplify_eq.
Qed.

Lemma preserves_lift {A} (r : result Z A) : preserves (lift r).
Proof. apply preserves_same. intros s ? s' [= _ <-]. done. Qed.

Lemma preserves_ret {A} (a : A) : preserves (ret a).
Proof. apply preserves_same. intros s ? s' [= _ <-]. done. Qed.

Lemma preserves_fail {A} e : preserves (@fail _ _ A e).
Proof. apply preserves_same. intros s ? s' [= _ <-]. done. Qed.

Lemma preserves_syscall {A} (f : nat -> result Z A) : preserves (syscall f).
Proof. apply preserves_same. intros s ? s' [= _ <-]. done. Qed.

Lemma open_file_cached_blocks file s r s' :
  open_file_cached file s = Some (r, s') -> block_cache s' = block_cache s.
Proof. unfold open_file_cached. destruct (get_or_open _ _ _). by intros [= _ <-]. Qed.

(** A block returned by [get_block] has been verified. *)
Lemma get_block_verified fuel file fd bs idx s r s' :
  cache_ok s -> lookup_by_ino verifier (file_ino file) = Some file ->
  get_block fuel file fd bs idx s = Some (r, s') ->
  cache_ok s' /\
  forall b, r = Ok b -> file_verify_data_block file (Z.to_nat idx) b = Ok tt.
Proof.
  intros Hc Hfile E. unfold get_block, block_cache_get, block_cache_put in E.
  set (key := mkKey (file_ino file) (Z.to_nat idx)) in *.
  pose proof (lru_get_peek (block_cache s) key) as Hget.
  pose proof (lru_peek_get (block_cache s) key) as Hpeek.
  destruct (lru_get (block_cache s) key) as [o blocks]. simpl in Hget, Hpeek.
  assert (cache_ok (mkFs blocks (handle_cache s) (calls s))) as Hc'.
  { intros k b Hk. simpl in Hk. rewrite Hpeek in Hk. by apply Hc. }
  destruct o as [cached|].
  { injection E as <- <-. split; [done|]. intros b [= <-].
    symmetry in Hget. destruct (Hc _ _ Hget) as (f & Ef & Hv). simpl in Ef, Hv. congruence. }
  destruct (pread_file_data _ _ _ _ _) as [[[raw|e|] n]|]; simpl in E; [|by simplify_eq..|done].
  destruct (file_verify_data_block file (Z.to_nat idx) raw) as [[]| |] eqn:Ev;
    injection E as <- <-; [|by split..].
  split; [|by intros b [= <-]].
  intros k b Hk. simpl in Hk. destruct (decide (k = key)) as [->|Hne].
  - rewrite lru_peek_put_eq in Hk. injection Hk as <-. by exists file.
  - apply (lru_peek_put_ne _ _ _ _ _ Hne) in Hk. by apply (Hc' k).
Qed.

Lemma read_blocks_preserves fuel file fd bs off e blocks out :
  lookup_by_ino verifier (file_ino file) = Some file ->
  preserves (read_blocks fuel file fd bs off e blocks out).
Proof.
  intros Hfile. revert out. induction blocks as [|k blocks IH]; intros out; simpl.
  { apply preserves_ret. }
  destruct (decide _); [apply IH|]. apply preserves_bind; [|intros b; apply IH].
  intros s r s' Hc E. by eapply get_block_verified in E as [? _].
Qed.

Lemma read_file_preserves fuel file off size :
  lookup_by_ino verifier (file_ino file) = Some file ->
  preserves (read_file fuel file off size).
Proof.
  intros Hfile. unfold read_file.
  destruct (decide _); [apply preserves_fail|]. destruct (decide _); [apply preserves_ret|].
  apply preserves_bind; [apply preserves_lift|]. intros bs.
  destruct (decide _); [apply preserves_fail|].
  apply preserves_bind; [apply preserves_same, open_file_cached_blocks|].
  intros fd. by apply read_blocks_preserves.
Qed.

(** ** Sequences of requests *)

Inductive Request :=
| ReqLookup (parent : Z) (name : string)
| ReqGetattr (ino : Z)
| ReqRead (fuel : nat) (ino offset size : Z)
| ReqReaddir (capacity : nat) (ino offset : Z)
| ReqOpen (ino : Z)
| ReqReadlink (ino : Z).

(** The state after a request that was answered. *)
Definition handles {A} (m : M A) s s' : Prop := exists r, m s = Some (r, s').

Definition step (req : Request) s s' : Prop :=
  match req with
  | ReqLookup parent name => handles (fs_lookup verifier parent name) s s'
  | ReqGetattr ino => handles (fs_getattr verifier ino) s s'
  | ReqRead fuel ino offset size => handles (fs_read verifier fuel ino offset size) s s'
  | ReqReaddir capacity ino offset => handles (fs_readdir verifier capacity ino offset) s s'
  | ReqOpen ino => handles (fs_open verifier ino) s s'
  | ReqReadlink ino => handles (fs_readlink verifier ino) s s'
  end.

(** The states after requests, from a given one. *)
Definition reachable_from s0 s : Prop := rtc (fun a b => exists req, step req a b) s0 s.

Definition reachable s : Prop := reachable_from fs_new s.

(** Computations that are built from steps which leave the blocks alone. *)
Ltac preserve :=
  repeat first
    [ apply preserves_lift | apply preserves_ret | apply preserves_fail | apply preserves_syscall
    | apply preserves_same, open_file_cached_blocks
    | case_match | apply preserves_bind; [|intros ?] ].

Lemma fs_read_preserves fuel ino off size : preserves (fs_read verifier fuel ino off size).
Proof.
  intros s r s' Hc. unfold fs_read, mbindM, lift.
  destruct (lookup_by_ino verifier ino) as [f|] eqn:Ef; simpl; [|by intros [= _ <-]].
  apply read_file_preserves; [|done]. by rewrite (lookup_ino_id _ _ Ef).
Qed.

Lemma step_preserves req s s' : cache_ok s -> step req s s' -> cache_ok s'.
Proof.
  intros Hc. destruct req; simpl; intros [r E]; revert E; apply (fun H => H s r s' Hc).
  3: apply fs_read_preserves.
  all: unfold fs_lookup, fs_getattr, fs_readdir, readdir_entries, fs_open, fs_readlink; preserve.
Qed.

Lemma cache_ok_new n : cache_ok (fs_new_with_block_cache n).
Proof.
  intros k b E. change (lru_peek (lru_new (non_zero_or_min n)) k = Some b) in E.
  by rewrite lru_peek_new in E.
Qed.

Lemma reachable_from_cache_ok s0 s : cache_ok s0 -> reachable_from s0 s -> cache_ok s.
Proof.
  intros H0 Hr. induction Hr as [|a b c [req Hs] _ IH]; [done|].
  apply IH. by eapply step_preserves.
Qed.

Lemma reachable_cache_ok s : reachable s -> cache_ok s.
Proof. apply reachable_from_cache_ok, cache_ok_new. Qed.

(** C11: the block cache is trustworthy: in every state the file system can reach
    by answering requests, whatever the source directory returned, each cached
    block has passed verification for the file and the index it is cached
    under. *)
Theorem reachable_cache_verified s k b :
  reachable s -> fst (block_cache_get (block_cache s) k) = Some b ->
  exists f, lookup_by_ino verifier (key_ino k) = Some f /\ file_verify_data_block f (block_index k) b = Ok tt.
Proof.
  intros Hr E. apply (reachable_cache_ok s Hr).
  rewrite <- (lru_get_peek (block_cache s) k). exact E.
Qed.
End Invariant.

(** ** Reads *)

Section Reads.
Context {HL1 : LruCache Z Z} {HL2 : LruCache BlockKey bytes}.
Context {HS1 : LruCacheSpec Z Z} {HS2 : LruCacheSpec BlockKey bytes}.
Context {HR : RelativePath} {HP : PathConv} {HO : OS}.
Context {V F : Type} {HF : VerifiableFile F} {HV : FileVerifier V F}.
Context (verifier : V) {Hver : FileVerifierSpec verifier}.

(** The file that is read: its block size and its genuine content. *)
Context (file : F) (bs : Z) (data : bytes).
Context (Hfile : lookup_by_ino verifier (file_ino file) = Some file).
Context (Hbs : file_block_size file = Some bs) (Hbs0 : 0 < bs < 2 ^ 32).
Implicit Types (s : VerityFS) (k off e : Z).

(** Verified blocks are genuine up to zero padding: what
    [verified_block_authentic] establishes in the absence of hash collisions. *)
Definition authentic : Prop :=
  forall (k : nat) b, file_verify_data_block file k b = Ok tt ->
    exists b0, chunks (Z.to_nat bs) data !! k = Some b0 /\
      pad_to (Z.to_nat bs) b = pad_to (Z.to_nat bs) b0.

(** A block that is genuine up to zero padding. *)
Definition genuine_block (k : Z) (b : bytes) : Prop :=
  exists b0, chunks (Z.to_nat bs) data !! Z.to_nat k = Some b0 /\
    pad_to (Z.to_nat bs) b = pad_to (Z.to_nat bs) b0.

(** The file, with zeros after its end. *)
Definition padded_data : bytes := data ++ zeros (Z.to_nat bs).

(** What one block contributes to the output. *)
Definition piece off e k (b : bytes) : bytes :=
  let s := off `max` (k * bs) - k * bs in
  let t := (e `min` (k * bs + bs) - k * bs) `min` Z.of_nat (length b) in
  if decide (s >= t) then [] else slice b (Z.to_nat s) (Z.to_nat t).

(** Block [k] overlaps the range, and nothing wraps. *)
Definition overlaps off e k : Prop :=
  0 <= off /\ 0 <= k /\ k * bs < e /\ off < k * bs + bs /\ off < e /\ e + bs < u64_modulus.

Lemma read_blocks_cons fuel fd off e k ks out s :
  overlaps off e k ->
  read_blocks fuel file fd bs off e (k :: ks) out s =
    (let! b := get_block fuel file fd bs k in
     read_blocks fuel file fd bs off e ks (out ++ piece off e k b)) s.
Proof.
  intros (H0 & Hk & Hke & Hok & Hoe & Hm). cbn [read_blocks].
  rewrite (wrap64_small (k * bs)) by lia. rewrite wrap64_small by lia.
  rewrite decide_False by lia.
  unfold mbindM. destruct (get_block fuel file fd bs k s) as [[[b|x|] s1]|]; [|done..].
  unfold piece. destruct (decide _); [by rewrite app_nil_r|done].
Qed.

Lemma piece_length off e k b :
  overlaps off e k ->
  Z.of_nat (length (piece off e k b)) <= e `min` (k * bs + bs) - off `max` (k * bs).
Proof.
  intros (H0 & Hk & Hke & Hok & Hoe & Hm). unfold piece. destruct (decide _); [simpl; lia|].
  rewrite slice_length by lia. lia.
Qed.

Lemma chunk_padded (k : nat) b0 :
  chunks (Z.to_nat bs) data !! k = Some b0 ->
  pad_to (Z.to_nat bs) b0 = slice padded_data (k * Z.to_nat bs) (k * Z.to_nat bs + Z.to_nat bs).
Proof.
  intros [-> Hlt]%chunks_lookup; [|lia]. generalize dependent (k * Z.to_nat bs)%nat. intros kb Hlt.
  unfold pad_to, padded_data, slice. rewrite drop_app_le by lia.
  replace (kb + Z.to_nat bs - kb)%nat with (Z.to_nat bs) by lia.
  rewrite take_app, length_take. f_equal. rewrite length_drop, take_zeros. f_equal. lia.
Qed.

(** A piece of full length is the file's. *)
Lemma piece_full off e k b :
  overlaps off e k -> genuine_block k b ->
  Z.of_nat (length (piece off e k b)) = e `min` (k * bs + bs) - off `max` (k * bs) ->
  piece off e k b = slice padded_data (Z.to_nat (off `max` (k * bs))) (Z.to_nat (e `min` (k * bs + bs))).
Proof.
  intros (H0 & Hk & Hke & Hok & Hoe & Hm) (b0 & Hb0 & Hpad) Hlen. unfold piece in *.
  destruct (decide _); [simpl in Hlen; lia|].
  set (x := off `max` (k * bs)) in *. set (y := e `min` (k * bs + bs)) in *.
  rewrite slice_length in Hlen by lia.
  apply chunk_padded in Hb0. rewrite Hb0 in Hpad.
  assert (Z.to_nat k * Z.to_nat bs = Z.to_nat (k * bs))%nat as Ekb
    by (rewrite Z2Nat.inj_mul; lia).
  assert (0 <= k * bs) by lia. rewrite Ekb in *.
  replace (Z.to_nat ((y - k * bs) `min` Z.of_nat (length b))) with (Z.to_nat (y - k * bs)) by lia.
  rewrite <- (slice_pad (Z.to_nat bs) b), Hpad by lia.
  clear Ekb. generalize dependent (k * bs). intros kb **.
  rewrite slice_slice by lia. f_equal; lia.
Qed.

(** *** The blocks a read obtains *)

(** The blocks [read_blocks] gets from the cache or the source, in order, up
    to the first failure. *)
Fixpoint fetched_blocks (fuel : nat) (fd : Z) (ks : list Z) s : list (Z * bytes) :=
  match ks with
  | [] => []
  | k :: ks =>
    match get_block fuel file fd bs k s with
    | Some (Ok b, s1) => (k, b) :: fetched_blocks fuel fd ks s1
    | _ => []
    end
  end.

(** The blocks of the read of a range. *)
Definition read_fetches (fuel : nat) (off size : Z) s : list (Z * bytes) :=
  match open_file_cached file s with
  | Some (Ok fd, s1) =>
    fetched_blocks fuel fd (seqZ (off / bs) (div_ceil (off + size) bs - off / bs)) s1
  | _ => []
  end.

Definition verified_block (kb : Z * bytes) : Prop :=
  file_verify_data_block file (Z.to_nat (fst kb)) (snd kb) = Ok tt.

Definition pieces off e (l : list (Z * bytes)) : bytes :=
  concat (map (fun kb => piece off e (fst kb) (snd kb)) l).

(** A further block of the range. *)
Lemma overlaps_next off e n k :
  overlaps off e k -> (k + Z.of_nat (S n)) * bs < e ->
  overlaps off e (k + 1) /\ (k + 1) * bs = k * bs + bs /\ k * bs + bs < e /\
  (k + Z.of_nat (S n)) * bs = (k + 1 + Z.of_nat n) * bs.
Proof.
  intros (H0 & Hk & Hke & Hok & Hoe & Hm) He. unfold overlaps.
  assert ((k + Z.of_nat (S n)) * bs = (k + 1 + Z.of_nat n) * bs) as -> by (f_equal; lia).
  assert (0 <= Z.of_nat n * bs) by lia. repeat split; lia.
Qed.

(** A read that succeeds has verified each of its blocks, and returns their
    pieces. *)
Lemma read_blocks_fetched fuel fd off e n k out s r s' :
  overlaps off e k -> (k + Z.of_nat n) * bs < e -> cache_ok verifier s ->
  read_blocks fuel file fd bs off e (seqZ k (Z.of_nat (S n))) out s = Some (Ok r, s') ->
  let l := fetched_blocks fuel fd (seqZ k (Z.of_nat (S n))) s in
  r = out ++ pieces off e l /\ map fst l = seqZ k (Z.of_nat (S n)) /\ Forall verified_block l.
Proof.
  revert k out s. induction n as [|n IH]; intros k out s Hov Hlast Hc E.
  all: rewrite seqZ_cons in E |- * by lia; rewrite (read_blocks_cons _ _ _ _ _ _ _ _ Hov) in E.
  all: unfold mbindM in E; cbn [fetched_blocks];
    destruct (get_block fuel file fd bs k s) as [[[b|x|] s1]|] eqn:Eb; [|done..].
  all: destruct (get_block_verified verifier _ _ _ _ _ _ _ _ Hc Hfile Eb) as [Hc1 Hv].
  all: unfold pieces; cbn [map fst snd concat].
  - simpl in E |- *. injection E as <- <-. rewrite app_nil_r. repeat split. constructor; [|done]. by apply Hv.
  - replace (Z.pred (Z.of_nat (S (S n)))) with (Z.of_nat (S n)) in * by lia.
    replace (Z.succ k) with (k + 1) in * by lia.
    destruct (overlaps_next off e n k Hov Hlast) as (Hov1 & _ & _ & En). rewrite En in Hlast.
    apply IH in E as (-> & Ef & Hvs); [|done..]. rewrite Ef. split; [by rewrite <- app_assoc|].
    split; [done|]. constructor; [by apply Hv|done].
Qed.

(** The pieces of consecutive blocks are never longer than the range, and
    when they are as long and genuine they are the file's range. *)
Lemma pieces_spec off e n k l :
  overlaps off e k -> (k + Z.of_nat n) * bs < e -> e <= (k + Z.of_nat n) * bs + bs ->
  map fst l = seqZ k (Z.of_nat (S n)) ->
  Z.of_nat (length (pieces off e l)) <= e - off `max` (k * bs) /\
  (Forall (fun kb => genuine_block (fst kb) (snd kb)) l ->
   Z.of_nat (length (pieces off e l)) = e - off `max` (k * bs) ->
   pieces off e l = slice padded_data (Z.to_nat (off `max` (k * bs))) (Z.to_nat e)).
Proof.
  revert k l. induction n as [|n IH]; intros k l Hov Hlast Hend El.
  all: rewrite seqZ_cons in El by lia; destruct l as [|[k' b] l]; [done|].
  all: injection El as -> El; unfold pieces; cbn [map fst snd concat].
  all: pose proof (piece_length off e k b Hov) as Hlen; pose proof (piece_full off e k b Hov) as Hfull.
  all: set (p := piece off e k b) in *; fold (pieces off e l).
  - simpl in El. destruct l; [|done]. rewrite app_nil_r.
    replace (e `min` (k * bs + bs)) with e in * by lia. split; [done|].
    intros Hg%Forall_inv. by apply Hfull.
  - replace (Z.pred (Z.of_nat (S (S n)))) with (Z.of_nat (S n)) in El by lia.
    replace (Z.succ k) with (k + 1) in El by lia. pose proof Hov as (H0 & Hk & Hke & Hok & Hoe & Hm).
    destruct (overlaps_next off e n k Hov Hlast) as (Hov1 & Ek & Hke1 & En). rewrite En in *.
    destruct (IH (k + 1) l Hov1 Hlast Hend El) as [Hw Hwfull]. rewrite Ek in *.
    replace (off `max` (k * bs + bs)) with (k * bs + bs) in * by lia.
    replace (e `min` (k * bs + bs)) with (k * bs + bs) in * by lia.
    rewrite length_app. split; [lia|]. intros Hg Heq. inversion Hg as [|? ? Hb Hl]; subst.
    rewrite Hfull, Hwfull by (done || lia). apply slice_app; lia.
Qed.

(** The blocks of a request: the first one overlaps it and the last one ends
    it. *)
Lemma request_blocks off size :
  0 <= off -> 0 < size < 2 ^ 32 -> off + size < 2 ^ 63 + 2 ^ 32 ->
  let e := off + size in
  let start := off / bs in
  exists n, div_ceil e bs - start = Z.of_nat (S n) /\
    overlaps off e start /\
    (start + Z.of_nat n) * bs < e /\ e <= (start + Z.of_nat n) * bs + bs /\
    off `max` (start * bs) = off.
Proof.
  intros H0 Hs Hm e start.
  destruct (div_ceil_bounds e bs) as [Hq1 Hq2]; [lia..|]. set (q := div_ceil e bs - 1) in *.
  assert (a0 : e <= q * bs + bs) by (unfold q; lia).
  pose proof (Z.div_mod off bs ltac:(lia)) as E.
  pose proof (Z.mod_pos_bound off bs ltac:(lia)) as Hb. fold start in E.
  assert (0 <= start) by (apply Z.div_pos; lia).
  assert (start <= q) by nia.
  exists (Z.to_nat (q - start)). rewrite Nat2Z.inj_succ, Z2Nat.id by lia.
  replace (start + (q - start)) with q by lia.
  unfold overlaps, u64_modulus. repeat split; try lia.
Qed.

Lemma fs_read_unfold fuel off size s :
  0 <= off -> 0 < size < 2 ^ 32 -> off + size < 2 ^ 63 + 2 ^ 32 ->
  fs_read verifier fuel (file_ino file) off size s =
    (let! fd := open_file_cached file in
     read_blocks fuel file fd bs off (off + size)
       (seqZ (off / bs) (div_ceil (off + size) bs - off / bs)) []) s.
Proof.
  intros H0 Hs Hm. unfold fs_read, lift, mbindM. rewrite Hfile. cbn [ok_or].
  unfold read_file. rewrite decide_False by lia. rewrite decide_False by lia.
  rewrite wrap64_small by (unfold u64_modulus; lia).
  unfold lift, mbindM. rewrite Hbs. cbn [ok_or]. rewrite decide_False by lia. done.
Qed.

(** A read from a state whose cache is verified. *)
Lemma read_fetched fuel off size s r s' :
  cache_ok verifier s -> 0 <= off < 2 ^ 63 -> 0 < size < 2 ^ 32 ->
  fs_read verifier fuel (file_ino file) off size s = Some (Ok r, s') ->
  Forall verified_block (read_fetches fuel off size s) /\ Z.of_nat (length r) <= size /\
  (Forall (fun kb => genuine_block (fst kb) (snd kb)) (read_fetches fuel off size s) ->
   Z.of_nat (length r) = size -> r = slice padded_data (Z.to_nat off) (Z.to_nat (off + size))).
Proof.
  intros Hr H0 Hs E. rewrite fs_read_unfold in E by lia. unfold mbindM in E. unfold read_fetches.
  destruct (open_file_cached file s) as [[[fd|x|] s1]|] eqn:Eo; [|done..].
  assert (cache_ok verifier s1) as Hc.
  { intros k b. rewrite (open_file_cached_blocks _ _ _ _ Eo). apply Hr. }
  destruct (request_blocks off size) as (n & En & Hov & Hl1 & Hl2 & Hmax); [lia..|].
  rewrite En in *. apply read_blocks_fetched in E as (-> & Ef & Hv); [|done..].
  split; [done|]. destruct (pieces_spec off (off + size) n _ _ Hov Hl1 Hl2 Ef) as [Hle Hfull].
  rewrite Hmax in *. simpl. split; [lia|]. intros Hg Hlen. apply Hfull; [done|lia].
Qed.

Lemma fs_read_empty fuel off s r s' :
  fs_read verifier fuel (file_ino file) off 0 s = Some (Ok r, s') -> r = [].
Proof.
  unfold fs_read, lift, mbindM. rewrite Hfile. cbn [ok_or]. unfold read_file.
  destruct (decide _); [done|]. by intros [= <- _].
Qed.

(** C7: reads through the untrusted directory, in any reachable state: whatever
    it returns, a successful read never yields more bytes than requested.
    Provided that the blocks the verifier accepts are the file's up to zero
    padding, one that yields as many bytes as requested yields exactly the
    file's bytes; those past the end of the file are zeros. *)
Theorem full_read_authentic fuel off size s r s' :
  reachable verifier s -> 0 <= off < 2 ^ 63 -> 0 <= size < 2 ^ 32 ->
  fs_read verifier fuel (file_ino file) off size s = Some (Ok r, s') ->
  Z.of_nat (length r) <= size /\
  (authentic -> Z.of_nat (length r) = size ->
   r = slice (data ++ zeros (Z.to_nat bs)) (Z.to_nat off) (Z.to_nat (off + size))).
Proof.
  intros Hr H0 Hs E. apply reachable_cache_ok in Hr; [|done..].
  destruct (decide (size = 0)) as [->|Hne].
  { apply fs_read_empty in E as ->. split; [done|]. intros _ _. symmetry. apply slice_empty. lia. }
  apply read_fetched in E as (Hv & Hle & Hfull); [|done|done|lia]. split; [done|].
  intros Hauth Hlen. apply Hfull; [|done]. eapply Forall_impl; [exact Hv|].
  intros [k b] Hb. by apply Hauth.
Qed.

(** ** An honest directory *)

(** Handles that serve the file, with interruptions only before call [N]. *)
Definition good_handle (N : nat) (fd : Z) : Prop :=
  serves (os_pread fd) data /\ settles (os_pread fd) N.

(** The directory serves the file. *)
Definition honest (N : nat) : Prop :=
  forall n, exists fd,
    os_open n (relative_path_to_path_in_source_dir (file_path file)) = Ok fd /\ good_handle N fd.

(** The verifier accepts the file's blocks. *)
Definition accepts : Prop :=
  forall (k : nat) b, chunks (Z.to_nat bs) data !! k = Some b -> file_verify_data_block file k b = Ok tt.

(** It rejects whatever is returned for a block past the last one. *)
Definition rejects : Prop :=
  forall (k : nat) b, chunks (Z.to_nat bs) data !! k = None -> file_verify_data_block file k b = Err tt.

(** Cached handles and blocks of the file are genuine. *)
Record genuine (N : nat) s : Prop := {
  gn_handles fd : lru_peek (handle_cache s) (file_ino file) = Some fd -> good_handle N fd;
  gn_blocks (k : nat) b : lru_peek (block_cache s) (mkKey (file_ino file) k) = Some b ->
    chunks (Z.to_nat bs) data !! k = Some b;
}.

Lemma genuine_new_capacity N n : genuine N (fs_new_with_block_cache n).
Proof.
  constructor.
  - intros fd E. change (lru_peek (lru_new (non_zero_or_min DEFAULT_HANDLE_CACHE_SIZE))
      (file_ino file) = Some fd) in E. by rewrite lru_peek_new in E.
  - intros k b E. change (lru_peek (lru_new (non_zero_or_min n))
      (mkKey (file_ino file) k) = Some b) in E. by rewrite lru_peek_new in E.
Qed.

Lemma genuine_new N : genuine N fs_new.
Proof. apply genuine_new_capacity. Qed.

Lemma open_honest N s :
  honest N -> genuine N s ->
  exists fd s', open_file_cached file s = Some (Ok fd, s') /\ good_handle N fd /\ genuine N s'.
Proof.
  intros Hh [Hhs Hb]. unfold open_file_cached, get_or_open.
  pose proof (lru_get_peek (handle_cache s) (file_ino file)) as Hget.
  pose proof (lru_peek_get (handle_cache s) (file_ino file)) as Hpeek.
  destruct (lru_get (handle_cache s) (file_ino file)) as [[fd|] c]; simpl in Hget, Hpeek.
  - exists fd. eexists. split; [done|]. split; [by apply Hhs|].
    constructor; [|done]. intros fd'. simpl. rewrite Hpeek. apply Hhs.
  - destruct (Hh (calls s)) as (fd & -> & Hfd). simpl. exists fd. eexists.
    split; [done|]. split; [done|]. constructor; [|done]. intros fd'. simpl.
    rewrite lru_peek_put_eq. by intros [= <-].
Qed.

Lemma get_block_honest N fuel fd k s :
  accepts -> good_handle N fd -> genuine N s -> (N + Z.to_nat bs < fuel)%nat ->
  0 <= k -> k * bs < Z.of_nat (length data) < 2 ^ 63 ->
  exists s', get_block fuel file fd bs k s =
    Some (Ok (slice data (Z.to_nat (k * bs)) (Z.to_nat (k * bs) + Z.to_nat bs)), s') /\ genuine N s'.
Proof.
  intros Hacc [Hserve Hset] [Hhs Hb] Hfuel Hk Hlt. unfold get_block, block_cache_get, block_cache_put.
  assert (Z.to_nat k * Z.to_nat bs = Z.to_nat (k * bs))%nat as Ekb by (rewrite Z2Nat.inj_mul; lia).
  assert (chunks (Z.to_nat bs) data !! Z.to_nat k =
    Some (slice data (Z.to_nat (k * bs)) (Z.to_nat (k * bs) + Z.to_nat bs))) as Hchunk
    by (rewrite <- Ekb; apply chunks_lookup_some; lia).
  set (key := mkKey (file_ino file) (Z.to_nat k)) in *.
  pose proof (lru_get_peek (block_cache s) key) as Hget.
  pose proof (lru_peek_get (block_cache s) key) as Hpeek.
  destruct (lru_get (block_cache s) key) as [[b|] c]; simpl in Hget, Hpeek.
  { assert (chunks (Z.to_nat bs) data !! Z.to_nat k = Some b) as Hb' by by apply Hb.
    rewrite Hchunk in Hb'. injection Hb' as <-. eexists. split; [done|].
    constructor; [done|]. intros k' b'. simpl. rewrite Hpeek. apply Hb. }
  rewrite wrap64_small by (unfold u64_modulus; lia).
  destruct (pread_all_serves (os_pread fd) data N fuel (calls s) (k * bs) (Z.to_nat bs) [])
    as (n' & E); simpl; try done; try (unfold u64_modulus; lia).
  unfold pread_file_data. rewrite E. simpl. rewrite Nat.sub_0_r.
  assert (take (Z.to_nat bs) (drop (Z.to_nat (k * bs)) data) =
    slice data (Z.to_nat (k * bs)) (Z.to_nat (k * bs) + Z.to_nat bs)) as ->
    by (unfold slice; f_equal; lia).
  rewrite (Hacc _ _ Hchunk). eexists. split; [done|]. constructor; [done|].
  intros k' b'. simpl. destruct (decide (k' = Z.to_nat k)) as [->|Hne].
  - rewrite lru_peek_put_eq. by intros [= <-].
  - intros E'. apply lru_peek_put_ne in E'; [|unfold key; congruence]. apply Hb. by rewrite <- Hpeek.
Qed.

Lemma piece_chunk off e k :
  overlaps off e k -> k * bs < Z.of_nat (length data) ->
  piece off e k (slice data (Z.to_nat (k * bs)) (Z.to_nat (k * bs) + Z.to_nat bs)) =
  slice data (Z.to_nat (off `max` (k * bs))) (Z.to_nat (e `min` (k * bs + bs))).
Proof.
  intros (H0 & Hk & Hke & Hok & Hoe & Hm) Hlt. assert (0 <= k * bs) by lia.
  unfold piece. rewrite slice_length_min. generalize dependent (k * bs). intros kb **.
  destruct (decide (off `max` kb < Z.of_nat (length data))); cycle 1.
  { rewrite decide_True, slice_past by lia. done. }
  rewrite decide_False by lia. rewrite slice_slice by lia.
  rewrite <- (slice_clamp data _ (Z.to_nat (e `min` (kb + bs)))).
  f_equal; lia.
Qed.

Lemma read_blocks_honest N fuel fd off e n k out s :
  accepts -> good_handle N fd -> genuine N s -> (N + Z.to_nat bs < fuel)%nat ->
  overlaps off e k -> (k + Z.of_nat n) * bs < e -> e <= (k + Z.of_nat n) * bs + bs ->
  (k + Z.of_nat n) * bs < Z.of_nat (length data) < 2 ^ 63 ->
  exists s', read_blocks fuel file fd bs off e (seqZ k (Z.of_nat (S n))) out s =
    Some (Ok (out ++ slice data (Z.to_nat (off `max` (k * bs))) (Z.to_nat e)), s') /\ genuine N s'.
Proof.
  intros Hacc Hfd Hg Hfuel. revert k out s Hg.
  induction n as [|n IH]; intros k out s Hg Hov Hlast Hend Hlen.
  all: rewrite seqZ_cons by lia; rewrite (read_blocks_cons _ _ _ _ _ _ _ _ Hov).
  all: pose proof Hov as (H0 & Hk & Hke & Hok & Hoe & Hm).
  all: assert (k * bs < Z.of_nat (length data)) as Hkl by nia.
  all: destruct (get_block_honest N fuel fd k s Hacc Hfd Hg Hfuel Hk ltac:(lia)) as (s1 & E1 & Hg1).
  all: unfold mbindM; rewrite E1, piece_chunk by (done || lia).
  - exists s1. split; [|done]. simpl. replace (e `min` (k * bs + bs)) with e by lia. done.
  - replace (Z.pred (Z.of_nat (S (S n)))) with (Z.of_nat (S n)) by lia.
    replace (Z.succ k) with (k + 1) by lia.
    assert (0 <= Z.of_nat n * bs) by lia.
    assert ((k + 1) * bs = k * bs + bs) as Ek by ring.
    assert ((k + Z.of_nat (S n)) * bs = (k + 1 + Z.of_nat n) * bs) as En by (f_equal; lia).
    assert ((k + 1 + Z.of_nat n) * bs = k * bs + bs + Z.of_nat n * bs) as En' by ring.
    replace (e `min` (k * bs + bs)) with (k * bs + bs) by lia.
    edestruct (IH (k + 1)) as (s2 & E2 & Hg2); [exact Hg1|unfold overlaps; lia|lia..|].
    exists s2. split; [|done]. rewrite E2. do 3 f_equal. rewrite Ek.
    replace (off `max` (k * bs + bs)) with (k * bs + bs) by lia.
    rewrite <- app_assoc. f_equal. apply slice_app; lia.
Qed.

(** A block past the end is read as empty and rejected. *)
Lemma get_block_past N fuel fd k s :
  rejects -> good_handle N fd -> genuine N s -> (N + Z.to_nat bs < fuel)%nat ->
  0 <= k -> Z.of_nat (length data) <= k * bs -> k * bs + bs < u64_modulus ->
  exists s', get_block fuel file fd bs k s = Some (Err EIO, s') /\ genuine N s'.
Proof.
  intros Hrej [Hserve Hset] [Hhs Hb] Hfuel Hk Hlt Hm. unfold get_block, block_cache_get, block_cache_put.
  assert (chunks (Z.to_nat bs) data !! Z.to_nat k = None) as Hnone.
  { destruct (chunks _ _ !! _) as [b0|] eqn:E; [|done]. apply chunks_lookup in E as [_ E]; [|lia].
    assert (Z.to_nat k * Z.to_nat bs = Z.to_nat (k * bs))%nat by (rewrite Z2Nat.inj_mul; lia). lia. }
  set (key := mkKey (file_ino file) (Z.to_nat k)) in *.
  pose proof (lru_get_peek (block_cache s) key) as Hget.
  pose proof (lru_peek_get (block_cache s) key) as Hpeek.
  destruct (lru_get (block_cache s) key) as [[b|] c]; simpl in Hget, Hpeek.
  { symmetry in Hget. apply Hb in Hget. congruence. }
  rewrite wrap64_small by lia.
  destruct (pread_all_serves (os_pread fd) data N fuel (calls s) (k * bs) (Z.to_nat bs) [])
    as (n' & E); simpl; try done; try lia.
  unfold pread_file_data. rewrite E. simpl. rewrite (Hrej _ _ Hnone). eexists. split; [done|].
  constructor; [done|]. intros k' b'. simpl. rewrite Hpeek. apply Hb.
Qed.

Lemma read_blocks_past N fuel fd off e n k out s :
  accepts -> rejects -> good_handle N fd -> genuine N s -> (N + Z.to_nat bs < fuel)%nat ->
  overlaps off e k -> (k + Z.of_nat n) * bs < e -> Z.of_nat (length data) < 2 ^ 63 ->
  Z.of_nat (length data) <= (k + Z.of_nat n) * bs ->
  exists s', read_blocks fuel file fd bs off e (seqZ k (Z.of_nat (S n))) out s = Some (Err EIO, s') /\
    genuine N s'.
Proof.
  intros Hacc Hrej Hfd Hg Hfuel. revert k out s Hg.
  induction n as [|n IH]; intros k out s Hg Hov Hlast Hlen Hpast.
  all: rewrite seqZ_cons by lia; rewrite (read_blocks_cons _ _ _ _ _ _ _ _ Hov).
  all: pose proof Hov as (H0 & Hk & Hke & Hok & Hoe & Hm).
  all: destruct (decide (Z.of_nat (length data) <= k * bs)) as [Hkp|Hkl];
    [destruct (get_block_past N fuel fd k s Hrej Hfd Hg Hfuel Hk Hkp ltac:(lia)) as (s1 & E1 & Hg1);
     unfold mbindM; rewrite E1; by exists s1|].
  - lia.
  - replace (Z.pred (Z.of_nat (S (S n)))) with (Z.of_nat (S n)) by lia.
    replace (Z.succ k) with (k + 1) by lia.
    destruct (get_block_honest N fuel fd k s Hacc Hfd Hg Hfuel Hk ltac:(lia)) as (s1 & E1 & Hg1).
    destruct (overlaps_next off e n k Hov Hlast) as (Hov1 & _ & _ & En). rewrite En in *.
    unfold mbindM. rewrite E1. by apply IH.
Qed.

(** What a read of the range returns: the file's bytes in it, or an error when
    a block past the last one is needed. *)
Definition served_range off size : result Z bytes :=
  if decide ((div_ceil (off + size) bs - 1) * bs < Z.of_nat (length data))
  then Ok (slice data (Z.to_nat off) (Z.to_nat (off + size)))
  else Err EIO.

(** One read of an honest directory. *)
Lemma honest_read N fuel off size s :
  honest N -> accepts -> rejects -> genuine N s -> (N + Z.to_nat bs < fuel)%nat ->
  0 <= off < 2 ^ 63 -> 0 < size < 2 ^ 32 -> Z.of_nat (length data) < 2 ^ 63 ->
  exists s', fs_read verifier fuel (file_ino file) off size s = Some (served_range off size, s') /\
    genuine N s'.
Proof.
  intros Hh Hacc Hrej Hg Hfuel Hoff Hs Hm.
  rewrite fs_read_unfold by lia. unfold mbindM.
  destruct (open_honest N s Hh Hg) as (fd & s1 & -> & Hfd & Hg1).
  destruct (request_blocks off size) as (n & En & Hov & Hl1 & Hl2 & Hmax); [lia..|].
  assert (div_ceil (off + size) bs - 1 = off / bs + Z.of_nat n) as Eq by lia.
  rewrite En. unfold served_range. rewrite Eq. destruct (decide _) as [Hlast|Hlast].
  - destruct (read_blocks_honest N fuel fd off (off + size) n (off / bs) [] s1)
      as (s2 & -> & Hg2); try done. exists s2. simpl. by rewrite Hmax.
  - destruct (read_blocks_past N fuel fd off (off + size) n (off / bs) [] s1)
      as (s2 & -> & Hg2); try done; [lia|]. by exists s2.
Qed.

(** C10: reads of an honest directory: if it serves the file (with any pattern of
    short and finitely many interrupted system calls), and the verifier accepts
    the file's blocks and rejects any block past the last one, then every read
    returns exactly the file's bytes in the range, clamped to the end of the
    file, when its last block is one of the file's, and [EIO] otherwise; the
    caches stay genuine, so the same holds of the reads that follow. *)
Theorem honest_read_correct N fuel off size s :
  honest N -> accepts -> rejects -> genuine N s -> (N + Z.to_nat bs < fuel)%nat ->
  0 <= off < 2 ^ 63 -> 0 < size < 2 ^ 32 -> Z.of_nat (length data) < 2 ^ 63 ->
  exists s', fs_read verifier fuel (file_ino file) off size s =
      Some (if decide ((div_ceil (off + size) bs - 1) * bs < Z.of_nat (length data))
            then Ok (slice data (Z.to_nat off) (Z.to_nat (off + size)))
            else Err EIO, s') /\
    genuine N s'.
Proof. apply honest_read. Qed.
End Reads.

(** ** Attributes and directory listings *)

Section Attributes.
Context {HL1 : LruCache Z Z} {HL2 : LruCache BlockKey bytes}.
Context {HR : RelativePath} {HP : PathConv} {HO : OS}.
Context {V F : Type} {HF : VerifiableFile F} {HV : FileVerifier V F}.
Context (verifier : V).
Implicit Types (s : VerityFS).

Lemma bindM_ok {A B} (m : M A) (f : A -> M B) s b s' :
  mbindM m f s = Some (Ok b, s') <->
  exists a s1, m s = Some (Ok a, s1) /\ f a s1 = Some (Ok b, s').
Proof.
  unfold mbindM. split.
  - destruct (m s) as [[[a|e|] s1]|]; [|done..]. intros E. by exists a, s1.
  - by intros (a & s1 & -> & E).
Qed.

Lemma lift_ok {A} (r : result Z A) s a s' : lift r s = Some (Ok a, s') <-> r = Ok a /\ s' = s.
Proof. unfold lift. split; [by intros [= -> ->]|by intros [-> ->]]. Qed.

Lemma syscall_ok {A} (f : nat -> result Z A) s a s' :
  syscall f s = Some (Ok a, s') -> f (calls s) = Ok a.
Proof. unfold syscall. by intros [= ->]. Qed.

Lemma check_metadata_file_size_ok (file : F) md :
  check_metadata_file_size file md = Ok tt ->
  md_is_file md || md_is_symlink md = true -> expected_size file = Some (md_len md).
Proof.
  unfold check_metadata_file_size. intros E Hk. rewrite Hk in E. inv_ok.
  destruct (decide _) as [|Heq]; [done|]. apply dec_stable in Heq. congruence.
Qed.

Lemma file_type_not_dir md ty :
  file_type_of md = Some ty -> ty <> FtDirectory -> md_is_file md || md_is_symlink md = true.
Proof.
  unfold file_type_of. destruct (md_is_dir md); [congruence|].
  destruct (md_is_file md); [done|]. by destruct (md_is_symlink md).
Qed.

Lemma metadata_attr_size (file : F) ino s attr s' :
  (let! md := get_metadata file in metadata_to_attr md ino) s = Some (Ok attr, s') ->
  attr_ino attr = ino /\
  (attr_kind attr <> FtDirectory -> expected_size file = Some (attr_size attr)).
Proof.
  intros (md & s1 & E1 & E2)%bindM_ok.
  apply syscall_ok in E1. apply rbind_ok in E1 as (md' & _ & E1).
  apply rbind_ok in E1 as ([] & Hcheck & [= ->]).
  apply syscall_ok in E2. apply rbind_ok in E2 as (ty & Hty & [= <-]). simpl.
  split; [done|]. intros Hne. apply ok_or_ok in Hty.
  eapply check_metadata_file_size_ok; [done|]. by eapply file_type_not_dir.
Qed.

(** The size reported for anything but a directory is that of the verity
    descriptor. *)
Definition size_checked {F} `{VerifiableFile F} (f : F) (attr : FileAttr) : Prop :=
  attr_kind attr <> FtDirectory -> expected_size f = Some (attr_size attr).

(** C32: attributes are answered for recorded entries only: a successful
    [getattr] or [lookup] is about the entry found by the inode, or by the
    child path, and the size it reports for anything but a directory is the
    one in the file's verity descriptor, whatever the source directory says. *)
Theorem attributes_checked s s' attr :
  (forall ino, fs_getattr verifier ino s = Some (Ok attr, s') ->
    exists f, lookup_by_ino verifier ino = Some f /\ attr_ino attr = ino /\
      size_checked f attr) /\
  (forall parent name, fs_lookup verifier parent name s = Some (Ok attr, s') ->
    exists p rel f, lookup_by_ino verifier parent = Some p /\ rp_from_path name = Some rel /\
      lookup_by_path verifier (rp_join (file_path p) rel) = Some f /\
      attr_ino attr = file_ino f /\
      size_checked f attr).
Proof.
  split.
  - intros ino (f & s1 & E1 & E2)%bindM_ok. apply lift_ok in E1 as [E1%ok_or_ok ->].
    exists f. split; [done|]. by eapply metadata_attr_size.
  - intros parent name (p & s1 & E1 & E)%bindM_ok. apply lift_ok in E1 as [E1%ok_or_ok ->].
    apply bindM_ok in E as (rel & s1 & E2 & E). apply lift_ok in E2 as [E2%ok_or_ok ->].
    apply bindM_ok in E as (f & s1 & E3 & E). apply lift_ok in E3 as [E3%ok_or_ok ->].
    exists p, rel, f. do 3 (split; [done|]). by eapply metadata_attr_size.
Qed.

(** The recorded entries of a directory. *)
Definition recorded (dir_path : RelPath) (iter : list (option DirEntry))
  : list (Z * FileType * string) :=
  omap (fun e => e ← e; dir_entry verifier dir_path e) iter.

(** A directory that does not change: its metadata and its entries. *)
Record static_dir (ino : Z) (f : F) (md : Metadata) (iter : list (option DirEntry)) : Prop := {
  sd_lookup : lookup_by_ino verifier ino = Some f;
  sd_meta n : os_symlink_metadata n (relative_path_to_path_in_source_dir (file_path f)) = Ok md;
  sd_dir : md_is_dir md = true /\ md_is_file md = false /\ md_is_symlink md = false;
  sd_iter n : os_read_dir n (relative_path_to_path_in_source_dir (file_path f)) = Ok iter;
}.

Definition dots (ino : Z) : list (Z * FileType * string) :=
  [(ino, FtDirectory, "."); (ino, FtDirectory, "..")].

Lemma readdir_entries_static ino f md iter offset s :
  static_dir ino f md iter ->
  exists s', readdir_entries verifier ino offset s =
    Some (Ok ((if decide (offset <= 0) then [(ino, FtDirectory, ".")] else []) ++
              (if decide (offset <= 1) then [(ino, FtDirectory, "..")] else []) ++
              recorded (file_path f) iter), s').
Proof.
  intros [Hl Hm (Hd & Hf & Hs) Hi]. unfold readdir_entries, mbindM, lift.
  rewrite Hl. simpl ok_or. cbv beta iota. unfold get_metadata, syscall. rewrite Hm.
  simpl map_err. cbn [rbind]. unfold check_metadata_file_size. rewrite Hf, Hs. cbn [orb rbind].
  rewrite Hd. cbn [negb]. unfold read_dir, syscall. cbn [calls block_cache handle_cache].
  rewrite Hi. simpl map_err. cbv beta iota. eexists. reflexivity.
Qed.

(** Numbering of a page that starts after [offset]. *)
Definition page (offset : Z) (l : list (Z * FileType * string)) : list (Z * Z * FileType * string) :=
  imap (fun i '(ino, ty, name) => (ino, offset + Z.of_nat i + 1, ty, name)) l.

Lemma fs_readdir_static ino f md iter n offset s :
  static_dir ino f md iter -> 0 <= offset ->
  exists s', fs_readdir verifier n ino offset s =
    Some (Ok (page offset (take n (drop (Z.to_nat offset)
      ((if decide (offset <= 0) then [(ino, FtDirectory, ".")] else []) ++
       (if decide (offset <= 1) then [(ino, FtDirectory, "..")] else []) ++
       recorded (file_path f) iter)))), s').
Proof.
  intros Hd H0. unfold fs_readdir, mbindM.
  destruct (readdir_entries_static ino f md iter offset s Hd) as (s1 & ->).
  unfold ret. rewrite Z.max_l by lia. by eexists.
Qed.

(** A directory listing that fits in one reply is complete: from offset 0
    it has the two dot entries and then exactly the entries of the source
    directory that are recorded with a matching size, numbered from 1. *)
Theorem readdir_single_page ino f md iter n s :
  static_dir ino f md iter -> (2 + length (recorded (file_path f) iter) <= n)%nat ->
  exists s', fs_readdir verifier n ino 0 s =
    Some (Ok (page 0 (dots ino ++ recorded (file_path f) iter)), s').
Proof.
  intros Hd Hn. destruct (fs_readdir_static ino f md iter n 0 s Hd) as (s' & ->); [lia|].
  exists s'. rewrite !decide_True by lia. simpl drop.
  change ([(ino, FtDirectory, ".")] ++ [(ino, FtDirectory, "..")] ++ recorded (file_path f) iter)
    with (dots ino ++ recorded (file_path f) iter).
  rewrite take_ge; [done|]. simpl. lia.
Qed.

(** Continuing a listing loses entries.  A first reply with room for [n]
    entries ([n] at least 2) ends with the recorded entry number [n - 3]
    counted from 0 and offset [n]; the kernel continues with that offset, and
    the next reply starts with the recorded entry number [n]: the entries
    [n - 2] and [n - 1] are in neither. *)
Theorem readdir_continuation_skips ino f md iter n s s1 :
  static_dir ino f md iter -> (2 <= n)%nat -> (n < 2 + length (recorded (file_path f) iter))%nat ->
  (exists s', fs_readdir verifier n ino 0 s =
    Some (Ok (page 0 (dots ino ++ take (n - 2) (recorded (file_path f) iter))), s')) /\
  (exists s', fs_readdir verifier n ino (Z.of_nat n) s1 =
    Some (Ok (page (Z.of_nat n) (take n (drop n (recorded (file_path f) iter)))), s')).
Proof.
  intros Hd Hn Hlen. split.
  - destruct (fs_readdir_static ino f md iter n 0 s Hd) as (s' & ->); [lia|].
    exists s'. rewrite !decide_True by lia. simpl drop.
    destruct n as [|[|n]]; [lia..|]. simpl. by rewrite Nat.sub_0_r.
  - destruct (fs_readdir_static ino f md iter n (Z.of_nat n) s1 Hd) as (s' & ->); [lia|].
    exists s'. rewrite !decide_False by lia. by rewrite Nat2Z.id.
Qed.
End Attributes.
