(* ===== verification/VerityFsInstances.v ===== *)
(** * The file system on concrete directories

    A verifier that compares blocks with the content itself, an honest and a
    dishonest directory: evaluations of the handlers, instances of the
    theorems of [VerityFsProofs], and a read whose output is not the file's. *)

From stdpp Require Import base list numbers option strings gmap relations.
From Stdlib Require Import ZArith Lia.
From S2P Require Import Prelude Slices InnerHash Descriptor VerityDigest MerkleSpec ToyHash.
From S2P Require Import MerkleTree FileVerifier FileHandleCache VerityFs VerityFsProofs.

Local Open Scope Z_scope.

#[local] Existing Instances toy1 toy_hex toy_hex_spec toy_path toy_path_spec.

Definition handle_lru : LruCache Z Z := toy_lru Z Z.
Definition block_lru : LruCache BlockKey bytes := toy_lru BlockKey bytes.
#[local] Existing Instances handle_lru block_lru.

#[local] Instance handle_lru_spec : LruCacheSpec Z Z := toy_lru_spec Z Z.
#[local] Instance block_lru_spec : LruCacheSpec BlockKey bytes := toy_lru_spec BlockKey bytes.

Definition toy_conv : PathConv := {|
  rp_from_path name := Some [name];
  to_logical_path p := String.concat "/" p;
|}.
#[local] Existing Instance toy_conv.

(** ** A verifier that knows the content *)

Record plain := mkPlain {
  pl_ino : Z;
  pl_path : list string;
  pl_data : option bytes;
}.

Definition plain_verify (f : plain) (k : nat) (b : bytes) : result unit unit :=
  match pl_data f with
  | None => Err tt
  | Some d =>
    match chunks 4 d !! k with
    | None => Err tt
    | Some b0 => if decide (pad_to 4 b = pad_to 4 b0) then Ok tt else Err tt
    end
  end.

#[local] Instance plain_file : VerifiableFile plain := {
  file_ino := pl_ino;
  file_path := pl_path;
  expected_size f := (fun d => Z.of_nat (length d)) <$> pl_data f;
  file_block_size f := (fun _ => 4) <$> pl_data f;
  file_verify_data_block := plain_verify;
}.

#[local] Instance plain_verifier : FileVerifier (list plain) plain := {
  lookup_by_ino v i := find (fun f => bool_decide (pl_ino f = i)) v;
  lookup_by_path v p := find (fun f => bool_decide (pl_path f = p)) v;
}.

Definition file_a : plain := mkPlain 2 ["a"] (Some (mk [1; 2; 3; 4; 5; 6; 7])).
Definition file_b : plain := mkPlain 3 ["b"] (Some (mk [1; 2])).
Definition file_c : plain := mkPlain 4 ["c"] (Some (mk [3; 4])).
Definition root_dir : plain := mkPlain 1 [] None.
Definition plain_table : list plain := [root_dir; file_a; file_b; file_c].

#[local] Instance plain_table_spec : FileVerifierSpec plain_table.
Proof.
  constructor.
  - intros i f E. apply find_some in E as [_ E]. by apply bool_decide_eq_true in E.
  - intros p f E. simpl in E.
    repeat (case_bool_decide; [injection E as <-; by split|]). done.
Qed.

(** ** An honest directory *)

Definition toy_metadata (dir : bool) (len : Z) : Metadata :=
  mkMetadata dir (negb dir) false len None (Some 7) None 33188 1 0 0.

Definition honest_os : OS := {|
  os_open n path := Ok 3;
  os_pread fd := toy_disk (mk [1; 2; 3; 4; 5; 6; 7]);
  os_symlink_metadata n path :=
    Ok (if decide (path = "") then toy_metadata true 0
        else if decide (path = "a") then toy_metadata false 7 else toy_metadata false 2);
  os_read_dir n path := Ok [
    Some (mkDirEntry "a" (Some (toy_metadata false 7)));
    Some (mkDirEntry "b" (Some (toy_metadata false 2)));
    Some (mkDirEntry "c" (Some (toy_metadata false 2)));
    Some (mkDirEntry "unrecorded" (Some (toy_metadata false 2))); None ];
  os_read_link n path := Err None;
  os_now n := 1000;
|}.
#[local] Existing Instance honest_os.

Definition data_a : bytes := mk [1; 2; 3; 4; 5; 6; 7].

Lemma authentic_a : authentic file_a 4 data_a.
Proof.
  intros k b. simpl. unfold plain_verify. cbn [pl_data file_a]. fold data_a.
  change (Z.to_nat 4) with 4%nat.
  destruct (chunks 4 data_a !! k) as [b0|]; [|done]. case_decide; [|done]. eauto.
Qed.

Lemma accepts_a : accepts file_a 4 data_a.
Proof.
  intros k b E. change (Z.to_nat 4) with 4%nat in E. simpl. unfold plain_verify.
  cbn [pl_data file_a]. fold data_a. rewrite E. by rewrite decide_True.
Qed.

Lemma honest_a : honest file_a data_a 2.
Proof. intros n. exists 3. split; [done|]. split; [apply toy_disk_serves|apply toy_disk_settles]. Qed.

Lemma rejects_a : rejects file_a 4 data_a.
Proof.
  intros k b E. change (Z.to_nat 4) with 4%nat in E. simpl. unfold plain_verify.
  cbn [pl_data file_a]. fold data_a. by rewrite E.
Qed.

Lemma honest_read_correct_witness :
  exists s', fs_read plain_table 7 2 2 4 fs_new =
      Some (if decide ((div_ceil (2 + 4) 4 - 1) * 4 < Z.of_nat (length data_a))
            then Ok (slice data_a 2 6) else Err EIO, s') /\
    genuine file_a 4 data_a 2 s'.
Proof.
  refine (honest_read_correct plain_table file_a 4 data_a _ _ _ 2 7 2 4 fs_new
    honest_a accepts_a rejects_a (genuine_new _ _ _ _) _ _ _ _).
  - reflexivity.
  - reflexivity.
  - lia.
  - simpl. lia.
  - lia.
  - lia.
  - simpl. lia.
Defined.

(** The same read inside the file, and one that needs a block past its end. *)
Example read_inside : fst <$> fs_read plain_table 7 2 2 4 fs_new = Some (Ok (mk [3; 4; 5; 6])).
Proof. vm_compute. reflexivity. Qed.

Example read_past_last_block : fst <$> fs_read plain_table 7 2 2 8 fs_new = Some (Err EIO).
Proof. vm_compute. reflexivity. Qed.

(** The state after that read. *)
Definition after_read : VerityFS :=
  match fs_read plain_table 7 2 2 4 fs_new with Some (_, s) => s | None => fs_new end.

Lemma after_read_reachable : reachable plain_table after_read.
Proof.
  apply rtc_once. exists (ReqRead 7 2 2 4). eexists. vm_compute. reflexivity.
Qed.

Lemma reachable_cache_verified_witness :
  exists f, lookup_by_ino plain_table 2 = Some f /\
    file_verify_data_block f 1 (mk [5; 6; 7]) = Ok tt.
Proof.
  apply (reachable_cache_verified plain_table after_read (mkKey 2 1) (mk [5; 6; 7])
    after_read_reachable).
  vm_compute. reflexivity.
Defined.

Lemma full_read_authentic_witness :
  Z.of_nat (length (mk [2; 3; 4; 5; 6])) <= 5 /\ mk [2; 3; 4; 5; 6] = slice (data_a ++ zeros 4) 1 6.
Proof.
  assert (forall (P Q : Prop) (R : Prop), P /\ (authentic file_a 4 data_a -> Q -> R) -> Q -> P /\ R) as Hand
    by (intros P Q R [Hp Hr] Hq; split; [exact Hp|exact (Hr authentic_a Hq)]).
  refine (Hand _ _ _ (full_read_authentic plain_table file_a 4 data_a _ _ _ 7 1 5 after_read
    (mk [2; 3; 4; 5; 6]) (match fs_read plain_table 7 2 1 5 after_read with
      | Some (_, s) => s | None => fs_new end) after_read_reachable _ _ _) eq_refl).
  - reflexivity.
  - reflexivity.
  - lia.
  - lia.
  - lia.
  - vm_compute. reflexivity.
Defined.

(** ** Listings *)

Definition listing : list (option DirEntry) :=
  match os_read_dir 0 "" with Ok l => l | _ => [] end.

Lemma root_static : static_dir plain_table 1 root_dir (toy_metadata true 0) listing.
Proof. by constructor. Qed.

Lemma readdir_single_page_witness :
  exists s', fs_readdir plain_table 10 1 0 fs_new =
    Some (Ok (page 0 (dots 1 ++ [(2, FtRegularFile, "a"); (3, FtRegularFile, "b");
      (4, FtRegularFile, "c")])), s').
Proof.
  apply (readdir_single_page plain_table 1 root_dir (toy_metadata true 0) listing 10 fs_new root_static).
  apply Nat.leb_le. vm_compute. reflexivity.
Defined.

(** Pages of two entries: the files [a] and [b] are never listed. *)
Lemma readdir_continuation_skips_witness :
  (exists s', fs_readdir plain_table 2 1 0 fs_new = Some (Ok (page 0 (dots 1)), s')) /\
  (exists s', fs_readdir plain_table 2 1 2 fs_new =
    Some (Ok [(4, 3, FtRegularFile, "c")], s')).
Proof.
  apply (readdir_continuation_skips plain_table 1 root_dir (toy_metadata true 0) listing 2 fs_new
    fs_new root_static).
  - lia.
  - apply Nat.ltb_lt. vm_compute. reflexivity.
Defined.

(** ** A block cut short in the middle of a file *)

(** The genuine content, and a directory that cuts its first block after two
    bytes. *)
Definition zero_data : bytes := mk [1; 2; 0; 0; 5; 6; 7; 8].

Definition cutting_os : OS := {|
  os_open n path := Ok 3;
  os_pread fd n off count :=
    if decide (off = 0) then PreadData (mk [1; 2])
    else if decide (off < 4) then PreadData []
    else PreadData (take count (drop (Z.to_nat off) zero_data));
  os_symlink_metadata n path := Ok (toy_metadata false 8);
  os_read_dir n path := Err None;
  os_read_link n path := Err None;
  os_now n := 0;
|}.

Definition zero_info : FileVerityInfo :=
  info_of "f" (toy_config []) zero_data (level1 (toy_config []) zero_data).

Definition zero_table : VerityVerifier := verifier_new [zero_info].

(** A block of the middle of a file that ends in zero bytes may be read
    short: it still verifies, because the check pads it, and the read returns
    the following bytes at the wrong position.  Here the file's information
    passes the self check, the directory returns two of the first four bytes,
    and reading all eight bytes succeeds with six, of which the last four are
    not where they are in the file. *)
Theorem short_block_shifts_output :
  verify_self zero_info = Ok tt /\
  exists s', @fs_read _ _ _ toy_conv cutting_os _ _ _ _ zero_table 10 2 0 8 fs_new =
    Some (Ok (mk [1; 2; 5; 6; 7; 8]), s') /\
  slice zero_data 0 6 <> mk [1; 2; 5; 6; 7; 8].
Proof.
  split; [vm_compute; reflexivity|]. eexists. split; [vm_compute; reflexivity|].
  vm_compute. discriminate.
Qed.
