(* ===== verification/VerityMetadata.v ===== *)
(** * Metadata of a protected directory

    [cryptpilot-verity/src/metadata/mod.rs]: hashing one file, writing and
    reading the metadata of all files, and the root hash of the metadata.
    FlatBuffers (and the code generated for the schema) and canonical JSON are
    interfaces: a document is a value of the record types below. *)

From stdpp Require Import base list numbers option strings sorting.
From Stdlib Require Import ZArith Lia.
From S2P Require Import Prelude Slices InnerHash Descriptor VerityDigest MerkleSpec ToyHash.
From S2P Require Import MerkleTree FileVerifier.

(** ** Documents *)

(** The tables of the schema; tables, strings and vectors may be absent. *)
Record FbDescriptor := mkFbDescriptor {
  fbd_version : Z;
  fbd_hash_algorithm : Z;
  fbd_log_blocksize : Z;
  fbd_data_size : Z;
  fbd_root_hash : option bytes;
  fbd_salt : option bytes;
}.

Record FbFileInfo := mkFbFileInfo {
  fbf_path : option string;
  fbf_descriptor : option FbDescriptor;
  fbf_merkle_tree_level1 : option bytes;
  fbf_descriptor_hash : option string;
}.

Record FbKeyValue := mkFbKeyValue {
  fbk_key : option string;
  fbk_value : option string;
}.

Record FbMetadata := mkFbMetadata {
  fbm_version : Z;
  fbm_files : option (list FbFileInfo);
  fbm_labels : option (list FbKeyValue);
}.

(** [FileHashJsonEntry] and [to_canon_json_vec] of a [MetadataHashDoc]. *)
Record FileHashJsonEntry := mkJsonEntry {
  je_descriptor_hash : string;
  je_path : string;
}.

Class CanonJson := {
  to_canon_json_vec : list FileHashJsonEntry -> option bytes;
}.

(** Canonical JSON is JSON: it can be read back. *)
Class CanonJsonSpec `{CanonJson} : Prop := {
  canon_json_inj a b j :
    to_canon_json_vec a = Some j -> to_canon_json_vec b = Some j -> a = b;
  canon_json_total a : is_Some (to_canon_json_vec a);
}.

(** ** [BTreeMap<String, String>]

    In key order, one value per key. *)

Definition Labels : Type := list (string * string).

Fixpoint btree_insert (k v : string) (m : Labels) : Labels :=
  match m with
  | [] => [(k, v)]
  | (k', v') :: m' =>
    match String.compare k k' with
    | Lt => (k, v) :: m
    | Eq => (k, v) :: m'
    | Gt => (k', v') :: btree_insert k v m'
    end
  end.

Definition btree_get (m : Labels) (k : string) : option string :=
  snd <$> find (fun kv => bool_decide (fst kv = k)) m.

(** ** Operations *)

Record MetadataInfo := mkMetadataInfo {
  file_infos : list FileVerityInfo;
  labels : Labels;
}.

Inductive MetadataError :=
| ParseFailed
| UnsupportedVersion (v : Z)
| MissingField (name : string)
| BrokenMerkleTree (path : string) (len : nat)
| MarshalFailed.

(** ** The document of the metadata *)

Definition file_info_to_fb (info : FileVerityInfo) : FbFileInfo := {|
  fbf_path := Some (info_path info);
  fbf_descriptor := Some {|
    fbd_version := version (descriptor info);
    fbd_hash_algorithm := hash_algorithm (descriptor info);
    fbd_log_blocksize := log_blocksize (descriptor info);
    fbd_data_size := data_size (descriptor info);
    fbd_root_hash := Some (root_hash (descriptor info));
    fbd_salt := Some (desc_salt (descriptor info)) |};
  fbf_merkle_tree_level1 := Some (level1_as_bytes (info_tree info));
  fbf_descriptor_hash := Some (descriptor_hash info) |}.

Definition label_to_fb (kv : string * string) : FbKeyValue :=
  mkFbKeyValue (Some (fst kv)) (Some (snd kv)).

(** The tables [serialize_metadata] builds, for files in the order given. *)
Definition metadata_doc (file_infos : list FileVerityInfo) (labels : Labels) : FbMetadata := {|
  fbm_version := 1;
  fbm_files := Some (map file_info_to_fb file_infos);
  fbm_labels := Some (map label_to_fb labels) |}.

(** What the commands need of flatbuffers: building the document of some files
    and labels ([None] is the builder's panic at the largest buffer) and
    [flatbuffers::root].  [fb_fits] says that a document is within the limits of
    both. *)
Class FlatBuffers := {
  fb_finish : list FileVerityInfo -> Labels -> option bytes;
  fb_root : bytes -> option FbMetadata;
  fb_fits : list FileVerityInfo -> Labels -> Prop;
}.

(** A buffer that can be opened holds the document it was built from, and one
    within the limits can be built and opened. *)
Class FlatBuffersSpec `{FlatBuffers} : Prop := {
  fb_root_finish files labels b m :
    fb_finish files labels = Some b -> fb_root b = Some m -> m = metadata_doc files labels;
  fb_finish_fits files labels :
    fb_fits files labels -> exists b, fb_finish files labels = Some b /\ is_Some (fb_root b);
}.

Section Metadata.
Context `{InnerHash, Hex, FlatBuffers, CanonJson}.

(** [calculate_fsverity_hash]; [None] is the panic beyond [MAX_LEVELS]. *)
Definition calculate_fsverity_hash (data : bytes) : option (FsVerityDescriptor * MerkleTree) :=
  digest ← digest_new_empty_salt;
  digest ← update digest data;
  finalize_into_fs_verity_stuffs digest.

(** Order by path; [sort_unstable_by_key] promises no order of equal keys. *)
Definition path_le (a b : FileVerityInfo) : Prop := String.le (info_path a) (info_path b).

#[export] Instance path_le_dec : RelDecision path_le := fun a b => String.le_dec _ _.

(** The builder calls in detail are those of [MetadataBuffer]. *)
Definition serialize_metadata (file_infos : list FileVerityInfo) (labels : Labels)
  : result MetadataError bytes :=
  unwrap (fb_finish (merge_sort path_le file_infos) labels).

(** One table of the files vector; [copy_from_slice] panics when the root hash
    has another length than the digest. *)
Definition file_info_from_fb (file_info : FbFileInfo) : result MetadataError FileVerityInfo :=
  let? path := ok_or (fbf_path file_info) (MissingField "path") in
  let? descriptor_hash := ok_or (fbf_descriptor_hash file_info) (MissingField "descriptor_hash") in
  let? fb_descriptor := ok_or (fbf_descriptor file_info) (MissingField "descriptor") in
  let? root_hash_bytes := ok_or (fbd_root_hash fb_descriptor) (MissingField "root_hash") in
  let? root_hash :=
    if decide (length root_hash_bytes = OutputSize) then Ok root_hash_bytes else Panic in
  let salt := default [] (fbd_salt fb_descriptor) in
  let descriptor := {|
    version := fbd_version fb_descriptor;
    hash_algorithm := fbd_hash_algorithm fb_descriptor;
    log_blocksize := fbd_log_blocksize fb_descriptor;
    data_size := fbd_data_size fb_descriptor;
    root_hash := root_hash;
    desc_salt := salt |} in
  let merkle_tree_level1 := default [] (fbf_merkle_tree_level1 file_info) in
  let '(hashes, remainder) := chunks_exact OutputSize merkle_tree_level1 in
  if decide (remainder <> []) then Err (BrokenMerkleTree path (length merkle_tree_level1))
  else Ok (mkInfo path descriptor (from_level1_hashes hashes) descriptor_hash).

(** [Iterator::try_for_each]-style loops with [?] inside. *)
Fixpoint try_map {E A B} (f : A -> result E B) (l : list A) : result E (list B) :=
  match l with
  | [] => Ok []
  | a :: l => let? b := f a in let? bs := try_map f l in Ok (b :: bs)
  end.

Definition label_from_fb (kv : FbKeyValue) : result MetadataError (string * string) :=
  let? key := ok_or (fbk_key kv) (MissingField "key") in
  let? value := ok_or (fbk_value kv) (MissingField "value") in
  Ok (key, value).

Definition deserialize_metadata (data : bytes) : result MetadataError MetadataInfo :=
  let? metadata := ok_or (fb_root data) ParseFailed in
  let version := fbm_version metadata in
  if decide (version <> 1%Z) then Err (UnsupportedVersion version)
  else
    let? result := try_map file_info_from_fb (default [] (fbm_files metadata)) in
    let? kvs := try_map label_from_fb (default [] (fbm_labels metadata)) in
    let labels := foldl (fun m kv => btree_insert (fst kv) (snd kv) m) [] kvs in
    Ok (mkMetadataInfo result labels).

Definition json_entry_from_fb (file_info : FbFileInfo) : result MetadataError FileHashJsonEntry :=
  let? path := ok_or (fbf_path file_info) (MissingField "path") in
  let? descriptor_hash := ok_or (fbf_descriptor_hash file_info) (MissingField "descriptor_hash") in
  Ok (mkJsonEntry descriptor_hash path).

Definition entry_le (a b : FileHashJsonEntry) : Prop := String.le (je_path a) (je_path b).

#[export] Instance entry_le_dec : RelDecision entry_le := fun a b => String.le_dec _ _.

(** [sort_by] is stable, and so is [merge_sort]. *)
Definition calculate_metadata_hash (metadata_bytes : bytes) : result MetadataError string :=
  let? metadata := ok_or (fb_root metadata_bytes) ParseFailed in
  let? entries := try_map json_entry_from_fb (default [] (fbm_files metadata)) in
  let entries := merge_sort entry_le entries in
  let? json_bytes := ok_or (to_canon_json_vec entries) MarshalFailed in
  Ok (hex_encode (hash json_bytes)).
End Metadata.

(** ** Lemmas *)

Section MetadataLemmas.
Context `{InnerHashSpec, HexSpec, FlatBuffersSpec, CanonJsonSpec}.

Lemma try_map_ok {E A B} (f : A -> result E B) (g : A -> B) l :
  Forall (fun a => f a = Ok (g a)) l -> try_map f l = Ok (map g l).
Proof. induction 1 as [|a l Ha _ IH]; [done|]. simpl. by rewrite Ha, IH. Qed.

Lemma try_map_compose {E A B C} (f : B -> result E C) (g : A -> B) (h : A -> C) l :
  Forall (fun a => f (g a) = Ok (h a)) l -> try_map f (map g l) = Ok (map h l).
Proof. induction 1 as [|a l Ha _ IH]; [done|]. simpl. by rewrite Ha, IH. Qed.

(** Values the types of the Rust program guarantee: hashes have the digest's
    length. *)
Definition info_wf (info : FileVerityInfo) : Prop :=
  length (root_hash (descriptor info)) = OutputSize /\ digests (info_tree info).

Lemma file_info_roundtrip info :
  info_wf info -> file_info_from_fb (file_info_to_fb info) = Ok info.
Proof.
  intros [Hr Ht]. unfold file_info_from_fb.
  change (default [] (fbf_merkle_tree_level1 (file_info_to_fb info))) with (concat (info_tree info)).
  pose proof (chunks_exact_app OutputSize (info_tree info) [] output_size_pos Ht) as Hc.
  rewrite app_nil_r in Hc. rewrite Hc by apply output_size_pos.
  simpl. rewrite decide_True by done. simpl. by destruct info as [? [] ? ?].
Qed.

(** [BTreeMap] contents: strictly increasing keys. *)
Definition labels_wf (m : Labels) : Prop :=
  StronglySorted (fun a b => String.compare (fst a) (fst b) = Lt) m.

Lemma btree_insert_last m k v :
  Forall (fun kv => String.compare (fst kv) k = Lt) m -> btree_insert k v m = m ++ [(k, v)].
Proof.
  induction 1 as [|[k' v'] m Hk _ IH]; [done|]. simpl in *.
  rewrite String.compare_antisym, Hk. simpl. by rewrite IH.
Qed.

Lemma btree_rebuild m :
  labels_wf m -> foldl (fun m kv => btree_insert (fst kv) (snd kv) m) [] m = m.
Proof.
  intros Hm. enough (forall acc, labels_wf (acc ++ m) ->
    foldl (fun m kv => btree_insert (fst kv) (snd kv) m) acc m = acc ++ m) as G by by apply G.
  clear Hm. induction m as [|[k v] m IH]; intros acc Hacc; simpl; [by rewrite app_nil_r|].
  rewrite btree_insert_last.
  - rewrite IH; rewrite <- app_assoc; done.
  - apply Forall_forall. intros kv Hkv.
    eapply (StronglySorted_app_1_elem_of _ _ _ kv (k, v)) in Hacc; [done|done|by left].
Qed.

Lemma serialize_ok files labels0 b :
  serialize_metadata files labels0 = Ok b -> fb_finish (merge_sort path_le files) labels0 = Some b.
Proof. unfold serialize_metadata. destruct (fb_finish _ _); simpl; congruence. Qed.

(** The document of a serialized buffer, where it can be opened. *)
Lemma serialized_root files labels0 b :
  serialize_metadata files labels0 = Ok b -> is_Some (fb_root b) ->
  fb_root b = Some (metadata_doc (merge_sort path_le files) labels0).
Proof. intros E%serialize_ok [m Hm]. by rewrite Hm, (fb_root_finish _ _ _ _ E Hm). Qed.

Lemma serialize_fits files labels0 :
  fb_fits (merge_sort path_le files) labels0 ->
  exists b, serialize_metadata files labels0 = Ok b /\ is_Some (fb_root b).
Proof.
  intros (b & E & Hr)%fb_finish_fits. exists b. split; [|done].
  unfold serialize_metadata. by rewrite E.
Qed.

Lemma metadata_hash_sorted files labels0 b :
  serialize_metadata files labels0 = Ok b -> is_Some (fb_root b) ->
  calculate_metadata_hash b =
    rbind (ok_or (to_canon_json_vec (merge_sort entry_le
        (map (fun info => mkJsonEntry (descriptor_hash info) (info_path info))
          (merge_sort path_le files)))) MarshalFailed)
      (fun json => Ok (hex_encode (hash json))).
Proof.
  intros E Hr. unfold calculate_metadata_hash. rewrite (serialized_root _ _ _ E Hr).
  cbn [ok_or rbind fbm_files from_option id metadata_doc].
  rewrite (try_map_compose _ _ (fun info => mkJsonEntry (descriptor_hash info) (info_path info))).
  - done.
  - by apply Forall_forall.
Qed.

(** Sorting by path: with distinct paths only the set of entries matters. *)
Lemma sorted_entries_unique (l1 l2 : list FileHashJsonEntry) :
  l1 ≡ₚ l2 -> NoDup (map je_path l1) -> merge_sort entry_le l1 = merge_sort entry_le l2.
Proof.
  intros Hp Hnd.
  assert (Transitive entry_le) as Htr by (intros a b d; unfold entry_le; by transitivity (je_path b)).
  assert (Total entry_le) as Hto by (intros a b; unfold entry_le; apply String.le_total).
  apply (StronglySorted_unique_strong entry_le).
  - intros a b Ha Hb Hab Hba. rewrite merge_sort_Permutation in Ha, Hb.
    assert (je_path a = je_path b) as E by by apply (anti_symm String.le).
    rewrite <- Hp in Hb. clear -Hnd Ha Hb E.
    apply list_elem_of_lookup in Ha as [i Hi], Hb as [j Hj].
    assert (i = j) as <-; [|congruence].
    apply (NoDup_lookup (map je_path l1) i j (je_path a)); [done|..].
    + rewrite list_lookup_fmap, Hi. done.
    + rewrite list_lookup_fmap, Hj. simpl. congruence.
  - apply StronglySorted_merge_sort; done.
  - apply StronglySorted_merge_sort; done.
  - by rewrite !merge_sort_Permutation.
Qed.

Lemma metadata_deserialize files labels0 b :
  Forall info_wf files -> labels_wf labels0 ->
  serialize_metadata files labels0 = Ok b -> is_Some (fb_root b) ->
  deserialize_metadata b = Ok (mkMetadataInfo (merge_sort path_le files) labels0).
Proof.
  intros Hf Hl Es Hr. unfold deserialize_metadata. rewrite (serialized_root _ _ _ Es Hr).
  cbn [ok_or rbind fbm_files fbm_labels fbm_version from_option id metadata_doc].
  rewrite decide_False by (intros E; by apply E).
  rewrite (try_map_compose _ _ id).
  - rewrite (try_map_compose _ _ id) by (apply Forall_forall; by intros [] _).
    cbn [rbind]. rewrite !map_id, btree_rebuild by done. done.
  - rewrite <- (merge_sort_Permutation path_le files) in Hf.
    eapply Forall_impl; [exact Hf|]. intros info Hi. by apply file_info_roundtrip.
Qed.

(** A hash was computed from a buffer that can be opened. *)
Lemma metadata_hash_root b h : calculate_metadata_hash b = Ok h -> is_Some (fb_root b).
Proof. unfold calculate_metadata_hash. destruct (fb_root b); [done|]. discriminate. Qed.
End MetadataLemmas.

(** ** Properties *)

Section MetadataProperties.
Context `{InnerHashSpec, HexSpec, FlatBuffersSpec, CanonJsonSpec}.

(** Metadata can be read back: files and labels within the limits of a
    buffer serialize, and deserializing the bytes gives the same file
    information, sorted by path, and the same labels. *)
Theorem metadata_roundtrip files labels0 :
  Forall info_wf files -> labels_wf labels0 -> fb_fits (merge_sort path_le files) labels0 ->
  (exists b, serialize_metadata files labels0 = Ok b /\
    deserialize_metadata b = Ok (mkMetadataInfo (merge_sort path_le files) labels0)) /\
  merge_sort path_le files ≡ₚ files.
Proof.
  intros Hf Hl (b & E & Hr)%serialize_fits. split; [|apply merge_sort_Permutation].
  exists b. split; [done|by apply metadata_deserialize].
Qed.

(** The root hash is reproducible: for files with distinct paths it depends
    neither on the order in which they were found nor on the labels, and it
    is always defined within the limits of a buffer. *)
Theorem metadata_hash_reproducible files files' labels0 labels1 :
  files ≡ₚ files' -> NoDup (map info_path files) ->
  fb_fits (merge_sort path_le files) labels0 -> fb_fits (merge_sort path_le files') labels1 ->
  exists b b' h, serialize_metadata files labels0 = Ok b /\ serialize_metadata files' labels1 = Ok b' /\
    calculate_metadata_hash b = Ok h /\ calculate_metadata_hash b' = Ok h.
Proof.
  intros Hp Hnd (b & E & Hr)%serialize_fits (b' & E' & Hr')%serialize_fits. exists b, b'.
  rewrite (metadata_hash_sorted _ _ _ E Hr), (metadata_hash_sorted _ _ _ E' Hr').
  rewrite (sorted_entries_unique _ (map (fun info => mkJsonEntry (descriptor_hash info)
    (info_path info)) (merge_sort path_le files'))).
  - match goal with |- context [to_canon_json_vec ?l] =>
      destruct (canon_json_total l) as [j ->] end. by eexists.
  - by rewrite !merge_sort_Permutation, Hp.
  - rewrite map_map. simpl. by rewrite merge_sort_Permutation.
Qed.

(** What a metadata file says of its files: path and measurement. *)
Definition file_pairs (m : FbMetadata) : list (option string * option string) :=
  map (fun f => (fbf_path f, fbf_descriptor_hash f)) (default [] (fbm_files m)).

(** One of them as an entry of the hashed document. *)
Definition pair_entry (pm : option string * option string) : result MetadataError FileHashJsonEntry :=
  match pm with
  | (Some path, Some measurement) => Ok (mkJsonEntry measurement path)
  | (None, _) => Err (MissingField "path")
  | (_, None) => Err (MissingField "descriptor_hash")
  end.

(** The sorted (path, measurement) pairs of a metadata file. *)
Definition metadata_entries (b : bytes) : result MetadataError (list FileHashJsonEntry) :=
  let? metadata := ok_or (fb_root b) ParseFailed in
  let? entries := try_map pair_entry (file_pairs metadata) in
  Ok (merge_sort entry_le entries).

(** The code's entries are the recorded pairs. *)
Lemma json_entry_pair f : json_entry_from_fb f = pair_entry (fbf_path f, fbf_descriptor_hash f).
Proof. unfold json_entry_from_fb. by destruct (fbf_path f), (fbf_descriptor_hash f). Qed.

Lemma json_entries_pairs m :
  try_map json_entry_from_fb (default [] (fbm_files m)) = try_map pair_entry (file_pairs m).
Proof.
  unfold file_pairs. induction (default [] (fbm_files m)) as [|f l IH]; [done|].
  simpl. by rewrite json_entry_pair, IH.
Qed.

Lemma metadata_hash_ok b h :
  calculate_metadata_hash b = Ok h ->
  exists e j, metadata_entries b = Ok e /\ to_canon_json_vec e = Some j /\ h = hex_encode (hash j).
Proof.
  unfold calculate_metadata_hash, metadata_entries. intros E.
  apply rbind_ok in E as (m & -> & E). cbn [rbind]. rewrite <- json_entries_pairs.
  apply rbind_ok in E as (es & -> & E). cbn [rbind].
  apply rbind_ok in E as (j & Ej & [= <-]). apply ok_or_ok in Ej. eauto.
Qed.

(** Entries determine the pairs, up to their order. *)
Lemma entries_pairs pairs es :
  try_map pair_entry pairs = Ok es ->
  pairs = map (fun e => (Some (je_path e), Some (je_descriptor_hash e))) es.
Proof.
  revert es. induction pairs as [|[[p|] [m|]] pairs IH]; intros es E; simpl in E; try done.
  - by injection E as <-.
  - apply rbind_ok in E as (es' & E & [= <-]). simpl. by rewrite (IH es').
Qed.

Lemma metadata_entries_pairs b e :
  metadata_entries b = Ok e ->
  exists m, fb_root b = Some m /\
    file_pairs m ≡ₚ map (fun e => (Some (je_path e), Some (je_descriptor_hash e))) e.
Proof.
  unfold metadata_entries. intros E. apply rbind_ok in E as (m & Em & E). apply ok_or_ok in Em.
  apply rbind_ok in E as (es & Ees & [= <-]). exists m. split; [done|].
  rewrite (entries_pairs _ _ Ees). by rewrite merge_sort_Permutation.
Qed.

(** C26: the root hash binds the content of the metadata: two metadata files with
    the same root hash list the same paths with the same measurements, up to
    the order, or the two hashed JSON documents, of what they list, are a
    collision. *)
Theorem metadata_hash_binds b1 b2 h :
  calculate_metadata_hash b1 = Ok h -> calculate_metadata_hash b2 = Ok h ->
  exists m1 m2, fb_root b1 = Some m1 /\ fb_root b2 = Some m2 /\
    (file_pairs m1 ≡ₚ file_pairs m2 \/
     exists e1 e2 j1 j2, metadata_entries b1 = Ok e1 /\ metadata_entries b2 = Ok e2 /\
       to_canon_json_vec e1 = Some j1 /\ to_canon_json_vec e2 = Some j2 /\
       j1 <> j2 /\ hash j1 = hash j2).
Proof.
  intros (e1 & j1 & E1 & J1 & ->)%metadata_hash_ok (e2 & j2 & E2 & J2 & Eh)%metadata_hash_ok.
  apply hex_encode_inj in Eh.
  destruct (metadata_entries_pairs _ _ E1) as (m1 & R1 & P1).
  destruct (metadata_entries_pairs _ _ E2) as (m2 & R2 & P2).
  exists m1, m2. do 2 (split; [done|]). destruct (decide (j1 = j2)) as [<-|Hne].
  - left. assert (e1 = e2) as <- by by eapply canon_json_inj. by rewrite P1, P2.
  - right. by exists e1, e2, j1, j2.
Qed.
End MetadataProperties.
