(* ===== verification/RustString.v ===== *)
(** * Strings

    What the crates use of [str] and [String]: UTF-8 decoding, searching,
    trimming and splitting.  A [string] is its sequence of bytes. *)

From Stdlib Require Import Ascii.
From Stdlib.Strings Require Import String.
From stdpp Require Import base list strings.
From Stdlib Require Import ZArith Lia.
From S2P Require Import Prelude.

Local Open Scope Z_scope.

(** [s.as_bytes()] and the string over given bytes. *)
Definition as_bytes (s : string) : bytes := list_byte_of_string s.
Definition of_bytes (l : bytes) : string := string_of_list_byte l.

Lemma as_bytes_of_bytes l : as_bytes (of_bytes l) = l.
Proof. apply list_byte_of_string_of_list_byte. Qed.

Lemma of_bytes_as_bytes s : of_bytes (as_bytes s) = s.
Proof. apply string_of_list_byte_of_string. Qed.

(** ** UTF-8 *)

(** The ranges the bytes after a leading byte must lie in; [None] for a byte
    that starts no character. *)
Definition utf8_need (b : Z) : option (list (Z * Z)) :=
  let cont := (128, 191) in
  if b <? 128 then Some []
  else if b <? 194 then None
  else if b <? 224 then Some [cont]
  else if b =? 224 then Some [(160, 191); cont]
  else if b =? 237 then Some [(128, 159); cont]
  else if b <? 240 then Some [cont; cont]
  else if b =? 240 then Some [(144, 191); cont; cont]
  else if b <? 244 then Some [cont; cont; cont]
  else if b =? 244 then Some [(128, 143); cont; cont]
  else None.

(** The characters of a byte sequence; [None] stands for a maximal invalid
    part.  [pend] holds the bytes of the character being read and [need] the
    ranges of its remaining bytes. *)
Fixpoint utf8_chunks (pend : bytes) (need : list (Z * Z)) (l : bytes) : list (option bytes) :=
  match l with
  | [] => match need with [] => [] | _ => [None] end
  | b :: l =>
    let start :=
      match utf8_need (Z_of_byte b) with
      | None => None :: utf8_chunks [] [] l
      | Some [] => Some [b] :: utf8_chunks [] [] l
      | Some need => utf8_chunks [b] need l
      end in
    match need with
    | [] => start
    | (lo, hi) :: need' =>
      if (lo <=? Z_of_byte b) && (Z_of_byte b <=? hi)
      then match need' with
           | [] => Some (pend ++ [b]) :: utf8_chunks [] [] l
           | _ => utf8_chunks (pend ++ [b]) need' l
           end
      else None :: start
    end
  end.

(** U+FFFD. *)
Definition REPLACEMENT_CHARACTER : bytes := [Byte.xef; Byte.xbf; Byte.xbd].

(** [String::from_utf8_lossy]. *)
Definition from_utf8_lossy (l : bytes) : string :=
  of_bytes (concat (map (default REPLACEMENT_CHARACTER) (utf8_chunks [] [] l))).

(** [String::from_utf8]. *)
Definition from_utf8 (l : bytes) : option string :=
  if forallb (fun c => negb (is_none c)) (utf8_chunks [] [] l) then Some (of_bytes l) else None.

(** [s.chars()], each character as its bytes. *)
Definition chars (s : string) : list bytes := omap id (utf8_chunks [] [] (as_bytes s)).

Definition is_ascii_byte (b : byte) : bool := Z_of_byte b <? 128.

Lemma utf8_chunks_ascii_cons b l :
  is_ascii_byte b = true -> utf8_chunks [] [] (b :: l) = Some [b] :: utf8_chunks [] [] l.
Proof. unfold is_ascii_byte. intros E. simpl. unfold utf8_need. by rewrite E. Qed.

Lemma from_utf8_lossy_ascii l :
  forallb is_ascii_byte l = true -> from_utf8_lossy l = of_bytes l.
Proof.
  unfold from_utf8_lossy. intros Hl. f_equal. induction l as [|b l IH]; [done|].
  apply andb_true_iff in Hl as [Hb Hl]. rewrite utf8_chunks_ascii_cons by done. simpl. by rewrite IH.
Qed.

(** The chunks of a decoded sequence give its bytes back, or an invalid part
    is among them. *)
Lemma utf8_chunks_spec need l : forall pend,
  (exists c, In c (utf8_chunks pend need l) /\ c = None) \/
  (need <> [] \/ pend = [] ->
   concat (map (default REPLACEMENT_CHARACTER) (utf8_chunks pend need l)) = pend ++ l).
Proof.
  revert need. induction l as [|b l IH]; intros need pend; simpl.
  { destruct need; [right; intros [ | -> ]; done|left; eexists; split; [by left|done]]. }
  assert (Hstart :
    let s := match utf8_need (Z_of_byte b) with
      | None => None :: utf8_chunks [] [] l
      | Some [] => Some [b] :: utf8_chunks [] [] l
      | Some need => utf8_chunks [b] need l
      end in
    (exists c, In c s /\ c = None) \/
    concat (map (default REPLACEMENT_CHARACTER) s) = b :: l).
  { destruct (utf8_need (Z_of_byte b)) as [[|n need0]|]; simpl.
    - destruct (IH [] []) as [(c & Hc & ->)|E]; [left; by eauto|right]. rewrite E by auto. done.
    - destruct (IH (n :: need0) [b]) as [?|E]; [by left|right]. apply E. by left.
    - left. eauto. }
  simpl in Hstart. destruct need as [|[lo hi] need].
  - destruct Hstart as [?|E]; [by left|right]. intros [? | -> ]; [done|]. exact E.
  - destruct (_ && _); [|left; eexists; split; [by left|done]].
    destruct need as [|n need]; simpl.
    + destruct (IH [] []) as [(c & Hc & ->)|E]; [left; by eauto|right]. intros _.
      rewrite E by auto. simpl. by rewrite <- app_assoc.
    + destruct (IH (n :: need) (pend ++ [b])) as [?|E]; [by left|right]. intros _.
      rewrite E by (by left). by rewrite <- app_assoc.
Qed.

Lemma in_concat_replacement (cs : list (option bytes)) :
  In None cs -> In Byte.xef (concat (map (default REPLACEMENT_CHARACTER) cs)).
Proof.
  intros H. apply in_concat. exists REPLACEMENT_CHARACTER. split; [|by left].
  apply in_map_iff. by exists None.
Qed.

(** Decoding to an ASCII string means that the bytes were that string. *)
Lemma from_utf8_lossy_ascii_inv l s :
  forallb is_ascii_byte (as_bytes s) = true -> from_utf8_lossy l = s -> l = as_bytes s.
Proof.
  unfold from_utf8_lossy. intros Ha <-. rewrite as_bytes_of_bytes in *.
  destruct (utf8_chunks_spec [] l []) as [(c & Hc & ->)|E].
  - apply in_concat_replacement in Hc. rewrite forallb_forall in Ha. by apply Ha in Hc.
  - by rewrite E by auto.
Qed.

(** A string of which [from_utf8] accepts the bytes. *)
Definition is_utf8 (s : string) : bool := bool_decide (is_Some (from_utf8 (as_bytes s))).

(** [OsStr::to_string_lossy]; an [OsStr] is its bytes too. *)
Definition to_string_lossy (s : string) : string := from_utf8_lossy (as_bytes s).

Lemma to_string_lossy_utf8 s : is_utf8 s = true -> to_string_lossy s = s.
Proof.
  intros [t Et]%bool_decide_eq_true. unfold from_utf8 in Et.
  destruct (forallb _ _) eqn:Hall; [|done]. unfold to_string_lossy, from_utf8_lossy.
  destruct (utf8_chunks_spec [] (as_bytes s) []) as [(c & Hc & ->)|E].
  - rewrite forallb_forall in Hall. by apply Hall in Hc.
  - rewrite E by auto. apply of_bytes_as_bytes.
Qed.

(** ** Searching *)

(** [s.starts_with(p)] *)
Fixpoint starts_with (s p : string) : bool :=
  match p, s with
  | EmptyString, _ => true
  | String a p, String b s => Ascii.eqb a b && starts_with s p
  | String _ _, EmptyString => false
  end.

(** [&s[n..]], with [n] within the string. *)
Fixpoint skip (n : nat) (s : string) : string :=
  match n, s with
  | S n, String _ s => skip n s
  | _, _ => s
  end.

(** [&s[..n]] *)
Fixpoint first_n (n : nat) (s : string) : string :=
  match n, s with
  | S n, String a s => String a (first_n n s)
  | _, _ => ""
  end.

(** [s.find(p)] *)
Fixpoint find (p s : string) : option nat :=
  if starts_with s p then Some O
  else match s with
       | EmptyString => None
       | String _ s => option_map S (find p s)
       end.

(** [s.contains(p)] *)
Definition contains (s p : string) : bool := negb (is_none (find p s)).

(** [s.strip_prefix(p)] *)
Definition str_strip_prefix (s p : string) : option string :=
  if starts_with s p then Some (skip (String.length p) s) else None.

(** [s.ends_with(p)] *)
Definition ends_with (s p : string) : bool :=
  (String.length p <=? String.length s)%nat &&
  bool_decide (skip (String.length s - String.length p) s = p).

(** [s.strip_suffix(p)] *)
Definition str_strip_suffix (s p : string) : option string :=
  if ends_with s p then Some (first_n (String.length s - String.length p) s) else None.

Lemma starts_with_app p s : starts_with (p +:+ s) p = true.
Proof.
  induction p as [|a p IH]; [by destruct s|].
  change (Ascii.eqb a a && starts_with (p +:+ s) p = true). by rewrite Ascii.eqb_refl.
Qed.

Lemma starts_with_inv s p : starts_with s p = true -> s = p +:+ skip (String.length p) s.
Proof.
  revert s. induction p as [|a p IH]; intros s; [by destruct s|]. destruct s as [|b s]; [done|].
  cbn [starts_with]. intros [->%Ascii.eqb_eq E]%andb_true_iff.
  change (String b s = String b (p +:+ skip (String.length p) s)). f_equal. auto.
Qed.

Lemma skip_app p s : skip (String.length p) (p +:+ s) = s.
Proof. induction p as [|a p IH]; [by destruct s|]. exact IH. Qed.

Lemma first_n_app p s : first_n (String.length p) (p +:+ s) = p.
Proof.
  induction p as [|a p IH]; [by destruct s|].
  change (String a (first_n (String.length p) (p +:+ s)) = String a p). by rewrite IH.
Qed.

(** [find] is the first occurrence. *)
Lemma find_some p s n :
  find p s = Some n <->
  starts_with (skip n s) p = true /\ (n <= String.length s)%nat /\
  forall m, (m < n)%nat -> starts_with (skip m s) p = false.
Proof.
  revert n. induction s as [|a s IH]; intros n; cbn [find].
  - destruct (starts_with "" p) eqn:E.
    + split; [intros [= <-]; repeat split; [done|simpl; lia|intros; lia]|].
      intros (_ & Hn & _). simpl in Hn. f_equal. lia.
    + split; [done|]. intros (H & _ & _). replace (skip n "") with ""%string in H by (by destruct n). congruence.
  - destruct (starts_with (String a s) p) eqn:E.
    + split; [intros [= <-]; repeat split; [done|simpl; lia|intros; lia]|].
      intros (_ & _ & H). destruct n; [done|]. specialize (H O ltac:(lia)). change (starts_with (String a s) p = false) in H. congruence.
    + destruct n as [|n].
      * split; [by destruct (find p s)|]. intros (H & _). change (starts_with (String a s) p = true) in H. congruence.
      * transitivity (find p s = Some n); [destruct (find p s); simpl; split; congruence|].
        rewrite IH. simpl. split; intros (H1 & H2 & H3); repeat split; try done; try lia.
        -- intros [|m] Hm; [done|]. apply H3. lia.
        -- intros m Hm. apply (H3 (S m)). lia.
Qed.

(** ** Trimming and splitting *)

(** [char::is_whitespace], on the bytes of a character. *)
Definition is_whitespace (c : bytes) : bool :=
  match map Z_of_byte c with
  | [b] => ((9 <=? b) && (b <=? 13)) || (b =? 32)
  | [194; b] => (b =? 133) || (b =? 160)
  | [225; 154; 128] => true
  | [226; 128; b] =>
    ((128 <=? b) && (b <=? 138)) || (b =? 168) || (b =? 169) || (b =? 175)
  | [226; 129; 159] => true
  | [227; 128; 128] => true
  | _ => false
  end.

Fixpoint drop_while {A} (f : A -> bool) (l : list A) : list A :=
  match l with
  | x :: l' => if f x then drop_while f l' else l
  | [] => []
  end.

Definition of_chars (cs : list bytes) : string := of_bytes (concat cs).

(** [s.trim_start()], [s.trim_end()], [s.trim()] *)
Definition trim_start (s : string) : string := of_chars (drop_while is_whitespace (chars s)).
Definition trim_end (s : string) : string :=
  of_chars (rev (drop_while is_whitespace (rev (chars s)))).
Definition trim (s : string) : string := trim_end (trim_start s).

(** [s.split(sep)] for one ASCII character. *)
Fixpoint split_on (sep : ascii) (acc : string) (s : string) : list string :=
  match s with
  | EmptyString => [acc]
  | String a s =>
    if Ascii.eqb a sep then acc :: split_on sep "" s else split_on sep (acc +:+ String a "") s
  end.

(** [s.lines()]: a final empty piece is no line, and a carriage return before
    the line feed is dropped. *)
Definition lines (s : string) : list string :=
  let ls := split_on (Ascii.ascii_of_nat 10) "" s in
  let ls := match last ls with Some "" => removelast ls | _ => ls end in
  map (fun l => default l (str_strip_suffix l (String (Ascii.ascii_of_nat 13) ""))) ls.

(** [s.split_whitespace()] *)
Fixpoint split_chars (sep : bytes -> bool) (acc : bytes) (cs : list bytes) : list string :=
  match cs with
  | [] => [of_bytes acc]
  | c :: cs => if sep c then of_bytes acc :: split_chars sep [] cs else split_chars sep (acc ++ c) cs
  end.

Definition split_whitespace (s : string) : list string :=
  filter (fun w => w <> "") (split_chars is_whitespace [] (chars s)).

(** [s.parse::<u64>()]: decimal digits, after an optional plus sign. *)
Fixpoint parse_digits (acc : Z) (s : string) : option Z :=
  match s with
  | EmptyString => Some acc
  | String a s =>
    let d := Z.of_nat (nat_of_ascii a) - 48 in
    if (0 <=? d) && (d <=? 9) then parse_digits (acc * 10 + d) s else None
  end.

Definition parse_u64 (s : string) : option Z :=
  let digits := default s (str_strip_prefix s "+") in
  if bool_decide (digits = "") then None
  else match parse_digits 0 digits with
       | Some n => if n <? u64_modulus then Some n else None
       | None => None
       end.

(** [s.replace(a, b)] for one character by another. *)
Fixpoint replace_char (a b : ascii) (s : string) : string :=
  match s with
  | EmptyString => ""
  | String c s => String (if Ascii.eqb c a then b else c) (replace_char a b s)
  end.

(** ** Path text *)

(** [Path::new(base).join(p)] on the text of paths. *)
Definition join_str (base p : string) : string :=
  if starts_with p "/" then p
  else if bool_decide (base = "") || ends_with base "/" then base +:+ p
  else base +:+ "/" +:+ p.

(** [Path::extension]: the part of the final component after its last dot,
    when the dot is not its first character. *)
Definition extension (name : string) : option string :=
  match rev (split_on "."%char "" name) with
  | ext :: stem :: rest =>
    if bool_decide (name = "..") then None
    else if bool_decide (stem = "" /\ rest = []) then None else Some ext
  | _ => None
  end.

(** ** Replacing and searching from the end *)

(** [s.replace(p, v)] for a pattern [p] that is not empty: leftmost
    occurrences that do not overlap. *)
Fixpoint replace_go (p v : string) (skipping : nat) (s : string) : string :=
  match s with
  | EmptyString => ""
  | String a s' =>
    match skipping with
    | S n => replace_go p v n s'
    | O =>
      if starts_with s p then v +:+ replace_go p v (String.length p - 1) s'
      else String a (replace_go p v O s')
    end
  end.

Definition replace (s p v : string) : string := replace_go p v O s.

(** [s.split_once(c)] for an ASCII character. *)
Definition split_once (c : ascii) (s : string) : option (string * string) :=
  match find (String c "") s with
  | Some n => Some (first_n n s, skip (S n) s)
  | None => None
  end.

Fixpoint str_rev (s : string) (acc : string) : string :=
  match s with
  | EmptyString => acc
  | String a s => str_rev s (String a acc)
  end.

(** [s.rsplit_once(c)] for an ASCII character. *)
Definition rsplit_once (c : ascii) (s : string) : option (string * string) :=
  match split_once c (str_rev s "") with
  | Some (a, b) => Some (str_rev b "", str_rev a "")
  | None => None
  end.

Fixpoint trim_start_matches (c : ascii) (s : string) : string :=
  match s with
  | EmptyString => ""
  | String a s' => if Ascii.eqb a c then trim_start_matches c s' else s
  end.

(** [s.trim_matches(c)] for an ASCII character. *)
Definition trim_matches (c : ascii) (s : string) : string :=
  str_rev (trim_start_matches c (str_rev (trim_start_matches c s) "")) "".

(** [char::is_ascii_digit] *)
Definition is_ascii_digit (a : ascii) : bool :=
  (48 <=? nat_of_ascii a)%nat && (nat_of_ascii a <=? 57)%nat.

(** The longest suffix of digits. *)
Fixpoint take_digits (s acc : string) : string :=
  match s with
  | EmptyString => acc
  | String a s => if is_ascii_digit a then take_digits s (String a acc) else acc
  end.

Definition trailing_digits (s : string) : string := take_digits (str_rev s "") "".

(** [s.rfind(|c: char| c.is_ascii_digit())] *)
Fixpoint rfind_digit (s : string) : option nat :=
  match s with
  | EmptyString => None
  | String a s =>
    match rfind_digit s with
    | Some n => Some (S n)
    | None => if is_ascii_digit a then Some O else None
    end
  end.

(** [s.parse::<u32>()] *)
Definition parse_u32 (s : string) : option Z :=
  match parse_u64 s with
  | Some n => if n <? 2 ^ 32 then Some n else None
  | None => None
  end.

(** [s.to_lowercase()], of the ASCII letters: no other character has one of
    the letters of the file names it is compared with as its lower case. *)
Fixpoint to_lowercase (s : string) : string :=
  match s with
  | EmptyString => ""
  | String a s =>
    let n := nat_of_ascii a in
    String (if (65 <=? n)%nat && (n <=? 90)%nat then ascii_of_nat (n + 32) else a) (to_lowercase s)
  end.

Lemma str_rev_app s a : str_rev s a = str_rev s "" +:+ a.
Proof.
  revert a. induction s as [|x s IH]; intros a; [done|]. cbn [str_rev].
  rewrite IH, (IH (String x "")). by rewrite <- string_app_assoc.
Qed.

Lemma str_rev_invol s : str_rev (str_rev s "") "" = s.
Proof.
  assert (H : forall t acc, str_rev (str_rev t acc) "" = str_rev acc "" +:+ t).
  { induction t as [|x t IH]; intros acc; cbn [str_rev]; [by rewrite string_app_nil_r|].
    rewrite IH. cbn [str_rev]. rewrite str_rev_app. by rewrite <- string_app_assoc. }
  exact (H s "").
Qed.

(** ** Trimmed text that is not blank *)

Lemma drop_while_last {A} (f : A -> bool) l x :
  f x = false -> exists l', drop_while f (l ++ [x]) = l' ++ [x].
Proof.
  intros Hx. induction l as [|y l [l' IH]]; simpl; [exists []; by rewrite Hx|].
  destruct (f y); [by exists l'|]. by exists (y :: l).
Qed.

Lemma chars_ascii b l : is_ascii_byte b = true -> chars (of_bytes (b :: l)) = [b] :: chars (of_bytes l).
Proof. intros Hb. unfold chars. by rewrite !as_bytes_of_bytes, utf8_chunks_ascii_cons. Qed.

Lemma trim_not_blank b l :
  is_ascii_byte b = true -> is_whitespace [b] = false -> trim (of_bytes (b :: l)) <> "".
Proof.
  intros Hb Hw. unfold trim, trim_start. rewrite chars_ascii by done. simpl drop_while. rewrite Hw.
  unfold trim_end, of_chars. cbn [concat app]. rewrite chars_ascii by done. cbn [rev].
  destruct (drop_while_last is_whitespace (rev (chars (of_bytes (concat (chars (of_bytes l)))))) [b] Hw) as [l' ->].
  rewrite rev_app_distr. done.
Qed.
