(* ===== verification/RustPath.v ===== *)
(** * Paths

    What the commands use of [std::path]: a path is the list of its
    components, where a leading separator is the component ["/"]; joining an
    absolute path replaces the base. *)

From Stdlib Require Import Ascii.
From stdpp Require Import base list strings.
From Stdlib Require Import Lia.
From S2P Require Import Prelude.

Definition Path : Type := list string.

(** [s.split('/')]. *)
Fixpoint split_char (sep : ascii) (acc : string) (s : string) : list string :=
  match s with
  | EmptyString => [acc]
  | String a s =>
    if decide (a = sep) then acc :: split_char sep "" s
    else split_char sep (acc +:+ String a "") s
  end.

(** [Path::new(s).components()]: repeated separators and ["."] components in
    the middle are dropped. *)
Definition path_from (s : string) : Path :=
  let comps := filter (fun c => c <> "" /\ c <> ".") (split_char "/"%char "" s) in
  match s with
  | String a _ => if decide (a = "/"%char) then "/" :: comps else comps
  | EmptyString => []
  end.

(** The text of a relative path. *)
Definition path_to_string (p : Path) : string := String.concat "/" p.

Definition is_absolute (p : Path) : bool :=
  match p with
  | c :: _ => bool_decide (c = "/")
  | [] => false
  end.

(** [Path::join]. *)
Definition path_join (base p : Path) : Path := if is_absolute p then p else base ++ p.

(** [Path::strip_prefix]. *)
Definition strip_prefix (p prefix : Path) : option Path :=
  if decide (take (length prefix) p = prefix) then Some (drop (length prefix) p) else None.

(** [Path::file_name]. *)
Definition file_name (p : Path) : option string :=
  match last p with
  | Some c => if decide (c = ".." \/ c = "/") then None else Some c
  | None => None
  end.

(** ** Text and components *)

(** A name of a directory entry: not empty, not ["."], no separator. *)
Fixpoint no_sep (sep : ascii) (s : string) : bool :=
  match s with
  | EmptyString => true
  | String a s => negb (bool_decide (a = sep)) && no_sep sep s
  end.

Definition valid_name (c : string) : Prop := c <> "" /\ c <> "." /\ no_sep "/"%char c = true.

Lemma split_char_no_sep sep acc c rest :
  no_sep sep c = true -> split_char sep acc (c +:+ String sep rest) = (acc +:+ c) :: split_char sep "" rest.
Proof.
  revert acc. induction c as [|a c IH]; intros acc Hc.
  - change (split_char sep acc (String sep rest) = (acc +:+ "") :: split_char sep "" rest).
    simpl. rewrite decide_True by done. by rewrite string_app_nil_r.
  - simpl in Hc. apply andb_prop in Hc as [Ha Hc]. case_bool_decide; [done|].
    rewrite string_cons_app. simpl. rewrite decide_False by done. rewrite IH by done.
    f_equal. by rewrite <- string_app_assoc.
Qed.

Lemma split_char_end sep acc c : no_sep sep c = true -> split_char sep acc c = [acc +:+ c].
Proof.
  revert acc. induction c as [|a c IH]; intros acc Hc; simpl in *.
  - by rewrite string_app_nil_r.
  - apply andb_prop in Hc as [Ha Hc]. case_bool_decide; [done|].
    rewrite decide_False by done. rewrite IH by done. f_equal. by rewrite <- string_app_assoc.
Qed.

Lemma split_concat p :
  p <> [] -> Forall valid_name p -> split_char "/"%char "" (String.concat "/" p) = p.
Proof.
  intros Hne Hp. induction Hp as [|c p (Hc1 & Hc2 & Hc3) Hp IH]; [done|].
  destruct p as [|d p].
  - simpl. by rewrite split_char_end.
  - change (String.concat "/" (c :: d :: p))
      with (c +:+ String "/"%char (String.concat "/" (d :: p))).
    rewrite split_char_no_sep by done. rewrite IH by done. done.
Qed.

Lemma filter_valid p : Forall valid_name p -> filter (fun c => c <> "" /\ c <> ".") p = p.
Proof.
  induction 1 as [|c p (Hc1 & Hc2 & _) _ IH]; [done|].
  rewrite filter_cons_True by done. by rewrite IH.
Qed.

(** The text of a relative path names it. *)
Lemma path_from_to_string p : Forall valid_name p -> path_from (path_to_string p) = p.
Proof.
  intros Hp. destruct p as [|c p]; [done|]. unfold path_from, path_to_string.
  rewrite split_concat, filter_valid by done.
  pose proof (Forall_inv Hp) as (Hc1 & _ & Hc3).
  destruct c as [|a c]; [done|]. simpl in Hc3. apply andb_prop in Hc3 as [Ha _].
  case_bool_decide; [done|].
  destruct p; simpl; by rewrite decide_False.
Qed.

Lemma valid_not_absolute p : Forall valid_name p -> is_absolute p = false.
Proof.
  destruct p as [|c p]; [done|]. intros Hp. pose proof (Forall_inv Hp) as (_ & _ & Hc).
  simpl. apply bool_decide_eq_false. intros ->. done.
Qed.

Lemma strip_prefix_app base p : strip_prefix (base ++ p) base = Some p.
Proof.
  unfold strip_prefix. rewrite take_app_length, drop_app_length. by rewrite decide_True.
Qed.

Lemma path_join_valid base p : Forall valid_name p -> path_join base p = base ++ p.
Proof. intros Hp. unfold path_join. by rewrite valid_not_absolute. Qed.

(** *** Text that is joined *)

Definition comps (s : string) : Path := filter (fun c => c <> "" /\ c <> ".") (split_char "/"%char "" s).

Lemma split_char_app sep acc a b :
  split_char sep acc (a +:+ String sep b) = split_char sep acc a ++ split_char sep "" b.
Proof.
  revert acc. induction a as [|x a IH]; intros acc.
  - change (split_char sep acc (String sep b) = [acc] ++ split_char sep "" b). simpl. by rewrite decide_True.
  - rewrite string_cons_app. simpl. case_decide; [|apply IH]. simpl. f_equal. apply IH.
Qed.

Lemma comps_app a b : comps (a +:+ String "/"%char b) = comps a ++ comps b.
Proof. unfold comps. rewrite split_char_app. apply filter_app. Qed.

Lemma no_sep_app sep a b : no_sep sep (a +:+ b) = no_sep sep a && no_sep sep b.
Proof. induction a as [|x a IH]; [done|]. rewrite string_cons_app. simpl. by rewrite IH, andb_assoc. Qed.

Lemma split_char_parts sep acc s :
  no_sep sep acc = true -> Forall (fun c => no_sep sep c = true) (split_char sep acc s).
Proof.
  revert acc. induction s as [|a s IH]; intros acc Hacc; simpl; [by constructor|].
  case_decide as Ha; [constructor; [done|by apply IH]|]. apply IH. rewrite no_sep_app, Hacc. simpl.
  by rewrite bool_decide_eq_false_2.
Qed.

Lemma comps_valid s : Forall valid_name (comps s).
Proof.
  apply Forall_forall. intros c [[Hc1 Hc2] Hin]%list_elem_of_filter.
  pose proof (split_char_parts "/"%char "" s eq_refl) as Hs. rewrite Forall_forall in Hs.
  repeat split; auto.
Qed.

Lemma path_from_comps s : path_from s = comps s \/ path_from s = "/" :: comps s.
Proof. unfold path_from. destruct s as [|a s]; [by left|]. case_decide; auto. Qed.

Lemma path_from_drop s n : Forall valid_name (drop (S n) (path_from s)).
Proof.
  destruct (path_from_comps s) as [-> | ->]; [|simpl]; apply Forall_drop, comps_valid.
Qed.
