(* ===== verification/VerityCmd.v ===== *)
(** * The cryptpilot-verity commands

    [cryptpilot-verity/src/cmd/]: [format], [verify], [open], [dump] and
    [close] over a host file system (a map from paths to contents), and the
    label syntax of [cli.rs].  [async_walkdir] and the mount table are
    interfaces. *)

From Stdlib Require Import Ascii.
From stdpp Require Import base list numbers option strings sorting gmap.
From Stdlib Require Import ZArith Lia.
From S2P Require Import Prelude Slices InnerHash Descriptor VerityDigest MerkleSpec ToyHash.
From S2P Require Import MerkleTree FileVerifier VerityMetadata RustString RustPath.

(** ** cli.rs *)

(** [str::split_once] on one character. *)
Fixpoint split_once (sep : ascii) (s : string) : option (string * string) :=
  match s with
  | EmptyString => None
  | String a s =>
    if decide (a = sep) then Some ("", s)
    else '(k, v) ← split_once sep s; Some (String a k, v)
  end.

Inductive LabelError := InvalidLabelFormat | EmptyLabelKey.

Definition parse_label (s : string) : result LabelError (string * string) :=
  match split_once "="%char s with
  | None => Err InvalidLabelFormat
  | Some (key, value) => if decide (key = "") then Err EmptyLabelKey else Ok (key, value)
  end.

Record FormatOptions := mkFormatOptions {
  fo_data_dir : Path;
  fo_metadata : option Path;
  fo_hash_output : Path;
  fo_force : bool;
  fo_labels : list (string * string);
}.

Record VerifyOptions := mkVerifyOptions {
  vo_data_dir : Path;
  vo_hash : string;
  vo_metadata : option Path;
  vo_metadata_only : bool;
}.

Record DumpOptions := mkDumpOptions {
  do_data_dir : option Path;
  do_metadata : option Path;
  do_print_metadata : bool;
  do_print_root_hash : bool;
  do_print_label : option string;
  do_print_labels : bool;
}.

Record OpenOptions := mkOpenOptions {
  oo_data_dir : Path;
  oo_mount_point : Path;
  oo_hash : string;
  oo_metadata : option Path;
  oo_block_cache_capacity : nat;
}.

(** ** The host *)

(** Regular files by path; directories by path; and the paths to which writing
    fails (a missing parent, no permission, a full disk): before the file is
    opened ([None]), or after the given number of bytes. *)
Record Host := mkHost {
  h_files : gmap Path bytes;
  h_dirs : gset Path;
  h_write_faults : gmap Path (option nat);
}.

Record WalkEntry := mkWalkEntry {
  we_path : Path;
  we_is_file : bool;
}.

(** [async_walkdir::WalkDir]: entries in some order; [None] is an error. *)
Class WalkDir := {
  walk : Host -> Path -> list (option WalkEntry);
}.

(** One line of the mount table. *)
Record MountPoint := mkMountPoint {
  mp_path : Path;
  mp_fstype_other : option string;
  mp_what : string;
}.

Definition FUSE_FS_NAME : string := "verity-fuse".
Definition FUSE_SUBTYPE : string := "verity-fuse".
Definition DEFAULT_METADATA_FILE : string := "cryptpilot-verity.metadata.fb".

Inductive CmdError :=
| MetadataExists (p : Path)
| IoFailed (p : Path)
| NotUnderDataDir (p : Path)
| MetadataFailed (e : MetadataError)
| RootHashMismatchCmd (expected actual : string)
| SelfCheckFailed (e : VerifySelfError)
| FileHashMismatch (path expected actual : string)
| DataDirMissing
| MountPointMissing
| AlreadyMounted
| NotMounted
| UmountFailed
| LabelNotFound (key : string)
| NothingToDump.

(** [files.sort()]: by components; the root and [".."] sort before names. *)
Definition component_rank (c : string) : nat :=
  if decide (c = "/") then 0 else if decide (c = "..") then 1 else 2.

Fixpoint path_leb (p q : Path) : bool :=
  match p, q with
  | [], _ => true
  | _ :: _, [] => false
  | a :: p, b :: q =>
    if decide (a = b) then path_leb p q
    else if decide (component_rank a = component_rank b) then String.leb a b
    else bool_decide (component_rank a < component_rank b)
  end.

Definition path_order (p q : Path) : Prop := path_leb p q = true.

#[export] Instance path_order_dec : RelDecision path_order := fun p q => decide (path_leb p q = true).

Section Commands.
Context `{InnerHash, Hex, FlatBuffers, CanonJson, WalkDir}.

(** [fs::read]. *)
Definition fs_read_file (host : Host) (p : Path) : result CmdError bytes :=
  ok_or (h_files host !! p) (IoFailed p).

Definition put_file (host : Host) (p : Path) (data : bytes) : Host :=
  mkHost (<[p := data]> (h_files host)) (h_dirs host) (h_write_faults host).

(** [fs::write]: the file is created or truncated, then written; a write that
    fails leaves what was written. *)
Definition fs_write (host : Host) (p : Path) (data : bytes) : result CmdError unit * Host :=
  if decide (p ∈ h_dirs host) then (Err (IoFailed p), host)
  else match h_write_faults host !! p with
    | None => (Ok tt, put_file host p data)
    | Some None => (Err (IoFailed p), host)
    | Some (Some n) => (Err (IoFailed p), put_file host p (take n data))
    end.

(** [fs::metadata(path).is_ok()]. *)
Definition path_exists (host : Host) (p : Path) : bool :=
  bool_decide (is_Some (h_files host !! p)) || bool_decide (p ∈ h_dirs host).

Definition metadata_path_of (data_dir : Path) (metadata : option Path) : Path :=
  match metadata with
  | Some metadata => metadata
  | None => path_join data_dir [DEFAULT_METADATA_FILE]
  end.

(** The loop ends at the first entry that cannot be read. *)
Fixpoint collect_entries (entries : list (option WalkEntry)) : list Path :=
  match entries with
  | Some entry :: entries =>
    if decide (file_name (we_path entry) = Some DEFAULT_METADATA_FILE) then collect_entries entries
    else if we_is_file entry then we_path entry :: collect_entries entries
    else collect_entries entries
  | _ => []
  end.

Definition collect_files (host : Host) (dir : Path) : list Path := collect_entries (walk host dir).

(** The information of one file. *)
Definition format_file (host : Host) (data_dir file_path : Path) : result CmdError FileVerityInfo :=
  let? content := fs_read_file host file_path in
  let? (descriptor, merkle_tree) := unwrap (calculate_fsverity_hash content) in
  let? relative_path := ok_or (strip_prefix file_path data_dir) (NotUnderDataDir file_path) in
  let path_str := to_string_lossy (path_to_string relative_path) in
  let? h := unwrap (to_descriptor_hash descriptor) in
  Ok (mkInfo path_str descriptor merkle_tree (hex_encode h)).

(** [FormatCommand::run]: what is printed, and the host afterwards. *)
Definition format_run (options : FormatOptions) (host : Host)
  : result CmdError (option string) * Host :=
  let metadata_path := metadata_path_of (fo_data_dir options) (fo_metadata options) in
  if path_exists host metadata_path && negb (fo_force options)
  then (Err (MetadataExists metadata_path), host)
  else
    let files := merge_sort path_order (collect_files host (fo_data_dir options)) in
    match try_map (format_file host (fo_data_dir options)) files with
    | Err e => (Err e, host)
    | Panic => (Panic, host)
    | Ok file_infos =>
      let labels := foldl (fun m kv => btree_insert (fst kv) (snd kv) m) [] (fo_labels options) in
      match serialize_metadata file_infos labels with
      | Err e => (Err (MetadataFailed e), host)
      | Panic => (Panic, host)
      | Ok fb_data =>
        match fs_write host metadata_path fb_data with
        | (Err e, host) => (Err e, host)
        | (Panic, host) => (Panic, host)
        | (Ok _, host) =>
          match calculate_metadata_hash fb_data with
          | Err e => (Err (MetadataFailed e), host)
          | Panic => (Panic, host)
          | Ok root_hash =>
            if decide (fo_hash_output options = ["-"]) then (Ok (Some root_hash), host)
            else match fs_write host (fo_hash_output options) (String.list_byte_of_string root_hash) with
              | (Ok _, host) => (Ok None, host)
              | (Err e, host) => (Err e, host)
              | (Panic, host) => (Panic, host)
              end
          end
        end
      end
    end.

(** The file check of [verify]. *)
Definition verify_file (host : Host) (data_dir : Path) (info : FileVerityInfo)
  : result CmdError unit :=
  let file_path := path_join data_dir (path_from (info_path info)) in
  let? mmap := fs_read_file host file_path in
  let? (calculated_descriptor, _) := unwrap (calculate_fsverity_hash mmap) in
  let? h := unwrap (to_descriptor_hash calculated_descriptor) in
  let calculated_descriptor_hash := hex_encode h in
  if decide (calculated_descriptor_hash <> descriptor_hash info)
  then Err (FileHashMismatch (info_path info) (descriptor_hash info) calculated_descriptor_hash)
  else Ok tt.

(** Metadata whose root hash is the expected one and whose entries are
    consistent: the common part of [verify] and [open]. *)
Definition check_metadata (host : Host) (metadata_path : Path) (expected : string)
  : result CmdError MetadataInfo :=
  let? metadata_bytes := fs_read_file host metadata_path in
  let? root_hash := map_err MetadataFailed (calculate_metadata_hash metadata_bytes) in
  if decide (root_hash <> expected) then Err (RootHashMismatchCmd expected root_hash)
  else
    let? metadata_info := map_err MetadataFailed (deserialize_metadata metadata_bytes) in
    let? _ := map_err SelfCheckFailed (try_map verify_self (file_infos metadata_info)) in
    Ok metadata_info.

Definition verify_run (options : VerifyOptions) (host : Host) : result CmdError unit :=
  let metadata_path := metadata_path_of (vo_data_dir options) (vo_metadata options) in
  let? metadata_info := check_metadata host metadata_path (vo_hash options) in
  if vo_metadata_only options then Ok tt
  else
    let? _ := try_map (verify_file host (vo_data_dir options)) (file_infos metadata_info) in
    Ok tt.

(** [is_mounted]; [canonicalize] is the identity on paths without links. *)
Definition is_mounted (mounts : list MountPoint) (mount_point : Path) : bool :=
  existsb (fun mp =>
    bool_decide (mp_path mp = mount_point) &&
    match mp_fstype_other mp with
    | Some fstype =>
      bool_decide (fstype = "fuse" \/ fstype = "fuse." +:+ FUSE_SUBTYPE) &&
      bool_decide (mp_what mp = FUSE_FS_NAME)
    | None => false
    end) mounts.

(** [OpenCommand::run] up to the blocking mount: the verifier that is mounted
    and the cache capacity. *)
Definition open_run `{RelativePath} (options : OpenOptions) (host : Host) (mounts : list MountPoint)
  : result CmdError (VerityVerifier * nat) :=
  if decide (oo_data_dir options ∉ h_dirs host) then Err DataDirMissing
  else if decide (oo_mount_point options ∉ h_dirs host) then Err MountPointMissing
  else if is_mounted mounts (oo_mount_point options) then Err AlreadyMounted
  else
    let metadata_path := metadata_path_of (oo_data_dir options) (oo_metadata options) in
    let? metadata_info := check_metadata host metadata_path (oo_hash options) in
    Ok (verifier_new (file_infos metadata_info), oo_block_cache_capacity options).

(** [CloseCommand::run]; [umount] removes the topmost mount or fails. *)
Definition close_run (mount_point : Path) (host : Host) (mounts : list MountPoint)
    (umount : list MountPoint -> Path -> option (list MountPoint))
  : result CmdError (list MountPoint) :=
  if decide (mount_point ∉ h_dirs host) then Err MountPointMissing
  else if negb (is_mounted mounts mount_point) then Err NotMounted
  else ok_or (umount mounts mount_point) UmountFailed.

(** What [dump] prints. *)
Inductive DumpOutput :=
| DumpRootHash (h : string)
| DumpMetadata (info : MetadataInfo)
| DumpLabel (value : string)
| DumpLabels (labels : Labels).

Definition dump_run (options : DumpOptions) (host : Host) : result CmdError DumpOutput :=
  let? metadata_path :=
    match do_metadata options, do_data_dir options with
    | Some metadata, _ => Ok metadata
    | None, Some data_dir => Ok (path_join data_dir [DEFAULT_METADATA_FILE])
    | None, None => Err NothingToDump
    end in
  let? metadata_bytes := fs_read_file host metadata_path in
  if do_print_root_hash options then
    let? root_hash := map_err MetadataFailed (calculate_metadata_hash metadata_bytes) in
    Ok (DumpRootHash root_hash)
  else if do_print_metadata options then
    let? info := map_err MetadataFailed (deserialize_metadata metadata_bytes) in
    Ok (DumpMetadata info)
  else match do_print_label options with
    | Some key =>
      let? info := map_err MetadataFailed (deserialize_metadata metadata_bytes) in
      let? value := ok_or (btree_get (labels info) key) (LabelNotFound key) in
      Ok (DumpLabel value)
    | None =>
      if do_print_labels options then
        let? info := map_err MetadataFailed (deserialize_metadata metadata_bytes) in
        Ok (DumpLabels (labels info))
      else Err NothingToDump
    end.
End Commands.
