(* ===== verification/VerityCmdProofs.v ===== *)
(** * Correctness of the cryptpilot-verity commands

    A directory that was formatted and not changed verifies; and whenever
    [verify] accepts a directory for the root hash of a formatted one, the two
    have the same content, or a hash collision is exhibited. *)

From Stdlib Require Import Ascii.
From stdpp Require Import base list numbers option strings sorting gmap.
From Stdlib Require Import ZArith Lia.
From S2P Require Import Prelude Slices InnerHash Descriptor VerityDigest MerkleSpec ToyHash.
From S2P Require Import MerkleTree FileVerifier VerityMetadata RustString RustPath VerityCmd.

(** ** Labels *)

Lemma compare_lt_trans a b d :
  String.compare a b = Lt -> String.compare b d = Lt -> String.compare a d = Lt.
Proof.
  intros H1 H2.
  assert (String.le a b) as L1 by (unfold String.le, String.leb; by rewrite H1).
  assert (String.le b d) as L2 by (unfold String.le, String.leb; by rewrite H2).
  assert (String.le a d) as L3 by by transitivity b.
  unfold String.le, String.leb in L3. destruct (String.compare a d) eqn:E; [|done|done].
  apply String.compare_eq_iff in E as ->.
  rewrite String.compare_antisym, H2 in H1. done.
Qed.

Lemma btree_insert_keys k v m kv :
  In kv (btree_insert k v m) -> kv = (k, v) \/ In kv m.
Proof.
  induction m as [|[k' v'] m IH]; simpl; [intros [<-|[]]; auto|].
  destruct (String.compare k k'); simpl; intros [<-|Hin]; auto.
  destruct (IH Hin); auto.
Qed.

Lemma btree_insert_wf k v m : labels_wf m -> labels_wf (btree_insert k v m).
Proof.
  induction 1 as [|[k' v'] m Hm IH Hall]; simpl; [by repeat constructor|].
  destruct (String.compare k k') eqn:E.
  - apply String.compare_eq_iff in E as ->. by constructor.
  - constructor; [by constructor|]. constructor; [done|].
    eapply Forall_impl; [exact Hall|]. intros kv Hkv. by eapply compare_lt_trans.
  - constructor; [done|]. apply Forall_forall. intros kv Hin.
    apply list_elem_of_In, btree_insert_keys in Hin as [->|Hin].
    + simpl. by rewrite String.compare_antisym, E.
    + rewrite Forall_forall in Hall. apply Hall. by apply list_elem_of_In.
Qed.

Lemma labels_of_wf kvs m :
  labels_wf m -> labels_wf (foldl (fun m kv => btree_insert (fst kv) (snd kv) m) m kvs).
Proof.
  revert m. induction kvs as [|[k v] kvs IH]; intros m Hm; simpl; [done|].
  by apply IH, btree_insert_wf.
Qed.

(** ** Files *)

Section Files.
Context `{InnerHashSpec, HexSpec, FlatBuffersSpec, CanonJsonSpec, WalkDir}.

Lemma try_map_inv {E A B} (f : A -> result E B) l bs :
  try_map f l = Ok bs -> Forall2 (fun a b => f a = Ok b) l bs.
Proof.
  revert bs. induction l as [|a l IH]; intros bs E0; simpl in E0.
  - injection E0 as <-. constructor.
  - apply rbind_ok in E0 as (b & Eb & E0). apply rbind_ok in E0 as (bs' & Ebs & [= <-]).
    constructor; auto.
Qed.

Lemma try_map_units {E A} (f : A -> result E unit) l :
  Forall (fun a => f a = Ok tt) l -> is_ok (try_map f l) = true.
Proof. induction 1 as [|a l Ha _ IH]; [done|]. simpl. rewrite Ha. simpl. by destruct (try_map f l). Qed.

(** What hashing a file computes. *)
Lemma calculate_fsverity_hash_spec data desc tree :
  calculate_fsverity_hash data = Some (desc, tree) ->
  exists c, config_new DEFAULT_BLOCK_SIZE [] = Some c /\ config_wf c /\
    block_size c = DEFAULT_BLOCK_SIZE /\ salt c = [] /\ length data <= max_data_size c /\
    desc = descriptor_of c data /\ tree = level1 c data.
Proof.
  unfold calculate_fsverity_hash, digest_new_empty_salt, new_with_salt. intros E.
  destruct (new_with_salt_and_block_size [] DEFAULT_BLOCK_SIZE) as [st|] eqn:Hnew; [|done].
  destruct (new_rep _ _ _ Hnew) as (Hc & Hrep & Hbs & Hsl).
  cbn [mbind option_bind] in E. destruct (update st data) as [st'|] eqn:Eu; [|done].
  cbn [mbind option_bind] in E.
  destruct (update_all_rep _ _ _ [data] _ Hnew Eu) as [Hrep' Hle].
  simpl in Hrep', Hle. rewrite app_nil_r in Hrep', Hle.
  rewrite (finalize_rep _ _ _ Hc Hrep') in E. injection E as <- <-.
  exists (config st). split.
  - unfold new_with_salt_and_block_size in Hnew.
    destruct (config_new DEFAULT_BLOCK_SIZE []) as [c|]; [|done]. by injection Hnew as <-.
  - exact (conj Hc (conj Hbs (conj Hsl (conj Hle (conj eq_refl eq_refl))))).
Qed.

(** The information [format] records for a file of the host. *)
Definition recorded_file (host : Host) (data_dir : Path) (info : FileVerityInfo) : Prop :=
  exists rel content desc tree h,
    Forall valid_name rel /\ h_files host !! (data_dir ++ rel) = Some content /\
    calculate_fsverity_hash content = Some (desc, tree) /\ to_descriptor_hash desc = Some h /\
    info = mkInfo (to_string_lossy (path_to_string rel)) desc tree (hex_encode h).

(** Collected files lie under the directory and have ordinary names. *)
Definition walk_wf (host : Host) (dir : Path) : Prop :=
  forall p, p ∈ collect_files host dir -> exists rel, p = dir ++ rel /\ Forall valid_name rel.

(** The names of collected files are valid UTF-8. *)
Definition names_utf8 (host : Host) (dir : Path) : Prop :=
  forall rel, dir ++ rel ∈ collect_files host dir -> is_utf8 (path_to_string rel) = true.

(** The path under which [format] records a file: invalid parts of its names
    are replaced. *)
Definition recorded_path (rel : Path) : Path := path_from (to_string_lossy (path_to_string rel)).

Lemma recorded_path_utf8 rel :
  Forall valid_name rel -> is_utf8 (path_to_string rel) = true -> recorded_path rel = rel.
Proof. intros Hv Hu. unfold recorded_path. rewrite to_string_lossy_utf8 by done. by apply path_from_to_string. Qed.

Lemma format_file_inv host (data_dir rel : Path) info :
  format_file host data_dir (data_dir ++ rel) = Ok info ->
  exists content desc tree h,
    h_files host !! (data_dir ++ rel : Path) = Some content /\
    calculate_fsverity_hash content = Some (desc, tree) /\ to_descriptor_hash desc = Some h /\
    info = mkInfo (to_string_lossy (path_to_string rel)) desc tree (hex_encode h).
Proof.
  unfold format_file, fs_read_file. rewrite strip_prefix_app. intros E.
  apply rbind_ok in E as (content & Ec & E). apply ok_or_ok in Ec.
  apply rbind_ok in E as ([desc tree] & Eh & E). cbn [ok_or rbind] in E.
  destruct (calculate_fsverity_hash content) as [p|] eqn:Ecalc; [|discriminate].
  injection Eh as ->. apply rbind_ok in E as (h & Eh & [= <-]).
  destruct (to_descriptor_hash desc) as [h'|] eqn:Eh'; [|discriminate]. injection Eh as ->.
  exists content, desc, tree, h. repeat (split; [assumption|]). reflexivity.
Qed.

Lemma format_file_recorded host (data_dir rel : Path) info :
  Forall valid_name rel ->
  format_file host data_dir (data_dir ++ rel) = Ok info -> recorded_file host data_dir info.
Proof.
  intros Hv (content & desc & tree & h & Hd & Ecalc & Eh & ->)%format_file_inv.
  exists rel, content, desc, tree, h. repeat (split; [assumption|]). reflexivity.
Qed.

Lemma default_block_size_bound : (Z.of_nat DEFAULT_BLOCK_SIZE < u64_modulus)%Z.
Proof. reflexivity. Qed.

Lemma recorded_file_self host data_dir info :
  recorded_file host data_dir info -> verify_self info = Ok tt /\ info_wf info.
Proof.
  intros (rel & content & desc & tree & h & _ & _ & Ecalc & Eh & ->).
  apply calculate_fsverity_hash_spec in Ecalc as (c & _ & Hc & Hbs & Hsl & Hle & -> & ->).
  rewrite to_descriptor_hash_spec in Eh by by apply descriptor_of_wf. injection Eh as <-.
  split.
  - apply (verify_self_info_of _ c); [done|rewrite Hbs; exact default_block_size_bound|].
    apply rebuild_root_hash_spec; [done|apply level1_digests|by apply level1_length_bound].
  - split; [by apply merkle_root_length|apply level1_digests].
Qed.

Lemma format_file_verifies host host' (data_dir rel : Path) info :
  Forall valid_name rel -> is_utf8 (path_to_string rel) = true ->
  format_file host data_dir (data_dir ++ rel) = Ok info ->
  h_files host' !! (data_dir ++ rel) = h_files host !! (data_dir ++ rel) ->
  verify_file host' data_dir info = Ok tt.
Proof.
  intros Hv Hu (content & desc & tree & h & Hd & Ecalc & Eh & ->)%format_file_inv Hsame.
  unfold verify_file, fs_read_file. cbn [info_path descriptor_hash].
  rewrite to_string_lossy_utf8, path_from_to_string, path_join_valid by assumption.
  assert (h_files host' !! (data_dir ++ rel : Path) = Some content) as ->
    by exact (eq_trans Hsame Hd).
  cbn [ok_or rbind]. rewrite Ecalc. cbn [unwrap rbind]. rewrite Eh. cbn [unwrap rbind].
  by rewrite decide_False by (intros E; by apply E).
Qed.
End Files.

(** ** format, then verify *)

Section FormatVerify.
Context `{InnerHashSpec, HexSpec, FlatBuffersSpec, CanonJsonSpec, WalkDir}.

Lemma fs_write_ok host p data u host' :
  fs_write host p data = (Ok u, host') -> host' = put_file host p data.
Proof.
  unfold fs_write. destruct (decide _); [done|].
  destruct (h_write_faults host !! p) as [[k|]|]; [done..|]. by intros [= _ <-].
Qed.

(** What a successful [format] has done. *)
Lemma format_run_ok options host out host' :
  walk_wf host (fo_data_dir options) -> format_run options host = (Ok out, host') ->
  exists infos labels0 fb root,
    Forall (recorded_file host (fo_data_dir options)) infos /\ labels_wf labels0 /\
    Forall2 (fun p info => format_file host (fo_data_dir options) p = Ok info)
      (merge_sort path_order (collect_files host (fo_data_dir options))) infos /\
    serialize_metadata infos labels0 = Ok fb /\ calculate_metadata_hash fb = Ok root /\
    (let host1 := put_file host (metadata_path_of (fo_data_dir options) (fo_metadata options)) fb in
     out = Some root /\ host' = host1 \/
     out = None /\ fo_hash_output options <> ["-"] /\
       host' = put_file host1 (fo_hash_output options) (String.list_byte_of_string root)).
Proof.
  intros Hw E. unfold format_run in E. destruct (_ && _); [done|].
  destruct (try_map _ _) as [infos|e|] eqn:Et; [|done..].
  destruct (serialize_metadata _ _) as [fb|e|] eqn:Es; [|done..].
  destruct (fs_write host _ fb) as [[[]|e|] host1] eqn:Ew; [|done..].
  apply fs_write_ok in Ew as ->.
  destruct (calculate_metadata_hash _) as [root|e|] eqn:Eh; [|done..].
  apply try_map_inv in Et.
  set (labels0 := foldl (fun m kv => btree_insert (fst kv) (snd kv) m) [] (fo_labels options)) in *.
  exists infos, labels0, fb, root. split; [|split; [|split; [|split; [|split]]]]; try assumption.
  - apply Forall_forall. intros info Hin.
    apply list_elem_of_lookup in Hin as [i Hi].
    destruct (Forall2_lookup_r _ _ _ _ _ Et Hi) as (p & Hp & Ef).
    apply list_elem_of_lookup_2 in Hp. rewrite merge_sort_Permutation in Hp.
    destruct (Hw p Hp) as (rel & -> & Hv). by eapply format_file_recorded.
  - apply labels_of_wf. constructor.
  - destruct (decide _); [simplify_eq; auto|].
    destruct (fs_write _ _ (String.list_byte_of_string root)) as [[[]|e|] host2] eqn:Ew; [|done..].
    apply fs_write_ok in Ew as ->. simplify_eq. auto.
Qed.

(** The files that [format] writes are not among those it hashes. *)
Definition outputs_apart (options : FormatOptions) (host : Host) : Prop :=
  let metadata_path := metadata_path_of (fo_data_dir options) (fo_metadata options) in
  metadata_path <> fo_hash_output options /\
  (metadata_path ∉ collect_files host (fo_data_dir options)) /\
  (fo_hash_output options ∉ collect_files host (fo_data_dir options)).

Lemma check_metadata_intro host p infos labels0 fb root :
  h_files host !! p = Some fb -> serialize_metadata infos labels0 = Ok fb ->
  calculate_metadata_hash fb = Ok root ->
  Forall info_wf infos -> labels_wf labels0 -> Forall (fun i => verify_self i = Ok tt) infos ->
  check_metadata host p root = Ok (mkMetadataInfo (merge_sort path_le infos) labels0).
Proof.
  intros Hp Hser Hroot Hwf Hl Hself. pose proof (metadata_hash_root _ _ Hroot). unfold check_metadata, fs_read_file.
  rewrite Hp. cbn [ok_or rbind]. rewrite Hroot. cbn [map_err rbind].
  rewrite decide_False by (intros E; by apply E).
  rewrite (metadata_deserialize infos labels0) by done. cbn [map_err rbind file_infos].
  rewrite <- (merge_sort_Permutation path_le infos) in Hself.
  apply try_map_units in Hself. by destruct (try_map verify_self _).
Qed.

(** Other files are as they were. *)
Lemma format_run_untouched options host out host' p :
  walk_wf host (fo_data_dir options) -> format_run options host = (Ok out, host') ->
  p <> metadata_path_of (fo_data_dir options) (fo_metadata options) -> p <> fo_hash_output options ->
  h_files host' !! p = h_files host !! p.
Proof.
  intros Hw E N1 N2. destruct (format_run_ok _ _ _ _ Hw E) as (? & ? & ? & ? & _ & _ & _ & _ & _ & Hout).
  destruct Hout as [[_ ->]|(_ & _ & ->)]; simpl; repeat rewrite lookup_insert_ne by congruence; done.
Qed.

(** C14: formatting, then verifying: on a directory whose files were not changed
    since, [verify] with the printed (or written) root hash succeeds, provided
    the names of the files are valid UTF-8, and the metadata and hash files
    written by [format] are distinct and not among the files it hashed. *)
Theorem format_then_verify options host out host' :
  walk_wf host (fo_data_dir options) -> names_utf8 host (fo_data_dir options) ->
  outputs_apart options host -> format_run options host = (Ok out, host') ->
  exists root,
    (out = Some root \/
     h_files host' !! fo_hash_output options = Some (String.list_byte_of_string root)) /\
    verify_run (mkVerifyOptions (fo_data_dir options) root (fo_metadata options) false) host' = Ok tt.
Proof.
  intros Hw Hutf (Hne & Hm & Ho) E.
  destruct (format_run_ok _ _ _ _ Hw E) as (infos & labels0 & fb & root & Hrec & Hl & Hf2 & Hser & Hroot & Hout).
  set (mp := metadata_path_of (fo_data_dir options) (fo_metadata options)) in *.
  exists root. split.
  { destruct Hout as [[-> _]|(-> & _ & ->)]; [by left|right]. simpl. by rewrite lookup_insert_eq. }
  assert (Forall (fun i => verify_self i = Ok tt) infos) as Hself.
  { eapply Forall_impl; [exact Hrec|]. intros i Hi. by apply recorded_file_self in Hi as [? _]. }
  assert (Forall info_wf infos) as Hwf.
  { eapply Forall_impl; [exact Hrec|]. intros i Hi. by apply recorded_file_self in Hi as [_ ?]. }
  assert (h_files host' !! mp = Some fb) as Hmp.
  { destruct Hout as [[_ ->]|(_ & _ & ->)]; simpl.
    - by rewrite lookup_insert_eq.
    - rewrite lookup_insert_ne by done. by rewrite lookup_insert_eq. }
  unfold verify_run. cbn [vo_data_dir vo_metadata vo_hash vo_metadata_only]. fold mp.
  rewrite (check_metadata_intro _ _ infos labels0 fb) by assumption. cbn [rbind file_infos].
  assert (Forall (fun i => verify_file host' (fo_data_dir options) i = Ok tt)
    (merge_sort path_le infos)) as Hver.
  { rewrite merge_sort_Permutation. apply Forall_forall. intros info Hin.
    apply list_elem_of_lookup in Hin as [i Hi].
    destruct (Forall2_lookup_r _ _ _ _ _ Hf2 Hi) as (p & Hp & Ef).
    apply list_elem_of_lookup_2 in Hp. rewrite merge_sort_Permutation in Hp.
    destruct (Hw p Hp) as (rel & -> & Hv).
    apply (format_file_verifies host _ _ rel); [assumption|by apply Hutf|assumption|].
    apply (format_run_untouched _ _ _ _ _ Hw E); intros Heq; rewrite Heq in Hp; [by apply Hm|by apply Ho]. }
  pose proof (try_map_units _ _ Hver) as Hu.
  by destruct (try_map (verify_file host' (fo_data_dir options)) _).
Qed.
End FormatVerify.

(** ** What verify accepts *)

Section Soundness.
Context `{InnerHashSpec, HexSpec, FlatBuffersSpec, CanonJsonSpec, WalkDir}.

Definition entry_of (info : FileVerityInfo) : FileHashJsonEntry :=
  mkJsonEntry (descriptor_hash info) (info_path info).

Lemma json_entry_of_info f info :
  file_info_from_fb f = Ok info -> pair_entry (fbf_path f, fbf_descriptor_hash f) = Ok (entry_of info).
Proof.
  rewrite <- json_entry_pair. unfold file_info_from_fb, json_entry_from_fb. intros E.
  apply rbind_ok in E as (path & -> & E). apply rbind_ok in E as (dh & -> & E). cbn [rbind].
  apply rbind_ok in E as (fd & _ & E). apply rbind_ok in E as (rh & _ & E).
  apply rbind_ok in E as (rh' & _ & E). destruct (chunks_exact _ _) as [hs rem].
  destruct (decide _); [done|]. by injection E as <-.
Qed.

Lemma try_map_json files infos :
  try_map file_info_from_fb files = Ok infos ->
  try_map pair_entry (map (fun f => (fbf_path f, fbf_descriptor_hash f)) files) = Ok (map entry_of infos).
Proof.
  intros E. apply try_map_inv in E. induction E as [|f info files infos Hf _ IH]; [done|].
  cbn [map try_map]. rewrite (json_entry_of_info _ _ Hf), IH. done.
Qed.

Lemma deserialize_entries b mi :
  deserialize_metadata b = Ok mi ->
  metadata_entries b = Ok (merge_sort entry_le (map entry_of (file_infos mi))).
Proof.
  unfold deserialize_metadata, metadata_entries. intros E.
  apply rbind_ok in E as (m & -> & E). cbn [rbind]. destruct (decide _); [done|].
  apply rbind_ok in E as (infos & Ei & E). apply rbind_ok in E as (kvs & _ & [= <-]).
  unfold file_pairs. rewrite (try_map_json _ _ Ei). done.
Qed.

Lemma serialize_entries infos labels0 b :
  serialize_metadata infos labels0 = Ok b -> is_Some (fb_root b) ->
  metadata_entries b = Ok (merge_sort entry_le (map entry_of (merge_sort path_le infos))).
Proof.
  intros E Hr. unfold metadata_entries. rewrite (serialized_root _ _ _ E Hr).
  unfold file_pairs. cbn [ok_or rbind fbm_files from_option id metadata_doc].
  rewrite map_map, (try_map_compose _ _ entry_of); [done|]. by apply Forall_forall.
Qed.

(** A file accepted for a recorded measurement has the recorded content. *)
Lemma verify_file_content host0 host (data_dir rel : Path) info0 info :
  format_file host0 data_dir (data_dir ++ rel) = Ok info0 ->
  entry_of info = entry_of info0 ->
  (forall p d, h_files host !! p = Some d -> (Z.of_nat (length d) < u64_modulus)%Z) ->
  (forall p d, h_files host0 !! p = Some d -> (Z.of_nat (length d) < u64_modulus)%Z) ->
  forall dir, verify_file host dir info = Ok tt ->
  exists c d0 d, config_new DEFAULT_BLOCK_SIZE [] = Some c /\
    h_files host0 !! (data_dir ++ rel : Path) = Some d0 /\
    h_files host !! path_join dir (recorded_path rel) = Some d /\
    (d = d0 \/ collision_in (measurement_messages c d) (measurement_messages c d0)).
Proof.
  intros (d0 & desc0 & tree0 & h0 & Hd0 & Ecalc0 & Eh0 & ->)%format_file_inv [= Edh Ep] B B0
    dir Ever.
  simpl in Ep, Edh. unfold verify_file, fs_read_file in Ever.
  rewrite Ep in Ever. fold (recorded_path rel) in Ever.
  apply rbind_ok in Ever as (d & Hd & Ever). apply ok_or_ok in Hd.
  apply rbind_ok in Ever as ([desc tree] & Ecalc & Ever).
  destruct (calculate_fsverity_hash d) as [p|] eqn:Ec; [|discriminate]. injection Ecalc as ->.
  apply rbind_ok in Ever as (h & Eh & Ever).
  destruct (to_descriptor_hash desc) as [h'|] eqn:Eh'; [|discriminate]. injection Eh as ->.
  destruct (decide _) as [|Heq]; [discriminate|]. apply dec_stable in Heq.
  rewrite Edh in Heq. apply hex_encode_inj in Heq as ->.
  apply calculate_fsverity_hash_spec in Ecalc0 as (c & Hcfg & Hc & _ & _ & _ & -> & _).
  apply calculate_fsverity_hash_spec in Ec as (c' & Hcfg' & _ & _ & _ & _ & -> & _).
  assert (c' = c) as -> by congruence.
  exists c, d0, d. split; [assumption|]. split; [exact Hd0|]. split; [assumption|].
  apply (measurement_binds_data c d d0 h0); [assumption|by eapply B|by eapply B0|assumption..].
Qed.

Lemma check_metadata_ok host p expected mi :
  check_metadata host p expected = Ok mi ->
  exists b, h_files host !! p = Some b /\ calculate_metadata_hash b = Ok expected /\
    deserialize_metadata b = Ok mi /\ Forall (fun i => verify_self i = Ok tt) (file_infos mi).
Proof.
  unfold check_metadata, fs_read_file. intros E.
  apply rbind_ok in E as (b & Hb & E). apply ok_or_ok in Hb.
  apply rbind_ok in E as (root & Hroot & E). apply map_err_ok in Hroot.
  destruct (decide _) as [|Heq]; [done|]. apply dec_stable in Heq as ->.
  apply rbind_ok in E as (mi' & Hmi & E). apply map_err_ok in Hmi.
  apply rbind_ok in E as (us & Hus & [= <-]). exists b. do 3 (split; [done|]).
  apply map_err_ok, try_map_inv in Hus. apply Forall_forall. intros i Hi.
  apply list_elem_of_lookup in Hi as [k Hk].
  by destruct (Forall2_lookup_l _ _ _ _ _ Hus Hk) as ([] & _ & ?).
Qed.

(** Two metadata files with one root hash have the same entries, or their JSON
    documents are a collision. *)
Lemma root_hash_entries infos labels0 fb b mi root :
  serialize_metadata infos labels0 = Ok fb -> calculate_metadata_hash fb = Ok root ->
  calculate_metadata_hash b = Ok root -> deserialize_metadata b = Ok mi ->
  merge_sort entry_le (map entry_of (file_infos mi)) =
    merge_sort entry_le (map entry_of (merge_sort path_le infos)) \/
  (exists e e0 j j0, metadata_entries b = Ok e /\ metadata_entries fb = Ok e0 /\
    to_canon_json_vec e = Some j /\ to_canon_json_vec e0 = Some j0 /\ j <> j0 /\ hash j = hash j0).
Proof.
  intros Hser Hroot Hhash Hdes.
  destruct (metadata_hash_ok _ _ Hhash) as (e & j & He & Hj & Eh).
  destruct (metadata_hash_ok _ _ Hroot) as (e0 & j0 & He0 & Hj0 & Eh0).
  rewrite Eh in Eh0. apply hex_encode_inj in Eh0.
  destruct (decide (j = j0)) as [<-|Hjne]; [left|right; by exists e, e0, j, j0].
  assert (e = e0) as <- by by eapply canon_json_inj.
  rewrite (deserialize_entries _ _ Hdes) in He.
  rewrite (serialize_entries _ _ _ Hser) in He0 by by eapply metadata_hash_root. congruence.
Qed.

(** The metadata file that [format] has written. *)
Lemma format_run_metadata options host out host' fb0 :
  walk_wf host (fo_data_dir options) ->
  metadata_path_of (fo_data_dir options) (fo_metadata options) <> fo_hash_output options ->
  format_run options host = (Ok out, host') ->
  h_files host' !! metadata_path_of (fo_data_dir options) (fo_metadata options) = Some fb0 ->
  exists infos labels0, Forall (recorded_file host (fo_data_dir options)) infos /\ labels_wf labels0 /\
    Forall2 (fun p info => format_file host (fo_data_dir options) p = Ok info)
      (merge_sort path_order (collect_files host (fo_data_dir options))) infos /\
    serialize_metadata infos labels0 = Ok fb0.
Proof.
  intros Hw Hne Ef Hfb.
  destruct (format_run_ok _ _ _ _ Hw Ef) as (infos & labels0 & fb & root & Hrec & Hl & Hf2 & Hser & _ & Hout).
  exists infos, labels0. do 3 (split; [done|]). rewrite Hser. f_equal.
  destruct Hout as [[_ ->]|(_ & _ & ->)]; simpl in Hfb.
  - rewrite lookup_insert_eq in Hfb. congruence.
  - rewrite lookup_insert_ne, lookup_insert_eq in Hfb by congruence. congruence.
Qed.

(** The entries of equal lists, one by one. *)
Lemma entries_match infos infos' info :
  merge_sort entry_le (map entry_of infos) =
    merge_sort entry_le (map entry_of (merge_sort path_le infos')) ->
  info ∈ infos' -> exists i, i ∈ infos /\ entry_of i = entry_of info.
Proof.
  intros E Hin.
  assert (entry_of info ∈ map entry_of infos) as Hm.
  { rewrite <- (merge_sort_Permutation entry_le), E, merge_sort_Permutation.
    apply list_elem_of_fmap_2. by rewrite merge_sort_Permutation. }
  apply list_elem_of_fmap_1 in Hm as (i & Ei & Hi). by exists i.
Qed.

Lemma entries_match_rev infos infos' info :
  merge_sort entry_le (map entry_of infos) =
    merge_sort entry_le (map entry_of (merge_sort path_le infos')) ->
  info ∈ infos -> exists i, i ∈ infos' /\ entry_of i = entry_of info.
Proof.
  intros E Hin.
  assert (entry_of info ∈ map entry_of (merge_sort path_le infos')) as Hm.
  { rewrite <- (merge_sort_Permutation entry_le), <- E, merge_sort_Permutation.
    by apply list_elem_of_fmap_2. }
  apply list_elem_of_fmap_1 in Hm as (i & Ei & Hi). rewrite merge_sort_Permutation in Hi. by exists i.
Qed.

(** C3: [verify] detects changes: if it accepts some host directory for the root
    hash of the metadata that [format] wrote for another one (file contents
    shorter than [2 ^ 64] bytes), then every file that was formatted is there
    with the same content under the path that was recorded for it, which is its
    own when that is valid UTF-8, or a collision is exhibited: among the
    messages hashed for the two versions of a file, or between the two JSON
    documents whose hash is the root hash.  ([format] did not write the hash
    over the metadata; the walk lists files below the directory.) *)
Theorem verify_detects_changes options host0 out host1 fb0 vopts host :
  walk_wf host0 (fo_data_dir options) ->
  metadata_path_of (fo_data_dir options) (fo_metadata options) <> fo_hash_output options ->
  format_run options host0 = (Ok out, host1) ->
  h_files host1 !! metadata_path_of (fo_data_dir options) (fo_metadata options) = Some fb0 ->
  calculate_metadata_hash fb0 = Ok (vo_hash vopts) -> vo_metadata_only vopts = false ->
  (forall p d, h_files host !! p = Some d -> (Z.of_nat (length d) < u64_modulus)%Z) ->
  (forall p d, h_files host0 !! p = Some d -> (Z.of_nat (length d) < u64_modulus)%Z) ->
  verify_run vopts host = Ok tt ->
  (forall p, p ∈ collect_files host0 (fo_data_dir options) ->
    exists c rel d0 d, config_new DEFAULT_BLOCK_SIZE [] = Some c /\
      p = fo_data_dir options ++ rel /\ h_files host0 !! p = Some d0 /\
      h_files host !! path_join (vo_data_dir vopts) (recorded_path rel) = Some d /\
      (is_utf8 (path_to_string rel) = true -> recorded_path rel = rel) /\
      (d = d0 \/ collision_in (measurement_messages c d) (measurement_messages c d0))) \/
  (exists b e e0 j j0,
    h_files host !! metadata_path_of (vo_data_dir vopts) (vo_metadata vopts) = Some b /\
    metadata_entries b = Ok e /\ metadata_entries fb0 = Ok e0 /\
    to_canon_json_vec e = Some j /\ to_canon_json_vec e0 = Some j0 /\ j <> j0 /\ hash j = hash j0).
Proof.
  intros Hw Ha Ef Hfb Hroot Hmo B B0 Ever.
  destruct (format_run_metadata _ _ _ _ _ Hw Ha Ef Hfb) as (infos & labels0 & Hrec & _ & Hf2 & Hser).
  unfold verify_run in Ever. apply rbind_ok in Ever as (mi & Echeck & Ever). rewrite Hmo in Ever.
  apply rbind_ok in Ever as (us & Hfiles & _). apply try_map_inv in Hfiles.
  apply check_metadata_ok in Echeck as (b & Hb & Hhash & Hdes & _).
  destruct (root_hash_entries _ _ _ _ _ _ Hser Hroot Hhash Hdes) as [Hent|(e & e0 & j & j0 & Hj)];
    [left|right; by exists b, e, e0, j, j0].
  intros p Hp.
  rewrite <- (merge_sort_Permutation path_order) in Hp. apply list_elem_of_lookup in Hp as [k Hk].
  destruct (Forall2_lookup_l _ _ _ _ _ Hf2 Hk) as (info0 & Hi0 & Eff).
  apply list_elem_of_lookup_2 in Hk. rewrite merge_sort_Permutation in Hk.
  destruct (Hw p Hk) as (rel & -> & Hv).
  apply list_elem_of_lookup_2 in Hi0 as Hin0.
  destruct (entries_match (file_infos mi) infos info0) as (info & Hi & Ei); [congruence|done|].
  apply list_elem_of_lookup in Hi as [m Hm].
  destruct (Forall2_lookup_l _ _ _ _ _ Hfiles Hm) as ([] & _ & Evf).
  destruct (verify_file_content host0 host (fo_data_dir options) rel info0 info Eff Ei B B0
    (vo_data_dir vopts) Evf) as (c & d0 & d & Hcfg & Hd0 & Hd & Hcase).
  exists c, rel, d0, d. split; [assumption|]. split; [reflexivity|]. split; [exact Hd0|].
  split; [assumption|]. split; [by apply recorded_path_utf8|assumption].
Qed.
End Soundness.
