(* ===== verification/VerityCmdInstances.v ===== *)
(** * The commands on concrete directories

    Executable instances of the interfaces of [VerityMetadata] and
    [VerityCmd], instances of their theorems, and a run of [format] whose own
    metadata is among the files it hashed. *)

From stdpp Require Import base list numbers option strings sorting gmap countable.
From Stdlib Require Import ZArith Lia.
From S2P Require Import Prelude Slices InnerHash Descriptor VerityDigest MerkleSpec ToyHash.
From S2P Require Import MerkleTree FileVerifier VerityMetadata RustString RustPath VerityCmd VerityCmdProofs.

#[local] Existing Instances toy5 toy5_spec toy_hex toy_hex_spec toy_path.

(** ** Serializers *)

(** Token lists as bytes: each byte of a token is announced, and so is its
    end. *)
Definition frame (t : bytes) : bytes := concat (map (fun b => [Byte.x01; b]) t) ++ [Byte.x00].

Definition frames (ts : list bytes) : bytes := concat (map frame ts).

Fixpoint unframe (acc : bytes) (l : bytes) : list bytes :=
  match l with
  | Byte.x01 :: b :: l => unframe (acc ++ [b]) l
  | _ :: l => acc :: unframe [] l
  | [] => []
  end.

Lemma unframe_frame acc t rest :
  unframe acc (frame t ++ rest) = (acc ++ t) :: unframe [] rest.
Proof.
  revert acc. induction t as [|b t IH]; intros acc.
  - simpl. by rewrite app_nil_r.
  - unfold frame in *. simpl. rewrite IH, <- app_assoc. done.
Qed.

Lemma unframe_frames ts : unframe [] (frames ts) = ts.
Proof.
  induction ts as [|t ts IH]; [done|]. unfold frames in *. simpl.
  rewrite unframe_frame, IH. done.
Qed.

(** Tokens of numbers, optional bytes and optional strings. *)
Fixpoint bits_of (p : positive) : bytes :=
  match p with
  | xH => []
  | xO p => Byte.x00 :: bits_of p
  | xI p => Byte.x01 :: bits_of p
  end.

Fixpoint of_bits (l : bytes) : positive :=
  match l with
  | [] => xH
  | Byte.x00 :: l => xO (of_bits l)
  | _ :: l => xI (of_bits l)
  end.

Lemma of_bits_of p : of_bits (bits_of p) = p.
Proof. induction p as [p IH|p IH|]; simpl; [| |done]; by rewrite IH. Qed.

Definition z_token (z : Z) : bytes :=
  match z with
  | Z0 => []
  | Zpos p => Byte.x01 :: bits_of p
  | Zneg p => Byte.x00 :: bits_of p
  end.

Definition z_of_token (t : bytes) : Z :=
  match t with
  | [] => Z0
  | Byte.x00 :: l => Zneg (of_bits l)
  | _ :: l => Zpos (of_bits l)
  end.

Lemma z_of_to_token z : z_of_token (z_token z) = z.
Proof. destruct z; simpl; by rewrite ?of_bits_of. Qed.

Definition opt_token (o : option bytes) : bytes :=
  match o with None => [] | Some b => Byte.x01 :: b end.

Definition opt_of_token (t : bytes) : option bytes :=
  match t with [] => None | _ :: b => Some b end.

Lemma opt_of_to_token o : opt_of_token (opt_token o) = o.
Proof. by destruct o. Qed.

Definition str_token (o : option string) : bytes := opt_token (String.list_byte_of_string <$> o).
Definition str_of_token (t : bytes) : option string := String.string_of_list_byte <$> opt_of_token t.

Lemma str_of_to_token o : str_of_token (str_token o) = o.
Proof.
  unfold str_of_token, str_token. rewrite opt_of_to_token. destruct o; simpl; [|done].
  by rewrite String.string_of_list_byte_of_string.
Qed.

(** Ten tokens per file, two per label. *)
Definition descriptor_tokens (d : option FbDescriptor) : list bytes :=
  match d with
  | None => [[]; []; []; []; []; []; []]
  | Some d => [[Byte.x01]; z_token (fbd_version d); z_token (fbd_hash_algorithm d);
      z_token (fbd_log_blocksize d); z_token (fbd_data_size d); opt_token (fbd_root_hash d);
      opt_token (fbd_salt d)]
  end.

Definition file_tokens (f : FbFileInfo) : list bytes :=
  descriptor_tokens (fbf_descriptor f) ++
  [str_token (fbf_path f); opt_token (fbf_merkle_tree_level1 f); str_token (fbf_descriptor_hash f)].

Definition file_of_tokens (l : list bytes) : FbFileInfo :=
  match l with
  | [flag; v; a; lg; sz; rh; sl; path; tree; dh] =>
    mkFbFileInfo (str_of_token path)
      (match flag with
       | [] => None
       | _ => Some (mkFbDescriptor (z_of_token v) (z_of_token a) (z_of_token lg) (z_of_token sz)
                (opt_of_token rh) (opt_of_token sl))
       end) (opt_of_token tree) (str_of_token dh)
  | _ => mkFbFileInfo None None None None
  end.

Definition label_tokens (kv : FbKeyValue) : list bytes := [str_token (fbk_key kv); str_token (fbk_value kv)].

Definition label_of_tokens (l : list bytes) : FbKeyValue :=
  match l with
  | [k; v] => mkFbKeyValue (str_of_token k) (str_of_token v)
  | _ => mkFbKeyValue None None
  end.

Definition count_token {A} (o : option (list A)) : bytes :=
  match o with None => [] | Some l => Byte.x01 :: z_token (Z.of_nat (length l)) end.

Definition metadata_tokens (m : FbMetadata) : list bytes :=
  [z_token (fbm_version m); count_token (fbm_files m); count_token (fbm_labels m)] ++
  concat (map file_tokens (default [] (fbm_files m))) ++
  concat (map label_tokens (default [] (fbm_labels m))).

Definition metadata_of_tokens (l : list bytes) : option FbMetadata :=
  match l with
  | v :: fc :: lc :: l =>
    let n := match fc with [] => 0 | _ :: t => Z.to_nat (z_of_token t) end in
    let fs := map file_of_tokens (chunks 10 (take (n * 10) l)) in
    let ls := map label_of_tokens (chunks 2 (drop (n * 10) l)) in
    Some (mkFbMetadata (z_of_token v) (match fc with [] => None | _ => Some fs end)
      (match lc with [] => None | _ => Some ls end))
  | _ => None
  end.

Definition toy_fb : FlatBuffers := {|
  fb_finish files labels := Some (frames (metadata_tokens (metadata_doc files labels)));
  fb_root b := metadata_of_tokens (unframe [] b);
  fb_fits _ _ := True;
|}.

Lemma file_of_to_tokens f : file_of_tokens (file_tokens f) = f.
Proof.
  destruct f as [p [[]|] t h]; unfold file_tokens; simpl;
    by rewrite ?z_of_to_token, ?opt_of_to_token, ?str_of_to_token.
Qed.

Lemma label_of_to_tokens kv : label_of_tokens (label_tokens kv) = kv.
Proof. destruct kv. simpl. by rewrite !str_of_to_token. Qed.

Lemma file_tokens_length fs : Forall (fun t => length t = 10) (map file_tokens fs).
Proof. apply Forall_fmap, Forall_forall. intros [p [[]|] t h] _; done. Qed.

Lemma map_roundtrip {A B} (f : A -> B) (g : B -> A) l :
  (forall a, g (f a) = a) -> map g (map f l) = l.
Proof. intros E. rewrite map_map, (map_ext _ id) by done. apply map_id. Qed.

Lemma tokens_roundtrip m : metadata_of_tokens (unframe [] (frames (metadata_tokens m))) = Some m.
Proof.
  rewrite unframe_frames. unfold metadata_tokens. simpl.
  set (fs := default [] (fbm_files m)). set (ls := default [] (fbm_labels m)).
  assert (match count_token (fbm_files m) with [] => 0 | _ :: t => Z.to_nat (z_of_token t) end
    = length (map file_tokens fs)) as ->.
  { unfold fs. destruct (fbm_files m); simpl; [|done].
    by rewrite z_of_to_token, Nat2Z.id, length_map. }
  pose proof (file_tokens_length fs) as Hf.
  rewrite take_app_length', drop_app_length' by by rewrite (length_concat_full 10).
  rewrite (chunks_concat 10) by (lia || done).
  rewrite (chunks_concat 2) by (lia || apply Forall_fmap, Forall_forall; done).
  rewrite (map_roundtrip file_tokens), (map_roundtrip label_tokens)
    by (apply file_of_to_tokens || apply label_of_to_tokens).
  rewrite z_of_to_token. unfold fs, ls. destruct m as [v [f|] [l|]]; done.
Qed.

Lemma toy_fb_spec : @FlatBuffersSpec toy_fb.
Proof.
  constructor; simpl.
  - intros files labels b m [= <-]. rewrite tokens_roundtrip. congruence.
  - intros files labels _. eexists. split; [done|]. by rewrite tokens_roundtrip.
Qed.

Definition toy_json : CanonJson := {|
  to_canon_json_vec l := Some (frames (concat (map (fun e =>
    [String.list_byte_of_string (je_descriptor_hash e); String.list_byte_of_string (je_path e)]) l)));
|}.

Lemma list_byte_of_string_inj a b :
  String.list_byte_of_string a = String.list_byte_of_string b -> a = b.
Proof.
  intros E%(f_equal String.string_of_list_byte).
  by rewrite !String.string_of_list_byte_of_string in E.
Qed.

Lemma toy_json_spec : @CanonJsonSpec toy_json.
Proof.
  constructor; simpl; [|by eauto]. intros a b j [= <-] [= E].
  apply (f_equal (unframe [])) in E. rewrite !unframe_frames in E.
  revert b E. induction a as [|[ah ap] a IH]; intros [|[bh bp] b] E; simpl in E; try done.
  injection E as Eh Ep E. apply list_byte_of_string_inj in Eh as ->, Ep as ->.
  f_equal. by apply IH.
Qed.

#[local] Existing Instances toy_fb toy_fb_spec toy_json toy_json_spec.

(** All the files below the directory. *)
Definition toy_walk : WalkDir := {|
  walk host dir :=
    omap (fun kv => if decide (take (length dir) (fst kv) = dir)
                    then Some (Some (mkWalkEntry (fst kv) true)) else None)
      (map_to_list (h_files host));
|}.
#[local] Existing Instance toy_walk.

(** ** A file in a directory *)

Definition host0 : Host :=
  mkHost (<[["d"; "s"; "b"] := mk [4%Z]]> ∅) {[ ["d"] ]} ∅.

Definition fopts : FormatOptions := mkFormatOptions ["d"] None ["-"] false [("k", "v")].

Lemma host0_walk_wf : walk_wf host0 ["d"].
Proof.
  intros p Hp. assert (p = ["d"; "s"; "b"]) as ->.
  { vm_compute in Hp. repeat (apply elem_of_cons in Hp as [->|Hp]; auto).
    by apply not_elem_of_nil in Hp. }
  exists ["s"; "b"]. split; [done|]. by repeat constructor.
Qed.

Lemma host0_utf8 : names_utf8 host0 ["d"].
Proof.
  intros rel Hp. assert (["d"] ++ rel = ["d"; "s"; "b"]) as E.
  { revert Hp. generalize (["d"] ++ rel). intros p Hp. vm_compute in Hp.
    repeat (apply elem_of_cons in Hp as [->|Hp]; auto). by apply not_elem_of_nil in Hp. }
  injection E as ->. vm_compute. reflexivity.
Qed.

Lemma host0_apart : outputs_apart fopts host0.
Proof. split; [done|]. split; apply (bool_decide_unpack _); vm_compute; exact I. Qed.

Definition formatted := format_run fopts host0.
Definition host1 : Host := snd formatted.
Definition root1 : string := match fst formatted with Ok (Some r) => r | _ => "" end.

Lemma formatted_eq : format_run fopts host0 = (Ok (Some root1), host1).
Proof. vm_compute. reflexivity. Qed.

Lemma format_then_verify_witness :
  exists root,
    (Some root1 = Some root \/
     h_files host1 !! (["-"] : Path) = Some (String.list_byte_of_string root)) /\
    verify_run (mkVerifyOptions ["d"] root None false) host1 = Ok tt.
Proof.
  exact (format_then_verify fopts host0 (Some root1) host1 host0_walk_wf host0_utf8 host0_apart formatted_eq).
Defined.

Definition fb1 : bytes :=
  default [] (h_files host1 !! (["d"; DEFAULT_METADATA_FILE] : Path)).

(** Contents are short. *)
Definition short_files (h : Host) : bool :=
  forallb (fun kv => bool_decide (Z.of_nat (length (snd kv)) < u64_modulus)%Z) (map_to_list (h_files h)).

Lemma short_files_bound h :
  short_files h = true ->
  forall p d, h_files h !! p = Some d -> (Z.of_nat (length d) < u64_modulus)%Z.
Proof.
  intros Hs p d E. unfold short_files in Hs. rewrite forallb_forall in Hs.
  specialize (Hs (p, d)). apply elem_of_map_to_list, list_elem_of_In in E.
  by apply Hs, bool_decide_eq_true in E.
Qed.

Lemma verify_detects_changes_witness :
  (forall p, p ∈ collect_files host0 ["d"] ->
    exists c rel d0 d, config_new DEFAULT_BLOCK_SIZE [] = Some c /\
      p = ["d"] ++ rel /\ h_files host0 !! p = Some d0 /\
      h_files host1 !! path_join ["d"] (recorded_path rel) = Some d /\
      (is_utf8 (path_to_string rel) = true -> recorded_path rel = rel) /\
      (d = d0 \/ collision_in (measurement_messages c d) (measurement_messages c d0))) \/
  (exists b e e0 j j0,
    h_files host1 !! metadata_path_of ["d"] None = Some b /\
    metadata_entries b = Ok e /\ metadata_entries fb1 = Ok e0 /\
    to_canon_json_vec e = Some j /\ to_canon_json_vec e0 = Some j0 /\ j <> j0 /\ hash j = hash j0).
Proof.
  refine (verify_detects_changes fopts host0 (Some root1) host1 fb1
    (mkVerifyOptions ["d"] root1 None false) host1 host0_walk_wf (proj1 host0_apart) formatted_eq _ _ _ _ _ _).
  - vm_compute. reflexivity.
  - vm_compute. reflexivity.
  - reflexivity.
  - apply short_files_bound. vm_compute. reflexivity.
  - apply short_files_bound. vm_compute. reflexivity.
  - vm_compute. reflexivity.
Defined.

(** ** Metadata *)

Definition info1 : FileVerityInfo :=
  mkInfo "b" (mkDescriptor 1 1 12 3 (zeros 32) []) [zeros 32] "h1".
Definition info2 : FileVerityInfo :=
  mkInfo "a" (mkDescriptor 1 1 12 3 (zeros 32) []) [zeros 32; zeros 32] "h2".

Lemma infos_wf : Forall info_wf [info1; info2].
Proof. by repeat constructor. Qed.

Lemma labels1_wf : labels_wf [("k", "v"); ("l", "w")].
Proof. by repeat constructor. Qed.

Lemma metadata_roundtrip_witness :
  (exists b, serialize_metadata [info1; info2] [("k", "v"); ("l", "w")] = Ok b /\
    deserialize_metadata b =
      Ok (mkMetadataInfo (merge_sort path_le [info1; info2]) [("k", "v"); ("l", "w")])) /\
  merge_sort path_le [info1; info2] ≡ₚ [info1; info2].
Proof. exact (metadata_roundtrip [info1; info2] _ infos_wf labels1_wf I). Defined.

Lemma metadata_hash_reproducible_witness :
  exists b b' h, serialize_metadata [info1; info2] [] = Ok b /\
    serialize_metadata [info2; info1] [("k", "v")] = Ok b' /\
    calculate_metadata_hash b = Ok h /\ calculate_metadata_hash b' = Ok h.
Proof.
  apply (metadata_hash_reproducible [info1; info2] [info2; info1] [] [("k", "v")]).
  - apply Permutation_swap.
  - apply (bool_decide_unpack _). vm_compute. exact I.
  - exact I.
  - exact I.
Defined.

(** The bytes of a serialization that succeeded. *)
Definition ser (files : list FileVerityInfo) (ls : Labels) : bytes :=
  match serialize_metadata files ls with Ok b => b | _ => [] end.

Lemma metadata_hash_binds_witness :
  exists m1 m2, fb_root (ser [info1; info2] []) = Some m1 /\
    fb_root (ser [info2; info1] [("k", "v")]) = Some m2 /\
    (file_pairs m1 ≡ₚ file_pairs m2 \/
     exists e1 e2 j1 j2, metadata_entries (ser [info1; info2] []) = Ok e1 /\
       metadata_entries (ser [info2; info1] [("k", "v")]) = Ok e2 /\
       to_canon_json_vec e1 = Some j1 /\ to_canon_json_vec e2 = Some j2 /\
       j1 <> j2 /\ hash j1 = hash j2).
Proof.
  apply (metadata_hash_binds (ser [info1; info2] [])
    (ser [info2; info1] [("k", "v")])
    (match calculate_metadata_hash (ser [info1; info2] []) with
     | Ok h => h | _ => "" end)).
  - vm_compute. reflexivity.
  - vm_compute. reflexivity.
Defined.

(** ** Formatting twice with the metadata inside the directory *)

Definition fopts_inside : FormatOptions :=
  mkFormatOptions ["d"] (Some ["d"; "m"]) ["-"] true [].

Definition host_single : Host := mkHost (<[["d"; "a"] := []]> ∅) {[ ["d"] ]} ∅.
Definition host_once : Host := snd (format_run fopts_inside host_single).
Definition host_twice : Host := snd (format_run fopts_inside host_once).
Definition root_twice : string :=
  match fst (format_run fopts_inside host_once) with Ok (Some r) => r | _ => "" end.

(** Only the default name of the metadata file is left out of the hashed
    files: when the metadata is kept in the data directory under another name
    and the directory is formatted again with [--force], [format] succeeds but
    has hashed the old metadata it then overwrites, and [verify] rejects the
    directory at once although nothing changed. *)
Theorem reformat_breaks_verification :
  format_run fopts_inside host_once = (Ok (Some root_twice), host_twice) /\
  exists expected actual,
    verify_run (mkVerifyOptions ["d"] root_twice (Some ["d"; "m"]) false) host_twice =
      Err (FileHashMismatch "m" expected actual).
Proof.
  split; [vm_compute; reflexivity|]. eexists _, _. vm_compute. reflexivity.
Qed.

(** ** Names that are not UTF-8 *)

Definition latin_name : string := String.string_of_list_byte [Byte.x61; Byte.xff].
Definition latin_name2 : string := String.string_of_list_byte [Byte.x61; Byte.xfe].
Definition replaced_name : string :=
  String.string_of_list_byte [Byte.x61; Byte.xef; Byte.xbf; Byte.xbd].

Definition host_latin : Host :=
  mkHost (<[["d"; latin_name] := mk [4%Z]]> (<[["d"; latin_name2] := mk [4%Z]]> ∅)) {[ ["d"] ]} ∅.
Definition host_latin1 : Host := snd (format_run fopts host_latin).
Definition root_latin : string :=
  match fst (format_run fopts host_latin) with Ok (Some r) => r | _ => "" end.

(** A directory that holds neither of the formatted files. *)
Definition host_replaced : Host :=
  mkHost (<[["d"; replaced_name] := mk [4%Z]]>
    (delete ["d"; latin_name] (delete ["d"; latin_name2] (h_files host_latin1)))) {[ ["d"] ]} ∅.

(** A name that is not UTF-8 is recorded with its invalid bytes replaced:
    [format] succeeds, [verify] then does not find the file it was recorded
    for; and two such files with one content are accepted when neither of them
    is there and one file has the replaced name. *)
Theorem lossy_name_breaks_verification :
  fst (format_run fopts host_latin) = Ok (Some root_latin) /\
  verify_run (mkVerifyOptions ["d"] root_latin None false) host_latin1 =
    Err (IoFailed ["d"; replaced_name]) /\
  verify_run (mkVerifyOptions ["d"] root_latin None false) host_replaced = Ok tt.
Proof. split; [|split]; vm_compute; reflexivity. Qed.

(** ** Writes that fail *)

(** A write of the metadata that fails half-way leaves a truncated file, which
    a later [format] refuses to overwrite without [--force]. *)
Example partial_metadata_refused :
  let host := mkHost (h_files host0) (h_dirs host0) {[ ["d"; DEFAULT_METADATA_FILE] := Some 2 ]} in
  let '(r, host') := format_run fopts host in
  r = Err (IoFailed ["d"; DEFAULT_METADATA_FILE]) /\
  (length <$> (h_files host' !! (["d"; DEFAULT_METADATA_FILE] : Path))) = Some 2 /\
  fst (format_run fopts host') = Err (MetadataExists ["d"; DEFAULT_METADATA_FILE]).
Proof. vm_compute. repeat split. Qed.
