(* ===== verification/VerityMain.v ===== *)
(** * The entry point of cryptpilot-verity

    [cryptpilot-verity/src/main.rs], the subcommands of [cli.rs] and their
    dispatch in [cmd/mod.rs], over the host file system and the mount table.
    The argument parser and logging are left out; a command returns what it
    prints.  [open] serves the mount until it is unmounted: what is returned
    is the file system it serves. *)

From stdpp Require Import base list strings gmap.
From S2P Require Import Prelude InnerHash FileVerifier VerityMetadata RustPath VerityCmd.

Record VerityCloseOptions := mkVerityCloseOptions { close_mount_point : Path }.

Inductive VeritySubcommand :=
| Format (o : FormatOptions)
| Verify (o : VerifyOptions)
| Dump (o : DumpOptions)
| OpenMount (o : OpenOptions)
| CloseMount (o : VerityCloseOptions).

Inductive VerityOutput `{RelativePath} :=
| Printed (text : option string)
| Dumped (output : DumpOutput)
| Serving (verifier : VerityVerifier) (block_cache_capacity : nat)
| Silent.

(** The host and its mount table. *)
Record Machine := mkMachine { m_host : Host; m_mounts : list MountPoint }.

Section Main.
Context `{InnerHash, Hex, FlatBuffers, CanonJson, WalkDir, RelativePath}.
(** [libc::umount] *)
Context (umount : list MountPoint -> Path -> option (list MountPoint)).

Definition map_ok {E A B} (f : A -> B) (r : result E A) : result E B :=
  match r with
  | Ok a => Ok (f a)
  | Err e => Err e
  | Panic => Panic
  end.

(** [into_command().run()] *)
Definition verity_main (c : VeritySubcommand) (m : Machine) : result CmdError VerityOutput * Machine :=
  let host := m_host m in
  match c with
  | Format o =>
    let '(r, host) := format_run o host in
    (map_ok Printed r, mkMachine host (m_mounts m))
  | Verify o => (map_ok (fun _ => Silent) (verify_run o host), m)
  | Dump o => (map_ok Dumped (dump_run o host), m)
  | OpenMount o => (map_ok (fun '(v, n) => Serving v n) (open_run o host (m_mounts m)), m)
  | CloseMount o =>
    match close_run (close_mount_point o) host (m_mounts m) umount with
    | Ok mounts => (Ok Silent, mkMachine host mounts)
    | Err e => (Err e, m)
    | Panic => (Panic, m)
    end
  end.

(** ** What the commands write *)

(** The files a command may create or overwrite. *)
Definition may_write (c : VeritySubcommand) (p : Path) : bool :=
  match c with
  | Format o =>
    bool_decide (p = metadata_path_of (fo_data_dir o) (fo_metadata o)) || bool_decide (p = fo_hash_output o)
  | _ => false
  end.

(** Commands one after the other, whatever each of them answers. *)
Definition verity_session (cs : list VeritySubcommand) (m : Machine) : Machine :=
  foldl (fun m c => snd (verity_main c m)) m cs.

Lemma fs_write_other (host : Host) p q data :
  p <> q -> h_files (snd (fs_write host q data)) !! p = h_files host !! p.
Proof.
  intros Hpq. unfold fs_write. destruct (decide _); [done|].
  destruct (h_write_faults host !! q) as [[k|]|]; cbn; [|done|]; by rewrite lookup_insert_ne by done.
Qed.

Lemma format_run_other o host p :
  p <> metadata_path_of (fo_data_dir o) (fo_metadata o) -> p <> fo_hash_output o ->
  h_files (snd (format_run o host)) !! p = h_files host !! p.
Proof.
  intros Hm Ho. unfold format_run. destruct (_ && _); [done|].
  destruct (try_map _ _); [|done|done]. destruct (serialize_metadata _ _) as [fb| |]; [|done|done].
  pose proof (fs_write_other host p _ fb Hm) as E1.
  destruct (fs_write host _ fb) as [[[]| |] host1]; [|exact E1|exact E1]. cbn [snd] in E1.
  destruct (calculate_metadata_hash _) as [root| |]; [destruct (decide _)|..]; [exact E1| |exact E1|exact E1].
  pose proof (fs_write_other host1 p _ (String.list_byte_of_string root) Ho) as E2.
  destruct (fs_write host1 _ _) as [[[]| |] host2]; cbn [snd] in *; congruence.
Qed.

Lemma verity_main_other c m p :
  may_write c p = false -> h_files (m_host (snd (verity_main c m))) !! p = h_files (m_host m) !! p.
Proof.
  destruct c as [o|o|o|o|o]; cbn [verity_main may_write]; intros Hp; [|done|done|done|].
  - apply orb_false_iff in Hp as [?%bool_decide_eq_false ?%bool_decide_eq_false].
    rewrite <- (format_run_other o (m_host m) p) by done. by destruct (format_run o (m_host m)).
  - by destruct (close_run _ _ _ _).
Qed.

(** In any sequence of commands, whether they succeed or fail, the content
    of a file changes only when one of them is a format with the file as its
    metadata file or its hash output: verify, dump, open and close leave every
    file as it is, and format all data files. *)
Theorem session_writes_only (cs : list VeritySubcommand) (m : Machine) (p : Path) :
  existsb (fun c => may_write c p) cs = true \/
  h_files (m_host (verity_session cs m)) !! p = h_files (m_host m) !! p.
Proof.
  destruct (existsb _ cs) eqn:Hp; [by left|right]. revert m Hp.
  induction cs as [|c cs IH]; intros m Hp; [done|].
  cbn [existsb] in Hp. apply orb_false_iff in Hp as [Hc Hcs].
  cbn [verity_session foldl]. etransitivity; [by apply IH|]. by apply verity_main_other.
Qed.
End Main.
