(* ===== verification/VerityMount.v ===== *)
(** * A formatted directory, mounted

    The composition of cryptpilot-verity and verity-fuse: [format] on a trusted
    host, [open] with the root hash on an untrusted one, and the requests of the
    kernel to the file system that is mounted.  Whatever the untrusted host
    stores as metadata and answers to system calls, full reads return bytes of
    the files that were formatted; and the unchanged directory can be read. *)

From stdpp Require Import base list numbers option strings sorting gmap relations.
From Stdlib Require Import ZArith Lia.
From S2P Require Import Prelude Slices InnerHash Descriptor VerityDigest MerkleSpec ToyHash MerkleTree.
From S2P Require Import FileVerifier FileHandleCache VerityFs VerityFsProofs VerityMetadata RustString RustPath.
From S2P Require Import VerityCmd VerityCmdProofs.

(** ** The verifier of some metadata *)

Section Entries.
Context `{RelativePath}.

(** The files of a table are among [infos]. *)
Definition files_from (infos : list FileVerityInfo) (v : VerityVerifier) : Prop :=
  forall i n info, ino_to_file v !! i = Some (mkEntry n (VerityEnabled info)) -> info ∈ infos.

Lemma register_entry_from infos v p k :
  files_from infos v -> (forall info, k = VerityEnabled info -> info ∈ infos) ->
  files_from infos (register_entry v p k).
Proof. intros Hv Hk i n info. simpl. intros [[_ [= _ ->]]|[_ E]]%lookup_insert_Some; eauto. Qed.

Lemma register_parents_from infos f v p : files_from infos v -> files_from infos (register_parents f v p).
Proof.
  revert v p. induction f as [|f IH]; intros v p Hv; simpl; [done|].
  destruct (rp_parent p) as [q|]; [|done]. destruct (rp_is_empty q); [done|].
  apply IH. destruct (path_to_ino v !! q); [done|]. by apply register_entry_from.
Qed.

Lemma verifier_new_from infos : files_from infos (verifier_new infos).
Proof.
  induction infos as [|info infos IH] using rev_ind.
  - intros i n info. simpl. by intros [[_ [=]]|[_ E%lookup_empty_Some]]%lookup_insert_Some.
  - rewrite verifier_new_app. unfold register_info. apply register_entry_from.
    + apply register_parents_from. intros i n info' E. apply elem_of_app. left. by eapply IH.
    + intros info' [= <-]. apply elem_of_app. right. by constructor.
Qed.
End Entries.

(** ** What is read from metadata *)

Section Typed.
Context `{InnerHashSpec, HexSpec, FlatBuffersSpec}.

(** The integers of a descriptor are of their types. *)
Definition descriptor_typed (d : FsVerityDescriptor) : Prop :=
  (0 <= version d < 256)%Z /\ (0 <= hash_algorithm d < 256)%Z /\ (0 <= log_blocksize d < 256)%Z /\
  (0 <= data_size d < u64_modulus)%Z.

Lemma chunks_exact_full {A} n (l : list A) :
  0 < n -> Forall (fun c => length c = n) (fst (chunks_exact n l)).
Proof.
  intros Hn. destruct (chunks_decompose_rem n l Hn) as (full & part & -> & Hf & Hp).
  by rewrite chunks_exact_app.
Qed.

Lemma file_info_from_fb_wf f info : file_info_from_fb f = Ok info -> info_wf info.
Proof.
  unfold file_info_from_fb. intros E.
  apply rbind_ok in E as (path & _ & E). apply rbind_ok in E as (dh & _ & E).
  apply rbind_ok in E as (fd & _ & E). apply rbind_ok in E as (rh & _ & E).
  apply rbind_ok in E as (rh' & Er & E). destruct (decide (length rh = OutputSize)) as [Hl|]; [|done].
  injection Er as <-. pose proof (chunks_exact_full OutputSize (default [] (fbf_merkle_tree_level1 f)) output_size_pos) as Hc.
  destruct (chunks_exact _ _) as [hs rem]. destruct (decide _); [done|]. injection E as <-. by split.
Qed.

Lemma deserialize_wf b mi : deserialize_metadata b = Ok mi -> Forall info_wf (file_infos mi).
Proof.
  unfold deserialize_metadata. intros E.
  apply rbind_ok in E as (m & _ & E). destruct (decide _); [done|].
  apply rbind_ok in E as (infos & Ei & E). apply rbind_ok in E as (kvs & _ & [= <-]).
  apply try_map_inv in Ei. apply Forall_forall. intros i Hi. apply list_elem_of_lookup in Hi as [k Hk].
  destruct (Forall2_lookup_r _ _ _ _ _ Ei Hk) as (f & _ & Ef). by eapply file_info_from_fb_wf.
Qed.

(** A salt that is too long makes the descriptor hash panic. *)
Lemma descriptor_hash_salt d h : to_descriptor_hash d = Some h -> length (desc_salt d) <= MAX_SALT_SIZE.
Proof.
  unfold to_descriptor_hash, update_padded. destruct (salt_to_digest _); [|done]. cbn [mbind option_bind].
  destruct (decide (length (root_hash d) <= 64)); [|done]. cbn [mbind option_bind].
  by destruct (decide (length (desc_salt d) <= 32)).
Qed.

Lemma verified_descriptor_wf info :
  verify_self info = Ok tt -> info_wf info -> descriptor_typed (descriptor info) ->
  descriptor_wf OutputSize (descriptor info).
Proof.
  intros (h & Eh & _)%verify_self_ok [Hr _] (Hv & Ha & Hl & Hs).
  constructor; try done. by eapply descriptor_hash_salt.
Qed.
End Typed.

(** ** The mounted file system *)

Section Mount.
Context `{InnerHashSpec, HexSpec, FlatBuffersSpec, CanonJsonSpec, WalkDir, RelativePathSpec}.
Context {HL1 : LruCache Z Z} {HL2 : LruCache BlockKey bytes}.
Context {HS1 : LruCacheSpec Z Z} {HS2 : LruCacheSpec BlockKey bytes}.
Context {HP : PathConv} {HO : OS}.

Definition BS : Z := Z.of_nat DEFAULT_BLOCK_SIZE.

Lemma BS_range : (0 < BS < 2 ^ 32)%Z.
Proof. done. Qed.

(** An entry with the file's own descriptor and tree. *)
Definition own_entry (c : FsVerityConfig) (data : bytes) (e : FsEntry) : Prop :=
  exists n info, e = mkEntry n (VerityEnabled info) /\
    descriptor info = descriptor_of c data /\ info_tree info = level1 c data.

(** A block whose padded message collides with that of the file's block. *)
Definition colliding_block (data : bytes) (kb : Z * bytes) : Prop :=
  exists b0, chunks DEFAULT_BLOCK_SIZE data !! Z.to_nat (fst kb) = Some b0 /\
    pad_to DEFAULT_BLOCK_SIZE (snd kb) <> pad_to DEFAULT_BLOCK_SIZE b0 /\
    hash (pad_to DEFAULT_BLOCK_SIZE (snd kb)) = hash (pad_to DEFAULT_BLOCK_SIZE b0).

Section Own.
Context (c : FsVerityConfig) (data : bytes) (e : FsEntry).
Context (Hc : config_wf c) (Hbs : block_size c = DEFAULT_BLOCK_SIZE) (Hsl : salt c = []).
Context (He : own_entry c data e).

Lemma own_descriptor_block_size : descriptor_block_size (descriptor_of c data) = BS.
Proof.
  pose proof (descriptor_block_size_of c data Hc) as E. rewrite Hbs in E.
  specialize (E default_block_size_bound). unfold BS. rewrite <- E, Z2Nat.id; [done|].
  apply Z.mod_pos_bound. done.
Qed.

Lemma own_block_size : file_block_size e = Some BS.
Proof.
  destruct He as (n & info & -> & Ed & _). cbn. rewrite Ed, own_descriptor_block_size. done.
Qed.

Lemma own_verify k b :
  file_verify_data_block e k b = Ok tt <->
  verify_data_block (level1 c data) k (block_size c) b = Some true.
Proof.
  destruct He as (n & info & -> & Ed & Et). simpl file_verify_data_block.
  rewrite entry_verify_ok, Ed, Et, own_descriptor_block_size. unfold BS. by rewrite Nat2Z.id, Hbs.
Qed.

(** Accepted blocks are the file's, or collide with it. *)
Lemma own_block kb :
  verified_block e kb -> genuine_block BS data (fst kb) (snd kb) \/ colliding_block data kb.
Proof.
  destruct kb as [k b]. unfold verified_block, genuine_block, BS. cbn [fst snd]. rewrite Nat2Z.id.
  intros (b0 & Hb0 & [Heq|[Hne Hcol]])%own_verify%verify_data_block_sound; [| |done]; rewrite Hbs in *.
  - left. by exists b0.
  - right. by exists b0.
Qed.

(** All blocks of a read are genuine, or one of them collides. *)
Lemma own_blocks l :
  Forall (verified_block e) l ->
  Forall (fun kb => genuine_block BS data (fst kb) (snd kb)) l \/
  exists kb, kb ∈ l /\ colliding_block data kb.
Proof.
  induction 1 as [|kb l [Hg|Hk]%own_block _ [IH|(kb' & Hin & Hcol)]].
  - by left.
  - left. by constructor.
  - right. exists kb'. split; [by right|done].
  - right. exists kb. split; [by left|done].
  - right. exists kb. split; [by left|done].
Qed.

Lemma own_accepts : accepts e BS data.
Proof.
  intros k b Hb. apply own_verify, verify_data_block_accepts; [done..|].
  unfold BS in Hb. by rewrite Nat2Z.id, <- Hbs in Hb.
Qed.

Lemma own_rejects : rejects e BS data.
Proof.
  intros k b Hb. destruct He as (n & info & -> & Ed & Et). simpl file_verify_data_block.
  unfold entry_verify_data_block. cbn [kind]. rewrite verify_data_block_spec. cbn [unwrap rbind].
  rewrite bool_decide_eq_false_2; [done|]. intros [_ E]. rewrite Et, level1_lookup_unsalted in E by done.
  unfold BS in Hb. rewrite Nat2Z.id, <- Hbs in Hb.
  rewrite Hb in E. done.
Qed.

Lemma own_size : (Z.of_nat (length data) < u64_modulus)%Z ->
  expected_size e = Some (Z.of_nat (length data)).
Proof.
  intros Hd. destruct He as (n & info & -> & Ed & _). cbn. rewrite Ed. cbn. by rewrite wrap64_small by lia.
Qed.
End Own.

(** Integers of their types, and fewer files than inode numbers: what a
    metadata file of a machine holds. *)
Definition metadata_sized (host : Host) (p : Path) : Prop :=
  forall b mi, h_files host !! p = Some b -> deserialize_metadata b = Ok mi ->
    Forall (fun i => descriptor_typed (descriptor i)) (file_infos mi) /\
    (Z.of_nat (1 + entry_count (file_infos mi)) < u64_modulus)%Z.

Lemma open_run_ok options host mounts v cap :
  open_run options host mounts = Ok (v, cap) ->
  exists mi, check_metadata host (metadata_path_of (oo_data_dir options) (oo_metadata options))
      (oo_hash options) = Ok mi /\
    v = verifier_new (file_infos mi) /\ cap = oo_block_cache_capacity options.
Proof.
  unfold open_run. destruct (decide _); [done|]. destruct (decide _); [done|].
  destruct (is_mounted _ _); [done|]. intros (mi & Hmi & [= <- <-])%rbind_ok. eauto.
Qed.

(** A formatted file and what metadata with its entry can say about it. *)
Definition formatted_as (options : FormatOptions) (host0 : Host) (info : FileVerityInfo) (rel : Path)
    (c : FsVerityConfig) (d0 : bytes) : Prop :=
  fo_data_dir options ++ rel ∈ collect_files host0 (fo_data_dir options) /\
  h_files host0 !! (fo_data_dir options ++ rel : Path) = Some d0 /\
  info_path info = to_string_lossy (path_to_string rel) /\ config_new DEFAULT_BLOCK_SIZE [] = Some c.

Lemma entry_formatted options host0 infos info :
  walk_wf host0 (fo_data_dir options) ->
  Forall2 (fun p info => format_file host0 (fo_data_dir options) p = Ok info)
    (merge_sort path_order (collect_files host0 (fo_data_dir options))) infos ->
  (exists i, i ∈ infos /\ entry_of i = entry_of info) ->
  exists rel c d0, formatted_as options host0 info rel c d0 /\ config_wf c /\
    block_size c = DEFAULT_BLOCK_SIZE /\ salt c = [] /\ length d0 <= max_data_size c /\
    descriptor_hash info = hex_encode (hash (salt_prefix (salt c) ++ descriptor_bytes (descriptor_of c d0))).
Proof.
  intros Hw Hf2 (i & Hi & [= Edh Ep]). apply list_elem_of_lookup in Hi as [k Hk].
  destruct (Forall2_lookup_r _ _ _ _ _ Hf2 Hk) as (p & Hp & Ef).
  apply list_elem_of_lookup_2 in Hp. rewrite merge_sort_Permutation in Hp.
  destruct (Hw p Hp) as (rel & -> & Hv).
  apply format_file_inv in Ef as (d0 & desc & tree & h & Hd & Ecalc & Eh & ->). simpl in Edh, Ep.
  apply calculate_fsverity_hash_spec in Ecalc as (c & Hcfg & Hc & Hbs & Hsl & Hle & -> & ->).
  rewrite to_descriptor_hash_spec in Eh by by apply descriptor_of_wf. injection Eh as <-.
  exists rel, c, d0. split; [by repeat split|]. do 4 (split; [done|]). by rewrite <- Edh.
Qed.

(** C4: end to end, whatever the untrusted host does.  A directory is formatted
    (the hash not written over the metadata); later some host, with any files
    and any metadata (its integers of their types), is opened with the root hash
    of that format, and after any requests a file of the mount is read, over any
    answers of the system calls.  Then the file is one of those that were
    formatted (its files shorter than [2 ^ 63] bytes), under the path recorded
    for it; a successful read yields at most as many bytes as were asked for,
    and one that yields as many yields the bytes that were formatted, followed
    by zeros past the end of the file; or the metadata records another number of
    hashes for the file than it has blocks; or a collision of the hash function
    is exhibited: among the messages of the descriptor and the tree, between a
    block that this read obtained and the file's block at its index, or between
    the JSON documents. *)
Theorem mounted_reads_authentic options host0 out host1 fb0 oopts host mounts v cap s n info fuel off size r s' :
  walk_wf host0 (fo_data_dir options) ->
  metadata_path_of (fo_data_dir options) (fo_metadata options) <> fo_hash_output options ->
  format_run options host0 = (Ok out, host1) ->
  h_files host1 !! metadata_path_of (fo_data_dir options) (fo_metadata options) = Some fb0 ->
  calculate_metadata_hash fb0 = Ok (oo_hash oopts) ->
  (forall p d, h_files host0 !! p = Some d -> (Z.of_nat (length d) < 2 ^ 63)%Z) ->
  metadata_sized host (metadata_path_of (oo_data_dir oopts) (oo_metadata oopts)) ->
  open_run oopts host mounts = Ok (v, cap) ->
  reachable_from v (fs_new_with_block_cache cap) s ->
  lookup_by_ino v n = Some (mkEntry n (VerityEnabled info)) ->
  (0 <= off < 2 ^ 63)%Z -> (0 < size < 2 ^ 32)%Z ->
  fs_read v fuel n off size s = Some (Ok r, s') ->
  (exists rel c d0, formatted_as options host0 info rel c d0 /\
    ((Z.of_nat (length r) <= size /\
      (Z.of_nat (length r) = size ->
       r = slice (d0 ++ zeros DEFAULT_BLOCK_SIZE) (Z.to_nat off) (Z.to_nat (off + size))))%Z \/
     length (info_tree info) <> length (chunks DEFAULT_BLOCK_SIZE d0) \/
     collision_in
       ((salt_prefix (desc_salt (descriptor info)) ++ descriptor_bytes (descriptor info)) ::
         node_messages c (info_tree info)) (measurement_messages c d0) \/
     exists k b b0, (k, b) ∈ read_fetches (mkEntry n (VerityEnabled info)) BS fuel off size s /\
       chunks DEFAULT_BLOCK_SIZE d0 !! Z.to_nat k = Some b0 /\
       pad_to DEFAULT_BLOCK_SIZE b <> pad_to DEFAULT_BLOCK_SIZE b0 /\
       hash (pad_to DEFAULT_BLOCK_SIZE b) = hash (pad_to DEFAULT_BLOCK_SIZE b0))) \/
  (exists b e e0 j j0,
    h_files host !! metadata_path_of (oo_data_dir oopts) (oo_metadata oopts) = Some b /\
    metadata_entries b = Ok e /\ metadata_entries fb0 = Ok e0 /\
    to_canon_json_vec e = Some j /\ to_canon_json_vec e0 = Some j0 /\ j <> j0 /\ hash j = hash j0).
Proof.
  intros Hw Ha Ef Hfb Hroot B0 Hsized Eopen Hreach Hn Hoff Hs Er.
  destruct (format_run_metadata _ _ _ _ _ Hw Ha Ef Hfb) as (infos & labels0 & _ & _ & Hf2 & Hser).
  apply open_run_ok in Eopen as (mi & Echeck & -> & ->).
  apply check_metadata_ok in Echeck as (b & Hb & Hhash & Hdes & Hself).
  destruct (Hsized _ _ Hb Hdes) as [Htyped Hcount].
  destruct (root_hash_entries _ _ _ _ _ _ Hser Hroot Hhash Hdes) as [Hent|(e & e0 & j & j0 & Hj)];
    [left|right; by exists b, e, e0, j, j0].
  pose proof (verifier_new_from _ _ _ _ Hn) as Hin.
  destruct (entry_formatted options host0 infos info Hw Hf2) as (rel & c & d0 & Hform & Hc & Hbs & Hsl & Hle & Hdh).
  { apply (entries_match_rev _ _ _ Hent Hin). }
  exists rel, c, d0. split; [done|]. rewrite Forall_forall in Hself, Htyped.
  pose proof (deserialize_wf _ _ Hdes) as Hwf. rewrite Forall_forall in Hwf.
  destruct (Hwf _ Hin) as [_ Hdig]. destruct Hform as (_ & Hd0 & _). pose proof (B0 _ _ Hd0) as Bd.
  destruct (decide (length (info_tree info) = length (chunks DEFAULT_BLOCK_SIZE d0))) as [Hlen|]; [|by right; left].
  destruct (verify_self_tree c d0 info _ Hc ltac:(by rewrite Hbs) ltac:(unfold u64_modulus; lia) Hle eq_refl
    (Hself _ Hin) Hdh (verified_descriptor_wf _ (Hself _ Hin) (Hwf _ Hin) (Htyped _ Hin)) Hdig) as [[Ed Et]|Hcol];
    [by unfold level1; rewrite length_map, Hbs| |by do 2 right; left].
  assert (own_entry c d0 (mkEntry n (VerityEnabled info))) as Hown by by exists n, info.
  pose proof (verifier_new_FileVerifierSpec _ Hcount) as Hspec.
  destruct (read_fetched (HF := FsEntry_VerifiableFile) (verifier_new (file_infos mi)) (mkEntry n (VerityEnabled info))
    BS d0 Hn (own_block_size _ _ _ Hc Hbs Hown) BS_range fuel off size s r s'
    (reachable_from_cache_ok _ _ _ (cache_ok_new _ _) Hreach) Hoff Hs Er) as (Hver & Hlr & Hfull).
  destruct (own_blocks _ _ _ Hc Hbs Hsl Hown _ Hver) as [Hg|([k b1] & Hin1 & b0 & Hcol)].
  - left. split; [done|]. intros Hfl. by apply Hfull.
  - do 3 right. by exists k, b1, b0.
Qed.

(** ** The unchanged directory *)

Lemma last_info_unique p infos info :
  info ∈ infos -> path_of info = p -> (forall i, i ∈ infos -> path_of i = p -> i = info) ->
  last_info p infos = Some info.
Proof.
  intros Hin Hp Hu. induction infos as [|i infos IH] using rev_ind; [by apply not_elem_of_nil in Hin|].
  rewrite last_info_app. destruct (decide (path_of i = p)) as [Hi|Hi].
  - f_equal. apply Hu; [|done]. apply elem_of_app. right. by constructor.
  - apply IH; [|by intros; apply Hu; [apply elem_of_app; left|]].
    apply elem_of_app in Hin as [|Hin]; [done|]. apply list_elem_of_singleton in Hin. congruence.
Qed.

(** Paths of the crate [relative_path] are equal only if their components
    are. *)
Definition rp_from_components : Prop :=
  forall rel rel', Forall valid_name rel -> Forall valid_name rel' ->
    rp_from (path_to_string rel) = rp_from (path_to_string rel') -> rel = rel'.

(** The entry of a formatted file in the table of its metadata. *)
Lemma formatted_entry options host infos rel d :
  walk_wf host (fo_data_dir options) -> names_utf8 host (fo_data_dir options) -> rp_from_components ->
  Forall2 (fun p info => format_file host (fo_data_dir options) p = Ok info)
    (merge_sort path_order (collect_files host (fo_data_dir options))) infos ->
  (Z.of_nat (1 + entry_count (merge_sort path_le infos)) < u64_modulus)%Z ->
  fo_data_dir options ++ rel ∈ collect_files host (fo_data_dir options) ->
  Forall valid_name rel -> h_files host !! (fo_data_dir options ++ rel : Path) = Some d ->
  exists c e, config_wf c /\ block_size c = DEFAULT_BLOCK_SIZE /\ salt c = [] /\ own_entry c d e /\
    lookup_by_path (verifier_new (merge_sort path_le infos)) (rp_from (path_to_string rel)) = Some e.
Proof.
  intros Hw Hutf Hinj Hf2 Hcount Hin Hv Hd. pose proof Hin as Hin'.
  rewrite <- (merge_sort_Permutation path_order) in Hin'. apply list_elem_of_lookup in Hin' as [k Hk].
  destruct (Forall2_lookup_l _ _ _ _ _ Hf2 Hk) as (info & Hi & Ef). apply list_elem_of_lookup_2 in Hi.
  pose proof Ef as Ef0. apply format_file_inv in Ef as (d' & desc & tree & h & Hd' & Ecalc & Eh & Einfo).
  rewrite (to_string_lossy_utf8 _ (Hutf _ Hin)) in Einfo.
  assert (d' = d) as -> by congruence.
  apply calculate_fsverity_hash_spec in Ecalc as (c & _ & Hc & Hbs & Hsl & _ & -> & ->).
  destruct (verifier_new_spec (merge_sort path_le infos) 0) as (Hwf & _ & Hkind); [lia|].
  assert (last_info (rp_from (path_to_string rel)) (merge_sort path_le infos) = Some info) as Hlast.
  { apply last_info_unique; [by rewrite merge_sort_Permutation|by subst info|].
    intros i Hi' Hp. rewrite merge_sort_Permutation in Hi'. apply list_elem_of_lookup in Hi' as [m Hm].
    destruct (Forall2_lookup_r _ _ _ _ _ Hf2 Hm) as (q & Hq & Eq).
    apply list_elem_of_lookup_2 in Hq. rewrite merge_sort_Permutation in Hq.
    destruct (Hw q Hq) as (rel' & -> & Hv'). pose proof Eq as Eq0.
    apply format_file_inv in Eq as (? & ? & ? & ? & _ & _ & _ & ->). simpl in Hp.
    rewrite (to_string_lossy_utf8 _ (Hutf _ Hq)) in Hp.
    apply Hinj in Hp as ->; [|done..]. congruence. }
  specialize (Hkind (rp_from (path_to_string rel))). unfold spec_kind, lookup_kind in Hkind.
  rewrite Hlast in Hkind. destruct (lookup_by_path _ _) as [[n kd]|] eqn:El; [|done].
  injection Hkind as ->. exists c, (mkEntry n (VerityEnabled info)).
  do 3 (split; [done|]). split; [|done]. exists n, info. by subst info.
Qed.

(** C15: end to end, on an honest host: when a directory was formatted whose names
    are valid UTF-8, the metadata and hash files written being distinct and not
    among the hashed files (each shorter than [2 ^ 63] bytes), and neither it
    nor the metadata has changed, [open] with its root hash on a free mount
    point succeeds, every file is found in the mount under its path with its
    size, and while the system calls serve the file, with any pattern of short
    and finitely many interrupted ones, every read returns exactly its bytes in
    the range, clamped to its end, when the last block of the range is one of
    the file's, and [EIO] otherwise; from the mount on and after each such
    read. *)
Theorem mounted_reads_complete options host out host1 fb0 oopts mounts :
  walk_wf host (fo_data_dir options) -> names_utf8 host (fo_data_dir options) ->
  outputs_apart options host ->
  format_run options host = (Ok out, host1) ->
  h_files host1 !! metadata_path_of (fo_data_dir options) (fo_metadata options) = Some fb0 ->
  calculate_metadata_hash fb0 = Ok (oo_hash oopts) ->
  oo_data_dir oopts = fo_data_dir options -> oo_metadata oopts = fo_metadata options ->
  oo_data_dir oopts ∈ h_dirs host1 -> oo_mount_point oopts ∈ h_dirs host1 ->
  is_mounted mounts (oo_mount_point oopts) = false ->
  metadata_sized host1 (metadata_path_of (fo_data_dir options) (fo_metadata options)) ->
  rp_from_components ->
  (forall p d, h_files host !! p = Some d -> (Z.of_nat (length d) < 2 ^ 63)%Z) ->
  exists v, open_run oopts host1 mounts = Ok (v, oo_block_cache_capacity oopts) /\
    forall p, p ∈ collect_files host (fo_data_dir options) ->
    exists rel d e, p = fo_data_dir options ++ rel /\
      h_files host !! p = Some d /\ h_files host1 !! p = Some d /\
      lookup_by_path v (rp_from (path_to_string rel)) = Some e /\
      lookup_by_ino v (file_ino e) = Some e /\ expected_size e = Some (Z.of_nat (length d)) /\
      forall N, genuine e BS d N (fs_new_with_block_cache (oo_block_cache_capacity oopts)) /\
        forall fuel off size s, honest e d N -> genuine e BS d N s -> N + DEFAULT_BLOCK_SIZE < fuel ->
          (0 <= off < 2 ^ 63)%Z -> (0 < size < 2 ^ 32)%Z ->
          exists s', fs_read v fuel (file_ino e) off size s =
              Some (if decide ((div_ceil (off + size) BS - 1) * BS < Z.of_nat (length d))%Z
                    then Ok (slice d (Z.to_nat off) (Z.to_nat (off + size)))
                    else Err EIO, s') /\
            genuine e BS d N s'.
Proof.
  intros Hw Hutf (Ha & Hm1 & Ho1) Ef Hfb Hroot Edir Emeta Hdir Hmp Hm Hsized Hinj B.
  destruct (format_run_metadata _ _ _ _ _ Hw Ha Ef Hfb) as (infos & labels0 & Hrec & Hl & Hf2 & Hser).
  pose proof (Forall_impl _ _ _ Hrec (recorded_file_self host (fo_data_dir options))) as Hself.
  apply Forall_and in Hself as [Hself Hwf].
  pose proof (check_metadata_intro host1 _ infos labels0 fb0 (oo_hash oopts) Hfb Hser Hroot Hwf Hl Hself) as Hcheck.
  destruct (check_metadata_ok _ _ _ _ Hcheck) as (b & Hb & _ & Hdes & _).
  destruct (Hsized _ _ Hb Hdes) as [_ Hcount]. cbn [file_infos] in Hcount.
  exists (verifier_new (merge_sort path_le infos)). split.
  { unfold open_run. rewrite decide_False by (intros N; by apply N). rewrite decide_False by (intros N; by apply N).
    rewrite Hm, Edir, Emeta, Hcheck. done. }
  intros p Hp. destruct (Hw p Hp) as (rel & -> & Hv).
  assert (exists d, h_files host !! (fo_data_dir options ++ rel : Path) = Some d) as [d Hd].
  { pose proof Hp as Hp'. rewrite <- (merge_sort_Permutation path_order) in Hp'.
    apply list_elem_of_lookup in Hp' as [k Hk]. destruct (Forall2_lookup_l _ _ _ _ _ Hf2 Hk) as (i & _ & Ei).
    apply format_file_inv in Ei as (d & _ & _ & _ & Hd & _). by exists d. }
  destruct (formatted_entry options host infos rel d Hw Hutf Hinj Hf2 Hcount Hp Hv Hd)
    as (c & e & Hc & Hbs & Hsl & Hown & He).
  pose proof (verifier_new_FileVerifierSpec _ Hcount) as Hspec.
  pose proof (B _ _ Hd) as Bd.
  exists rel, d, e. do 2 (split; [done|]).
  split; [rewrite (format_run_untouched _ _ _ _ _ Hw Ef); [done|intros Heq; apply Hm1; by rewrite <- Heq|intros Heq; apply Ho1; by rewrite <- Heq]|]. split; [done|]. destruct (lookup_path_ino _ _ He) as [Hino _].
  split; [done|]. split; [apply (own_size c); [done..|unfold u64_modulus; lia]|].
  intros N. split; [apply genuine_new_capacity|]. intros fuel off size s Hhon Hgen Hfuel Hoff Hsz.
  apply (honest_read (HF := FsEntry_VerifiableFile) _ e BS d Hino
    (own_block_size _ _ _ Hc Hbs Hown) BS_range N); try done.
  - by apply (own_accepts c).
  - by apply (own_rejects c).
Qed.
End Mount.
