(* ===== verification/VerityMountInstances.v ===== *)
(** * A mounted directory on concrete hosts

    A directory with one file, formatted, opened and read on the toy
    instances. *)

From Stdlib Require Import Ascii.
From stdpp Require Import base list numbers option strings sorting gmap relations.
From Stdlib Require Import ZArith Lia.
From S2P Require Import Prelude Slices InnerHash Descriptor VerityDigest MerkleSpec ToyHash MerkleTree.
From S2P Require Import FileVerifier FileHandleCache VerityFs VerityFsProofs VerityFsInstances VerityMetadata.
From S2P Require Import RustPath VerityCmd VerityCmdProofs VerityCmdInstances VerityMount.

#[local] Existing Instances toy5 toy5_spec toy_hex toy_hex_spec toy_path toy_path_spec.
#[local] Existing Instances toy_fb toy_fb_spec toy_json toy_json_spec toy_walk.
#[local] Existing Instances handle_lru block_lru toy_conv.

#[local] Instance mount_handle_spec : LruCacheSpec Z Z := toy_lru_spec Z Z.
#[local] Instance mount_block_spec : LruCacheSpec BlockKey bytes := toy_lru_spec BlockKey bytes.

(** The directory with a mount point beside it. *)
Definition mhost0 : Host := mkHost (h_files host0) {[ ["d"]; ["m"] ]} ∅.
Definition mhost1 : Host := snd (format_run fopts mhost0).
Definition mopts : OpenOptions := mkOpenOptions ["d"] ["m"] root1 None 16.

(** The system calls serve the one file. *)
Definition mount_os : OS := {|
  os_open n path := Ok 3%Z;
  os_pread fd := toy_disk (mk [4%Z]);
  os_symlink_metadata n path := Ok (toy_metadata false 1);
  os_read_dir n path := Ok [];
  os_read_link n path := Err None;
  os_now n := 0%Z;
|}.
#[local] Existing Instance mount_os.

Lemma mhost0_walk_wf : walk_wf mhost0 ["d"].
Proof. exact host0_walk_wf. Qed.

Lemma mhost0_utf8 : names_utf8 mhost0 ["d"].
Proof. exact host0_utf8. Qed.

Lemma mhost0_apart : outputs_apart fopts mhost0.
Proof. exact host0_apart. Qed.

Lemma mformatted : format_run fopts mhost0 = (Ok (Some root1), mhost1).
Proof. vm_compute. reflexivity. Qed.

Definition minfos : MetadataInfo :=
  match deserialize_metadata fb1 with Ok mi => mi | _ => mkMetadataInfo [] [] end.

Lemma mmetadata : h_files mhost1 !! metadata_path_of ["d"] None = Some fb1.
Proof. vm_compute. reflexivity. Qed.

(** The value of an option that has one. *)
Lemma some_default_eq {A} (d : A) (o : option A) a : o = Some a -> a = default d o.
Proof. by intros ->. Qed.

Lemma mhost1_sized : metadata_sized mhost1 (metadata_path_of ["d"] None).
Proof.
  intros b mi Hb Hd. rewrite (some_default_eq [] _ _ Hb), <- (some_default_eq [] _ _ mmetadata) in Hd.
  assert (mi = minfos) as -> by (unfold minfos; by rewrite Hd).
  split; [|vm_compute; reflexivity].
  assert (forallb (fun d => bool_decide (0 <= version d < 256)%Z && bool_decide (0 <= hash_algorithm d < 256)%Z &&
    bool_decide (0 <= log_blocksize d < 256)%Z && bool_decide (0 <= data_size d < u64_modulus)%Z)
    (map descriptor (file_infos minfos)) = true) as Hall by (vm_compute; reflexivity).
  apply Forall_forall. intros i Hi. rewrite forallb_forall in Hall.
  specialize (Hall (descriptor i) (in_map _ _ _ (proj1 (list_elem_of_In _ _) Hi))).
  rewrite !andb_true_iff, !bool_decide_eq_true in Hall. unfold descriptor_typed. tauto.
Qed.

(** Paths as lists of components are equal when their texts are read alike. *)
Lemma split_slash_char acc s : split_slash acc s = split_char "/"%char acc s.
Proof. revert acc. induction s as [|a s IH]; intros acc; simpl; [done|]. by rewrite !IH. Qed.

Lemma toy_rp_from p : Forall valid_name p -> rp_from (path_to_string p) = p.
Proof.
  intros Hp. destruct p as [|c p]; [done|].
  change (filter (fun c => c <> "") (split_slash "" (path_to_string (c :: p))) = c :: p).
  rewrite split_slash_char. unfold path_to_string. rewrite split_concat by done.
  clear -Hp. induction Hp as [|x l (Hx & _) _ IH]; [done|]. rewrite filter_cons_True by done. by rewrite IH.
Qed.

Lemma toy_components : rp_from_components.
Proof. intros rel rel' Hv Hv' E. by rewrite !toy_rp_from in E. Qed.

Lemma mhost0_short p d : h_files mhost0 !! p = Some d -> (Z.of_nat (length d) < 2 ^ 63)%Z.
Proof.
  intros Hd%elem_of_map_to_list.
  assert (forallb (fun kv => bool_decide (Z.of_nat (length (snd kv)) < 2 ^ 63)%Z)
    (map_to_list (h_files mhost0)) = true) as Hall by (vm_compute; reflexivity).
  rewrite forallb_forall in Hall. apply list_elem_of_In, Hall, bool_decide_eq_true in Hd. exact Hd.
Qed.

Lemma mounted_reads_complete_witness :
  exists v, open_run mopts mhost1 [] = Ok (v, 16) /\
    forall p, p ∈ collect_files mhost0 ["d"] ->
    exists rel d e, p = ["d"] ++ rel /\
      h_files mhost0 !! p = Some d /\ h_files mhost1 !! p = Some d /\
      lookup_by_path v (rp_from (path_to_string rel)) = Some e /\
      lookup_by_ino v (file_ino e) = Some e /\ expected_size e = Some (Z.of_nat (length d)) /\
      forall N, genuine e BS d N (fs_new_with_block_cache 16) /\
        forall fuel off size s, honest e d N -> genuine e BS d N s -> N + DEFAULT_BLOCK_SIZE < fuel ->
          (0 <= off < 2 ^ 63)%Z -> (0 < size < 2 ^ 32)%Z ->
          exists s', fs_read v fuel (file_ino e) off size s =
              Some (if decide ((div_ceil (off + size) BS - 1) * BS < Z.of_nat (length d))%Z
                    then Ok (slice d (Z.to_nat off) (Z.to_nat (off + size)))
                    else Err EIO, s') /\
            genuine e BS d N s'.
Proof.
  refine (mounted_reads_complete fopts mhost0 (Some root1) mhost1 fb1 mopts [] mhost0_walk_wf mhost0_utf8 mhost0_apart
    mformatted mmetadata _ eq_refl eq_refl _ _ eq_refl mhost1_sized toy_components _).
  - vm_compute. reflexivity.
  - apply (bool_decide_unpack _). vm_compute. exact I.
  - apply (bool_decide_unpack _). vm_compute. exact I.
  - exact mhost0_short.
Defined.

(** ** A read of the mount *)

Definition mverifier : VerityVerifier := verifier_new (file_infos minfos).

Lemma mopened : open_run mopts mhost1 [] = Ok (mverifier, 16).
Proof. vm_compute. reflexivity. Qed.

Definition mfile : FileVerityInfo := default info1 (head (file_infos minfos)).

Lemma mounted_reads_authentic_witness :
  (exists rel c d0, formatted_as fopts mhost0 mfile rel c d0 /\
    ((Z.of_nat (length (mk [4])) <= 1 /\
      (Z.of_nat (length (mk [4])) = 1 ->
       mk [4] = slice (d0 ++ zeros DEFAULT_BLOCK_SIZE) (Z.to_nat 0) (Z.to_nat (0 + 1))))%Z \/
     length (info_tree mfile) <> length (chunks DEFAULT_BLOCK_SIZE d0) \/
     collision_in
       ((salt_prefix (desc_salt (descriptor mfile)) ++ descriptor_bytes (descriptor mfile)) ::
         node_messages c (info_tree mfile)) (measurement_messages c d0) \/
     exists k b b0, (k, b) ∈ read_fetches (mkEntry 3 (VerityEnabled mfile)) BS 9 0 1
         (fs_new_with_block_cache 16) /\
       chunks DEFAULT_BLOCK_SIZE d0 !! Z.to_nat k = Some b0 /\
       pad_to DEFAULT_BLOCK_SIZE b <> pad_to DEFAULT_BLOCK_SIZE b0 /\
       hash (pad_to DEFAULT_BLOCK_SIZE b) = hash (pad_to DEFAULT_BLOCK_SIZE b0))) \/
  (exists b e e0 j j0,
    h_files mhost1 !! metadata_path_of ["d"] None = Some b /\
    metadata_entries b = Ok e /\ metadata_entries fb1 = Ok e0 /\
    to_canon_json_vec e = Some j /\ to_canon_json_vec e0 = Some j0 /\ j <> j0 /\ hash j = hash j0).
Proof.
  refine (mounted_reads_authentic fopts mhost0 (Some root1) mhost1 fb1 mopts mhost1 [] mverifier 16
    (fs_new_with_block_cache 16) 3 mfile 9 0 1 (mk [4%Z])
    (match fs_read mverifier 9 3 0 1 (fs_new_with_block_cache 16) with
     | Some (_, s) => s | None => fs_new end)
    mhost0_walk_wf (proj1 mhost0_apart) mformatted mmetadata _ mhost0_short mhost1_sized mopened (rtc_refl _ _) _ _ _ _).
  - vm_compute. reflexivity.
  - vm_compute. reflexivity.
  - lia.
  - lia.
  - vm_compute. reflexivity.
Defined.
