(* ===== verification/FlatBuffersRuntime.v ===== *)
(** * The flatbuffers runtime

    The crate [flatbuffers], which the code generated for the schema
    ([cryptpilot-verity/src/metadata/metadata_generated.rs]) is written against:
    the builder, tables and the verifier are an interface, and what the crate
    documents of them its laws.  A builder is seen as the objects written so far,
    by their offset from the end of the buffer, and the table being written; a
    finished buffer holds the same objects.  Two resources are limited: the size
    of a buffer while it is built, and what a verifier visits. *)

From stdpp Require Import base list numbers option strings gmap.
From Stdlib Require Import ZArith Lia.
From S2P Require Import Prelude.

(** ** The interface *)

Definition VOffsetT : Type := Z.
Definition WIPOffset : Type := Z.

(** The scalar types of the schema: [ubyte], [uint], [ulong]. *)
Inductive Scalar := U8 | U32 | U64.

#[export] Instance Scalar_eq_dec : EqDecision Scalar.
Proof. solve_decision. Defined.

(** Panics of the builder: a table or string started inside a table, a slot or
    an end outside of one, data taken before [finish]; or a buffer that cannot
    grow further. *)
Inductive FbPanic := AssertNested | AssertNotNested | NotFinished | GrowBeyondLimit.

Inductive InvalidFlatbuffer :=
| MissingRequiredField (name : string)
| InconsistentUnion
| Utf8Error
| MissingNullTerminator
| Unaligned
| RangeOutOfBounds
| SignedOffsetOutOfBounds
| TooManyTables
| ApparentSizeTooLarge
| DepthLimitReached.

Record VerifierOptions := mkVerifierOptions {
  max_depth : Z;
  max_tables : Z;
  max_apparent_size : Z;
  ignore_missing_null_terminator : bool;
}.

(** [FlatBufferBuilder], [Table] (a buffer and a location), [Verifier] and the
    functions of the crate's root.  Types behind a [ForwardsUOffset] are given
    by their [follow] and their [run_verifier]. *)
Class FlatBufferRuntime := {
  FlatBufferBuilder : Type;
  fbb_new : FlatBufferBuilder;
  start_table : FlatBufferBuilder -> result FbPanic (FlatBufferBuilder * WIPOffset);
  push_slot : Scalar -> VOffsetT -> Z -> Z ->
    FlatBufferBuilder -> result FbPanic (FlatBufferBuilder * unit);
  push_slot_always : VOffsetT -> WIPOffset ->
    FlatBufferBuilder -> result FbPanic (FlatBufferBuilder * unit);
  end_table : WIPOffset -> FlatBufferBuilder -> result FbPanic (FlatBufferBuilder * WIPOffset);
  create_string : string -> FlatBufferBuilder -> result FbPanic (FlatBufferBuilder * WIPOffset);
  create_vector_u8 : bytes -> FlatBufferBuilder -> result FbPanic (FlatBufferBuilder * WIPOffset);
  create_vector : list WIPOffset ->
    FlatBufferBuilder -> result FbPanic (FlatBufferBuilder * WIPOffset);
  fbb_finish : WIPOffset -> option string ->
    FlatBufferBuilder -> result FbPanic (FlatBufferBuilder * unit);
  fbb_finish_size_prefixed : WIPOffset -> option string ->
    FlatBufferBuilder -> result FbPanic (FlatBufferBuilder * unit);
  finished_data : FlatBufferBuilder -> result FbPanic bytes;

  table_get_scalar : bytes -> Z -> Scalar -> VOffsetT -> option Z -> option Z;
  table_get : forall T : Type, (bytes -> Z -> T) -> bytes -> Z -> VOffsetT -> option T -> option T;
  follow_str : bytes -> Z -> string;
  follow_vector_u8 : bytes -> Z -> bytes;
  follow_vector : forall T : Type, (bytes -> Z -> T) -> bytes -> Z -> list T;

  Verifier : Type;
  TableVerifier : Type;
  visit_table : Z -> Verifier -> result InvalidFlatbuffer TableVerifier;
  visit_field_scalar : Scalar -> string -> VOffsetT -> bool ->
    TableVerifier -> result InvalidFlatbuffer TableVerifier;
  visit_field : (Z -> Verifier -> result InvalidFlatbuffer Verifier) ->
    string -> VOffsetT -> bool -> TableVerifier -> result InvalidFlatbuffer TableVerifier;
  tv_finish : TableVerifier -> Verifier;
  verify_str : Z -> Verifier -> result InvalidFlatbuffer Verifier;
  verify_vector_u8 : Z -> Verifier -> result InvalidFlatbuffer Verifier;
  verify_vector : (Z -> Verifier -> result InvalidFlatbuffer Verifier) ->
    Z -> Verifier -> result InvalidFlatbuffer Verifier;

  default_opts : VerifierOptions;
  root_with_opts : forall T : Type, (bytes -> Z -> T) ->
    (Z -> Verifier -> result InvalidFlatbuffer Verifier) ->
    VerifierOptions -> bytes -> result InvalidFlatbuffer T;
  size_prefixed_root_with_opts : forall T : Type, (bytes -> Z -> T) ->
    (Z -> Verifier -> result InvalidFlatbuffer Verifier) ->
    VerifierOptions -> bytes -> result InvalidFlatbuffer T;
  root_unchecked : forall T : Type, (bytes -> Z -> T) -> bytes -> T;
  size_prefixed_root_unchecked : forall T : Type, (bytes -> Z -> T) -> bytes -> T;
}.

Arguments table_get {_ T} _ _ _ _ _.
Arguments follow_vector {_ T} _ _ _.
Arguments root_with_opts {_ T} _ _ _ _.
Arguments size_prefixed_root_with_opts {_ T} _ _ _ _.
Arguments root_unchecked {_ T} _ _.
Arguments size_prefixed_root_unchecked {_ T} _ _.

(** ** The monad of a builder *)

Declare Scope fbb_scope.
Delimit Scope fbb_scope with fbb.

Section Monad.
Context `{FlatBufferRuntime}.

Definition Fbb (A : Type) : Type := FlatBufferBuilder -> result FbPanic (FlatBufferBuilder * A).

Definition fret {A} (a : A) : Fbb A := fun b => Ok (b, a).

Definition fbind {A B} (m : Fbb A) (k : A -> Fbb B) : Fbb B :=
  fun b => rbind (m b) (fun ba => k (snd ba) (fst ba)).

(** [if let Some(x) = o { f(x) }]. *)
Definition fwhen {A} (o : option A) (f : A -> Fbb unit) : Fbb unit :=
  match o with Some x => f x | None => fret tt end.

(** A loop that pushes one offset per element. *)
Fixpoint fmapM {A B} (f : A -> Fbb B) (l : list A) : Fbb (list B) :=
  match l with
  | [] => fret []
  | a :: l => fbind (f a) (fun b => fbind (fmapM f l) (fun bs => fret (b :: bs)))
  end.
End Monad.

Notation "'let!' x ':=' m 'in' k" := (fbind m (fun x => k))
  (at level 10, x pattern, m at level 100, k at level 200) : fbb_scope.
Notation "m ';!' k" := (fbind m (fun _ => k))
  (at level 100, k at level 200, right associativity) : fbb_scope.

(** ** What a buffer holds *)

Inductive FbSlot :=
| SScalar (ty : Scalar) (x : Z)
| SRef (o : WIPOffset).

Inductive FbObj :=
| OString (s : string)
| OBytes (b : bytes)
| OVector (l : list WIPOffset)
| OTable (slots : gmap VOffsetT FbSlot).

Abbreviation Arena := (gmap WIPOffset FbObj).

(** The objects written, the table being written, the root once finished. *)
Record FbbView := mkView {
  v_arena : Arena;
  v_open : option (WIPOffset * gmap VOffsetT FbSlot);
  v_root : option WIPOffset;
}.

Definition view_alloc (v : FbbView) (o : WIPOffset) (ob : FbObj) : FbbView :=
  mkView (<[o := ob]> (v_arena v)) None (v_root v).

(** A scalar equal to its default is not stored. *)
Definition slot_push (slots : gmap VOffsetT FbSlot) (ty : Scalar) (vt : VOffsetT) (x dflt : Z)
  : gmap VOffsetT FbSlot :=
  if decide (x = dflt) then slots else <[vt := SScalar ty x]> slots.

(** The highest slot of a table of the schema. *)
Definition LAST_SLOT : VOffsetT := 14%Z.

Definition small_table (slots : gmap VOffsetT FbSlot) : Prop :=
  forall vt, is_Some (slots !! vt) -> (vt <= LAST_SLOT)%Z.

Definition slot_free (slots : gmap VOffsetT FbSlot) (vt : VOffsetT) : Prop := slots !! vt = None.

(** ** The laws *)

(** Sizes the crate accounts for, of what is written and of what is visited;
    for a table the bound is that of the largest table of the schema. *)
Class FbCosts := {
  max_buffer_size : Z;
  cost_string : string -> Z;
  cost_bytes : bytes -> Z;
  cost_vector : nat -> Z;
  cost_slot : Z;
  cost_table : Z;
  cost_finish : Z;
  visit_string : string -> Z;
  visit_bytes : bytes -> Z;
  visit_vector : nat -> Z;
  visit_slot : Z;
  visit_header : Z;
}.

(** What can be observed of builders, finished buffers and verifiers. *)
Class FbObservers `{FlatBufferRuntime} := {
  fbb_view : FlatBufferBuilder -> FbbView;
  fbb_used : FlatBufferBuilder -> Z;
  buf_arena : bytes -> Arena;
  buf_loc : bytes -> WIPOffset -> Z;
  buf_root : bytes -> option WIPOffset;
  ver_buf : Verifier -> bytes;
  ver_opts : Verifier -> VerifierOptions;
  ver_depth : Verifier -> Z;
  ver_tables : Verifier -> Z;
  ver_size : Verifier -> Z;
  tv_verifier : TableVerifier -> Verifier;
  tv_table : TableVerifier -> WIPOffset;
}.

Section Steps.
Context `{FbObservers, FbCosts}.

(** From view [v], [m] returns with [Q] having written at most [c] bytes, or
    panics because the buffer would have become too large: no other panic. *)
Definition fstep {A} (v : FbbView) (c : Z) (m : Fbb A) (Q : A -> FbbView -> Prop) : Prop :=
  (0 <= c)%Z /\ forall b, fbb_view b = v ->
  match m b with
  | Ok (b', a) => Q a (fbb_view b') /\ (fbb_used b' <= fbb_used b + c)%Z
  | Err GrowBeyondLimit => (max_buffer_size < fbb_used b + c)%Z
  | _ => False
  end.

(** An object is written at a fresh offset, outside of tables. *)
Definition allocates (v : FbbView) (ob : FbObj) (o : WIPOffset) (v' : FbbView) : Prop :=
  v_arena v !! o = None /\ v' = view_alloc v o ob.

(** [v'] is [v] after visiting [t] tables nested at most [d] deep and [c] bytes. *)
Definition ver_after (v v' : Verifier) (t c : Z) : Prop :=
  ver_buf v' = ver_buf v /\ ver_opts v' = ver_opts v /\ ver_depth v' = ver_depth v /\
  ver_tables v' = (ver_tables v + t)%Z /\ (ver_size v' <= ver_size v + c)%Z.

(** A visit that succeeds unless a limit of the options is exceeded. *)
Definition within (v : Verifier) (t d c : Z) (e : InvalidFlatbuffer) : Prop :=
  match e with
  | TooManyTables => (max_tables (ver_opts v) < ver_tables v + t)%Z
  | DepthLimitReached => (max_depth (ver_opts v) < ver_depth v + d)%Z
  | ApparentSizeTooLarge => (max_apparent_size (ver_opts v) < ver_size v + c)%Z
  | _ => False
  end.

Definition nonneg (t d c : Z) : Prop := (0 <= t)%Z /\ (0 <= d)%Z /\ (0 <= c)%Z.

Definition vstep (buf : bytes) (t d c : Z) (m : Verifier -> result InvalidFlatbuffer Verifier)
  : Prop :=
  nonneg t d c /\ forall v, ver_buf v = buf ->
  match m v with
  | Ok v' => ver_after v v' t c
  | Err e => within v t d c e
  | Panic => False
  end.

(** The same for the visit of a field of the table at [o]. *)
Definition tvstep (buf : bytes) (o : WIPOffset) (t d c : Z)
    (m : TableVerifier -> result InvalidFlatbuffer TableVerifier) : Prop :=
  nonneg t d c /\ forall tv, ver_buf (tv_verifier tv) = buf -> tv_table tv = o ->
  match m tv with
  | Ok tv' => tv_table tv' = o /\ ver_after (tv_verifier tv) (tv_verifier tv') t c
  | Err e => within (tv_verifier tv) t d c e
  | Panic => False
  end.
End Steps.

(** Sum of a cost over a list. *)
Definition zsum {A} (f : A -> Z) (l : list A) : Z := foldr (fun a s => (f a + s)%Z) 0%Z l.

Lemma zsum_nonneg {A} (f : A -> Z) l : (forall a, 0 <= f a)%Z -> (0 <= zsum f l)%Z.
Proof. intros Hf. induction l as [|a l IH]; simpl; [lia|]. specialize (Hf a). lia. Qed.

Lemma zsum_const {A} (x : Z) (l : list A) : zsum (fun _ => x) l = (x * Z.of_nat (length l))%Z.
Proof. induction l as [|a l IH]; simpl; [lia|]. rewrite IH. lia. Qed.

Lemma zsum_map {A B} (g : B -> A) (f : A -> Z) l : zsum f (map g l) = zsum (fun b => f (g b)) l.
Proof. induction l as [|b l IH]; simpl; [done|]. by rewrite IH. Qed.

(** The documented behaviour of the crate. *)
Class FlatBufferRuntimeSpec `{FbObservers, FbCosts} : Prop := {
  visit_header_nonneg : (0 <= visit_header)%Z;
  (* the builder *)
  fbb_new_view : fbb_view fbb_new = mkView ∅ None None;
  fbb_new_used : fbb_used fbb_new = 0%Z;
  create_string_step v s : v_open v = None -> v_root v = None ->
    fstep v (cost_string s) (create_string s) (allocates v (OString s));
  create_vector_u8_step v b : v_open v = None -> v_root v = None ->
    fstep v (cost_bytes b) (create_vector_u8 b) (allocates v (OBytes b));
  create_vector_step v l : v_open v = None -> v_root v = None ->
    Forall (fun o => is_Some (v_arena v !! o)) l ->
    fstep v (cost_vector (length l)) (create_vector l) (allocates v (OVector l));
  start_table_step v : v_open v = None -> v_root v = None ->
    fstep v 0 start_table (fun s v' => v' = mkView (v_arena v) (Some (s, ∅)) None);
  push_slot_step v s slots ty vt x dflt : v_open v = Some (s, slots) -> slot_free slots vt ->
    fstep v cost_slot (push_slot ty vt x dflt)
      (fun _ v' => v' = mkView (v_arena v) (Some (s, slot_push slots ty vt x dflt)) (v_root v));
  push_slot_always_step v s slots vt o : v_open v = Some (s, slots) -> slot_free slots vt ->
    is_Some (v_arena v !! o) ->
    fstep v cost_slot (push_slot_always vt o)
      (fun _ v' => v' = mkView (v_arena v) (Some (s, <[vt := SRef o]> slots)) (v_root v));
  end_table_step v s slots : v_open v = Some (s, slots) -> small_table slots ->
    fstep v cost_table (end_table s) (allocates v (OTable slots));
  finish_step v o ident : v_open v = None -> v_root v = None -> is_Some (v_arena v !! o) ->
    fstep v cost_finish (fbb_finish o ident)
      (fun _ v' => v' = mkView (v_arena v) None (Some o));
  finished_data_ok b o : v_root (fbb_view b) = Some o ->
    exists buf, finished_data b = Ok buf /\
      buf_arena buf = v_arena (fbb_view b) /\ buf_root buf = Some o;
  (* tables *)
  get_scalar_default buf loc ty vt d : is_Some (table_get_scalar buf loc ty vt (Some d));
  get_scalar_slot buf o slots ty vt d :
    is_Some (buf_root buf) -> buf_arena buf !! o = Some (OTable slots) ->
    (slots !! vt = None -> table_get_scalar buf (buf_loc buf o) ty vt d = d) /\
    (forall x, slots !! vt = Some (SScalar ty x) ->
      table_get_scalar buf (buf_loc buf o) ty vt d = Some x);
  get_slot {T} (follow : bytes -> Z -> T) buf o slots vt d :
    is_Some (buf_root buf) -> buf_arena buf !! o = Some (OTable slots) ->
    (slots !! vt = None -> table_get follow buf (buf_loc buf o) vt d = d) /\
    (forall o', slots !! vt = Some (SRef o') ->
      table_get follow buf (buf_loc buf o) vt d = Some (follow buf (buf_loc buf o')));
  follow_str_at buf o s : is_Some (buf_root buf) -> buf_arena buf !! o = Some (OString s) ->
    follow_str buf (buf_loc buf o) = s;
  follow_vector_u8_at buf o b : is_Some (buf_root buf) -> buf_arena buf !! o = Some (OBytes b) ->
    follow_vector_u8 buf (buf_loc buf o) = b;
  follow_vector_at {T} (follow : bytes -> Z -> T) buf o l :
    is_Some (buf_root buf) -> buf_arena buf !! o = Some (OVector l) ->
    follow_vector follow buf (buf_loc buf o) = map (fun o' => follow buf (buf_loc buf o')) l;
  (* the verifier *)
  ver_tables_bound v : (ver_tables v <= max_tables (ver_opts v))%Z;
  visit_table_step buf o slots v : is_Some (buf_root buf) ->
    buf_arena buf !! o = Some (OTable slots) -> small_table slots -> ver_buf v = buf ->
    match visit_table (buf_loc buf o) v with
    | Ok tv => tv_table tv = o /\ ver_buf (tv_verifier tv) = buf /\
        ver_opts (tv_verifier tv) = ver_opts v /\
        ver_depth (tv_verifier tv) = (ver_depth v + 1)%Z /\
        ver_tables (tv_verifier tv) = (ver_tables v + 1)%Z /\
        (ver_size (tv_verifier tv) <= ver_size v + visit_header)%Z
    | Err e => within v 1 1 visit_header e
    | Panic => False
    end;
  tv_finish_at tv : ver_buf (tv_finish tv) = ver_buf (tv_verifier tv) /\
    ver_opts (tv_finish tv) = ver_opts (tv_verifier tv) /\
    ver_depth (tv_finish tv) = (ver_depth (tv_verifier tv) - 1)%Z /\
    ver_tables (tv_finish tv) = ver_tables (tv_verifier tv) /\
    ver_size (tv_finish tv) = ver_size (tv_verifier tv);
  visit_absent buf o slots run ty name vt : is_Some (buf_root buf) ->
    buf_arena buf !! o = Some (OTable slots) -> slots !! vt = None ->
    tvstep buf o 0 0 visit_slot (visit_field run name vt false) /\
    tvstep buf o 0 0 visit_slot (visit_field_scalar ty name vt false);
  visit_scalar buf o slots ty x name vt req : is_Some (buf_root buf) ->
    buf_arena buf !! o = Some (OTable slots) -> slots !! vt = Some (SScalar ty x) ->
    tvstep buf o 0 0 visit_slot (visit_field_scalar ty name vt req);
  visit_ref buf o slots o' run name vt req t d c : is_Some (buf_root buf) ->
    buf_arena buf !! o = Some (OTable slots) -> slots !! vt = Some (SRef o') ->
    vstep buf t d c (run (buf_loc buf o')) ->
    tvstep buf o t d (visit_slot + c) (visit_field run name vt req);
  verify_str_step buf o s : is_Some (buf_root buf) -> buf_arena buf !! o = Some (OString s) ->
    vstep buf 0 0 (visit_string s) (verify_str (buf_loc buf o));
  verify_vector_u8_step buf o b : is_Some (buf_root buf) ->
    buf_arena buf !! o = Some (OBytes b) ->
    vstep buf 0 0 (visit_bytes b) (verify_vector_u8 (buf_loc buf o));
  verify_vector_step {A} buf o l run (xs : list A) (t c : A -> Z) d : is_Some (buf_root buf) ->
    buf_arena buf !! o = Some (OVector l) ->
    (0 <= d)%Z -> Forall2 (fun o' x => vstep buf (t x) d (c x) (run (buf_loc buf o'))) l xs ->
    vstep buf (zsum t xs) d (visit_vector (length l) + zsum c xs) (verify_vector run (buf_loc buf o));
  default_tables : max_tables default_opts = 1000000%Z;
  default_apparent_size : (visit_slot <= max_apparent_size default_opts)%Z;
  root_at {T} (follow : bytes -> Z -> T) run opts buf o : buf_root buf = Some o ->
    (visit_slot <= max_apparent_size opts)%Z -> (0 <= max_tables opts)%Z ->
    exists v0, ver_buf v0 = buf /\ ver_opts v0 = opts /\ ver_depth v0 = 0%Z /\
      ver_tables v0 = 0%Z /\ (ver_size v0 <= visit_slot)%Z /\
      root_with_opts follow run opts buf =
        rbind (run (buf_loc buf o) v0) (fun _ => Ok (follow buf (buf_loc buf o)));
}.

(** ** Rules *)

(** An error of a visit is that of a limit. *)
Ltac limits e :=
  destruct e; cbn [within] in *; try done;
  repeat match goal with E : ver_opts _ = _ |- _ => rewrite ?E in *; clear E end; lia.

Section Rules.
Context `{FlatBufferRuntimeSpec}.

Lemma fstep_ret {A} v (a : A) (Q : A -> FbbView -> Prop) : Q a v -> fstep v 0 (fret a) Q.
Proof. intros HQ. split; [done|]. intros b <-. simpl. split; [done|lia]. Qed.

Lemma fstep_bind {A B} v c1 c2 (m : Fbb A) (k : A -> Fbb B) Q1 Q2 :
  fstep v c1 m Q1 -> (forall a v1, Q1 a v1 -> fstep v1 c2 (k a) Q2) -> (0 <= c2)%Z ->
  fstep v (c1 + c2) (fbind m k) Q2.
Proof.
  intros [Hc1 Hm] Hk Hc2. split; [lia|]. intros b Hb. specialize (Hm b Hb). unfold fbind.
  destruct (m b) as [[b1 a]|[]|]; simpl; try done; [|lia].
  destruct Hm as [HQ Hu]. destruct (Hk a _ HQ) as [_ Hk']. specialize (Hk' b1 eq_refl).
  destruct (k a b1) as [[b2 a2]|[]|]; try done; [|lia]. destruct Hk'. split; [done|lia].
Qed.

Lemma fstep_conseq {A} v c c' (m : Fbb A) (Q Q' : A -> FbbView -> Prop) :
  fstep v c m Q -> (c <= c')%Z -> (forall a v', Q a v' -> Q' a v') -> fstep v c' m Q'.
Proof.
  intros [Hc1 Hm] Hc HQ. split; [lia|]. intros b Hb. specialize (Hm b Hb).
  destruct (m b) as [[b1 a]|[]|]; try done; [|lia]. destruct Hm. split; [auto|lia].
Qed.

Lemma cost_slot_nonneg : (0 <= cost_slot)%Z.
Proof.
  destruct (push_slot_step (mkView ∅ (Some (0%Z, ∅)) None) 0%Z ∅ U8 0%Z 0 0) as [? _]; try done.
Qed.

Lemma visit_slot_nonneg buf o slots :
  is_Some (buf_root buf) -> buf_arena buf !! o = Some (OTable slots) -> slots !! (-1)%Z = None ->
  (0 <= visit_slot)%Z.
Proof.
  intros Hr Ho Hs. by destruct (visit_absent buf o slots (fun _ _ => Panic) U8 EmptyString (-1)%Z Hr Ho Hs)
    as [[(_ & _ & ?) _] _].
Qed.

(** The slots after [if let Some(x) = args.field { builder.add_field(x) }]. *)
Definition slot_ref (slots : gmap VOffsetT FbSlot) (vt : VOffsetT) (x : option WIPOffset)
  : gmap VOffsetT FbSlot :=
  match x with Some o => <[vt := SRef o]> slots | None => slots end.

Lemma fwhen_step v s slots vt x :
  v_open v = Some (s, slots) -> slot_free slots vt ->
  (forall o, x = Some o -> is_Some (v_arena v !! o)) ->
  fstep v cost_slot (fwhen x (push_slot_always vt))
    (fun _ v' => v' = mkView (v_arena v) (Some (s, slot_ref slots vt x)) (v_root v)).
Proof.
  intros Ho Hf Hx. destruct x as [o|]; simpl.
  - apply push_slot_always_step; eauto.
  - pose proof (push_slot_step v s slots U8 vt 0 0 Ho Hf) as [Hc _].
    eapply fstep_conseq; [by apply (fstep_ret _ _ (fun _ v' => v' = v))|done|]. intros ? ? ->.
    destruct v; simpl in *; by subst.
Qed.

Lemma vstep_conseq buf t d c d' c' m :
  vstep buf t d c m -> (d <= d')%Z -> (c <= c')%Z -> vstep buf t d' c' m.
Proof.
  intros [(? & ? & ?) Hm] Hd Hc. split; [repeat split; lia|]. intros v Hv. specialize (Hm v Hv).
  destruct (m v) as [v'|e|]; [|limits e|done].
  destruct Hm as (? & ? & ? & ? & ?). repeat split; try done. lia.
Qed.

(** The fields of the table at [o], visited one after the other. *)
Inductive fields (buf : bytes) (o : WIPOffset) : Z -> Z -> Z ->
  (TableVerifier -> result InvalidFlatbuffer Verifier) -> Prop :=
| fields_end : fields buf o 0 0 0 (fun tv => Ok (tv_finish tv))
| fields_cons t d c t' d' c' m k :
    tvstep buf o t d c m -> fields buf o t' d' c' k ->
    fields buf o (t + t') (Z.max d d') (c + c') (fun tv => rbind (m tv) k).

Lemma fields_step buf o t d c k :
  fields buf o t d c k ->
  nonneg t d c /\
  forall tv, ver_buf (tv_verifier tv) = buf -> tv_table tv = o ->
  match k tv with
  | Ok v' => ver_buf v' = buf /\ ver_opts v' = ver_opts (tv_verifier tv) /\
      ver_depth v' = (ver_depth (tv_verifier tv) - 1)%Z /\
      ver_tables v' = (ver_tables (tv_verifier tv) + t)%Z /\
      (ver_size v' <= ver_size (tv_verifier tv) + c)%Z
  | Err e => within (tv_verifier tv) t d c e
  | Panic => False
  end.
Proof.
  induction 1 as [|t d c t' d' c' m k [(? & ? & ?) Hm] _ [(? & ? & ?) IH]].
  - split; [repeat split; lia|]. intros tv Hb Ho.
    destruct (tv_finish_at tv) as (-> & -> & -> & -> & ->). repeat split; try done; lia.
  - split; [repeat split; lia|]. intros tv Hb Ho. specialize (Hm tv Hb Ho).
    destruct (m tv) as [tv'|e|]; cbn [rbind]; [|limits e|done].
    destruct Hm as (Ho' & E1 & E2 & E3 & E4 & E5).
    specialize (IH tv' ltac:(congruence) Ho').
    destruct (k tv') as [v'|e|]; [|limits e|done].
    destruct IH as (F1 & F2 & F3 & F4 & F5). repeat split; try congruence; lia.
Qed.

(** A table: its header, then its fields. *)
Lemma table_step buf o slots t d c k :
  is_Some (buf_root buf) -> buf_arena buf !! o = Some (OTable slots) -> small_table slots ->
  fields buf o t d c k ->
  vstep buf (1 + t) (1 + d) (visit_header + c) (fun v => rbind (visit_table (buf_loc buf o) v) k).
Proof.
  intros Hr Ho Hs Hk. destruct (fields_step _ _ _ _ _ _ Hk) as [(? & ? & ?) Hf].
  pose proof visit_header_nonneg. split; [repeat split; lia|]. intros v Hv.
  pose proof (visit_table_step buf o slots v Hr Ho Hs Hv) as Ht.
  destruct (visit_table _ v) as [tv|e|]; cbn [rbind]; [|limits e|done].
  destruct Ht as (E1 & E2 & E3 & E4 & E5 & E6). specialize (Hf tv E2 E1).
  destruct (k tv) as [v'|e|]; [|limits e|done].
  destruct Hf as (F1 & F2 & F3 & F4 & F5). repeat split; try congruence; lia.
Qed.

(** Opening a buffer whose root is visited within the limits. *)
Lemma root_step {T} (follow : bytes -> Z -> T) run opts buf o t d c :
  buf_root buf = Some o -> (0 <= max_tables opts)%Z ->
  vstep buf t d c (run (buf_loc buf o)) ->
  (t <= max_tables opts)%Z -> (d <= max_depth opts)%Z ->
  (visit_slot + c <= max_apparent_size opts)%Z ->
  root_with_opts follow run opts buf = Ok (follow buf (buf_loc buf o)).
Proof.
  intros Hr Hm [(? & ? & ?) Hv] Ht Hd Hc.
  destruct (root_at follow run opts buf o Hr) as (v0 & Eb & Eo & Ed & Et & Es & ->); [lia..|].
  specialize (Hv v0 Eb). destruct (run _ v0) as [v'|e|]; [done| |done].
  limits e.
Qed.

(** Whatever opens has no more tables than the limit. *)
Lemma root_tables {T} (follow : bytes -> Z -> T) run opts buf o t d c x :
  buf_root buf = Some o -> (0 <= max_tables opts)%Z -> (visit_slot <= max_apparent_size opts)%Z ->
  vstep buf t d c (run (buf_loc buf o)) ->
  root_with_opts follow run opts buf = Ok x ->
  x = follow buf (buf_loc buf o) /\ (t <= max_tables opts)%Z.
Proof.
  intros Hr Hm Hs [(? & ? & ?) Hv].
  destruct (root_at follow run opts buf o Hr) as (v0 & Eb & Eo & Ed & Et & Es & ->); [lia..|].
  specialize (Hv v0 Eb). destruct (run _ v0) as [v'|e|]; cbn [rbind]; [|done..].
  intros [= <-]. split; [done|]. destruct Hv as (? & Eo' & ? & Et' & ?).
  pose proof (ver_tables_bound v'). rewrite Eo', Eo in *. lia.
Qed.

(** ** Slots *)

Lemma slot_push_eq slots ty vt x dflt :
  slots !! vt = None ->
  slot_push slots ty vt x dflt !! vt = if decide (x = dflt) then None else Some (SScalar ty x).
Proof.
  intros Hf. unfold slot_push. destruct (decide (x = dflt)); [done|]. by rewrite lookup_insert_eq.
Qed.

Lemma slot_push_ne slots ty vt x dflt vt' :
  vt <> vt' -> slot_push slots ty vt x dflt !! vt' = slots !! vt'.
Proof. intros Hn. unfold slot_push. case_decide; [done|]. by rewrite lookup_insert_ne. Qed.

Lemma slot_ref_eq slots vt x :
  slots !! vt = None -> slot_ref slots vt x !! vt = SRef <$> x.
Proof. intros Hf. destruct x; simpl; [by rewrite lookup_insert_eq|done]. Qed.

Lemma slot_ref_ne slots vt x vt' : vt <> vt' -> slot_ref slots vt x !! vt' = slots !! vt'.
Proof. intros Hn. destruct x; simpl; [by rewrite lookup_insert_ne|done]. Qed.

Lemma small_table_empty : small_table ∅.
Proof. intros vt [x E]. by rewrite lookup_empty in E. Qed.

Lemma small_table_push slots ty vt x dflt :
  small_table slots -> (vt <= LAST_SLOT)%Z -> small_table (slot_push slots ty vt x dflt).
Proof.
  intros Hs Hv vt' E. destruct (decide (vt = vt')) as [<-|Hn]; [done|].
  rewrite slot_push_ne in E by done. by apply Hs.
Qed.

Lemma small_table_ref slots vt x :
  small_table slots -> (vt <= LAST_SLOT)%Z -> small_table (slot_ref slots vt x).
Proof.
  intros Hs Hv vt' E. destruct (decide (vt = vt')) as [<-|Hn]; [done|].
  rewrite slot_ref_ne in E by done. by apply Hs.
Qed.
End Rules.

Ltac small_slots :=
  repeat first
    [ apply small_table_push; [|vm_compute; discriminate]
    | apply small_table_ref; [|vm_compute; discriminate]
    | apply small_table_empty ].

(** Look up a slot, the slot numbers being literals. *)
Ltac slot_lookup :=
  lazymatch goal with
  | |- slot_push ?slots ?ty ?vt ?x ?dflt !! ?vt' = _ =>
      first
        [ rewrite (slot_push_ne slots ty vt x dflt vt') by (vm_compute; discriminate); slot_lookup
        | rewrite (slot_push_eq slots ty vt x dflt); [reflexivity|slot_lookup] ]
  | |- slot_ref ?slots ?vt ?x !! ?vt' = _ =>
      first
        [ rewrite (slot_ref_ne slots vt x vt') by (vm_compute; discriminate); slot_lookup
        | rewrite (slot_ref_eq slots vt x); [reflexivity|slot_lookup] ]
  | |- _ => apply lookup_empty
  end.
