(* ===== verification/MetadataGenerated.v ===== *)
(** * The code generated for the metadata schema

    [cryptpilot-verity/src/metadata/metadata_generated.rs]: for each table of the
    schema its slots, its view of a buffer with the accessors, its verifier, its
    arguments with their defaults and its builder; and the functions that finish
    and open a buffer whose root is a [Metadata].  The crate is the interface of
    [FlatBuffersRuntime]. *)

From stdpp Require Import base list numbers option strings.
From Stdlib Require Import ZArith.
From S2P Require Import Prelude FlatBuffersRuntime.

#[local] Open Scope Z_scope.
#[local] Open Scope fbb_scope.

(** [::flatbuffers::Table]: a buffer and a location in it. *)
Record Table := mkTable {
  tab_buf : bytes;
  tab_loc : Z;
}.

(** ** [FsVerityDescriptor] *)

Definition FsVerityDescriptor_VT_VERSION : VOffsetT := 4.
Definition FsVerityDescriptor_VT_HASH_ALGORITHM : VOffsetT := 6.
Definition FsVerityDescriptor_VT_LOG_BLOCKSIZE : VOffsetT := 8.
Definition FsVerityDescriptor_VT_DATA_SIZE : VOffsetT := 10.
Definition FsVerityDescriptor_VT_ROOT_HASH : VOffsetT := 12.
Definition FsVerityDescriptor_VT_SALT : VOffsetT := 14.

Record FsVerityDescriptorTable := mkFsVerityDescriptorTable {
  FsVerityDescriptor_tab : Table;
}.

Definition FsVerityDescriptor_follow (buf : bytes) (loc : Z) : FsVerityDescriptorTable :=
  mkFsVerityDescriptorTable (mkTable buf loc).

Definition FsVerityDescriptor_init_from_table (table : Table) : FsVerityDescriptorTable :=
  mkFsVerityDescriptorTable table.

Record FsVerityDescriptorArgs := mkFsVerityDescriptorArgs {
  fda_version : Z;
  fda_hash_algorithm : Z;
  fda_log_blocksize : Z;
  fda_data_size : Z;
  fda_root_hash : option WIPOffset;
  fda_salt : option WIPOffset;
}.

Definition FsVerityDescriptorArgs_default : FsVerityDescriptorArgs := {|
  fda_version := 0;
  fda_hash_algorithm := 0;
  fda_log_blocksize := 0;
  fda_data_size := 0;
  fda_root_hash := None;
  fda_salt := None;
|}.

(** The builder borrowed by the struct is the state of the monad. *)
Record FsVerityDescriptorBuilder := mkFsVerityDescriptorBuilder {
  fdb_start : WIPOffset;
}.

Section FsVerityDescriptor.
Context `{FlatBufferRuntime}.

Definition FsVerityDescriptorBuilder_add_version (self : FsVerityDescriptorBuilder)
    (version : Z) : Fbb unit :=
  push_slot U8 FsVerityDescriptor_VT_VERSION version 0.

Definition FsVerityDescriptorBuilder_add_hash_algorithm (self : FsVerityDescriptorBuilder)
    (hash_algorithm : Z) : Fbb unit :=
  push_slot U8 FsVerityDescriptor_VT_HASH_ALGORITHM hash_algorithm 0.

Definition FsVerityDescriptorBuilder_add_log_blocksize (self : FsVerityDescriptorBuilder)
    (log_blocksize : Z) : Fbb unit :=
  push_slot U8 FsVerityDescriptor_VT_LOG_BLOCKSIZE log_blocksize 0.

Definition FsVerityDescriptorBuilder_add_data_size (self : FsVerityDescriptorBuilder)
    (data_size : Z) : Fbb unit :=
  push_slot U64 FsVerityDescriptor_VT_DATA_SIZE data_size 0.

Definition FsVerityDescriptorBuilder_add_root_hash (self : FsVerityDescriptorBuilder)
    (root_hash : WIPOffset) : Fbb unit :=
  push_slot_always FsVerityDescriptor_VT_ROOT_HASH root_hash.

Definition FsVerityDescriptorBuilder_add_salt (self : FsVerityDescriptorBuilder)
    (salt : WIPOffset) : Fbb unit :=
  push_slot_always FsVerityDescriptor_VT_SALT salt.

Definition FsVerityDescriptorBuilder_new : Fbb FsVerityDescriptorBuilder :=
  let! start := start_table in fret (mkFsVerityDescriptorBuilder start).

Definition FsVerityDescriptorBuilder_finish (self : FsVerityDescriptorBuilder) : Fbb WIPOffset :=
  end_table (fdb_start self).

Definition FsVerityDescriptor_create (args : FsVerityDescriptorArgs) : Fbb WIPOffset :=
  let! builder := FsVerityDescriptorBuilder_new in
  FsVerityDescriptorBuilder_add_data_size builder (fda_data_size args) ;!
  fwhen (fda_salt args) (FsVerityDescriptorBuilder_add_salt builder) ;!
  fwhen (fda_root_hash args) (FsVerityDescriptorBuilder_add_root_hash builder) ;!
  FsVerityDescriptorBuilder_add_log_blocksize builder (fda_log_blocksize args) ;!
  FsVerityDescriptorBuilder_add_hash_algorithm builder (fda_hash_algorithm args) ;!
  FsVerityDescriptorBuilder_add_version builder (fda_version args) ;!
  FsVerityDescriptorBuilder_finish builder.

(** The accessors of scalars [unwrap] what [get] returns. *)
Definition get_scalar (tab : Table) (ty : Scalar) (vt : VOffsetT) (dflt : Z)
  : result InvalidFlatbuffer Z :=
  unwrap (table_get_scalar (tab_buf tab) (tab_loc tab) ty vt (Some dflt)).

Definition get_ref {T} (follow : bytes -> Z -> T) (tab : Table) (vt : VOffsetT) : option T :=
  table_get follow (tab_buf tab) (tab_loc tab) vt None.

Definition FsVerityDescriptor_version (self : FsVerityDescriptorTable) :=
  get_scalar (FsVerityDescriptor_tab self) U8 FsVerityDescriptor_VT_VERSION 0.

Definition FsVerityDescriptor_hash_algorithm (self : FsVerityDescriptorTable) :=
  get_scalar (FsVerityDescriptor_tab self) U8 FsVerityDescriptor_VT_HASH_ALGORITHM 0.

Definition FsVerityDescriptor_log_blocksize (self : FsVerityDescriptorTable) :=
  get_scalar (FsVerityDescriptor_tab self) U8 FsVerityDescriptor_VT_LOG_BLOCKSIZE 0.

Definition FsVerityDescriptor_data_size (self : FsVerityDescriptorTable) :=
  get_scalar (FsVerityDescriptor_tab self) U64 FsVerityDescriptor_VT_DATA_SIZE 0.

Definition FsVerityDescriptor_root_hash (self : FsVerityDescriptorTable) : option bytes :=
  get_ref follow_vector_u8 (FsVerityDescriptor_tab self) FsVerityDescriptor_VT_ROOT_HASH.

Definition FsVerityDescriptor_salt (self : FsVerityDescriptorTable) : option bytes :=
  get_ref follow_vector_u8 (FsVerityDescriptor_tab self) FsVerityDescriptor_VT_SALT.

Definition FsVerityDescriptor_run_verifier (pos : Z) (v : Verifier)
  : result InvalidFlatbuffer Verifier :=
  let? tv := visit_table pos v in
  let? tv := visit_field_scalar U8 "version" FsVerityDescriptor_VT_VERSION false tv in
  let? tv := visit_field_scalar U8 "hash_algorithm" FsVerityDescriptor_VT_HASH_ALGORITHM false tv in
  let? tv := visit_field_scalar U8 "log_blocksize" FsVerityDescriptor_VT_LOG_BLOCKSIZE false tv in
  let? tv := visit_field_scalar U64 "data_size" FsVerityDescriptor_VT_DATA_SIZE false tv in
  let? tv := visit_field verify_vector_u8 "root_hash" FsVerityDescriptor_VT_ROOT_HASH false tv in
  let? tv := visit_field verify_vector_u8 "salt" FsVerityDescriptor_VT_SALT false tv in
  Ok (tv_finish tv).
End FsVerityDescriptor.

(** ** [KeyValue] *)

Definition KeyValue_VT_KEY : VOffsetT := 4.
Definition KeyValue_VT_VALUE : VOffsetT := 6.

Record KeyValueTable := mkKeyValueTable {
  KeyValue_tab : Table;
}.

Definition KeyValue_follow (buf : bytes) (loc : Z) : KeyValueTable :=
  mkKeyValueTable (mkTable buf loc).

Definition KeyValue_init_from_table (table : Table) : KeyValueTable := mkKeyValueTable table.

Record KeyValueArgs := mkKeyValueArgs {
  kva_key : option WIPOffset;
  kva_value : option WIPOffset;
}.

Definition KeyValueArgs_default : KeyValueArgs := mkKeyValueArgs None None.

Record KeyValueBuilder := mkKeyValueBuilder {
  kvb_start : WIPOffset;
}.

Section KeyValue.
Context `{FlatBufferRuntime}.

Definition KeyValueBuilder_add_key (self : KeyValueBuilder) (key : WIPOffset) : Fbb unit :=
  push_slot_always KeyValue_VT_KEY key.

Definition KeyValueBuilder_add_value (self : KeyValueBuilder) (value : WIPOffset) : Fbb unit :=
  push_slot_always KeyValue_VT_VALUE value.

Definition KeyValueBuilder_new : Fbb KeyValueBuilder :=
  let! start := start_table in fret (mkKeyValueBuilder start).

Definition KeyValueBuilder_finish (self : KeyValueBuilder) : Fbb WIPOffset :=
  end_table (kvb_start self).

Definition KeyValue_create (args : KeyValueArgs) : Fbb WIPOffset :=
  let! builder := KeyValueBuilder_new in
  fwhen (kva_value args) (KeyValueBuilder_add_value builder) ;!
  fwhen (kva_key args) (KeyValueBuilder_add_key builder) ;!
  KeyValueBuilder_finish builder.

Definition KeyValue_key (self : KeyValueTable) : option string :=
  get_ref follow_str (KeyValue_tab self) KeyValue_VT_KEY.

Definition KeyValue_value (self : KeyValueTable) : option string :=
  get_ref follow_str (KeyValue_tab self) KeyValue_VT_VALUE.

Definition KeyValue_run_verifier (pos : Z) (v : Verifier) : result InvalidFlatbuffer Verifier :=
  let? tv := visit_table pos v in
  let? tv := visit_field verify_str "key" KeyValue_VT_KEY false tv in
  let? tv := visit_field verify_str "value" KeyValue_VT_VALUE false tv in
  Ok (tv_finish tv).
End KeyValue.

(** ** [FileInfo] *)

Definition FileInfo_VT_PATH : VOffsetT := 4.
Definition FileInfo_VT_DESCRIPTOR : VOffsetT := 6.
Definition FileInfo_VT_MERKLE_TREE_LEVEL1 : VOffsetT := 8.
Definition FileInfo_VT_DESCRIPTOR_HASH : VOffsetT := 10.

Record FileInfoTable := mkFileInfoTable {
  FileInfo_tab : Table;
}.

Definition FileInfo_follow (buf : bytes) (loc : Z) : FileInfoTable :=
  mkFileInfoTable (mkTable buf loc).

Definition FileInfo_init_from_table (table : Table) : FileInfoTable := mkFileInfoTable table.

Record FileInfoArgs := mkFileInfoArgs {
  fia_path : option WIPOffset;
  fia_descriptor : option WIPOffset;
  fia_merkle_tree_level1 : option WIPOffset;
  fia_descriptor_hash : option WIPOffset;
}.

Definition FileInfoArgs_default : FileInfoArgs := mkFileInfoArgs None None None None.

Record FileInfoBuilder := mkFileInfoBuilder {
  fib_start : WIPOffset;
}.

Section FileInfo.
Context `{FlatBufferRuntime}.

Definition FileInfoBuilder_add_path (self : FileInfoBuilder) (path : WIPOffset) : Fbb unit :=
  push_slot_always FileInfo_VT_PATH path.

Definition FileInfoBuilder_add_descriptor (self : FileInfoBuilder) (descriptor : WIPOffset)
  : Fbb unit :=
  push_slot_always FileInfo_VT_DESCRIPTOR descriptor.

Definition FileInfoBuilder_add_merkle_tree_level1 (self : FileInfoBuilder)
    (merkle_tree_level1 : WIPOffset) : Fbb unit :=
  push_slot_always FileInfo_VT_MERKLE_TREE_LEVEL1 merkle_tree_level1.

Definition FileInfoBuilder_add_descriptor_hash (self : FileInfoBuilder)
    (descriptor_hash : WIPOffset) : Fbb unit :=
  push_slot_always FileInfo_VT_DESCRIPTOR_HASH descriptor_hash.

Definition FileInfoBuilder_new : Fbb FileInfoBuilder :=
  let! start := start_table in fret (mkFileInfoBuilder start).

Definition FileInfoBuilder_finish (self : FileInfoBuilder) : Fbb WIPOffset :=
  end_table (fib_start self).

Definition FileInfo_create (args : FileInfoArgs) : Fbb WIPOffset :=
  let! builder := FileInfoBuilder_new in
  fwhen (fia_descriptor_hash args) (FileInfoBuilder_add_descriptor_hash builder) ;!
  fwhen (fia_merkle_tree_level1 args) (FileInfoBuilder_add_merkle_tree_level1 builder) ;!
  fwhen (fia_descriptor args) (FileInfoBuilder_add_descriptor builder) ;!
  fwhen (fia_path args) (FileInfoBuilder_add_path builder) ;!
  FileInfoBuilder_finish builder.

Definition FileInfo_path (self : FileInfoTable) : option string :=
  get_ref follow_str (FileInfo_tab self) FileInfo_VT_PATH.

Definition FileInfo_descriptor (self : FileInfoTable) : option FsVerityDescriptorTable :=
  get_ref FsVerityDescriptor_follow (FileInfo_tab self) FileInfo_VT_DESCRIPTOR.

Definition FileInfo_merkle_tree_level1 (self : FileInfoTable) : option bytes :=
  get_ref follow_vector_u8 (FileInfo_tab self) FileInfo_VT_MERKLE_TREE_LEVEL1.

Definition FileInfo_descriptor_hash (self : FileInfoTable) : option string :=
  get_ref follow_str (FileInfo_tab self) FileInfo_VT_DESCRIPTOR_HASH.

Definition FileInfo_run_verifier (pos : Z) (v : Verifier) : result InvalidFlatbuffer Verifier :=
  let? tv := visit_table pos v in
  let? tv := visit_field verify_str "path" FileInfo_VT_PATH false tv in
  let? tv := visit_field FsVerityDescriptor_run_verifier "descriptor" FileInfo_VT_DESCRIPTOR false tv in
  let? tv := visit_field verify_vector_u8 "merkle_tree_level1" FileInfo_VT_MERKLE_TREE_LEVEL1 false tv in
  let? tv := visit_field verify_str "descriptor_hash" FileInfo_VT_DESCRIPTOR_HASH false tv in
  Ok (tv_finish tv).
End FileInfo.

(** ** [Metadata] *)

Definition Metadata_VT_VERSION : VOffsetT := 4.
Definition Metadata_VT_FILES : VOffsetT := 6.
Definition Metadata_VT_LABELS : VOffsetT := 8.

Record MetadataTable := mkMetadataTable {
  Metadata_tab : Table;
}.

Definition Metadata_follow (buf : bytes) (loc : Z) : MetadataTable :=
  mkMetadataTable (mkTable buf loc).

Definition Metadata_init_from_table (table : Table) : MetadataTable := mkMetadataTable table.

Record MetadataArgs := mkMetadataArgs {
  ma_version : Z;
  ma_files : option WIPOffset;
  ma_labels : option WIPOffset;
}.

Definition MetadataArgs_default : MetadataArgs := mkMetadataArgs 1 None None.

Record MetadataBuilder := mkMetadataBuilder {
  mb_start : WIPOffset;
}.

Section Metadata.
Context `{FlatBufferRuntime}.

Definition MetadataBuilder_add_version (self : MetadataBuilder) (version : Z) : Fbb unit :=
  push_slot U32 Metadata_VT_VERSION version 1.

Definition MetadataBuilder_add_files (self : MetadataBuilder) (files : WIPOffset) : Fbb unit :=
  push_slot_always Metadata_VT_FILES files.

Definition MetadataBuilder_add_labels (self : MetadataBuilder) (labels : WIPOffset) : Fbb unit :=
  push_slot_always Metadata_VT_LABELS labels.

Definition MetadataBuilder_new : Fbb MetadataBuilder :=
  let! start := start_table in fret (mkMetadataBuilder start).

Definition MetadataBuilder_finish (self : MetadataBuilder) : Fbb WIPOffset :=
  end_table (mb_start self).

Definition Metadata_create (args : MetadataArgs) : Fbb WIPOffset :=
  let! builder := MetadataBuilder_new in
  fwhen (ma_labels args) (MetadataBuilder_add_labels builder) ;!
  fwhen (ma_files args) (MetadataBuilder_add_files builder) ;!
  MetadataBuilder_add_version builder (ma_version args) ;!
  MetadataBuilder_finish builder.

Definition Metadata_version (self : MetadataTable) : result InvalidFlatbuffer Z :=
  get_scalar (Metadata_tab self) U32 Metadata_VT_VERSION 1.

Definition Metadata_files (self : MetadataTable) : option (list FileInfoTable) :=
  get_ref (follow_vector FileInfo_follow) (Metadata_tab self) Metadata_VT_FILES.

Definition Metadata_labels (self : MetadataTable) : option (list KeyValueTable) :=
  get_ref (follow_vector KeyValue_follow) (Metadata_tab self) Metadata_VT_LABELS.

Definition Metadata_run_verifier (pos : Z) (v : Verifier) : result InvalidFlatbuffer Verifier :=
  let? tv := visit_table pos v in
  let? tv := visit_field_scalar U32 "version" Metadata_VT_VERSION false tv in
  let? tv := visit_field (verify_vector FileInfo_run_verifier) "files" Metadata_VT_FILES false tv in
  let? tv := visit_field (verify_vector KeyValue_run_verifier) "labels" Metadata_VT_LABELS false tv in
  Ok (tv_finish tv).

(** ** Buffers whose root is a [Metadata] *)

Definition root_as_metadata (buf : bytes) : result InvalidFlatbuffer MetadataTable :=
  root_with_opts Metadata_follow Metadata_run_verifier default_opts buf.

Definition size_prefixed_root_as_metadata (buf : bytes) : result InvalidFlatbuffer MetadataTable :=
  size_prefixed_root_with_opts Metadata_follow Metadata_run_verifier default_opts buf.

Definition root_as_metadata_with_opts (opts : VerifierOptions) (buf : bytes)
  : result InvalidFlatbuffer MetadataTable :=
  root_with_opts Metadata_follow Metadata_run_verifier opts buf.

Definition size_prefixed_root_as_metadata_with_opts (opts : VerifierOptions) (buf : bytes)
  : result InvalidFlatbuffer MetadataTable :=
  size_prefixed_root_with_opts Metadata_follow Metadata_run_verifier opts buf.

Definition root_as_metadata_unchecked (buf : bytes) : MetadataTable :=
  root_unchecked Metadata_follow buf.

Definition size_prefixed_root_as_metadata_unchecked (buf : bytes) : MetadataTable :=
  size_prefixed_root_unchecked Metadata_follow buf.

Definition finish_metadata_buffer (root : WIPOffset) : Fbb unit := fbb_finish root None.

Definition finish_size_prefixed_metadata_buffer (root : WIPOffset) : Fbb unit :=
  fbb_finish_size_prefixed root None.
End Metadata.
