(* ===== verification/MetadataBuffer.v ===== *)
(** * Writing and reading a metadata buffer

    The builder calls of [serialize_metadata]
    ([cryptpilot-verity/src/metadata/mod.rs]) over the generated code, in their
    order, and the document that the accessors of an opened buffer give.  The
    buffer represents the document table by table; building it trips no
    assertion of the builder; it opens exactly within the limits of the
    verifier.  Together this discharges the interface [FlatBuffers] that the
    rest of the development is proved against. *)

From stdpp Require Import base list numbers option strings gmap.
From Stdlib Require Import ZArith Lia.
From S2P Require Import Prelude Descriptor MerkleTree FileVerifier VerityMetadata.
From S2P Require Import FlatBuffersRuntime MetadataGenerated.

#[local] Open Scope fbb_scope.

(** ** Building *)

Section Build.
Context `{FlatBufferRuntime}.

(** One turn of the loop over the sorted files. *)
Definition file_info_offset (info : FileVerityInfo) : Fbb WIPOffset :=
  let! path_offset := create_string (info_path info) in
  let! descriptor_hash_offset := create_string (descriptor_hash info) in
  let! root_hash_vec := create_vector_u8 (root_hash (descriptor info)) in
  let! salt_vec := create_vector_u8 (desc_salt (descriptor info)) in
  let! descriptor_offset := FsVerityDescriptor_create {|
    fda_version := version (descriptor info);
    fda_hash_algorithm := hash_algorithm (descriptor info);
    fda_log_blocksize := log_blocksize (descriptor info);
    fda_data_size := data_size (descriptor info);
    fda_root_hash := Some root_hash_vec;
    fda_salt := Some salt_vec |} in
  let! merkle_tree_vec := create_vector_u8 (level1_as_bytes (info_tree info)) in
  FileInfo_create {|
    fia_path := Some path_offset;
    fia_descriptor := Some descriptor_offset;
    fia_merkle_tree_level1 := Some merkle_tree_vec;
    fia_descriptor_hash := Some descriptor_hash_offset |}.

Definition label_offset (kv : string * string) : Fbb WIPOffset :=
  let! key_offset := create_string (fst kv) in
  let! value_offset := create_string (snd kv) in
  KeyValue_create {| kva_key := Some key_offset; kva_value := Some value_offset |}.

Definition build_metadata (sorted_refs : list FileVerityInfo) (labels : Labels) : Fbb unit :=
  let! file_info_offsets := fmapM file_info_offset sorted_refs in
  let! files_vector := create_vector file_info_offsets in
  let! label_offsets := fmapM label_offset labels in
  let! labels_vector := create_vector label_offsets in
  let! metadata := Metadata_create {|
    ma_version := 1;
    ma_files := Some files_vector;
    ma_labels := Some labels_vector |} in
  fbb_finish metadata None.

(** [FlatBufferBuilder::new], the calls above, [finished_data]. *)
Definition serialize_buffer (sorted_refs : list FileVerityInfo) (labels : Labels)
  : result FbPanic bytes :=
  let? ba := build_metadata sorted_refs labels fbb_new in
  finished_data (fst ba).
End Build.

(** ** Reading

    The documents the accessors give, table by table. *)

Section Read.
Context `{FlatBufferRuntime}.

Definition read_descriptor (d : FsVerityDescriptorTable) : result InvalidFlatbuffer FbDescriptor :=
  let? version := FsVerityDescriptor_version d in
  let? hash_algorithm := FsVerityDescriptor_hash_algorithm d in
  let? log_blocksize := FsVerityDescriptor_log_blocksize d in
  let? data_size := FsVerityDescriptor_data_size d in
  Ok (mkFbDescriptor version hash_algorithm log_blocksize data_size
        (FsVerityDescriptor_root_hash d) (FsVerityDescriptor_salt d)).

Definition read_file_info (f : FileInfoTable) : result InvalidFlatbuffer FbFileInfo :=
  let? fb_descriptor :=
    match FileInfo_descriptor f with
    | Some d => let? d := read_descriptor d in Ok (Some d)
    | None => Ok None
    end in
  Ok (mkFbFileInfo (FileInfo_path f) fb_descriptor (FileInfo_merkle_tree_level1 f)
        (FileInfo_descriptor_hash f)).

Definition read_label (kv : KeyValueTable) : FbKeyValue :=
  mkFbKeyValue (KeyValue_key kv) (KeyValue_value kv).

Definition read_metadata (m : MetadataTable) : result InvalidFlatbuffer FbMetadata :=
  let? version := Metadata_version m in
  let? files :=
    match Metadata_files m with
    | Some fs => let? fs := try_map read_file_info fs in Ok (Some fs)
    | None => Ok None
    end in
  Ok (mkFbMetadata version files (map read_label <$> Metadata_labels m)).

(** [flatbuffers::root::<Metadata>] and the accessors. *)
Definition open_buffer (opts : VerifierOptions) (buf : bytes) : result InvalidFlatbuffer FbMetadata :=
  let? m := root_as_metadata_with_opts opts buf in read_metadata m.
End Read.

(** ** What a buffer represents *)

Section Rep.
Implicit Types (A : Arena) (o : WIPOffset) (slots : gmap VOffsetT FbSlot).

(** A scalar equal to the default of its slot is absent. *)
Definition scalar_field slots (ty : Scalar) (vt : VOffsetT) (dflt x : Z) : Prop :=
  slots !! vt = if decide (x = dflt) then None else Some (SScalar ty x).

Definition ref_field {T} (R : WIPOffset -> T -> Prop) slots (vt : VOffsetT) (x : option T) : Prop :=
  match x with
  | Some y => exists o, slots !! vt = Some (SRef o) /\ R o y
  | None => slots !! vt = None
  end.

Definition rep_str A o (s : string) : Prop := A !! o = Some (OString s).
Definition rep_bytes A o (b : bytes) : Prop := A !! o = Some (OBytes b).

Definition rep_vector {T} (R : WIPOffset -> T -> Prop) A o (l : list T) : Prop :=
  exists os, A !! o = Some (OVector os) /\ Forall2 R os l.

Definition rep_table A o (P : gmap VOffsetT FbSlot -> Prop) : Prop :=
  exists slots, A !! o = Some (OTable slots) /\ small_table slots /\ P slots.

Definition rep_descriptor A o (d : FbDescriptor) : Prop :=
  rep_table A o (fun slots =>
    scalar_field slots U8 FsVerityDescriptor_VT_VERSION 0 (fbd_version d) /\
    scalar_field slots U8 FsVerityDescriptor_VT_HASH_ALGORITHM 0 (fbd_hash_algorithm d) /\
    scalar_field slots U8 FsVerityDescriptor_VT_LOG_BLOCKSIZE 0 (fbd_log_blocksize d) /\
    scalar_field slots U64 FsVerityDescriptor_VT_DATA_SIZE 0 (fbd_data_size d) /\
    ref_field (rep_bytes A) slots FsVerityDescriptor_VT_ROOT_HASH (fbd_root_hash d) /\
    ref_field (rep_bytes A) slots FsVerityDescriptor_VT_SALT (fbd_salt d)).

Definition rep_file A o (f : FbFileInfo) : Prop :=
  rep_table A o (fun slots =>
    ref_field (rep_str A) slots FileInfo_VT_PATH (fbf_path f) /\
    ref_field (rep_descriptor A) slots FileInfo_VT_DESCRIPTOR (fbf_descriptor f) /\
    ref_field (rep_bytes A) slots FileInfo_VT_MERKLE_TREE_LEVEL1 (fbf_merkle_tree_level1 f) /\
    ref_field (rep_str A) slots FileInfo_VT_DESCRIPTOR_HASH (fbf_descriptor_hash f)).

Definition rep_label A o (kv : FbKeyValue) : Prop :=
  rep_table A o (fun slots =>
    ref_field (rep_str A) slots KeyValue_VT_KEY (fbk_key kv) /\
    ref_field (rep_str A) slots KeyValue_VT_VALUE (fbk_value kv)).

Definition rep_metadata A o (m : FbMetadata) : Prop :=
  rep_table A o (fun slots =>
    scalar_field slots U32 Metadata_VT_VERSION 1 (fbm_version m) /\
    ref_field (rep_vector (rep_file A) A) slots Metadata_VT_FILES (fbm_files m) /\
    ref_field (rep_vector (rep_label A) A) slots Metadata_VT_LABELS (fbm_labels m)).

(** Representations survive the writing of further objects. *)
Definition mono {T} (R : Arena -> WIPOffset -> T -> Prop) : Prop :=
  forall A A' o x, A ⊆ A' -> R A o x -> R A' o x.

Lemma ref_field_mono {T} (R : Arena -> WIPOffset -> T -> Prop) A A' slots vt x :
  mono R -> A ⊆ A' -> ref_field (R A) slots vt x -> ref_field (R A') slots vt x.
Proof. intros HR HA. destruct x; [|done]. intros (o & E & Ho). exists o. eauto. Qed.

Lemma rep_table_mono A A' o (P Q : gmap VOffsetT FbSlot -> Prop) :
  A ⊆ A' -> (forall slots, P slots -> Q slots) -> rep_table A o P -> rep_table A' o Q.
Proof.
  intros HA HPQ (slots & E & Hs & HP). exists slots. repeat split; auto.
  by eapply lookup_weaken.
Qed.

Lemma rep_str_mono : mono rep_str.
Proof. intros A A' o x HA E. by eapply lookup_weaken. Qed.

Lemma rep_bytes_mono : mono rep_bytes.
Proof. intros A A' o x HA E. by eapply lookup_weaken. Qed.

Hint Resolve rep_str_mono rep_bytes_mono ref_field_mono : core.

Lemma rep_descriptor_mono : mono rep_descriptor.
Proof. intros A A' o d HA. apply rep_table_mono; [done|]. intuition eauto. Qed.

Lemma rep_label_mono : mono rep_label.
Proof. intros A A' o d HA. apply rep_table_mono; [done|]. intuition eauto. Qed.

Hint Resolve rep_descriptor_mono : core.

Lemma rep_file_mono : mono rep_file.
Proof. intros A A' o d HA. apply rep_table_mono; [done|]. intuition eauto. Qed.

Lemma rep_vector_mono {T} (R : Arena -> WIPOffset -> T -> Prop) :
  mono R -> mono (fun A => rep_vector (R A) A).
Proof.
  intros HR A A' o l HA (os & E & Hl). exists os. split; [by eapply lookup_weaken|].
  eapply Forall2_impl; [exact Hl|]. intros o' y. by apply HR.
Qed.
End Rep.

#[export] Hint Resolve rep_str_mono rep_bytes_mono rep_descriptor_mono rep_label_mono
  rep_file_mono rep_vector_mono : cryptpilot.

(** ** Sizes *)

Section Costs.
Context `{FbCosts}.

(** Bytes written for a file, a label and the whole metadata. *)
Definition file_cost (info : FileVerityInfo) : Z :=
  cost_string (info_path info) + (cost_string (descriptor_hash info) +
  (cost_bytes (root_hash (descriptor info)) + (cost_bytes (desc_salt (descriptor info)) +
  ((6 * cost_slot + cost_table) + (cost_bytes (level1_as_bytes (info_tree info)) +
  (4 * cost_slot + cost_table)))))).

Definition label_cost (kv : string * string) : Z :=
  cost_string (fst kv) + (cost_string (snd kv) + (2 * cost_slot + cost_table)).

Definition metadata_cost (files : list FileVerityInfo) (labels : Labels) : Z :=
  zsum file_cost files + (cost_vector (length files) +
  (zsum label_cost labels + (cost_vector (length labels) +
  ((3 * cost_slot + cost_table) + cost_finish)))).

(** Tables and bytes the verifier visits. *)
Definition opt_sum {T} (f : T -> Z) (x : option T) : Z :=
  match x with Some y => f y | None => 0 end.

Definition no_table {T} (_ : T) : Z := 0.
Definition one_table {T} (_ : T) : Z := 1.

Definition file_tables (f : FbFileInfo) : Z := 1 + opt_sum one_table (fbf_descriptor f).

Definition metadata_tables (m : FbMetadata) : Z :=
  1 + (opt_sum (zsum file_tables) (fbm_files m) + opt_sum (zsum one_table) (fbm_labels m)).

Definition descriptor_visit (d : FbDescriptor) : Z :=
  visit_header + (6 * visit_slot +
    (opt_sum visit_bytes (fbd_root_hash d) + opt_sum visit_bytes (fbd_salt d))).

Definition file_visit (f : FbFileInfo) : Z :=
  visit_header + (4 * visit_slot +
    (opt_sum visit_string (fbf_path f) + opt_sum descriptor_visit (fbf_descriptor f) +
     opt_sum visit_bytes (fbf_merkle_tree_level1 f) + opt_sum visit_string (fbf_descriptor_hash f))).

Definition label_visit (kv : FbKeyValue) : Z :=
  visit_header + (2 * visit_slot +
    (opt_sum visit_string (fbk_key kv) + opt_sum visit_string (fbk_value kv))).

Definition vector_visit {T} (f : T -> Z) (l : list T) : Z := visit_vector (length l) + zsum f l.

Definition metadata_visit (m : FbMetadata) : Z :=
  visit_header + (3 * visit_slot +
    (opt_sum (vector_visit file_visit) (fbm_files m) +
     opt_sum (vector_visit label_visit) (fbm_labels m))).
End Costs.

(** ** Building represents the document *)

Section BuildProofs.
Context `{FlatBufferRuntimeSpec}.

Definition idle (v : FbbView) : Prop := v_open v = None /\ v_root v = None.

(** Objects were added, and no table is open. *)
Definition extends (v v' : FbbView) : Prop := v_arena v ⊆ v_arena v' /\ idle v'.

Lemma extends_refl v : idle v -> extends v v.
Proof. by split. Qed.

Lemma extends_trans v1 v2 v3 : extends v1 v2 -> extends v2 v3 -> extends v1 v3.
Proof. intros [H12 _] [H23 ?]. split; [by etrans|done]. Qed.

Lemma allocates_extends v ob o v' :
  v_root v = None -> allocates v ob o v' -> extends v v' /\ v_arena v' !! o = Some ob.
Proof.
  intros Hr [Hf ->]. split; [split; [by apply insert_subseteq|by split]|].
  simpl. by rewrite lookup_insert_eq.
Qed.

(** What a builder returns: an offset of an object that represents [x]. *)
Definition yields {T} (R : Arena -> WIPOffset -> T -> Prop) (x : T) (v : FbbView)
  (o : WIPOffset) (v' : FbbView) : Prop := extends v v' /\ R (v_arena v') o x.

Lemma string_step v s : idle v -> fstep v (cost_string s) (create_string s) (yields rep_str s v).
Proof.
  intros [Ho Hr]. eapply fstep_conseq; [by apply create_string_step|done|].
  intros o v' Ha. by apply allocates_extends in Ha.
Qed.

Lemma bytes_step v b : idle v -> fstep v (cost_bytes b) (create_vector_u8 b) (yields rep_bytes b v).
Proof.
  intros [Ho Hr]. eapply fstep_conseq; [by apply create_vector_u8_step|done|].
  intros o v' Ha. by apply allocates_extends in Ha.
Qed.

(** An argument of a [create] function: an offset already written, or none. *)
Definition arg_ref {T} (R : WIPOffset -> T -> Prop) (a : option WIPOffset) (x : option T) : Prop :=
  match a, x with
  | Some o, Some y => R o y
  | None, None => True
  | _, _ => False
  end.

Definition present {T} (R : Arena -> WIPOffset -> T -> Prop) : Prop :=
  forall A o x, R A o x -> is_Some (A !! o).

Lemma rep_table_present A o P : rep_table A o P -> is_Some (A !! o).
Proof. intros (slots & E & _). eauto. Qed.

Lemma rep_str_present : present rep_str.
Proof. intros A o x E. by exists (OString x). Qed.

Lemma rep_bytes_present : present rep_bytes.
Proof. intros A o x E. by exists (OBytes x). Qed.

Lemma rep_descriptor_present : present rep_descriptor.
Proof. intros A o x. apply rep_table_present. Qed.

Lemma rep_file_present : present rep_file.
Proof. intros A o x. apply rep_table_present. Qed.

Lemma rep_label_present : present rep_label.
Proof. intros A o x. apply rep_table_present. Qed.

Lemma rep_vector_present {T} (R : Arena -> WIPOffset -> T -> Prop) :
  present (fun A => rep_vector (R A) A).
Proof. intros A o x (os & E & _). by exists (OVector os). Qed.

Hint Resolve rep_str_present rep_bytes_present rep_descriptor_present rep_file_present
  rep_label_present rep_vector_present : cryptpilot.

Lemma new_step {B} (mk : WIPOffset -> B) v :
  idle v ->
  fstep v 0 (let! start := start_table in fret (mk start))
    (fun b v' => exists s, b = mk s /\ v' = mkView (v_arena v) (Some (s, ∅)) None).
Proof.
  intros [Ho Hr]. change 0%Z with (0 + 0)%Z. eapply fstep_bind; [by apply start_table_step| |done].
  intros s v1 ->. apply fstep_ret. eauto.
Qed.

Lemma arg_step {T} (R : Arena -> WIPOffset -> T -> Prop) A s slots vt a x :
  present R -> slot_free slots vt -> arg_ref (R A) a x ->
  fstep (mkView A (Some (s, slots)) None) cost_slot (fwhen a (push_slot_always vt))
    (fun _ v' => v' = mkView A (Some (s, slot_ref slots vt a)) None).
Proof.
  intros HR Hf Ha. apply (fwhen_step (mkView A (Some (s, slots)) None)); [done..|].
  intros o ->. destruct x; [|done]. by eapply HR.
Qed.

Lemma scalar_step A s slots ty vt x dflt :
  slot_free slots vt ->
  fstep (mkView A (Some (s, slots)) None) cost_slot (push_slot ty vt x dflt)
    (fun _ v' => v' = mkView A (Some (s, slot_push slots ty vt x dflt)) None).
Proof. intros Hf. by eapply (push_slot_step (mkView A (Some (s, slots)) None)). Qed.

Lemma end_step A s slots :
  small_table slots ->
  fstep (mkView A (Some (s, slots)) None) cost_table (end_table s)
    (fun o v' => A ⊆ v_arena v' /\ idle v' /\ v_arena v' !! o = Some (OTable slots)).
Proof.
  intros Hs. eapply fstep_conseq; [by apply (end_table_step (mkView A (Some (s, slots)) None))|done|].
  intros o v' Ha. apply allocates_extends in Ha as [[Ha Hi] Ho]; [|done].
  exact (conj Ha (conj Hi Ho)).
Qed.

Lemma cost_table_nonneg : (0 <= cost_table)%Z.
Proof. by destruct (end_step ∅ 0%Z ∅ small_table_empty) as [? _]. Qed.

Lemma arg_ref_field {T} (R : Arena -> WIPOffset -> T -> Prop) A A' slots vt a x :
  mono R -> A ⊆ A' -> slots !! vt = SRef <$> a ->
  arg_ref (R A) a x -> ref_field (R A') slots vt x.
Proof.
  intros HR HA E Ha. destruct a as [o|], x as [y|]; try done. exists o. eauto.
Qed.

(** Writing a table slot by slot. *)
Ltac begin_table :=
  pose proof cost_slot_nonneg; pose proof cost_table_nonneg;
  eapply fstep_bind; [by apply new_step|intros ? ? (? & -> & ->)|].
Ltac add_scalar :=
  eapply fstep_bind; [apply scalar_step; unfold slot_free; slot_lookup|intros [] ? ->|].
Ltac add_ref R :=
  eapply fstep_bind;
    [eapply (arg_step R); [by auto with cryptpilot|unfold slot_free; slot_lookup|eassumption]
    |intros [] ? ->|].
Ltac finish_table := apply end_step; small_slots.

Ltac kept_ref R :=
  eapply (arg_ref_field R); [by auto with cryptpilot|done| |done]; slot_lookup.

Lemma descriptor_create_step v args d :
  idle v ->
  fda_version args = fbd_version d -> fda_hash_algorithm args = fbd_hash_algorithm d ->
  fda_log_blocksize args = fbd_log_blocksize d -> fda_data_size args = fbd_data_size d ->
  arg_ref (rep_bytes (v_arena v)) (fda_root_hash args) (fbd_root_hash d) ->
  arg_ref (rep_bytes (v_arena v)) (fda_salt args) (fbd_salt d) ->
  fstep v (6 * cost_slot + cost_table) (FsVerityDescriptor_create args)
    (yields rep_descriptor d v).
Proof.
  intros Hv E1 E2 E3 E4 Hr Hs. unfold FsVerityDescriptor_create. eapply fstep_conseq.
  - begin_table. add_scalar. add_ref rep_bytes. add_ref rep_bytes. add_scalar. add_scalar. add_scalar.
    finish_table.
    all: lia.
  - lia.
  - intros o v' (HA & Hi & Ho). split; [by split|]. eexists. split; [done|].
    split; [small_slots|]. rewrite <- E1, <- E2, <- E3, <- E4.
    unfold scalar_field. repeat split; [slot_lookup..|kept_ref rep_bytes|kept_ref rep_bytes].
Qed.

Lemma label_create_step v args kv :
  idle v ->
  arg_ref (rep_str (v_arena v)) (kva_key args) (fbk_key kv) ->
  arg_ref (rep_str (v_arena v)) (kva_value args) (fbk_value kv) ->
  fstep v (2 * cost_slot + cost_table) (KeyValue_create args) (yields rep_label kv v).
Proof.
  intros Hv Hk Hx. unfold KeyValue_create. eapply fstep_conseq.
  - begin_table. add_ref rep_str. add_ref rep_str. finish_table. all: lia.
  - lia.
  - intros o v' (HA & Hi & Ho). split; [by split|]. eexists. split; [done|].
    split; [small_slots|]. split; kept_ref rep_str.
Qed.

Lemma file_create_step v args f :
  idle v ->
  arg_ref (rep_str (v_arena v)) (fia_path args) (fbf_path f) ->
  arg_ref (rep_descriptor (v_arena v)) (fia_descriptor args) (fbf_descriptor f) ->
  arg_ref (rep_bytes (v_arena v)) (fia_merkle_tree_level1 args) (fbf_merkle_tree_level1 f) ->
  arg_ref (rep_str (v_arena v)) (fia_descriptor_hash args) (fbf_descriptor_hash f) ->
  fstep v (4 * cost_slot + cost_table) (FileInfo_create args) (yields rep_file f v).
Proof.
  intros Hv Hp Hd Hm Hh. unfold FileInfo_create. eapply fstep_conseq.
  - begin_table. add_ref rep_str. add_ref rep_bytes. add_ref rep_descriptor. add_ref rep_str.
    finish_table. all: lia.
  - lia.
  - intros o v' (HA & Hi & Ho). split; [by split|]. eexists. split; [done|].
    split; [small_slots|].
    split; [kept_ref rep_str|split; [kept_ref rep_descriptor|split; [kept_ref rep_bytes|kept_ref rep_str]]].
Qed.

Lemma metadata_create_step v args m :
  idle v -> ma_version args = fbm_version m ->
  arg_ref (rep_vector (rep_file (v_arena v)) (v_arena v)) (ma_files args) (fbm_files m) ->
  arg_ref (rep_vector (rep_label (v_arena v)) (v_arena v)) (ma_labels args) (fbm_labels m) ->
  fstep v (3 * cost_slot + cost_table) (Metadata_create args) (yields rep_metadata m v).
Proof.
  intros Hv E Hf Hl. unfold Metadata_create. eapply fstep_conseq.
  - begin_table. add_ref (fun A => rep_vector (rep_label A) A).
    add_ref (fun A => rep_vector (rep_file A) A). add_scalar. finish_table. all: lia.
  - lia.
  - intros o v' (HA & Hi & Ho). split; [by split|]. eexists. split; [done|].
    split; [small_slots|]. rewrite <- E. unfold scalar_field. split; [slot_lookup|].
    split; [kept_ref (fun A => rep_vector (rep_file A) A)|kept_ref (fun A => rep_vector (rep_label A) A)].
Qed.

(** A loop over the elements, then their vector. *)
Lemma fmapM_step {X T} (R : Arena -> WIPOffset -> T -> Prop) (f : X -> Fbb WIPOffset)
    (g : X -> T) (c : X -> Z) l :
  mono R -> (forall x v, idle v -> fstep v (c x) (f x) (yields R (g x) v)) -> (forall x, 0 <= c x)%Z ->
  forall v, idle v ->
  fstep v (zsum c l) (fmapM f l)
    (fun os v' => extends v v' /\ Forall2 (R (v_arena v')) os (map g l)).
Proof.
  intros HR Hf Hc. induction l as [|x l IH]; intros v Hv; simpl.
  - apply fstep_ret. split; [by apply extends_refl|constructor].
  - assert (0 <= zsum c l)%Z by by apply zsum_nonneg.
    eapply fstep_bind; [by apply Hf|intros o v1 [He1 Ho]|done].
    rewrite <- (Z.add_0_r (zsum c l)).
    eapply fstep_bind; [apply IH, He1|intros os v2 [He2 Hos]|done].
    apply fstep_ret. split; [by eapply extends_trans|]. constructor; [|done].
    eapply HR; [apply He2|done].
Qed.

Lemma vector_step {T} (R : Arena -> WIPOffset -> T -> Prop) v os (l : list T) :
  idle v -> mono R -> present R -> Forall2 (R (v_arena v)) os l ->
  fstep v (cost_vector (length os)) (create_vector os) (yields (fun A => rep_vector (R A) A) l v).
Proof.
  intros [Ho Hr] HR Hp Hl. eapply fstep_conseq; [apply create_vector_step; try done| done|].
  - eapply Forall2_Forall_l; [exact Hl|]. apply Forall_forall. intros y _ o Hy. by eapply Hp.
  - intros o v' Ha. apply allocates_extends in Ha as [He Ho']; [|done]. split; [done|].
    exists os. split; [done|]. eapply Forall2_impl; [exact Hl|]. intros o' y. apply HR, He.
Qed.

(** Costs are not negative, since every call accounts for what it writes. *)
Lemma costs_nonneg :
  (forall s, 0 <= cost_string s)%Z /\ (forall b, 0 <= cost_bytes b)%Z /\
  (forall n, 0 <= cost_vector n)%Z /\ (0 <= cost_slot)%Z /\ (0 <= cost_table)%Z /\ (0 <= cost_finish)%Z.
Proof.
  assert (idle (mkView ∅ None None)) as Hi by done.
  split; [intros s; apply (string_step _ s Hi)|]. split; [intros b; apply (bytes_step _ b Hi)|].
  set (v := mkView {[ 0%Z := OString EmptyString ]} None None).
  split; [intros n|split; [apply cost_slot_nonneg|split; [apply cost_table_nonneg|]]].
  - destruct (create_vector_step v (replicate n 0%Z)) as [Hn _]; [done..| |].
    + apply Forall_replicate. by exists (OString EmptyString).
    + by rewrite length_replicate in Hn.
  - by apply (finish_step v 0%Z None).
Qed.

Lemma file_cost_nonneg info : (0 <= file_cost info)%Z.
Proof.
  destruct costs_nonneg as (Hs & Hb & ? & ? & ? & ?). unfold file_cost.
  repeat apply Z.add_nonneg_nonneg; auto; lia.
Qed.

Lemma label_cost_nonneg kv : (0 <= label_cost kv)%Z.
Proof.
  destruct costs_nonneg as (Hs & Hb & ? & ? & ? & ?). unfold label_cost.
  repeat apply Z.add_nonneg_nonneg; auto; lia.
Qed.

Ltac costs :=
  destruct costs_nonneg as (? & ? & ? & ? & ? & ?); repeat apply Z.add_nonneg_nonneg; auto with lia.

(** Carry representations over to the objects written since. *)
Ltac carry He :=
  lazymatch type of He with
  | extends ?v _ =>
    repeat match goal with
    | Hx : rep_str (v_arena v) _ _ |- _ => apply (rep_str_mono _ _ _ _ (proj1 He)) in Hx
    | Hx : rep_bytes (v_arena v) _ _ |- _ => apply (rep_bytes_mono _ _ _ _ (proj1 He)) in Hx
    | Hx : rep_descriptor (v_arena v) _ _ |- _ => apply (rep_descriptor_mono _ _ _ _ (proj1 He)) in Hx
    | Hx : rep_vector (rep_file (v_arena v)) _ _ _ |- _ =>
        apply (rep_vector_mono rep_file rep_file_mono _ _ _ _ (proj1 He)) in Hx
    end
  end.

Lemma file_info_offset_step info v :
  idle v ->
  fstep v (file_cost info) (file_info_offset info) (yields rep_file (file_info_to_fb info) v).
Proof.
  intros Hv. unfold file_info_offset, file_cost.
  eapply fstep_bind; [by apply string_step|intros path v1 [He1 Hpath]|].
  eapply fstep_bind; [apply string_step, He1|intros dh v2 [He2 Hdh]; carry He2|].
  eapply fstep_bind; [apply bytes_step, He2|intros root v3 [He3 Hroot]; carry He3|].
  eapply fstep_bind; [apply bytes_step, He3|intros salt v4 [He4 Hsalt]; carry He4|].
  eapply fstep_bind; [by apply (descriptor_create_step v4 _
      (default (mkFbDescriptor 0 0 0 0 None None) (fbf_descriptor (file_info_to_fb info)))); try apply He4
    |intros d v5 [He5 Hd]; carry He5|].
  eapply fstep_bind; [apply bytes_step, He5|intros tree v6 [He6 Htree]; carry He6|].
  eapply fstep_conseq; [apply (file_create_step v6 _ (file_info_to_fb info)); try done; apply He6|done|].
  { intros o v' [He Ho]. split; [|done]. eauto 10 using extends_trans. }
  all: costs.
Qed.

Lemma label_offset_step kv v :
  idle v -> fstep v (label_cost kv) (label_offset kv) (yields rep_label (label_to_fb kv) v).
Proof.
  intros Hv. unfold label_offset, label_cost.
  eapply fstep_bind; [by apply string_step|intros key v1 [He1 Hkey]|costs].
  eapply fstep_bind; [apply string_step, He1|intros value v2 [He2 Hvalue]; carry He2|costs].
  eapply fstep_conseq; [apply (label_create_step v2 _ (label_to_fb kv)); try done; apply He2|done|].
  intros o v' [He Ho]. split; [|done]. eauto using extends_trans.
Qed.

(** All the calls: the finished buffer represents the document. *)
Lemma build_metadata_step files labels :
  fstep (mkView ∅ None None) (metadata_cost files labels) (build_metadata files labels)
    (fun _ v' => exists o, v_root v' = Some o /\ rep_metadata (v_arena v') o (metadata_doc files labels)).
Proof.
  pose proof (zsum_nonneg file_cost files file_cost_nonneg).
  pose proof (zsum_nonneg label_cost labels label_cost_nonneg).
  unfold build_metadata, metadata_cost.
  eapply fstep_bind; [by apply (fmapM_step rep_file _ file_info_to_fb _ _ rep_file_mono
    (fun x v => file_info_offset_step x v) file_cost_nonneg)|intros os v1 [He1 Hos]|].
  pose proof (Forall2_length _ _ _ Hos) as Hn. rewrite length_map in Hn. rewrite <- Hn.
  eapply fstep_bind; [apply (vector_step rep_file _ os (map file_info_to_fb files)); try done;
    [apply He1|auto with cryptpilot..]|intros fv v2 [He2 Hfv]|].
  eapply fstep_bind; [apply (fmapM_step rep_label _ label_to_fb _ _ rep_label_mono
    (fun x v => label_offset_step x v) label_cost_nonneg), He2|intros ls v3 [He3 Hls]; carry He3|].
  pose proof (Forall2_length _ _ _ Hls) as Hm. rewrite length_map in Hm. rewrite <- Hm.
  eapply fstep_bind; [apply (vector_step rep_label _ ls (map label_to_fb labels)); try done;
    [apply He3|auto with cryptpilot..]|intros lv v4 [He4 Hlv]; carry He4|].
  eapply fstep_bind; [apply (metadata_create_step v4 _ (metadata_doc files labels)); try done; apply He4
    |intros m v5 [He5 Hm']|].
  { eapply fstep_conseq; [apply finish_step; try apply He5; eapply rep_table_present, Hm'|done|].
    intros [] v' ->. by exists m. }
  all: costs.
Qed.

(** A buffer that represents a document. *)
Definition buffer_of (m : FbMetadata) (buf : bytes) : Prop :=
  exists o, buf_root buf = Some o /\ rep_metadata (buf_arena buf) o m.

Lemma serialize_buffer_spec files labels :
  match serialize_buffer files labels with
  | Ok buf => buffer_of (metadata_doc files labels) buf
  | Err GrowBeyondLimit => (max_buffer_size < metadata_cost files labels)%Z
  | _ => False
  end.
Proof.
  destruct (build_metadata_step files labels) as [_ Hb]. specialize (Hb fbb_new fbb_new_view).
  unfold serialize_buffer. rewrite fbb_new_used in Hb.
  destruct (build_metadata files labels fbb_new) as [[b []]|[]|]; cbn [rbind fst]; try done.
  destruct Hb as [(o & Hr & Hm) _]. destruct (finished_data_ok b o Hr) as (buf & -> & EA & Er).
  exists o. by rewrite EA.
Qed.
End BuildProofs.

(** ** Reading gives the document *)

Section ReadProofs.
Context `{FlatBufferRuntimeSpec}.
Context (buf : bytes) (Hroot : is_Some (buf_root buf)).

Lemma read_scalar o slots ty vt dflt x :
  buf_arena buf !! o = Some (OTable slots) -> scalar_field slots ty vt dflt x ->
  get_scalar (mkTable buf (buf_loc buf o)) ty vt dflt = Ok x.
Proof.
  intros Ho Hx. destruct (get_scalar_slot buf o slots ty vt (Some dflt) Hroot Ho) as [Hn Hs].
  unfold get_scalar. simpl. unfold scalar_field in Hx. destruct (decide (x = dflt)) as [->|].
  - by rewrite Hn.
  - by rewrite (Hs x).
Qed.

Lemma read_ref {T U} (R : WIPOffset -> U -> Prop) (follow : bytes -> Z -> T) (g : T -> U) o slots vt x :
  buf_arena buf !! o = Some (OTable slots) ->
  (forall o' y, R o' y -> g (follow buf (buf_loc buf o')) = y) ->
  ref_field R slots vt x ->
  g <$> get_ref follow (mkTable buf (buf_loc buf o)) vt = x.
Proof.
  intros Ho Hg Hx. destruct (get_slot follow buf o slots vt None Hroot Ho) as [Hn Hs].
  unfold get_ref. simpl. destruct x as [y|].
  - destruct Hx as (o' & E & Hy). rewrite (Hs o' E). simpl. by rewrite (Hg o' y).
  - by rewrite Hn.
Qed.

Lemma read_str o slots vt x :
  buf_arena buf !! o = Some (OTable slots) -> ref_field (rep_str (buf_arena buf)) slots vt x ->
  get_ref follow_str (mkTable buf (buf_loc buf o)) vt = x.
Proof.
  intros Ho Hx. rewrite <- (option_fmap_id (get_ref _ _ _)).
  eapply (read_ref _ follow_str id); [done| |done]. intros o' y. by apply follow_str_at.
Qed.

Lemma read_bytes o slots vt x :
  buf_arena buf !! o = Some (OTable slots) -> ref_field (rep_bytes (buf_arena buf)) slots vt x ->
  get_ref follow_vector_u8 (mkTable buf (buf_loc buf o)) vt = x.
Proof.
  intros Ho Hx. rewrite <- (option_fmap_id (get_ref _ _ _)).
  eapply (read_ref _ follow_vector_u8 id); [done| |done]. intros o' y. by apply follow_vector_u8_at.
Qed.

(** Fields behind a reference that are themselves read. *)
Lemma read_nested {T U V} (R : WIPOffset -> U -> Prop) (follow : bytes -> Z -> T) (g : T -> V)
    (h : U -> V) o slots vt x :
  buf_arena buf !! o = Some (OTable slots) ->
  (forall o' y, R o' y -> g (follow buf (buf_loc buf o')) = h y) ->
  ref_field R slots vt x ->
  g <$> get_ref follow (mkTable buf (buf_loc buf o)) vt = h <$> x.
Proof.
  intros Ho Hg Hx.
  eapply (read_ref (fun o' z => exists y, z = h y /\ R o' y)); [done| |].
  - intros o' ? (y & -> & Hy). by apply Hg.
  - destruct x as [y|]; simpl in *; [|done]. destruct Hx as (o' & E & Hy). exists o'. eauto.
Qed.

Lemma read_descriptor_rep o d :
  rep_descriptor (buf_arena buf) o d ->
  read_descriptor (FsVerityDescriptor_follow buf (buf_loc buf o)) = Ok d.
Proof.
  intros (slots & Ho & _ & H1' & H2' & H3 & H4 & H5 & H6). unfold read_descriptor.
  unfold FsVerityDescriptor_version, FsVerityDescriptor_hash_algorithm,
    FsVerityDescriptor_log_blocksize, FsVerityDescriptor_data_size, FsVerityDescriptor_root_hash,
    FsVerityDescriptor_salt. cbn [FsVerityDescriptor_tab FsVerityDescriptor_follow].
  rewrite (read_scalar _ _ _ _ _ _ Ho H1'), (read_scalar _ _ _ _ _ _ Ho H2'),
    (read_scalar _ _ _ _ _ _ Ho H3), (read_scalar _ _ _ _ _ _ Ho H4),
    (read_bytes _ _ _ _ Ho H5), (read_bytes _ _ _ _ Ho H6).
  by destruct d.
Qed.

Lemma read_label_rep o kv :
  rep_label (buf_arena buf) o kv -> read_label (KeyValue_follow buf (buf_loc buf o)) = kv.
Proof.
  intros (slots & Ho & _ & Hk & Hv). unfold read_label, KeyValue_key, KeyValue_value.
  cbn [KeyValue_tab KeyValue_follow].
  rewrite (read_str _ _ _ _ Ho Hk), (read_str _ _ _ _ Ho Hv). by destruct kv.
Qed.

Lemma read_file_rep o f :
  rep_file (buf_arena buf) o f -> read_file_info (FileInfo_follow buf (buf_loc buf o)) = Ok f.
Proof.
  intros (slots & Ho & _ & Hp & Hd & Hm & Hh).
  unfold read_file_info, FileInfo_path, FileInfo_descriptor, FileInfo_merkle_tree_level1,
    FileInfo_descriptor_hash. cbn [FileInfo_tab FileInfo_follow].
  rewrite (read_str _ _ _ _ Ho Hp), (read_bytes _ _ _ _ Ho Hm), (read_str _ _ _ _ Ho Hh).
  pose proof (read_nested _ FsVerityDescriptor_follow read_descriptor Ok _ _ _ _ Ho
    read_descriptor_rep Hd) as E.
  destruct (get_ref _ _ _) as [t|], f as [p [d|] tr h]; simpl in E |- *; try discriminate.
  - injection E as E. by rewrite E.
  - done.
Qed.

(** A vector of tables, read element by element. *)
Lemma read_vector {T U V} (R : WIPOffset -> U -> Prop) (follow : bytes -> Z -> T) (g : T -> V)
    (h : U -> V) o l :
  (forall o' y, R o' y -> g (follow buf (buf_loc buf o')) = h y) ->
  rep_vector R (buf_arena buf) o l ->
  map g (follow_vector follow buf (buf_loc buf o)) = map h l.
Proof.
  intros Hg (os & Ho & Hl). rewrite (follow_vector_at follow buf o os Hroot Ho), map_map. clear Ho.
  induction Hl as [|o' y os l Hy _ IH]; [done|]. simpl. by rewrite (Hg o' y), IH.
Qed.

Lemma try_map_all {E A B} (g : A -> result E B) l (bs : list B) :
  map g l = map Ok bs -> try_map g l = Ok bs.
Proof.
  revert bs. induction l as [|a l IH]; intros [|b bs] Ed; simpl in *; try discriminate; [done|].
  injection Ed as -> Ed. by rewrite (IH _ Ed).
Qed.

Lemma read_metadata_rep o m :
  rep_metadata (buf_arena buf) o m -> read_metadata (Metadata_follow buf (buf_loc buf o)) = Ok m.
Proof.
  intros (slots & Ho & _ & Hv & Hf & Hl).
  unfold read_metadata, Metadata_version, Metadata_files, Metadata_labels.
  cbn [Metadata_tab Metadata_follow]. rewrite (read_scalar _ _ _ _ _ _ Ho Hv). cbn [rbind].
  pose proof (read_nested _ (follow_vector FileInfo_follow) (map read_file_info) (map Ok) _ _ _ _ Ho
    (fun o' y => read_vector _ FileInfo_follow read_file_info Ok o' y read_file_rep) Hf) as Ef.
  pose proof (read_nested _ (follow_vector KeyValue_follow) (map read_label) (map id) _ _ _ _ Ho
    (fun o' y => read_vector _ KeyValue_follow read_label id o' y read_label_rep) Hl) as El.
  rewrite El. clear El.
  assert ((map id : list FbKeyValue -> _) <$> fbm_labels m = fbm_labels m) as ->
    by (destruct (fbm_labels m); simpl; [by rewrite map_id|done]).
  destruct (get_ref _ _ _) as [t|], m as [ver [fs|] ls]; simpl in Ef |- *; try discriminate; [|done].
  injection Ef as Ef. by rewrite (try_map_all _ _ _ Ef).
Qed.
End ReadProofs.

(** ** The verifier visits the document *)

Section VisitProofs.
Context `{FlatBufferRuntimeSpec}.
Context (buf : bytes) (Hroot : is_Some (buf_root buf)).

Lemma scalar_visit o slots ty name vt dflt x :
  buf_arena buf !! o = Some (OTable slots) -> scalar_field slots ty vt dflt x ->
  tvstep buf o 0 0 visit_slot (visit_field_scalar ty name vt false).
Proof.
  intros Ho Hx. unfold scalar_field in Hx. destruct (decide (x = dflt)).
  - by apply (visit_absent buf o slots (fun _ _ => Panic) ty name vt).
  - by eapply visit_scalar.
Qed.

Lemma ref_visit {T} (R : WIPOffset -> T -> Prop) run name vt (t c : T -> Z) d o slots x :
  buf_arena buf !! o = Some (OTable slots) -> (0 <= d)%Z ->
  (forall o' y, R o' y -> vstep buf (t y) d (c y) (run (buf_loc buf o'))) ->
  ref_field R slots vt x ->
  tvstep buf o (opt_sum t x) d (visit_slot + opt_sum c x) (visit_field run name vt false).
Proof.
  intros Ho Hd Hrun Hx. destruct x as [y|]; simpl in *.
  - destruct Hx as (o' & E & Hy). eapply visit_ref; eauto.
  - destruct (visit_absent buf o slots run U8 name vt Hroot Ho Hx) as [[(? & ? & ?) Hv] _].
    split; [repeat split; lia|]. intros tv Hb Ht. specialize (Hv tv Hb Ht).
    rewrite Z.add_0_r. destruct (visit_field _ _ _ _ tv) as [tv'|e|]; [done| |done].
    limits e.
Qed.

Lemma str_visit o y :
  rep_str (buf_arena buf) o y -> vstep buf 0 0 (visit_string y) (verify_str (buf_loc buf o)).
Proof. by apply verify_str_step. Qed.

Lemma bytes_visit o y :
  rep_bytes (buf_arena buf) o y -> vstep buf 0 0 (visit_bytes y) (verify_vector_u8 (buf_loc buf o)).
Proof. by apply verify_vector_u8_step. Qed.

Lemma opt_sum_zero {T} (x : option T) : opt_sum no_table x = 0%Z.
Proof. by destruct x. Qed.

Lemma vstep_tables t t' d d' c c' m :
  vstep buf t d c m -> t = t' -> (d <= d')%Z -> (c <= c')%Z -> vstep buf t' d' c' m.
Proof. intros Hm <- Hd Hc. by eapply vstep_conseq. Qed.

(** The next field is a reference whose target is visited by [Hv] at the cost
    of [t] tables and [c] bytes. *)
Ltac visit_ref_field t c Hv E :=
  eapply fields_cons; [eapply (ref_visit _ _ _ _ t c _ _ _ _ ltac:(eassumption));
    [..|intros ? ? ?; eapply Hv; eassumption|exact E]; lia|].

Lemma descriptor_step o d :
  rep_descriptor (buf_arena buf) o d ->
  vstep buf 1 1 (descriptor_visit d) (FsVerityDescriptor_run_verifier (buf_loc buf o)).
Proof.
  intros (slots & Ho & Hs & E1 & E2 & E3 & E4 & E5 & E6). eapply vstep_tables.
  - eapply table_step; [done..|].
    do 4 (eapply fields_cons; [by eapply scalar_visit|]).
    visit_ref_field (@no_table bytes) visit_bytes bytes_visit E5.
    visit_ref_field (@no_table bytes) visit_bytes bytes_visit E6. apply fields_end.
  - rewrite !opt_sum_zero. lia.
  - lia.
  - unfold descriptor_visit. lia.
Qed.

Lemma label_step o kv :
  rep_label (buf_arena buf) o kv ->
  vstep buf 1 2 (label_visit kv) (KeyValue_run_verifier (buf_loc buf o)).
Proof.
  intros (slots & Ho & Hs & E1 & E2). eapply vstep_tables.
  - eapply table_step; [done..|].
    visit_ref_field (@no_table string) visit_string str_visit E1.
    visit_ref_field (@no_table string) visit_string str_visit E2. apply fields_end.
  - rewrite !opt_sum_zero. lia.
  - lia.
  - unfold label_visit. lia.
Qed.

Lemma file_step o f :
  rep_file (buf_arena buf) o f ->
  vstep buf (file_tables f) 2 (file_visit f) (FileInfo_run_verifier (buf_loc buf o)).
Proof.
  intros (slots & Ho & Hs & E1 & E2 & E3 & E4). eapply vstep_tables.
  - eapply table_step; [done..|].
    visit_ref_field (@no_table string) visit_string str_visit E1.
    visit_ref_field (@one_table FbDescriptor) descriptor_visit descriptor_step E2.
    visit_ref_field (@no_table bytes) visit_bytes bytes_visit E3.
    visit_ref_field (@no_table string) visit_string str_visit E4. apply fields_end.
  - rewrite !opt_sum_zero. unfold file_tables. lia.
  - lia.
  - unfold file_visit. lia.
Qed.

Lemma vector_visit_step {T} (R : WIPOffset -> T -> Prop) run (t c : T -> Z) d o l :
  (0 <= d)%Z -> (forall o' y, R o' y -> vstep buf (t y) d (c y) (run (buf_loc buf o'))) ->
  rep_vector R (buf_arena buf) o l ->
  vstep buf (zsum t l) d (vector_visit c l) (verify_vector run (buf_loc buf o)).
Proof.
  intros Hd Hrun (os & Ho & Hl). unfold vector_visit. rewrite <- (Forall2_length _ _ _ Hl).
  eapply verify_vector_step; [done..|]. eapply Forall2_impl; [exact Hl|]. auto.
Qed.

Lemma metadata_step o m :
  rep_metadata (buf_arena buf) o m ->
  vstep buf (metadata_tables m) 3 (metadata_visit m) (Metadata_run_verifier (buf_loc buf o)).
Proof.
  intros (slots & Ho & Hs & E1 & E2 & E3). eapply vstep_tables.
  - eapply table_step; [done..|]. eapply fields_cons; [by eapply scalar_visit|].
    visit_ref_field (zsum file_tables) (vector_visit file_visit)
      (fun o l => vector_visit_step _ _ file_tables file_visit 2 o l (Z.le_0_2) file_step) E2.
    visit_ref_field (zsum (@one_table FbKeyValue)) (vector_visit label_visit)
      (fun o l => vector_visit_step _ _ one_table label_visit 2 o l (Z.le_0_2) label_step) E3.
    apply fields_end.
  - unfold metadata_tables. lia.
  - lia.
  - unfold metadata_visit. lia.
Qed.
End VisitProofs.

(** ** Properties *)

Section BufferProperties.
Context `{FlatBufferRuntimeSpec}.

Lemma doc_tables files labels :
  metadata_tables (metadata_doc files labels) =
    (1 + 2 * Z.of_nat (length files) + Z.of_nat (length labels))%Z.
Proof.
  unfold metadata_tables. cbn [fbm_files fbm_labels metadata_doc opt_sum].
  rewrite !zsum_map. unfold file_tables. cbn [fbf_descriptor file_info_to_fb opt_sum].
  unfold one_table. rewrite !zsum_const. lia.
Qed.

(** Within the limits of the builder and of the verifier. *)
Definition buffer_fits (opts : VerifierOptions) (files : list FileVerityInfo) (labels : Labels)
  : Prop :=
  (metadata_cost files labels <= max_buffer_size)%Z /\
  (1 + 2 * Z.of_nat (length files) + Z.of_nat (length labels) <= max_tables opts)%Z /\
  (3 <= max_depth opts)%Z /\
  (visit_slot + metadata_visit (metadata_doc files labels) <= max_apparent_size opts)%Z.

Lemma open_buffer_of opts m buf d :
  buffer_of m buf -> (0 <= max_tables opts)%Z -> (visit_slot <= max_apparent_size opts)%Z ->
  open_buffer opts buf = Ok d -> d = m /\ (metadata_tables m <= max_tables opts)%Z.
Proof.
  intros (o & Hr & Hm) Ht Hs E. assert (is_Some (buf_root buf)) as Hroot by eauto.
  unfold open_buffer in E. apply rbind_ok in E as (t & Et & E).
  apply (root_tables _ _ _ _ _ _ _ _ _ Hr Ht Hs (metadata_step _ Hroot _ _ Hm)) in Et as [-> Hle].
  rewrite (read_metadata_rep _ Hroot _ _ Hm) in E. injection E as <-. done.
Qed.

Lemma build_and_open opts files labels :
  buffer_fits opts files labels ->
  exists buf, serialize_buffer files labels = Ok buf /\
    open_buffer opts buf = Ok (metadata_doc files labels).
Proof.
  intros (Hc & Ht & Hd & Hv). pose proof (serialize_buffer_spec files labels) as Hs.
  destruct (serialize_buffer files labels) as [buf|[]|]; try done; [|lia].
  exists buf. split; [done|]. destruct Hs as (o & Hr & Hm).
  assert (is_Some (buf_root buf)) as Hroot by eauto. unfold open_buffer, root_as_metadata_with_opts.
  assert (0 <= max_tables opts)%Z as H0t by lia.
  rewrite (root_step Metadata_follow _ _ _ _ _ _ _ Hr H0t (metadata_step _ Hroot _ _ Hm));
    [|rewrite ?doc_tables; done..].
  cbn [rbind]. by apply read_metadata_rep.
Qed.

(** C24: what [serialize_metadata] writes through the generated builders is read
    back by the generated accessors: within the limits of buffer size, tables,
    depth and apparent size, the builder returns a buffer, [flatbuffers::root]
    accepts it, and the accessors give the version, the files in order with
    their descriptors, and the labels, including scalars that are left out of
    the buffer because they equal their default. *)
Theorem buffer_roundtrip opts files labels :
  buffer_fits opts files labels ->
  exists buf, serialize_buffer files labels = Ok buf /\
    open_buffer opts buf = Ok (metadata_doc files labels).
Proof. apply build_and_open. Qed.

(** C27: building trips no assertion: the strings and vectors of a table are
    written before it is started and every table that is started is ended, so
    that the builder returns a buffer or reports that it cannot grow, the latter
    only beyond its largest size. *)
Theorem serialize_buffer_total files labels :
  match serialize_buffer files labels with
  | Ok buf => buffer_of (metadata_doc files labels) buf
  | Err GrowBeyondLimit => (max_buffer_size < metadata_cost files labels)%Z
  | _ => False
  end.
Proof. exact (serialize_buffer_spec files labels). Qed.

(** C28: the metadata of a directory can be written and then be refused: with the
    crate's default of a million tables, the buffer built for more than 499 999
    files is not accepted by [flatbuffers::root]. *)
Theorem too_many_files_refused files labels :
  (499999 < Z.of_nat (length files))%Z -> (metadata_cost files labels <= max_buffer_size)%Z ->
  exists buf, serialize_buffer files labels = Ok buf /\
    is_ok (open_buffer default_opts buf) = false.
Proof.
  intros Hn Hc. pose proof (serialize_buffer_spec files labels) as Hs.
  destruct (serialize_buffer files labels) as [buf|[]|]; try done; [|lia].
  exists buf. split; [done|].
  destruct (open_buffer default_opts buf) as [d| |] eqn:Eo; [exfalso|done..].
  apply (open_buffer_of _ _ _ _ Hs) in Eo as [_ Hle]; rewrite ?default_tables.
  - rewrite doc_tables, default_tables in Hle. lia.
  - done.
  - apply default_apparent_size.
Qed.

(** The interface of the metadata and the commands, from the generated code. *)
#[local] Instance buffer_flatbuffers : FlatBuffers := {|
  fb_finish files labels :=
    match serialize_buffer files labels with Ok b => Some b | _ => None end;
  fb_root b := match open_buffer default_opts b with Ok m => Some m | _ => None end;
  fb_fits := buffer_fits default_opts;
|}.

(** C25: the generated code implements what the metadata functions and commands
    assume of flatbuffers, so that their theorems hold of it. *)
Theorem generated_code_implements : FlatBuffersSpec.
Proof.
  constructor; simpl.
  - intros files labels b m Ef Er. pose proof (serialize_buffer_spec files labels) as Hs.
    destruct (serialize_buffer files labels) as [b'| |]; try discriminate. injection Ef as ->.
    destruct (open_buffer default_opts b) as [m'| |] eqn:Eo; try discriminate. injection Er as ->.
    apply (open_buffer_of _ _ _ _ Hs) in Eo as [-> _]; [done|by rewrite default_tables|].
    apply default_apparent_size.
  - intros files labels Hfit. destruct (build_and_open _ _ _ Hfit) as (buf & -> & Eo).
    exists buf. by rewrite Eo.
Qed.
End BufferProperties.
