(* ===== verification/FlatBuffersInstances.v ===== *)
(** * A concrete flatbuffers runtime

    A runtime whose builder keeps the objects themselves and whose buffers are
    an encoding of them: it satisfies the laws of [FlatBuffersRuntime], and the
    theorems of [MetadataBuffer] are applied to it. *)

From stdpp Require Import base list numbers option strings gmap countable.
From Stdlib Require Import ZArith Lia.
From S2P Require Import Prelude InnerHash Descriptor MerkleTree FileVerifier VerityMetadata.
From S2P Require Import FlatBuffersRuntime MetadataGenerated MetadataBuffer.

(** ** Objects as bytes *)

#[local] Instance byte_countable : Countable byte.
Proof. apply (inj_countable Byte.to_N Byte.of_N Byte.of_to_N). Defined.

#[local] Instance FbSlot_eq_dec : EqDecision FbSlot.
Proof. solve_decision. Defined.

#[local] Instance FbObj_eq_dec : EqDecision FbObj.
Proof. solve_decision. Defined.

#[local] Instance Scalar_countable : Countable Scalar.
Proof.
  apply (inj_countable (fun s => match s with U8 => 0 | U32 => 1 | U64 => 2 end)
    (fun n => match n with 0 => Some U8 | 1 => Some U32 | _ => Some U64 end)). by intros [].
Defined.

#[local] Instance FbSlot_countable : Countable FbSlot.
Proof.
  apply (inj_countable
    (fun s => match s with SScalar ty x => inl (ty, x) | SRef o => inr o end)
    (fun s : Scalar * Z + Z => Some match s with inl (ty, x) => SScalar ty x | inr o => SRef o end)).
  by intros [].
Defined.

#[local] Instance FbObj_countable : Countable FbObj.
Proof.
  apply (inj_countable
    (fun ob => match ob with
      | OString s => inl (inl s) | OBytes b => inl (inr b)
      | OVector l => inr (inl l) | OTable t => inr (inr t) end)
    (fun s : (string + bytes) + (list Z + gmap Z FbSlot) => Some match s with
      | inl (inl s) => OString s | inl (inr b) => OBytes b
      | inr (inl l) => OVector l | inr (inr t) => OTable t end)).
  by intros [].
Defined.

Fixpoint bits (p : positive) : bytes :=
  match p with
  | xH => [Byte.x02]
  | xO p => Byte.x00 :: bits p
  | xI p => Byte.x01 :: bits p
  end.

Fixpoint unbits (b : bytes) : option positive :=
  match b with
  | Byte.x00 :: b => xO <$> unbits b
  | Byte.x01 :: b => xI <$> unbits b
  | Byte.x02 :: _ => Some xH
  | _ => None
  end.

Lemma unbits_bits p : unbits (bits p) = Some p.
Proof. induction p as [p IH|p IH|]; simpl; [by rewrite IH..|done]. Qed.

Definition toy_encode (ar : Arena * WIPOffset) : bytes := bits (encode ar).
Definition toy_decode (b : bytes) : option (Arena * WIPOffset) := p ← unbits b; decode p.

Lemma toy_decode_encode ar : toy_decode (toy_encode ar) = Some ar.
Proof. unfold toy_decode, toy_encode. rewrite unbits_bits. apply decode_encode. Qed.

(** ** The builder *)

Definition toy_limit : Z := 2 ^ 31.

Record ToyBuilder := mkToyBuilder {
  tb_view : FbbView;
  tb_used : Z;
}.

(** Write [c] bytes. *)
Definition charge {A} (c : Z) (b : ToyBuilder) (v : FbbView) (a : A)
  : result FbPanic (ToyBuilder * A) :=
  if decide (tb_used b + c <= toy_limit)%Z then Ok (mkToyBuilder v (tb_used b + c), a)
  else Err GrowBeyondLimit.

Definition toy_alloc (c : Z) (ob : FbObj) (b : ToyBuilder) : result FbPanic (ToyBuilder * WIPOffset) :=
  let v := tb_view b in
  let o := fresh (dom (v_arena v)) in
  match v_open v with
  | Some _ => Err AssertNotNested
  | None => charge c b (view_alloc v o ob) o
  end.

Definition toy_slot (f : gmap VOffsetT FbSlot -> gmap VOffsetT FbSlot) (b : ToyBuilder)
  : result FbPanic (ToyBuilder * unit) :=
  let v := tb_view b in
  match v_open v with
  | Some (s, slots) => charge 8 b (mkView (v_arena v) (Some (s, f slots)) (v_root v)) tt
  | None => Err AssertNested
  end.

Definition toy_finish (o : WIPOffset) (b : ToyBuilder) : result FbPanic (ToyBuilder * unit) :=
  let v := tb_view b in
  match v_open v with
  | Some _ => Err AssertNotNested
  | None => charge 8 b (mkView (v_arena v) None (Some o)) tt
  end.

(** ** Tables *)

Definition toy_arena (buf : bytes) : Arena :=
  match toy_decode buf with Some (A, _) => A | None => ∅ end.

Definition toy_root (buf : bytes) : option WIPOffset := snd <$> toy_decode buf.

Definition toy_at (buf : bytes) (loc : WIPOffset) : option FbObj := toy_arena buf !! loc.

Definition toy_slots (buf : bytes) (loc : WIPOffset) : gmap VOffsetT FbSlot :=
  match toy_at buf loc with Some (OTable slots) => slots | _ => ∅ end.

(** ** The verifier *)

Record ToyVerifier := mkToyVerifier {
  ty_buf : bytes;
  ty_opts : VerifierOptions;
  ty_depth : Z;
  ty_tables : Z;
  ty_size : Z;
}.

Definition grow (c : Z) (v : ToyVerifier) : result InvalidFlatbuffer ToyVerifier :=
  if decide (ty_size v + c <= max_apparent_size (ty_opts v))%Z
  then Ok (mkToyVerifier (ty_buf v) (ty_opts v) (ty_depth v) (ty_tables v) (ty_size v + c))
  else Err ApparentSizeTooLarge.

Definition toy_visit_table (pos : Z) (v : ToyVerifier)
  : result InvalidFlatbuffer (ToyVerifier * Z) :=
  if decide (max_depth (ty_opts v) < ty_depth v + 1)%Z then Err DepthLimitReached
  else if decide (max_tables (ty_opts v) < ty_tables v + 1)%Z then Err TooManyTables
  else let? v := grow 20 v in
    Ok (mkToyVerifier (ty_buf v) (ty_opts v) (ty_depth v + 1) (ty_tables v + 1) (ty_size v), pos).

Definition toy_visit_field (run : Z -> ToyVerifier -> result InvalidFlatbuffer ToyVerifier)
    (name : string) (vt : VOffsetT) (required : bool) (tv : ToyVerifier * Z)
  : result InvalidFlatbuffer (ToyVerifier * Z) :=
  let? v := grow 10 (fst tv) in
  match toy_slots (ty_buf v) (snd tv) !! vt with
  | Some (SRef o) => let? v := run o v in Ok (v, snd tv)
  | Some (SScalar _ _) => Err Unaligned
  | None => if required then Err (MissingRequiredField name) else Ok (v, snd tv)
  end.

Definition toy_visit_scalar (ty : Scalar) (name : string) (vt : VOffsetT) (required : bool)
    (tv : ToyVerifier * Z) : result InvalidFlatbuffer (ToyVerifier * Z) :=
  let? v := grow 10 (fst tv) in
  match toy_slots (ty_buf v) (snd tv) !! vt with
  | Some _ => Ok (v, snd tv)
  | None => if required then Err (MissingRequiredField name) else Ok (v, snd tv)
  end.

Fixpoint visit_all (run : Z -> ToyVerifier -> result InvalidFlatbuffer ToyVerifier)
    (os : list Z) (v : ToyVerifier) : result InvalidFlatbuffer ToyVerifier :=
  match os with
  | [] => Ok v
  | o :: os => let? v := run o v in visit_all run os v
  end.

Definition toy_opts : VerifierOptions := mkVerifierOptions 64 1000000 (2 ^ 30) false.

Definition toy_root_with_opts {T} (follow : bytes -> Z -> T)
    (run : Z -> ToyVerifier -> result InvalidFlatbuffer ToyVerifier) (opts : VerifierOptions)
    (buf : bytes) : result InvalidFlatbuffer T :=
  match toy_root buf with
  | Some o => let? _ := run o (mkToyVerifier buf opts 0 0 0) in Ok (follow buf o)
  | None => Err RangeOutOfBounds
  end.

#[local] Instance toy_runtime : FlatBufferRuntime := {|
  FlatBufferBuilder := ToyBuilder;
  fbb_new := mkToyBuilder (mkView ∅ None None) 0;
  start_table b :=
    match v_open (tb_view b) with
    | Some _ => Err AssertNotNested
    | None => Ok (mkToyBuilder (mkView (v_arena (tb_view b)) (Some (0%Z, ∅)) (v_root (tb_view b)))
                    (tb_used b), 0%Z)
    end;
  push_slot ty vt x dflt := toy_slot (fun slots => slot_push slots ty vt x dflt);
  push_slot_always vt o := toy_slot (fun slots => <[vt := SRef o]> slots);
  end_table s b :=
    match v_open (tb_view b) with
    | Some (_, slots) =>
      let o := fresh (dom (v_arena (tb_view b))) in
      charge 32 b (view_alloc (tb_view b) o (OTable slots)) o
    | None => Err AssertNested
    end;
  create_string s := toy_alloc (Z.of_nat (String.length s) + 5) (OString s);
  create_vector_u8 b := toy_alloc (Z.of_nat (length b) + 4) (OBytes b);
  create_vector l := toy_alloc (4 * Z.of_nat (length l) + 4) (OVector l);
  fbb_finish o _ := toy_finish o;
  fbb_finish_size_prefixed o _ := toy_finish o;
  finished_data b :=
    match v_root (tb_view b) with
    | Some o => Ok (toy_encode (v_arena (tb_view b), o))
    | None => Err NotFinished
    end;
  table_get_scalar buf loc ty vt d :=
    match toy_slots buf loc !! vt with Some (SScalar _ x) => Some x | _ => d end;
  table_get T follow buf loc vt d :=
    match toy_slots buf loc !! vt with Some (SRef o) => Some (follow buf o) | _ => d end;
  follow_str buf loc :=
    match toy_at buf loc with Some (OString s) => s | _ => EmptyString end;
  follow_vector_u8 buf loc := match toy_at buf loc with Some (OBytes b) => b | _ => [] end;
  follow_vector T follow buf loc :=
    match toy_at buf loc with Some (OVector l) => map (follow buf) l | _ => [] end;
  Verifier := ToyVerifier;
  TableVerifier := ToyVerifier * Z;
  visit_table := toy_visit_table;
  visit_field_scalar := toy_visit_scalar;
  visit_field := toy_visit_field;
  tv_finish tv := mkToyVerifier (ty_buf (fst tv)) (ty_opts (fst tv)) (ty_depth (fst tv) - 1)
    (ty_tables (fst tv)) (ty_size (fst tv));
  verify_str loc v :=
    match toy_at (ty_buf v) loc with
    | Some (OString s) => grow (Z.of_nat (String.length s) + 5) v
    | _ => Err Utf8Error
    end;
  verify_vector_u8 loc v :=
    match toy_at (ty_buf v) loc with
    | Some (OBytes b) => grow (Z.of_nat (length b) + 4) v
    | _ => Err RangeOutOfBounds
    end;
  verify_vector run loc v :=
    match toy_at (ty_buf v) loc with
    | Some (OVector l) => let? v := grow (4 * Z.of_nat (length l) + 4) v in visit_all run l v
    | _ => Err RangeOutOfBounds
    end;
  default_opts := toy_opts;
  root_with_opts T := toy_root_with_opts;
  size_prefixed_root_with_opts T := toy_root_with_opts;
  root_unchecked T follow buf := follow buf (default 0%Z (toy_root buf));
  size_prefixed_root_unchecked T follow buf := follow buf (default 0%Z (toy_root buf));
|}.

#[local] Instance toy_costs : FbCosts := {|
  max_buffer_size := toy_limit;
  cost_string s := (Z.of_nat (String.length s) + 5)%Z;
  cost_bytes b := (Z.of_nat (length b) + 4)%Z;
  cost_vector n := (4 * Z.of_nat n + 4)%Z;
  cost_slot := 8;
  cost_table := 32;
  cost_finish := 8;
  visit_string s := (Z.of_nat (String.length s) + 5)%Z;
  visit_bytes b := (Z.of_nat (length b) + 4)%Z;
  visit_vector n := (4 * Z.of_nat n + 4)%Z;
  visit_slot := 10;
  visit_header := 20;
|}.

#[local] Instance toy_observers : FbObservers := {|
  fbb_view := tb_view;
  fbb_used := tb_used;
  buf_arena := toy_arena;
  buf_loc _ o := o;
  buf_root := toy_root;
  ver_buf := ty_buf;
  ver_opts := ty_opts;
  ver_depth := ty_depth;
  ver_tables v := Z.min (ty_tables v) (max_tables (ty_opts v));
  ver_size := ty_size;
  tv_verifier := fst;
  tv_table := snd;
|}.

(** ** The laws hold *)

Lemma charge_step {A} (v : FbbView) c (f : ToyBuilder -> FbbView) (g : ToyBuilder -> A)
    (Q : A -> FbbView -> Prop) (m : Fbb A) :
  (0 <= c)%Z -> (forall b, tb_view b = v -> m b = charge c b (f b) (g b) /\ Q (g b) (f b)) ->
  fstep v c m Q.
Proof.
  intros Hc Hm. split; [done|]. intros b Hb. destruct (Hm b Hb) as [-> HQ]. unfold charge.
  case_decide; simpl in *; [split; [done|lia]|lia].
Qed.

Lemma toy_alloc_step v c ob :
  (0 <= c)%Z -> v_open v = None -> fstep v c (toy_alloc c ob) (allocates v ob).
Proof.
  intros Hc Ho.
  apply (charge_step v c (fun b => view_alloc (tb_view b) (fresh (dom (v_arena (tb_view b)))) ob)
    (fun b => fresh (dom (v_arena (tb_view b))))); [done|].
  intros b <-. unfold toy_alloc. rewrite Ho. split; [done|]. split; [|done].
  apply not_elem_of_dom, is_fresh.
Qed.

Lemma toy_slot_step v s slots f :
  v_open v = Some (s, slots) ->
  fstep v 8 (toy_slot f) (fun _ v' => v' = mkView (v_arena v) (Some (s, f slots)) (v_root v)).
Proof.
  intros Ho. apply (charge_step v 8 (fun b => mkView (v_arena v) (Some (s, f slots)) (v_root v))
    (fun _ => tt)); [done|]. intros b Hb. unfold toy_slot. by rewrite Hb, Ho.
Qed.

Lemma grow_step buf c : (0 <= c)%Z -> vstep buf 0 0 c (grow c).
Proof.
  intros Hc. split; [repeat split; lia|]. intros v Hv. unfold grow. simpl.
  case_decide; simpl; [repeat split; simpl; try done; lia|lia].
Qed.

(** Visits one after the other. *)
Lemma vstep_bind buf t1 c1 t2 c2 d m k :
  vstep buf t1 d c1 m -> vstep buf t2 d c2 k ->
  vstep buf (t1 + t2) d (c1 + c2) (fun v => rbind (m v) k).
Proof.
  intros [(? & ? & ?) Hm] [(? & ? & ?) Hk]. split; [repeat split; lia|]. intros v Hv.
  specialize (Hm v Hv). destruct (m v) as [v'|e|]; cbn [rbind]; [|limits e|done].
  destruct Hm as (E1 & E2 & E3 & E4 & E5). specialize (Hk v' ltac:(congruence)).
  destruct (k v') as [v''|e|]; [|limits e|done].
  destruct Hk as (F1 & F2 & F3 & F4 & F5). repeat split; try congruence; lia.
Qed.

Lemma visit_all_step {A} buf run os (xs : list A) t c d :
  (0 <= d)%Z -> Forall2 (fun o x => vstep buf (t x) d (c x) (run o)) os xs ->
  vstep buf (zsum t xs) d (zsum c xs) (visit_all run os).
Proof.
  intros Hd. induction 1 as [|o x os xs Hx _ IH]; simpl.
  - split; [repeat split; lia|]. intros v Hv. repeat split; try done; lia.
  - by apply vstep_bind.
Qed.

Lemma toy_slots_at buf o slots :
  toy_arena buf !! o = Some (OTable slots) -> toy_slots buf o = slots.
Proof. unfold toy_slots, toy_at. by intros ->. Qed.

(** A field visited by [k] after the bytes of the slot. *)
Lemma field_step buf o t d c (m : ToyVerifier * Z -> result InvalidFlatbuffer (ToyVerifier * Z)) k :
  vstep buf t d c k ->
  (forall tv, ty_buf (fst tv) = buf -> snd tv = o ->
    m tv = rbind (grow 10 (fst tv)) (fun v => rbind (k v) (fun v => Ok (v, snd tv)))) ->
  tvstep buf o t d (10 + c) m.
Proof.
  intros Hk Hm. pose proof Hk as [(? & ? & ?) _].
  pose proof (vstep_bind buf 0 10 t c d (grow 10) k) as Hs.
  destruct Hs as [_ Hs]; [eapply vstep_conseq; [by apply grow_step|done..]|done|].
  split; [repeat split; lia|]. intros tv Hb Ho. rewrite (Hm tv Hb Ho). specialize (Hs (fst tv) Hb).
  destruct (grow 10 (fst tv)) as [v1|e|]; cbn [rbind] in *; [|limits e|done].
  destruct (k v1) as [v2|e|]; cbn [rbind] in *; [|limits e|done]. by split.
Qed.

Lemma skip_step buf : vstep buf 0 0 0 (fun v => Ok v).
Proof. split; [repeat split; lia|]. intros v Hv. repeat split; try done; lia. Qed.

Lemma grow_buf c v v' : grow c v = Ok v' -> ty_buf v' = ty_buf v.
Proof. unfold grow. case_decide; [|done]. by intros [= <-]. Qed.

(** Evaluate a field's visit up to the slot. *)
Lemma visit_field_at run name vt req (tv : ToyVerifier * Z) (r : ToyVerifier -> result InvalidFlatbuffer ToyVerifier) :
  match toy_slots (ty_buf (fst tv)) (snd tv) !! vt with
  | Some (SRef o') => r = run o'
  | Some (SScalar _ _) => False
  | None => req = false /\ r = fun v => Ok v
  end ->
  toy_visit_field run name vt req tv =
    rbind (grow 10 (fst tv)) (fun v => rbind (r v) (fun v => Ok (v, snd tv))).
Proof.
  intros Hr. unfold toy_visit_field. destruct (grow 10 (fst tv)) as [v| |] eqn:Eg; [|done..].
  cbn [rbind]. rewrite (grow_buf _ _ _ Eg).
  destruct (toy_slots _ _ !! vt) as [[]|]; [done|by subst|by destruct Hr as [-> ->]].
Qed.

Lemma visit_scalar_at ty name vt req (tv : ToyVerifier * Z) :
  (toy_slots (ty_buf (fst tv)) (snd tv) !! vt = None -> req = false) ->
  toy_visit_scalar ty name vt req tv =
    rbind (grow 10 (fst tv)) (fun v => rbind (Ok v) (fun v => Ok (v, snd tv))).
Proof.
  intros Hr. unfold toy_visit_scalar. destruct (grow 10 (fst tv)) as [v| |] eqn:Eg; [|done..].
  cbn [rbind]. rewrite (grow_buf _ _ _ Eg).
  destruct (toy_slots _ _ !! vt); [done|]. by rewrite Hr.
Qed.

Lemma toy_visit_table_step buf v o :
  ty_buf v = buf ->
  match toy_visit_table o v with
  | Ok tv => snd tv = o /\ ty_buf (fst tv) = buf /\ ty_opts (fst tv) = ty_opts v /\
      ty_depth (fst tv) = (ty_depth v + 1)%Z /\
      ver_tables (fst tv : Verifier) = (ver_tables (v : Verifier) + 1)%Z /\
      (ty_size (fst tv) <= ty_size v + 20)%Z
  | Err e => within (v : Verifier) 1 1 20 e
  | Panic => False
  end.
Proof.
  intros Hv. unfold toy_visit_table, grow. simpl.
  repeat case_decide; simpl; try lia. repeat split; try done; lia.
Qed.

Lemma toy_spec : FlatBufferRuntimeSpec.
Proof.
  constructor; simpl; try done.
  - intros v s Ho _. apply toy_alloc_step; [lia|done].
  - intros v b Ho _. apply toy_alloc_step; [lia|done].
  - intros v l Ho _ _. apply toy_alloc_step; [lia|done].
  - intros v Ho Hr. split; [done|]. intros b Hb. simpl in *. rewrite Hb, Ho, Hr. simpl. split; [done|lia].
  - intros v s slots ty vt x dflt Ho _. by apply (toy_slot_step v s slots (fun sl => slot_push sl ty vt x dflt)).
  - intros v s slots vt o Ho _ _. by apply (toy_slot_step v s slots (fun sl => <[vt := SRef o]> sl)).
  - intros v s slots Ho _.
    apply (charge_step v 32 (fun b => view_alloc (tb_view b) (fresh (dom (v_arena (tb_view b)))) (OTable slots))
      (fun b => fresh (dom (v_arena (tb_view b))))); [done|].
    intros b <-. rewrite Ho. split; [done|]. split; [|done]. apply not_elem_of_dom, is_fresh.
  - intros v o ident Ho _ _. apply (charge_step v 8 (fun b => mkView (v_arena v) None (Some o)) (fun _ => tt));
      [done|]. intros b Hb. unfold toy_finish. by rewrite Hb, Ho.
  - intros b o Hr. rewrite Hr. eexists. split; [done|].
    unfold toy_arena, toy_root. by rewrite toy_decode_encode.
  - intros buf loc ty vt d. repeat case_match; eauto.
  - intros buf o slots ty vt d _ Ho. rewrite (toy_slots_at _ _ _ Ho).
    split; [by intros ->|by intros x ->].
  - intros T follow buf o slots vt d _ Ho. rewrite (toy_slots_at _ _ _ Ho).
    split; [by intros ->|by intros x ->].
  - intros buf o s _ Ho. unfold toy_at. by rewrite Ho.
  - intros buf o s _ Ho. unfold toy_at. by rewrite Ho.
  - intros T follow buf o s _ Ho. unfold toy_at. by rewrite Ho.
  - intros v. lia.
  - intros buf o slots v _ Ho _ Hv. by apply toy_visit_table_step.
  - intros buf o slots run ty name vt _ Ho Hs. split.
    + apply (field_step buf o 0 0 0 _ (fun v => Ok v)); [apply skip_step|].
      intros tv Hb Et. apply visit_field_at. subst. by rewrite (toy_slots_at _ _ _ Ho), Hs.
    + apply (field_step buf o 0 0 0 _ (fun v => Ok v)); [apply skip_step|].
      intros tv Hb Et. by apply visit_scalar_at.
  - intros buf o slots ty x name vt req _ Ho Hs.
    apply (field_step buf o 0 0 0 _ (fun v => Ok v)); [apply skip_step|].
    intros tv Hb Et. apply visit_scalar_at. subst. by rewrite (toy_slots_at _ _ _ Ho), Hs.
  - intros buf o slots o' run name vt req t d c _ Ho Hs Hv.
    apply (field_step buf o t d c _ (run o')); [done|].
    intros tv Hb Et. apply visit_field_at. subst. by rewrite (toy_slots_at _ _ _ Ho), Hs.
  - intros buf o s _ Ho. destruct (grow_step buf (Z.of_nat (String.length s) + 5)) as [Hn Hg]; [lia|].
    split; [done|]. intros v Hv. simpl in *. unfold toy_at. rewrite Hv, Ho. by apply Hg.
  - intros buf o b _ Ho. destruct (grow_step buf (Z.of_nat (length b) + 4)) as [Hn Hg]; [lia|].
    split; [done|]. intros v Hv. simpl in *. unfold toy_at. rewrite Hv, Ho. by apply Hg.
  - intros A buf o l run xs t c d _ Ho Hd Hl.
    pose proof (vstep_bind buf 0 (4 * Z.of_nat (length l) + 4) (zsum t xs) (zsum c xs) d
      (grow (4 * Z.of_nat (length l) + 4)) (visit_all run l)) as [Hn Hg].
    + eapply vstep_conseq; [apply grow_step; lia|done|done].
    + by apply visit_all_step.
    + split; [done|]. intros v Hv. simpl in *. unfold toy_at. rewrite Hv, Ho. by apply Hg.
  - intros T follow run opts buf o Hr Hs Hm. exists (mkToyVerifier buf opts 0 0 0).
    simpl. repeat split; try lia. unfold toy_root_with_opts. by rewrite Hr.
Qed.
#[local] Existing Instance toy_spec.

(** ** Applications *)

Definition info_x : FileVerityInfo :=
  mkInfo "a/b" (mkDescriptor 1 1 12 0 [Byte.x01; Byte.x02] []) [[Byte.x03]] "h".

Lemma fits_x : buffer_fits toy_opts [info_x; info_x] [("k", "v")].
Proof. vm_compute. repeat split; discriminate. Qed.

Lemma buffer_roundtrip_witness :
  exists buf, serialize_buffer [info_x; info_x] [("k", "v")] = Ok buf /\
    open_buffer toy_opts buf = Ok (metadata_doc [info_x; info_x] [("k", "v")]).
Proof. exact (buffer_roundtrip toy_opts [info_x; info_x] [("k", "v")] fits_x). Defined.

Lemma serialize_buffer_total_witness :
  match serialize_buffer [info_x] [] with
  | Ok buf => buffer_of (metadata_doc [info_x] []) buf
  | Err GrowBeyondLimit => (max_buffer_size < metadata_cost [info_x] [])%Z
  | _ => False
  end.
Proof. exact (@serialize_buffer_total toy_runtime toy_observers toy_costs toy_spec [info_x] []). Defined.

Lemma zsum_replicate {A} (f : A -> Z) n a : zsum f (replicate n a) = (Z.of_nat n * f a)%Z.
Proof. induction n as [|n IH]; [done|]. cbn [replicate zsum foldr]. unfold zsum in IH. rewrite IH. lia. Qed.

Definition half_million : list FileVerityInfo := replicate (Z.to_nat 500000) info_x.

Lemma too_many_files_refused_witness :
  exists buf, serialize_buffer half_million [] = Ok buf /\
    is_ok (open_buffer default_opts buf) = false.
Proof.
  apply (too_many_files_refused half_million []).
  - unfold half_million. rewrite length_replicate, Z2Nat.id by lia. lia.
  - unfold metadata_cost, half_million. rewrite zsum_replicate, length_replicate.
    assert (file_cost info_x <= 200)%Z by (vm_compute; discriminate).
    cbn [cost_vector toy_costs zsum foldr length cost_slot cost_table cost_finish max_buffer_size].
    rewrite Z2Nat.id by lia. unfold toy_limit. lia.
Defined.

Lemma generated_code_implements_witness : @FlatBuffersSpec buffer_flatbuffers.
Proof. exact generated_code_implements. Defined.
