(* ===== verification/Sys.v ===== *)
(** * Programs and the system they run on

    The commands of [cryptpilot-core], [cryptpilot-crypt] and [cryptpilot-fde]
    are sequences of calls of the system: files, processes, libcryptsetup, key
    services.  A command is a [prog]: a tree of calls whose branches depend on
    the answers.  A [Handler] answers the calls in some world; [run] executes a
    program, [run_n] stops it after a number of calls (a crash or a kill), and
    [all_ops] speaks of the calls a program can make whatever the answers. *)

From stdpp Require Import base list strings.
From Stdlib Require Import ZArith Lia.
From S2P Require Import Prelude RustString.

(** ** Programs *)

Inductive prog (E : Type -> Type) (A : Type) : Type :=
| Ret (a : A)
| Vis (R : Type) (e : E R) (k : R -> prog E A).
Arguments Ret {E A} a.
Arguments Vis {E A R} e k.

Section Prog.
Context {E : Type -> Type}.

Fixpoint pbind {A B} (p : prog E A) (f : A -> prog E B) : prog E B :=
  match p with
  | Ret a => f a
  | Vis e k => Vis e (fun r => pbind (k r) f)
  end.

(** One call. *)
Definition call {R} (e : E R) : prog E R := Vis e Ret.

(** Sequencing of fallible programs: [p.await?]. *)
Definition rpbind {F A B} (p : prog E (result F A)) (f : A -> prog E (result F B)) :
  prog E (result F B) :=
  pbind p (fun r => match r with
                    | Ok a => f a
                    | Err e => Ret (Err e)
                    | Panic => Ret Panic
                    end).

(** The calls of a program, whatever the answers, satisfy [P]. *)
Fixpoint all_ops {A} (P : forall R, E R -> Prop) (p : prog E A) : Prop :=
  match p with
  | Ret _ => True
  | Vis e k => P _ e /\ forall r, all_ops P (k r)
  end.

Lemma all_ops_bind {A B} P (p : prog E A) (f : A -> prog E B) :
  all_ops P p -> (forall a, all_ops P (f a)) -> all_ops P (pbind p f).
Proof. induction p as [a|R e k IH]; simpl; [auto|]. intros [He Hk] Hf. split; auto. Qed.

Lemma all_ops_rpbind {F A B} P (p : prog E (result F A)) (f : A -> prog E (result F B)) :
  all_ops P p -> (forall a, all_ops P (f a)) -> all_ops P (rpbind p f).
Proof. intros Hp Hf. apply all_ops_bind; [done|]. intros [a|e|]; simpl; auto. Qed.

Lemma all_ops_weaken {A} (P Q : forall R, E R -> Prop) (p : prog E A) :
  (forall R e, P R e -> Q R e) -> all_ops P p -> all_ops Q p.
Proof. intros HPQ. induction p as [a|R e k IH]; simpl; [auto|]. intros [He Hk]. auto. Qed.

(** Every result a program can return satisfies [Q]. *)
Fixpoint all_rets {A} (Q : A -> Prop) (p : prog E A) : Prop :=
  match p with
  | Ret a => Q a
  | Vis _ k => forall r, all_rets Q (k r)
  end.

Lemma all_rets_bind {A B} (Q : A -> Prop) (Q' : B -> Prop) (p : prog E A) (f : A -> prog E B) :
  all_rets Q p -> (forall a, Q a -> all_rets Q' (f a)) -> all_rets Q' (pbind p f).
Proof. induction p as [a|R e k IH]; simpl; auto. Qed.

Lemma all_rets_true {A} (Q : A -> Prop) (p : prog E A) : (forall a, Q a) -> all_rets Q p.
Proof. intros HQ. induction p as [a|R e k IH]; simpl; auto. Qed.

Lemma all_ops_bind_rets {A B} P (Q : A -> Prop) (p : prog E A) (f : A -> prog E B) :
  all_ops P p -> all_rets Q p -> (forall a, Q a -> all_ops P (f a)) -> all_ops P (pbind p f).
Proof. induction p as [a|R e k IH]; simpl; [auto|]. intros [He Hk] HQ Hf. split; auto. Qed.

Lemma all_ops_call {R} (P : forall R, E R -> Prop) (e : E R) : P R e -> all_ops P (call e).
Proof. simpl. auto. Qed.

(** The calls of a program satisfy [P], for all answers that satisfy [G]. *)
Fixpoint all_ops_if {A} (G : forall R, E R -> R -> Prop) (P : forall R, E R -> Prop) (p : prog E A) : Prop :=
  match p with
  | Ret _ => True
  | Vis e k => P _ e /\ forall r, G _ e r -> all_ops_if G P (k r)
  end.

Lemma all_ops_all_ops_if {A} G P (p : prog E A) : all_ops P p -> all_ops_if G P p.
Proof. induction p as [a|R e k IH]; simpl; [auto|]. intros [He Hk]. auto. Qed.

Lemma all_ops_if_bind {A B} G P (p : prog E A) (f : A -> prog E B) :
  all_ops_if G P p -> (forall a, all_ops_if G P (f a)) -> all_ops_if G P (pbind p f).
Proof. induction p as [a|R e k IH]; simpl; [auto|]. intros [He Hk] Hf. split; auto. Qed.

Lemma all_ops_if_rpbind {F A B} G P (p : prog E (result F A)) (f : A -> prog E (result F B)) :
  all_ops_if G P p -> (forall a, all_ops_if G P (f a)) -> all_ops_if G P (rpbind p f).
Proof. intros Hp Hf. apply all_ops_if_bind; [done|]. intros [a|e|]; simpl; auto. Qed.

Lemma all_ops_if_weaken {A} G (P Q : forall R, E R -> Prop) (p : prog E A) :
  (forall R e, P R e -> Q R e) -> all_ops_if G P p -> all_ops_if G Q p.
Proof. intros HPQ. induction p as [a|R e k IH]; simpl; [auto|]. intros [He Hk]. auto. Qed.

Lemma all_ops_if_bind_rets {A B} G P (Q : A -> Prop) (p : prog E A) (f : A -> prog E B) :
  all_ops_if G P p -> all_rets Q p -> (forall a, Q a -> all_ops_if G P (f a)) -> all_ops_if G P (pbind p f).
Proof. induction p as [a|R e k IH]; simpl; [auto|]. intros [He Hk] HQ Hf. split; auto. Qed.
End Prog.

Notation "'let>' x ':=' p 'in' k" := (pbind p (fun x => k))
  (at level 10, x pattern, p at level 100, k at level 200) : rust_scope.
Notation "'let*' x ':=' p 'in' k" := (rpbind p (fun x => k))
  (at level 10, x pattern, p at level 100, k at level 200) : rust_scope.

(** ** Running *)

(** A call with its answer. *)
Inductive event (E : Type -> Type) : Type :=
| Ev (R : Type) (e : E R) (r : R).
Arguments Ev {E R} e r.

Class Handler (E : Type -> Type) (W : Type) := handle : forall R, E R -> W -> R * W.
Arguments handle {E W _ R} e w.

Section Run.
Context {E : Type -> Type} {W : Type} `{!Handler E W}.

Fixpoint run {A} (p : prog E A) (w : W) : A * W :=
  match p with
  | Ret a => (a, w)
  | Vis e k => let '(r, w) := handle e w in run (k r) w
  end.

(** The world after [n] calls, and the result when the program is through. *)
Fixpoint run_n {A} (n : nat) (p : prog E A) (w : W) {struct p} : option A * W :=
  match p with
  | Ret a => (Some a, w)
  | Vis e k =>
    match n with
    | O => (None, w)
    | S n => let '(r, w) := handle e w in run_n n (k r) w
    end
  end.

Lemma run_bind {A B} (p : prog E A) (f : A -> prog E B) w :
  run (pbind p f) w = let '(a, w) := run p w in run (f a) w.
Proof. revert w. induction p as [a|R e k IH]; intros w; simpl; [done|]. destruct (handle e w). auto. Qed.

Lemma run_rpbind {F A B} (p : prog E (result F A)) (f : A -> prog E (result F B)) w :
  run (rpbind p f) w =
    match run p w with
    | (Ok a, w) => run (f a) w
    | (Err e, w) => (Err e, w)
    | (Panic, w) => (Panic, w)
    end.
Proof. unfold rpbind. rewrite run_bind. by destruct (run p w) as [[] ?]. Qed.

Lemma run_call {R} (e : E R) w : run (call e) w = handle e w.
Proof. simpl. by destruct (handle e w). Qed.

(** A program whose calls never change the world leaves it as it is. *)
Lemma run_all_ops {A} (P : forall R, E R -> Prop) (I : W -> W -> Prop) (p : prog E A) w :
  (forall w, I w w) -> (forall u v w, I u v -> I v w -> I u w) ->
  (forall R e w, P R e -> I w (snd (handle (R:=R) e w))) ->
  all_ops P p -> I w (snd (run p w)).
Proof.
  intros Hrefl Htrans Hstep. revert w. induction p as [a|R e k IH]; intros w; simpl; [done|].
  intros [He Hk]. specialize (Hstep R e w He). destruct (handle e w) as [r w1] eqn:Er.
  eapply Htrans; [exact Hstep|]. apply IH, Hk.
Qed.

(** What holds of a step holds at every crash point. *)
Lemma run_n_all_ops {A} (P : forall R, E R -> Prop) (I : W -> W -> Prop) (p : prog E A) n w :
  (forall w, I w w) -> (forall u v w, I u v -> I v w -> I u w) ->
  (forall R e w, P R e -> I w (snd (handle (R:=R) e w))) ->
  all_ops P p -> I w (snd (run_n n p w)).
Proof.
  intros Hrefl Htrans Hstep. revert n w. induction p as [a|R e k IH]; intros n w; simpl; [done|].
  intros [He Hk]. destruct n as [|n]; [done|].
  specialize (Hstep R e w He). destruct (handle e w) as [r w1] eqn:Er.
  eapply Htrans; [exact Hstep|]. apply IH, Hk.
Qed.

(** The same where the answers are known to satisfy [G] as long as [J] holds
    of the world. *)
Lemma run_n_all_ops_if {A} (G : forall R, E R -> R -> Prop) (P : forall R, E R -> Prop)
    (J : W -> Prop) (I : W -> W -> Prop) (p : prog E A) n w :
  (forall w, I w w) -> (forall u v w, I u v -> I v w -> I u w) ->
  (forall R e w, J w -> P R e ->
     G R e (fst (handle e w)) /\ J (snd (handle e w)) /\ I w (snd (handle e w))) ->
  J w -> all_ops_if G P p -> I w (snd (run_n n p w)).
Proof.
  intros Hrefl Htrans Hstep. revert n w. induction p as [a|R e k IH]; intros n w; simpl; [done|].
  intros HJ [He Hk]. destruct n as [|n]; [done|].
  destruct (Hstep R e w HJ He) as (HG & HJ' & HI). destruct (handle e w) as [r w1] eqn:Er.
  eapply Htrans; [exact HI|]. apply IH; [done|]. by apply Hk.
Qed.

(** A crash of [pbind p f] is a crash of [p] or of [f] from where [p] ends. *)
Lemma run_n_bind {A B} (p : prog E A) (f : A -> prog E B) n w :
  (exists w', run_n n p w = (None, w') /\ run_n n (pbind p f) w = (None, w')) \/
  (exists m, run_n n (pbind p f) w = run_n m (f (fst (run p w))) (snd (run p w))).
Proof.
  revert n w. induction p as [a|R e k IH]; intros n w; [right; by exists n|].
  simpl. destruct n as [|n]; [left; by eexists|].
  destruct (handle e w) as [r w1]. apply IH.
Qed.

Lemma run_n_rpbind {F A B} (p : prog E (result F A)) (f : A -> prog E (result F B)) n w :
  (exists w', run_n n p w = (None, w') /\ run_n n (rpbind p f) w = (None, w')) \/
  (exists m, run_n n (rpbind p f) w =
    match run p w with
    | (Ok a, w1) => run_n m (f a) w1
    | (Err e, w1) => (Some (Err e), w1)
    | (Panic, w1) => (Some Panic, w1)
    end).
Proof.
  unfold rpbind. match goal with |- context [pbind p ?g] => destruct (run_n_bind p g n w) as [H|[m H]] end;
    [by left|right]. exists m. rewrite H. by destruct (run p w) as [[a|e|] w1].
Qed.

(** Enough calls complete the program. *)
Lemma run_n_complete {A} (p : prog E A) w :
  exists n, run_n n p w = (Some (fst (run p w)), snd (run p w)).
Proof.
  revert w. induction p as [a|R e k IH]; intros w; simpl; [by exists O|].
  destruct (handle e w) as [r w1] eqn:Er. destruct (IH r w1) as [n Hn]. by exists (S n).
Qed.

Lemma run_n_assoc {A B C} (p : prog E A) (g : A -> prog E B) (f : B -> prog E C) n w :
  run_n n (pbind (pbind p g) f) w = run_n n (pbind p (fun a => pbind (g a) f)) w.
Proof.
  revert n w. induction p as [a|R e k IH]; intros n w; simpl; [done|].
  destruct n as [|n]; [done|]. destruct (handle e w). auto.
Qed.

(** When [p] is through, [f] has begun. *)
Lemma run_n_bind_done {A B} (p : prog E A) (f : A -> prog E B) n w a w1 :
  run_n n p w = (Some a, w1) -> run p w = (a, w1) /\ exists m, run_n n (pbind p f) w = run_n m (f a) w1.
Proof.
  revert n w. induction p as [x|R e k IH]; intros n w; simpl; [intros [= -> ->]; eauto|].
  destruct n as [|n]; [done|]. destruct (handle e w) as [r w2]. apply IH.
Qed.

(** Something that holds at every point of [p], and then of [f], holds at
    every point of their sequence. *)
Lemma run_n_inv_rpbind {F A B} (I : W -> Prop) (p : prog E (result F A)) (f : A -> prog E (result F B)) w :
  (forall n, I (snd (run_n n p w))) ->
  (forall a w1, I w1 -> run p w = (Ok a, w1) -> forall n, I (snd (run_n n (f a) w1))) ->
  forall n, I (snd (run_n n (rpbind p f) w)).
Proof.
  intros Hp Hf n. destruct (run_n_rpbind p f n w) as [(w' & E1 & E2)|[m Em]].
  - rewrite E2. specialize (Hp n). by rewrite E1 in Hp.
  - rewrite Em. destruct (run_n_complete p w) as [k Hk]. specialize (Hp k). rewrite Hk in Hp.
    cbn [snd] in Hp. destruct (run p w) as [[a|e|] w1]; cbn [snd] in *; [by apply Hf|done..].
Qed.

(** The calls of a run with their answers. *)
Fixpoint trace {A} (p : prog E A) (w : W) : list (event E) :=
  match p with
  | Ret _ => []
  | Vis e k => let '(r, w) := handle e w in Ev e r :: trace (k r) w
  end.

Lemma trace_bind {A B} (p : prog E A) (f : A -> prog E B) w :
  trace (pbind p f) w = trace p w ++ (let '(a, w) := run p w in trace (f a) w).
Proof.
  revert w. induction p as [a|R e k IH]; intros w; simpl; [done|].
  destruct (handle e w) as [r w1]. simpl. by rewrite IH.
Qed.

Lemma trace_rpbind {F A B} (p : prog E (result F A)) (f : A -> prog E (result F B)) w :
  trace (rpbind p f) w = trace p w ++ (match run p w with (Ok a, w) => trace (f a) w | _ => [] end).
Proof. unfold rpbind. rewrite trace_bind. by destruct (run p w) as [[] ?]. Qed.

End Run.

(** ** The calls *)

(** Errors carried by [anyhow::Error]; [context] only adds to the message and
    is left out. *)
Inductive anyhow : Type :=
| Io (errno : Z)
| Libcryptsetup (errno : Z)
| Dialoguer
| UnexpectedEof
| Decode
| Service
| KilledBySignal
| Bail (message : string).

(** [std::process::Output]; no code when a signal ended the process. *)
Record Output := mkOutput {
  status_code : option Z;
  out_stdout : bytes;
  out_stderr : bytes;
}.

(** The fields of [CryptParamsLuks2] the crate sets. *)
Record CryptParamsLuks2 := mkCryptParams {
  cp_integrity : option string;
  cp_sector_size : Z;
  cp_subsystem : option string;
}.

(** An event of blktrace: the fields of [blk_io_trace] mkfs looks at. *)
Record blk_io_trace := mkTrace {
  bt_action : Z;
  bt_sector : Z;
  bt_bytes : Z;
}.

(** A directory entry: its path, whether it is a regular file. *)
Record DirEnt := mkDirEnt {
  ent_name : string;
  ent_is_file : bool;
}.

(** The reply of an HTTP request: its status, and its body when readable. *)
Record HttpResponse := mkHttpResponse {
  http_status : Z;
  http_text : option string;
}.

(** The Aliyun KMS clients. *)
Inductive KmsClient :=
| ClientKeyClient (client_key instance_id password cert : string)
| EcsRamRoleClient (role region : string).

Inductive sysop : Type -> Type :=
(* std::path, tokio::fs *)
| PathExists (p : string) : sysop bool
| ReadExact (p : string) (n : nat) : sysop (result anyhow bytes)
| ReadToString (p : string) : sysop (result anyhow string)
| ReadDir (p : string) : sysop (result anyhow (list (result anyhow DirEnt)))
| PathIsDir (p : string) : sysop bool
| WriteFile (p : string) (content : string) : sysop (result anyhow unit)
| CreateFile (p : string) : sysop (result anyhow unit)
| WriteAll (p : string) (content : string) : sysop (result anyhow unit)
| CreateDirAll (p : string) : sysop (result anyhow unit)
| RemoveDirAll (p : string) : sysop (result anyhow unit)
| OpenExclusive (p : string) : sysop (result Z unit)
| IsBlockDevice (p : string) : sysop (result anyhow bool)
| ReadFile (p : string) : sysop (result anyhow bytes)
| IsSymlink (p : string) : sysop bool
| ReadLink (p : string) : sysop (result anyhow string)
| WalkDir (p : string) : sysop (list (result anyhow DirEnt))
| Glob (pattern : string) : sysop (result anyhow (list (result anyhow string)))
| TempDir (prefix : string) : sysop (result anyhow string)
| RemoveFile (p : string) : sysop (result anyhow unit)
| EnvVar (name : string) : sysop (option string)
| Which (name : string) : sysop (option string)
| TempFile (prefix suffix : string) (content : string) : sysop (result anyhow string)
(* std::process *)
| Spawn (program : string) (args : list string) (input : option bytes) : sysop (result anyhow Output)
| SpawnIn (dir program : string) (args : list string) : sysop (result anyhow Output)
(* dialoguer *)
| StderrIsTerm : sysop bool
| Confirm (dev : string) : sysop (result anyhow bool)
(* rand *)
| RandomBytes (n : nat) : sysop bytes
| RandomAlphanumeric (n : nat) : sysop string
(* libcryptsetup *)
| CryptInit (dev : string) : sysop (result anyhow unit)
| CryptInitByName (name : string) : sysop (result anyhow unit)
| CryptFormat (dev cipher mode : string) (volume_key_size : Z) (params : CryptParamsLuks2) :
    sysop (result anyhow unit)
| CryptAddByKey (dev : string) (volume_key_size : Z) (passphrase : bytes) : sysop (result anyhow unit)
| CryptLoad (dev : string) : sysop (result anyhow unit)
| CryptSetLabel (dev : string) (label subsystem : option string) : sysop (result anyhow unit)
| CryptActivate (name : option string) (dev : string) (passphrase : bytes) (no_journal : bool) :
    sysop (result anyhow unit)
| CryptDeactivate (name : string) : sysop (result anyhow unit)
(* block devices *)
| BlockDeviceSize (dev : string) : sysop (result anyhow (Z * Z))
| LoopAttach (device_size block_size : Z) : sysop (result anyhow string)
| LoopDetach (dev : string) : sysop (result anyhow unit)
| BlkTraceMonitor (dev : string) : sysop (result anyhow unit)
| BlkTraceShutdown (dev : string) : sysop (result anyhow (list blk_io_trace))
| PageSize : sysop (result anyhow Z)
| OpenDevice (dev : string) (writable : bool) : sysop (result anyhow unit)
| ReadAt (dev : string) (offset : Z) (n : nat) : sysop (result anyhow bytes)
| WriteAt (dev : string) (offset : Z) (data : bytes) : sysop (result anyhow unit)
| FlushDevice (dev : string) : sysop (result anyhow unit)
| DmRemove (name : string) : sysop (result anyhow unit)
(* runtime measurement *)
| ExtendMeasurement (domain operation content : string) : sysop (result anyhow unit)
(* the network and the clock *)
| TcpConnect (address : string) : sysop (result anyhow unit)
| HttpPut (url : string) : sysop (result anyhow HttpResponse)
| HttpGetToken (url token : string) : sysop (result anyhow HttpResponse)
| NtpTime (server : string) : sysop (result anyhow Z)
| ClockSetTime (t : Z) : sysop (result anyhow unit)
(* not a call of the program: a loop of it has not ended within the bound *)
| StillLooping : sysop unit
(* key services *)
| HttpGet (url : string) : sysop (result anyhow HttpResponse)
| KmsNewClient (c : KmsClient) : sysop (result anyhow unit)
| KmsGetSecret (c : KmsClient) (name : string) : sysop (result anyhow bytes)
| TtrpcConnect (socket : string) : sysop (result anyhow unit)
| TtrpcGetResource (socket path : string) : sysop (result anyhow bytes).

(** Programs over the system calls; [M A] is an [async fn ... -> Result<A>]. *)
Abbreviation sys := (prog sysop).
Abbreviation M A := (prog sysop (result anyhow A)).

Definition ok {A} (a : A) : M A := Ret (Ok a).
Definition bail {A} (message : string) : M A := Ret (Err (Bail message)).
Definition panic {A} : M A := Ret Panic.
Definition lift {A} (r : result anyhow A) : M A := Ret r.

(** [for x in xs { f(x).await? }] *)
Fixpoint for_each {X} (xs : list X) (f : X -> M unit) : M unit :=
  match xs with
  | [] => ok tt
  | x :: xs => let* _ := f x in for_each xs f
  end.

Lemma all_ops_for_each {X} (P : forall R, sysop R -> Prop) (xs : list X) f :
  (forall x, In x xs -> all_ops P (f x)) -> all_ops P (for_each xs f).
Proof.
  induction xs as [|x xs IH]; simpl; [done|]. intros H. apply all_ops_rpbind; auto.
Qed.

(** Decompose [all_ops] of a program text. *)
Ltac all_ops_step :=
  match goal with
  | |- all_ops _ (Ret _) => exact I
  | |- all_ops _ (ok _) => exact I
  | |- all_ops _ (bail _) => exact I
  | |- all_ops _ (lift _) => exact I
  | |- all_ops _ panic => exact I
  | |- all_ops _ (call _) => apply all_ops_call
  | |- all_ops _ (Vis _ _) => split; [|intros ?]
  | |- all_ops _ (pbind _ _) => apply all_ops_bind; [|intros ?]
  | |- all_ops _ (rpbind _ _) => apply all_ops_rpbind; [|intros ?]
  | |- all_ops _ (let '(_, _) := ?x in _) => destruct x
  | |- all_ops _ (if ?b then _ else _) => destruct b
  | |- all_ops _ (match ?x with _ => _ end) => destruct x
  end.
Ltac all_ops := repeat (all_ops_step || (progress cbv beta match)).
