(* ===== verification/Cmd.v ===== *)
(** * External commands and kernel modules

    [cryptpilot-core/src/fs/cmd.rs] and [kernel_module.rs]: running an external
    program, checking its exit code, and loading kernel modules with it. *)

From Stdlib Require Import Ascii.
From stdpp Require Import base list strings.
From Stdlib Require Import ZArith Lia.
From S2P Require Import Prelude RustString Sys.

Local Open Scope Z_scope.

(** [Command::new(program).args(args)] *)
Record Command := mkCommand {
  cmd_program : string;
  cmd_args : list string;
}.

(** [run_with_input_and_status_checker], without a child callback. *)
Definition run_with_input_and_status_checker {R} (c : Command) (input : option bytes)
    (f : Z -> bytes -> bytes -> result anyhow R) : M R :=
  let* output := call (Spawn (cmd_program c) (cmd_args c) input) in
  match status_code output with
  | Some code => lift (f code (out_stdout output) (out_stderr output))
  | None => lift (Err KilledBySignal)
  end.

Definition run_with_status_checker {R} (c : Command) (f : Z -> bytes -> bytes -> result anyhow R) : M R :=
  run_with_input_and_status_checker c None f.

Definition run_with_input (c : Command) (input : option bytes) : M bytes :=
  run_with_input_and_status_checker c input
    (fun code stdout _ => if negb (code =? 0) then Err (Bail "Bad exit code") else Ok stdout).

(** [Command::run] *)
Definition run_cmd (c : Command) : M bytes := run_with_input c None.

(** ** Kernel modules *)

Definition is_module_available (name : string) : sys bool :=
  call (PathExists ("/sys/module/" +:+ replace_char "-" "_" name)).

(** The outcome is only logged. *)
Definition ensure_module_loaded (name : string) (args : list string) : sys unit :=
  let> available := is_module_available name in
  if (available : bool) then Ret tt
  else
    let> sbin := call (PathExists "/sbin/modprobe") in
    let> usr_sbin := (if (sbin : bool) then Ret true else call (PathExists "/usr/sbin/modprobe")) in
    if negb sbin && negb usr_sbin then Ret tt
    else
      let> _ := run_cmd (mkCommand "modprobe" (name :: args)) in
      let> _ := is_module_available name in
      Ret tt.

(** What a run command can do: one process of that program. *)
Lemma all_ops_run_checked {R} (P : forall R, sysop R -> Prop) c input
    (f : Z -> bytes -> bytes -> result anyhow R) :
  P _ (Spawn (cmd_program c) (cmd_args c) input) ->
  all_ops P (run_with_input_and_status_checker c input f).
Proof. intros HP. unfold run_with_input_and_status_checker. all_ops; done. Qed.

Lemma all_ops_run_cmd (P : forall R, sysop R -> Prop) c :
  P _ (Spawn (cmd_program c) (cmd_args c) None) -> all_ops P (run_cmd c).
Proof. apply all_ops_run_checked. Qed.

Lemma all_ops_ensure_module_loaded (P : forall R, sysop R -> Prop) name args :
  (forall p, P _ (PathExists p)) -> P _ (Spawn "modprobe" (name :: args) None) ->
  all_ops P (ensure_module_loaded name args).
Proof.
  intros HE HS. unfold ensure_module_loaded, is_module_available. all_ops; try done.
  by apply all_ops_run_cmd.
Qed.
