(* ===== verification/Blkid.v ===== *)
(** * blkid

    [cryptpilot-core/src/fs/blkid.rs]: probing a block device for signatures
    with [blkid -p] and reading its output. *)

From Stdlib Require Import Ascii.
From stdpp Require Import base list strings.
From Stdlib Require Import ZArith Lia.
From S2P Require Import Prelude RustPath RustString Sys Cmd.

Local Open Scope Z_scope.

Inductive BlkidProbeResult : Type :=
| NoSignatures
| KnownSignature (fs_type pt_type subsystem : option string).

Definition is_clean (r : BlkidProbeResult) : bool :=
  match r with NoSignatures => true | _ => false end.

Definition is_dm_snapshot_cow (r : BlkidProbeResult) : bool :=
  match r with
  | KnownSignature (Some fs_type) _ _ => contains fs_type "DM_snapshot_cow"
  | _ => false
  end.

Definition QUOTE : string := String (ascii_of_nat 34) "".

Definition parse_blkid_field (output key : string) : option string :=
  let pattern := key +:+ "=" +:+ QUOTE in
  match find pattern output with
  | None => None
  | Some pos =>
    let rest := skip (pos + String.length pattern) output in
    match find QUOTE rest with
    | None => None
    | Some n => Some (first_n n rest)
    end
  end.

(** The status checker [probe_device] gives to the command. *)
Definition probe_checker (code : Z) (stdout stderr : bytes) : result anyhow BlkidProbeResult :=
  match code with
  | 0 =>
    let trimmed := trim (from_utf8_lossy stdout) in
    let fs_type := parse_blkid_field trimmed "TYPE" in
    let pt_type := parse_blkid_field trimmed "PTTYPE" in
    let subsystem := parse_blkid_field trimmed "SUBSYSTEM" in
    if bool_decide (pt_type = Some "atari"%string) && is_none fs_type then Ok NoSignatures
    else Ok (KnownSignature fs_type pt_type subsystem)
  | 2 => Ok NoSignatures
  | _ => Err (Bail "blkid probe failed")
  end.

Definition probe_device (device_path : string) : M BlkidProbeResult :=
  run_with_status_checker (mkCommand "blkid" ["-p"; device_path]) probe_checker.

(** ** Reading a field *)

Fixpoint no_quote (s : string) : bool :=
  match s with
  | EmptyString => true
  | String a s => negb (Ascii.eqb a (ascii_of_nat 34)) && no_quote s
  end.

Lemma skip_add n m s : skip (n + m) s = skip m (skip n s).
Proof.
  revert s. induction n as [|n IH]; intros s; [done|].
  destruct s as [|a s]; [by destruct m|]. apply IH.
Qed.

Lemma find_quote v post :
  no_quote v = true -> find QUOTE (v +:+ QUOTE +:+ post) = Some (String.length v).
Proof.
  induction v as [|a v IH]; intros Hv.
  - change (find QUOTE (String (ascii_of_nat 34) post) = Some O). cbn [find].
    by destruct post.
  - cbn [no_quote] in Hv. apply andb_true_iff in Hv as [Ha Hv].
    change (find QUOTE (String a (v +:+ QUOTE +:+ post)) = Some (S (String.length v))).
    cbn [find]. rewrite IH by done.
    assert (starts_with (String a (v +:+ QUOTE +:+ post)) QUOTE = false) as ->; [|done].
    unfold QUOTE. cbn [starts_with]. apply negb_true_iff in Ha.
    rewrite Ascii.eqb_sym, Ha. done.
Qed.

(** A field printed as [KEY="value"] is read back when no earlier part of the
    output matches its key. *)
Lemma parse_blkid_field_correct pre key v post :
  no_quote v = true ->
  find (key +:+ "=" +:+ QUOTE) (pre +:+ key +:+ "=" +:+ QUOTE +:+ v +:+ QUOTE +:+ post)
    = Some (String.length pre) ->
  parse_blkid_field (pre +:+ key +:+ "=" +:+ QUOTE +:+ v +:+ QUOTE +:+ post) key = Some v.
Proof.
  intros Hv Hf. unfold parse_blkid_field. rewrite Hf.
  rewrite skip_add, skip_app.
  assert (key +:+ "=" +:+ QUOTE +:+ v +:+ QUOTE +:+ post =
          (key +:+ "=" +:+ QUOTE) +:+ (v +:+ QUOTE +:+ post)) as ->.
  { by rewrite !string_app_assoc. }
  rewrite skip_app, find_quote by done. by rewrite first_n_app.
Qed.

Lemma find_exists p s n :
  starts_with (skip n s) p = true -> (n <= String.length s)%nat ->
  exists m, find p s = Some m /\ (m <= n)%nat.
Proof.
  revert n. induction s as [|a s IH]; intros n H Hn.
  - destruct n; [|simpl in Hn; lia]. exists O. change (starts_with "" p = true) in H.
    cbn [find]. by rewrite H.
  - destruct (starts_with (String a s) p) eqn:E; [exists O; cbn [find]; rewrite E; split; [done|lia]|].
    destruct n as [|n]; [change (starts_with (String a s) p = true) in H; congruence|].
    destruct (IH n) as (m & Hm & Hmn); [done|simpl in Hn; lia|].
    exists (S m). cbn [find]. rewrite E, Hm. split; [done|lia].
Qed.

Lemma skip_length n s : String.length (skip n s) = (String.length s - n)%nat.
Proof. revert s. induction n as [|n IH]; intros [|a s]; simpl; auto. Qed.

Lemma starts_with_length s p : starts_with s p = true -> (String.length p <= String.length s)%nat.
Proof.
  revert s. induction p as [|a p IH]; intros [|b s]; simpl; [lia|lia|done|].
  intros [_ H]%andb_true_iff. apply IH in H. lia.
Qed.

(** Whatever blkid prints, a [PTTYPE] that can be read gives a [TYPE] too:
    the pattern of [TYPE] matches inside [PTTYPE]. *)
Lemma pttype_gives_type output pt :
  parse_blkid_field output "PTTYPE" = Some pt ->
  exists fs, parse_blkid_field output "TYPE" = Some fs.
Proof.
  unfold parse_blkid_field.
  destruct (find _ output) as [n|] eqn:En; [|done].
  destruct (find QUOTE _) as [k|] eqn:Ek; [|done]. intros _.
  apply find_some in En as (Hs & Hn & _). apply find_some in Ek as (Hq & Hk & _).
  pose proof (starts_with_length _ _ Hs) as Hl. rewrite skip_length in Hl.
  change (String.length ("PTTYPE" +:+ "=" +:+ QUOTE)) with 8%nat in *.
  destruct (find_exists ("TYPE" +:+ "=" +:+ QUOTE) output (n + 2)) as (m & Hm & Hmn).
  { rewrite skip_add. apply starts_with_inv in Hs. rewrite Hs.
    change (starts_with (("TYPE" +:+ "=" +:+ QUOTE) +:+
      skip (String.length ("PTTYPE" +:+ "=" +:+ QUOTE)) (skip n output)) ("TYPE" +:+ "=" +:+ QUOTE) = true).
    apply starts_with_app. }
  { lia. }
  rewrite Hm. change (String.length ("TYPE" +:+ "=" +:+ QUOTE)) with 6%nat.
  rewrite skip_length in Hk. rewrite <- skip_add in Hq.
  destruct (find_exists QUOTE (skip (m + 6) output) (n + 8 + k - (m + 6))) as (j & Hj & _).
  - rewrite <- skip_add. replace (m + 6 + (n + 8 + k - (m + 6)))%nat with (n + 8 + k)%nat by lia. done.
  - rewrite skip_length. lia.
  - rewrite Hj. by eexists.
Qed.

(** With exit code 0 the probe never answers [NoSignatures]: whatever
    blkid printed, a readable [PTTYPE="atari"] is also read as the type of a
    file system, so the branch that should treat the known false positive as a
    blank device is never taken. *)
Theorem atari_never_clean stdout stderr r :
  probe_checker 0 stdout stderr = Ok r -> is_clean r = false.
Proof.
  unfold probe_checker. cbv beta iota. generalize (trim (from_utf8_lossy stdout)) as t. intros t.
  destruct (parse_blkid_field t "TYPE") eqn:Et; cbv [is_none].
  - rewrite andb_false_r. intros [= <-]. done.
  - rewrite andb_true_r. destruct (bool_decide _) eqn:Ep.
    + apply bool_decide_eq_true in Ep. apply pttype_gives_type in Ep as [fs Efs]. congruence.
    + intros [= <-]. done.
Qed.

Definition atari_output : bytes :=
  as_bytes ("/dev/vdb: PTTYPE=" +:+ QUOTE +:+ "atari" +:+ QUOTE +:+ String (ascii_of_nat 10) "").

Lemma atari_never_clean_witness :
  probe_checker 0 atari_output [] =
    Ok (KnownSignature (Some "atari"%string) (Some "atari"%string) None) /\
  is_clean (KnownSignature (Some "atari"%string) (Some "atari"%string) None) = false.
Proof.
  assert (E : probe_checker 0 atari_output [] =
    Ok (KnownSignature (Some "atari"%string) (Some "atari"%string) None)) by (vm_compute; reflexivity).
  split; [exact E|]. exact (atari_never_clean atari_output [] _ E).
Defined.
