(* ===== verification/Luks2.v ===== *)
(** * LUKS2 volumes

    [cryptpilot-core/src/types.rs] and [fs/luks2.rs]: the initialization state
    kept in the subsystem field of the LUKS2 header, and the operations on
    volumes as calls of libcryptsetup.  [Cryptsetup] at the end states what the
    operations rely on of libcryptsetup and the kernel. *)

From Stdlib Require Import Ascii.
From stdpp Require Import base list strings.
From Stdlib Require Import ZArith Lia.
From S2P Require Import Prelude Slices RustPath RustString Sys Cmd.

Local Open Scope Z_scope.

(** ** types.rs *)

Definition GENERATED_PASSPHRASE_LEN : nat := 64.

Record Passphrase := mkPassphrase { passphrase_bytes : bytes }.

Inductive IntegrityType := IntegrityNone | Journal | NoJournal.

Inductive MakeFsType := Swap | Ext4 | Xfs | Vfat.

#[global] Instance MakeFsType_eq_dec : EqDecision MakeFsType.
Proof. solve_decision. Defined.

(** ** luks2.rs *)

Definition LUKS2_VOLUME_KEY_SIZE_BIT_WITH_INTEGRITY : Z := 768.
Definition LUKS2_VOLUME_KEY_SIZE_BIT_WITHOUT_INTEGRITY : Z := 512.
Definition LUKS2_SECTOR_SIZE : Z := 4096.
Definition LUKS2_SUBSYSTEM_NAME : string := "cryptpilot".
Definition LUKS2_SUBSYSTEM_INITIALIZING : string := "cryptpilot-initializing".

Inductive VolumeInitState := InitStateNone | InitStateInitializing | InitStateReady.

#[global] Instance VolumeInitState_eq_dec : EqDecision VolumeInitState.
Proof. solve_decision. Defined.

(** [Luks2HdrDisk]: the packed layout, as the sizes of its fields. *)
Inductive Luks2HdrField :=
| magic | version | hdr_size | seqid | label | checksum_alg | salt | uuid | subsystem
| hdr_offset | padding | csum | padding4096.

Definition Luks2HdrDisk : list (Luks2HdrField * nat) :=
  [(magic, 6); (version, 2); (hdr_size, 8); (seqid, 8); (label, 48); (checksum_alg, 32); (salt, 64);
   (uuid, 40); (subsystem, 48); (hdr_offset, 8); (padding, 184); (csum, 64);
   (padding4096, (7 * 512))]%nat.

#[global] Instance Luks2HdrField_eq_dec : EqDecision Luks2HdrField.
Proof. solve_decision. Defined.

(** [size_of::<Luks2HdrDisk>()] *)
Definition hdr_disk_size : nat := sum_list (map snd Luks2HdrDisk).

Fixpoint hdr_get (fields : list (Luks2HdrField * nat)) (f : Luks2HdrField) (buf : bytes) : bytes :=
  match fields with
  | [] => []
  | (g, n) :: fields => if decide (g = f) then take n buf else hdr_get fields f (drop n buf)
  end.

Definition LUKS_MAGIC_1ST : bytes := as_bytes "LUKS" ++ [Byte.xba; Byte.xbe].
Definition LUKS_MAGIC_2ND : bytes := as_bytes "SKUL" ++ [Byte.xba; Byte.xbe].

(** [u16::from_be] of the two bytes in memory. *)
Definition u16_from_be (b : bytes) : Z :=
  match b with
  | [b0; b1] => 256 * Z_of_byte b0 + Z_of_byte b1
  | _ => 0
  end.

(** [iter().position(|&x| x == 0)] *)
Fixpoint position_nul (l : bytes) : option nat :=
  match l with
  | [] => None
  | b :: l => if decide (b = Byte.x00) then Some O else option_map S (position_nul l)
  end.

(** [get_luks2_subsystem] once the header has been read. *)
Definition parse_luks2_subsystem (header_buf : bytes) : result anyhow (option string) :=
  let magic_bytes := hdr_get Luks2HdrDisk magic header_buf in
  if negb (bool_decide (magic_bytes = LUKS_MAGIC_1ST) || bool_decide (magic_bytes = LUKS_MAGIC_2ND))
     || negb (u16_from_be (hdr_get Luks2HdrDisk version header_buf) =? 2)
  then Err (Bail "Invalid LUKS2 header")
  else
    let field := hdr_get Luks2HdrDisk subsystem header_buf in
    let subsystem_str :=
      match position_nul field with
      | Some pos => from_utf8_lossy (take pos field)
      | None => from_utf8_lossy field
      end in
    if negb (bool_decide (subsystem_str = "")) && negb (bool_decide (subsystem_str = "-"))
    then Ok (Some subsystem_str)
    else Ok None.

Definition get_luks2_subsystem (dev : string) : M (option string) :=
  let* header_buf := call (ReadExact dev hdr_disk_size) in
  if (length header_buf <? hdr_disk_size)%nat
  then lift (Err (Bail "Header buffer size is too small"))
  else lift (parse_luks2_subsystem header_buf).

Definition luks2_params (integrity : IntegrityType) : CryptParamsLuks2 := {|
  cp_integrity := match integrity with
                  | IntegrityNone => None
                  | Journal | NoJournal => Some "hmac(sha256)"%string
                  end;
  cp_sector_size := LUKS2_SECTOR_SIZE;
  cp_subsystem := Some LUKS2_SUBSYSTEM_INITIALIZING;
|}.

Definition volume_key_size (integrity : IntegrityType) : Z :=
  match integrity with
  | IntegrityNone => LUKS2_VOLUME_KEY_SIZE_BIT_WITHOUT_INTEGRITY / 8
  | Journal | NoJournal => LUKS2_VOLUME_KEY_SIZE_BIT_WITH_INTEGRITY / 8
  end.

Definition format (dev : string) (passphrase : Passphrase) (integrity : IntegrityType) : M unit :=
  let volume_key := volume_key_size integrity in
  let* _ := call (CryptInit dev) in
  let* _ := call (CryptFormat dev "aes" "xts-plain64" volume_key (luks2_params integrity)) in
  let* _ := call (CryptAddByKey dev volume_key (passphrase_bytes passphrase)) in
  ok tt.

Definition mark_volume_as_initialized (dev : string) : M unit :=
  let* _ := call (CryptInit dev) in
  let* _ := call (CryptLoad dev) in
  let* _ := call (CryptSetLabel dev None (Some LUKS2_SUBSYSTEM_NAME)) in
  ok tt.

Definition check_passphrase (dev : string) (passphrase : Passphrase) : M unit :=
  let* _ := call (CryptInit dev) in
  let* _ := call (CryptLoad dev) in
  let* _ := call (CryptActivate None dev (passphrase_bytes passphrase) false) in
  ok tt.

Definition open_with_check_passphrase (volume dev : string) (passphrase : Passphrase)
    (integrity : IntegrityType) : M unit :=
  let> _ := ensure_module_loaded "dm_crypt" [] in
  let> _ := match integrity with
            | IntegrityNone => Ret tt
            | _ => ensure_module_loaded "dm-integrity" []
            end in
  let* _ := check_passphrase dev passphrase in
  let* _ := call (CryptInit dev) in
  let* _ := call (CryptLoad dev) in
  let* _ := call (CryptActivate (Some volume) dev (passphrase_bytes passphrase)
                    match integrity with
                    | IntegrityNone | Journal => false
                    | NoJournal => true
                    end) in
  ok tt.

Definition init_state_of (r : result anyhow (option string)) : VolumeInitState :=
  match r with
  | Ok (Some s) =>
    if decide (s = LUKS2_SUBSYSTEM_NAME) then InitStateReady
    else if decide (s = LUKS2_SUBSYSTEM_INITIALIZING) then InitStateInitializing
    else InitStateNone
  | _ => InitStateNone
  end.

Definition get_init_state (dev : string) : M VolumeInitState :=
  let> r := get_luks2_subsystem dev in
  ok (init_state_of r).

Definition is_a_cryptpilot_initialized_luks2_volume (dev : string) : M bool :=
  let* state := get_init_state dev in
  ok (bool_decide (state = InitStateReady)).

Definition is_initialized (dev : string) : M bool := is_a_cryptpilot_initialized_luks2_volume dev.

Definition is_active (volume : string) : sys bool := call (PathExists ("/dev/mapper/" +:+ volume)).

Definition EBUSY : Z := 16.

Definition is_dev_in_use (dev : string) : M bool :=
  let> r := call (OpenExclusive dev) in
  match r with
  | Ok _ => ok false
  | Err e => if e =? EBUSY then ok true else lift (Err (Io e))
  | Panic => panic
  end.

Definition close (volume : string) : M unit :=
  let* _ := call (CryptInitByName volume) in
  let* _ := call (CryptDeactivate volume) in
  ok tt.

(** ** TempLuksVolume *)

Record TempLuksVolume := mkTempLuksVolume { temp_name : string }.

Definition temp_open (dev : string) (passphrase : Passphrase) (integrity : IntegrityType) :
  M TempLuksVolume :=
  let> random := call (RandomAlphanumeric 20) in
  let name := ".cryptpilot-" +:+ random in
  let* _ := open_with_check_passphrase name dev passphrase integrity in
  ok (mkTempLuksVolume name).

Definition temp_volume_path (v : TempLuksVolume) : string := join_str "/dev/mapper" (temp_name v).

(** [Drop]: the error of closing is ignored. *)
Definition temp_drop (v : TempLuksVolume) : sys unit :=
  let> _ := close (temp_name v) in
  Ret tt.
