(* ===== verification/Luks2Spec.v ===== *)
(** * What LUKS2 volumes promise

    The layout of a LUKS2 header with a subsystem, and the interface
    [Cryptsetup]: the documented behaviour of libcryptsetup and the kernel that
    the commands rely on, over any handler of the system calls.  The lemmas
    give what each operation of [Luks2] does under it. *)

From Stdlib Require Import Ascii.
From stdpp Require Import base list strings sets.
From Stdlib Require Import ZArith Lia.
From S2P Require Import Prelude Slices RustPath RustString Sys Cmd Luks2.

Local Open Scope Z_scope.

(** ** Headers *)

(** [hdr] is the binary header of a LUKS2 device whose subsystem is [s], a C
    string in a field of 48 bytes. *)
Record luks2_header (hdr : bytes) (s : string) : Prop := {
  lh_length : length hdr = hdr_disk_size;
  lh_magic : take 6 hdr = LUKS_MAGIC_1ST \/ take 6 hdr = LUKS_MAGIC_2ND;
  lh_version : take 2 (drop 6 hdr) = [Byte.x00; Byte.x02];
  lh_subsystem : take 48 (drop 208 hdr) = pad_to 48 (as_bytes s);
  lh_fits : (length (as_bytes s) <= 48)%nat;
  lh_no_nul : position_nul (as_bytes s) = None;
  lh_ascii : forallb is_ascii_byte (as_bytes s) = true;
}.

Lemma position_nul_app a b :
  position_nul a = None -> position_nul (a ++ b) = option_map (Nat.add (length a)) (position_nul b).
Proof.
  induction a as [|x a IH]; simpl; [by destruct (position_nul b)|].
  destruct (decide (x = Byte.x00)); [done|]. intros H.
  rewrite IH by (by destruct (position_nul a)). by destruct (position_nul b).
Qed.

Lemma field_string s :
  (length (as_bytes s) <= 48)%nat -> position_nul (as_bytes s) = None ->
  forallb is_ascii_byte (as_bytes s) = true ->
  match position_nul (pad_to 48 (as_bytes s)) with
  | Some pos => from_utf8_lossy (take pos (pad_to 48 (as_bytes s)))
  | None => from_utf8_lossy (pad_to 48 (as_bytes s))
  end = s.
Proof.
  intros Hl Hn Ha. unfold pad_to. rewrite position_nul_app by done.
  destruct (48 - length (as_bytes s))%nat eqn:E; simpl.
  - rewrite app_nil_r, from_utf8_lossy_ascii by done. apply of_bytes_as_bytes.
  - rewrite Nat.add_0_r, take_app_length, from_utf8_lossy_ascii by done. apply of_bytes_as_bytes.
Qed.

Lemma hdr_get_magic hdr : hdr_get Luks2HdrDisk magic hdr = take 6 hdr.
Proof. done. Qed.
Lemma hdr_get_version hdr : hdr_get Luks2HdrDisk version hdr = take 2 (drop 6 hdr).
Proof. done. Qed.
Lemma hdr_get_subsystem hdr : hdr_get Luks2HdrDisk subsystem hdr = take 48 (drop 208 hdr).
Proof. unfold Luks2HdrDisk. simpl hdr_get. by rewrite !drop_drop. Qed.

(** The parser reads the subsystem of a header back. *)
Lemma parse_luks2_header hdr s :
  luks2_header hdr s -> s <> "" -> s <> "-" -> parse_luks2_subsystem hdr = Ok (Some s).
Proof.
  intros [Hlen Hm Hv Hs Hf Hn Ha] H1 H2. unfold parse_luks2_subsystem.
  rewrite hdr_get_magic, hdr_get_version, hdr_get_subsystem, Hv, Hs.
  rewrite field_string by done.
  rewrite (bool_decide_eq_false_2 _ H1), (bool_decide_eq_false_2 _ H2).
  destruct Hm as [->| ->]; by vm_compute.
Qed.

Definition state_of_subsystem (s : option string) : VolumeInitState :=
  init_state_of (Ok s).

Lemma init_state_luks2_header hdr s :
  luks2_header hdr s -> init_state_of (parse_luks2_subsystem hdr) = state_of_subsystem (Some s).
Proof.
  intros H. destruct (decide (s = "")) as [->|H1]; [|destruct (decide (s = "-")) as [->|H2]].
  1,2: destruct H as [Hlen Hm Hv Hs Hf Hn Ha]; unfold parse_luks2_subsystem;
    rewrite hdr_get_magic, hdr_get_version, hdr_get_subsystem, Hv, Hs;
    destruct Hm as [->| ->]; by vm_compute.
  by rewrite (parse_luks2_header _ _ H).
Qed.

(** No LUKS2 header: the state is [None]. *)
Lemma init_state_no_magic hdr :
  take 6 hdr <> LUKS_MAGIC_1ST -> take 6 hdr <> LUKS_MAGIC_2ND ->
  init_state_of (parse_luks2_subsystem hdr) = InitStateNone.
Proof.
  intros H1 H2. unfold parse_luks2_subsystem. rewrite hdr_get_magic.
  by rewrite (bool_decide_eq_false_2 _ H1), (bool_decide_eq_false_2 _ H2).
Qed.

(** [Ready] is reported only for a header with the right magic and version
    whose subsystem field starts with the name. *)
Lemma init_state_ready_inv hdr :
  init_state_of (parse_luks2_subsystem hdr) = InitStateReady ->
  (take 6 hdr = LUKS_MAGIC_1ST \/ take 6 hdr = LUKS_MAGIC_2ND) /\
  u16_from_be (take 2 (drop 6 hdr)) = 2 /\
  take 10 (take 48 (drop 208 hdr)) = as_bytes LUKS2_SUBSYSTEM_NAME.
Proof.
  unfold parse_luks2_subsystem. rewrite hdr_get_magic, hdr_get_version, hdr_get_subsystem.
  destruct (_ || _) eqn:E; [done|]. apply orb_false_iff in E as [Em Ev].
  apply negb_false_iff in Em, Ev. apply Z.eqb_eq in Ev. apply orb_true_iff in Em.
  rewrite !bool_decide_eq_true in Em. intros H. split; [done|]. split; [done|].
  set (f := take 48 (drop 208 hdr)) in *. clearbody f. cbv zeta in H.
  set (str := match position_nul f with Some pos => _ | None => _ end) in H.
  assert (Hstr : str = LUKS2_SUBSYSTEM_NAME).
  { destruct (_ && _); [|done]. unfold init_state_of in H. by repeat destruct (decide _). }
  subst str. destruct (position_nul f) as [pos|]; apply from_utf8_lossy_ascii_inv in Hstr; try done.
  - assert (10 <= pos)%nat.
    { apply (f_equal length) in Hstr. rewrite length_take in Hstr. cbn in Hstr. lia. }
    rewrite <- (Nat.min_l 10 pos) by done. by rewrite <- take_take, Hstr.
  - by rewrite Hstr.
Qed.

(** ** The interface *)

(** Calls that only ask: checking a passphrase without a name activates
    nothing. *)
Definition query {R} (e : sysop R) : bool :=
  match e with
  | PathExists _ | ReadExact _ _ | ReadToString _ | ReadDir _ | PathIsDir _ | OpenExclusive _ | EnvVar _ | Which _
  | IsBlockDevice _ | ReadFile _ | IsSymlink _ | ReadLink _ | WalkDir _ | Glob _ | BlockDeviceSize _
  | StillLooping | StderrIsTerm | Confirm _ | CryptInit _ | CryptInitByName _ | CryptLoad _
  | CryptActivate None _ _ _ => true
  | _ => false
  end.

(** The commands that create or activate logical volumes: a device appears
    with whatever its extents hold. *)
Definition creates_volumes (program : string) (args : list string) : bool :=
  bool_decide (args = ["-n"; "delta"; "--zero"; "n"; "-l"; "100%FREE"; "cryptpilot"]) && bool_decide (program = "lvcreate")
  || bool_decide (args = ["-a"; "y"; "cryptpilot"]) && bool_decide (program = "vgchange").

(** The one-shot client of the confidential data hub, whose path is looked up. *)
Definition cdh_client (args : list string) : bool :=
  match args with
  | ["-c"; _; "get-resource"; "--resource-uri"; _] | ["unseal-secret"; "--secret-path"; _] => true
  | _ => false
  end.

(** Commands that do not write to a device they are given: probing it, loading
    a module, growing a logical volume, fetching a key. *)
Definition keeps_content (program : string) (args : list string) : bool :=
  bool_decide (program ∈ ["blkid"; "modprobe"; "lvextend"]) || cdh_client args.

(** The command line names the device, given by an absolute path: as an
    argument, or anywhere in the script of a shell. *)
Definition names_device (program : string) (args : list string) (dev : string) : bool :=
  starts_with dev "/" &&
  (if bool_decide (program ∈ ["bash"; "sh"]) then existsb (fun a => contains a dev) args
   else bool_decide (dev ∈ args)).

(** Calls that may change the LUKS2 header or the data of [dev]: any command
    that names it, but for those known to leave its content. *)
Definition touches (dev : string) {R} (e : sysop R) : bool :=
  match e with
  | Spawn program args _ | SpawnIn _ program args =>
    creates_volumes program args || negb (keeps_content program args) && names_device program args dev
  | CryptFormat d _ _ _ _ | CryptAddByKey d _ _ | CryptSetLabel d _ _ | WriteAt d _ _ =>
    bool_decide (d = dev)
  | _ => false
  end.

Lemma cdh_touches d program args input : cdh_client args = true -> touches d (Spawn program args input) = false.
Proof.
  intros Hc. simpl. unfold keeps_content. rewrite Hc, orb_true_r. simpl. rewrite orb_false_r.
  unfold creates_volumes.
  rewrite (bool_decide_eq_false_2 (args = _)) by (intros ->; vm_compute in Hc; discriminate Hc).
  by rewrite (bool_decide_eq_false_2 (args = _)) by (intros ->; vm_compute in Hc; discriminate Hc).
Qed.

(** A command of another name and with other arguments. *)
Lemma spawn_touches d program args input :
  program <> "lvcreate" -> program <> "vgchange" -> program <> "bash" -> program <> "sh" ->
  (starts_with d "/" = true -> d ∉ args) -> touches d (Spawn program args input) = false.
Proof.
  intros H1 H2 H3 H4 Hd. simpl. unfold creates_volumes, names_device.
  rewrite (bool_decide_eq_false_2 _ H1), (bool_decide_eq_false_2 _ H2), !andb_false_r. simpl.
  rewrite (bool_decide_eq_false_2 (program ∈ ["bash"; "sh"])) by set_solver.
  destruct (starts_with d "/"); simpl; [|by rewrite andb_false_r].
  rewrite bool_decide_eq_false_2 by auto. by rewrite andb_false_r.
Qed.

(** The commands that create or remove device mappings. *)
Definition mapping_tools : list string :=
  ["vgchange"; "lvcreate"; "lvextend"; "dmsetup"; "veritysetup"; "bash"; "kpartx"; "qemu-nbd"].

(** Calls that create or remove device mappings. *)
Definition remaps {R} (e : sysop R) : bool :=
  match e with
  | CryptActivate (Some _) _ _ _ | CryptDeactivate _ | LoopAttach _ _ | LoopDetach _ | DmRemove _ => true
  | Spawn program _ _ | SpawnIn _ program _ => bool_decide (program ∈ mapping_tools)
  | _ => false
  end.

(** A loop device that is attached is not [dev]. *)
Definition fresh_answer (dev : string) (R : Type) (e : sysop R) : R -> Prop :=
  match e in sysop R return R -> Prop with
  | LoopAttach _ _ => fun r => r <> Ok dev
  | _ => fun _ => True
  end.

Class Cryptsetup (W : Type) `{!Handler sysop W} := {
  (** the subsystem in the LUKS2 header of a device, if it has one *)
  luks_subsystem : W -> string -> option string;
  (** a passphrase opens a key slot of a device *)
  unlocks : W -> string -> bytes -> bool;
  (** a name is active under /dev/mapper *)
  mapped : W -> string -> bool;

  query_pure R (e : sysop R) w : query e = true -> snd (handle e w) = w;
  mapper_path w name : fst (handle (PathExists ("/dev/mapper/" +:+ name)) w) = mapped w name;
  read_luks w dev s : luks_subsystem w dev = Some s ->
    exists hdr, fst (handle (ReadExact dev hdr_disk_size) w) = Ok hdr /\ luks2_header hdr s;
  read_other w dev hdr : luks_subsystem w dev = None ->
    fst (handle (ReadExact dev hdr_disk_size) w) = Ok hdr ->
    take 6 hdr <> LUKS_MAGIC_1ST /\ take 6 hdr <> LUKS_MAGIC_2ND;

  frame_header R (e : sysop R) w dev : touches dev e = false ->
    luks_subsystem (snd (handle e w)) dev = luks_subsystem w dev;
  frame_slots R (e : sysop R) w dev k : touches dev e = false ->
    unlocks (snd (handle e w)) dev k = unlocks w dev k;
  frame_maps R (e : sysop R) w name : remaps e = false ->
    mapped (snd (handle e w)) name = mapped w name;
  frame_free R (e : sysop R) w dev : remaps e = false ->
    fst (handle (OpenExclusive dev) (snd (handle e w))) = fst (handle (OpenExclusive dev) w);

  (** a loop device that was free holds no LUKS2 header *)
  loop_free w device_size block_size dev s : luks_subsystem w dev = Some s ->
    fst (handle (LoopAttach device_size block_size) w) <> Ok dev;

  format_ok w dev c m k params :
    fst (handle (CryptFormat dev c m k params) w) = Ok tt ->
    luks_subsystem (snd (handle (CryptFormat dev c m k params) w)) dev = Some (default "" (cp_subsystem params));
  format_other w dev c m k params :
    fst (handle (CryptFormat dev c m k params) w) <> Ok tt ->
    luks_subsystem (snd (handle (CryptFormat dev c m k params) w)) dev
      ∈ [luks_subsystem w dev; None; Some (default "" (cp_subsystem params))];
  add_key_header w dev n k :
    luks_subsystem (snd (handle (CryptAddByKey dev n k) w)) dev = luks_subsystem w dev;
  add_key_ok w dev n k :
    fst (handle (CryptAddByKey dev n k) w) = Ok tt ->
    unlocks (snd (handle (CryptAddByKey dev n k) w)) dev k = true;
  set_label_ok w dev s :
    fst (handle (CryptSetLabel dev None (Some s)) w) = Ok tt ->
    luks_subsystem (snd (handle (CryptSetLabel dev None (Some s)) w)) dev = Some s;
  set_label_other w dev s :
    fst (handle (CryptSetLabel dev None (Some s)) w) <> Ok tt ->
    luks_subsystem (snd (handle (CryptSetLabel dev None (Some s)) w)) dev = luks_subsystem w dev;
  set_label_slots w dev s k :
    unlocks (snd (handle (CryptSetLabel dev None (Some s)) w)) dev k = unlocks w dev k;

  zero_header_gone w dev :
    fst (handle (WriteAt dev 0 (zeros 4096)) w) = Ok tt ->
    luks_subsystem (snd (handle (WriteAt dev 0 (zeros 4096)) w)) dev = None;

  init_loads w dev s : luks_subsystem w dev = Some s ->
    fst (handle (CryptInit dev) w) = Ok tt /\ fst (handle (CryptLoad dev) w) = Ok tt;
  activate_checks w dev k j :
    fst (handle (CryptActivate None dev k j) w) = Ok tt <-> unlocks w dev k = true;
  activate_unlocks w name dev k j :
    fst (handle (CryptActivate (Some name) dev k j) w) = Ok tt -> unlocks w dev k = true;
  activate_works w name dev k j :
    unlocks w dev k = true -> mapped w name = false -> fst (handle (OpenExclusive dev) w) = Ok tt ->
    fst (handle (CryptActivate (Some name) dev k j) w) = Ok tt;
  activate_maps w name dev k j :
    fst (handle (CryptActivate (Some name) dev k j) w) = Ok tt ->
    mapped (snd (handle (CryptActivate (Some name) dev k j) w)) name = true;
  deactivate_unmaps w name :
    fst (handle (CryptDeactivate name) w) = Ok tt ->
    mapped (snd (handle (CryptDeactivate name) w)) name = false;
}.

(** ** The operations under the interface *)

Section Operations.
Context {W : Type} `{Cryptsetup W}.
Implicit Types (w : W) (dev : string).

Lemma run_query {R} (e : sysop R) w : query e = true -> run (call e) w = (fst (handle e w), w).
Proof.
  intros Hq. rewrite run_call. rewrite <- (query_pure _ e w Hq) at 3.
  by destruct (handle e w).
Qed.

(** What a program that touches nothing of [dev] leaves alone, also when it
    is stopped. *)
Lemma untouched {A} (p : sys A) dev w :
  all_ops (fun _ e => touches dev e = false) p ->
  luks_subsystem (snd (run p w)) dev = luks_subsystem w dev /\
  forall k, unlocks (snd (run p w)) dev k = unlocks w dev k.
Proof.
  intros Hp.
  apply (run_all_ops _ (fun w w' => luks_subsystem w' dev = luks_subsystem w dev /\
    forall k, unlocks w' dev k = unlocks w dev k) p w) in Hp; [done|done| |].
  - intros u v x [H1 H2] [H3 H4]. split; [congruence|]. intros k. by rewrite H4.
  - intros R e v He. split; [by apply frame_header|]. intros k. by apply frame_slots.
Qed.

Lemma untouched_n {A} (p : sys A) dev n w :
  all_ops (fun _ e => touches dev e = false) p ->
  luks_subsystem (snd (run_n n p w)) dev = luks_subsystem w dev.
Proof.
  intros Hp.
  apply (run_n_all_ops _ (fun w w' => luks_subsystem w' dev = luks_subsystem w dev) p n w) in Hp;
    [done|done|congruence|]. intros R e v He. by apply frame_header.
Qed.

Lemma untouched_n_slots {A} (p : sys A) dev n w k :
  all_ops (fun _ e => touches dev e = false) p ->
  unlocks (snd (run_n n p w)) dev k = unlocks w dev k.
Proof.
  intros Hp.
  apply (run_n_all_ops _ (fun w w' => unlocks w' dev k = unlocks w dev k) p n w) in Hp;
    [done|done|congruence|]. intros R e v He. by apply frame_slots.
Qed.

(** The same of a device with a header, for a program that may also write to
    loop devices it has attached. *)
Lemma untouched_if {A} (p : sys A) dev n w s :
  luks_subsystem w dev = Some s ->
  all_ops_if (fresh_answer dev) (fun _ e => touches dev e = false) p ->
  luks_subsystem (snd (run_n n p w)) dev = Some s /\
  forall k, unlocks (snd (run_n n p w)) dev k = unlocks w dev k.
Proof.
  intros Hs Hp. rewrite <- Hs.
  apply (run_n_all_ops_if _ _ (fun v => luks_subsystem v dev = Some s)
    (fun w w' => luks_subsystem w' dev = luks_subsystem w dev /\
       forall k, unlocks w' dev k = unlocks w dev k) p n w) in Hp; [done|done| | |done].
  - intros u v x [H1 H2] [H3 H4]. split; [congruence|]. intros k. by rewrite H4.
  - intros R e v Hv He. split; [|split; [by rewrite frame_header|]].
    + destruct e; try done. by eapply loop_free.
    + split; [by apply frame_header|]. intros k. by apply frame_slots.
Qed.

Lemma untouched_run_if {A} (p : sys A) dev w s :
  luks_subsystem w dev = Some s ->
  all_ops_if (fresh_answer dev) (fun _ e => touches dev e = false) p ->
  luks_subsystem (snd (run p w)) dev = Some s /\ forall k, unlocks (snd (run p w)) dev k = unlocks w dev k.
Proof.
  intros Hs Hp. destruct (run_n_complete p w) as [n En].
  pose proof (untouched_if p dev n w s Hs Hp) as H0. by rewrite En in H0.
Qed.

Lemma not_remapped {A} (p : sys A) w :
  all_ops (fun _ e => remaps e = false) p ->
  (forall name, mapped (snd (run p w)) name = mapped w name) /\
  (forall dev, fst (handle (OpenExclusive dev) (snd (run p w))) = fst (handle (OpenExclusive dev) w)).
Proof.
  intros Hp.
  apply (run_all_ops _ (fun w w' => (forall name, mapped w' name = mapped w name) /\
    (forall dev, fst (handle (OpenExclusive dev) w') = fst (handle (OpenExclusive dev) w))) p w) in Hp;
    [done|done| |].
  - intros u v x [H1 H2] [H3 H4]. split; intros y; [by rewrite H3|by rewrite H4].
  - intros R e v He. split; intros y; [by apply frame_maps|by apply frame_free].
Qed.

Lemma run_get_init_state dev w :
  run (get_init_state dev) w = (Ok (state_of_subsystem (luks_subsystem w dev)), w).
Proof.
  unfold get_init_state, get_luks2_subsystem. rewrite run_bind, run_rpbind, run_query by done.
  destruct (luks_subsystem w dev) as [s|] eqn:E.
  - destruct (read_luks _ _ _ E) as (hdr & -> & Hh).
    assert ((length hdr <? hdr_disk_size)%nat = false) as ->.
    { apply Nat.ltb_ge. by rewrite (lh_length _ _ Hh). }
    cbn [run lift]. by rewrite (init_state_luks2_header _ _ Hh).
  - destruct (fst (handle _ w)) as [hdr|e|] eqn:Er; [|done..].
    destruct (_ <? _)%nat; [done|]. cbn [run lift].
    destruct (read_other _ _ _ E Er) as [H1 H2]. by rewrite (init_state_no_magic _ H1 H2).
Qed.

Lemma run_is_initialized dev w :
  run (is_initialized dev) w =
    (Ok (bool_decide (state_of_subsystem (luks_subsystem w dev) = InitStateReady)), w).
Proof.
  unfold is_initialized, is_a_cryptpilot_initialized_luks2_volume.
  by rewrite run_rpbind, run_get_init_state.
Qed.

Lemma run_is_active volume w : run (is_active volume) w = (mapped w volume, w).
Proof. unfold is_active. by rewrite run_query, mapper_path. Qed.

Lemma run_is_dev_in_use dev w :
  run (is_dev_in_use dev) w =
    (match fst (handle (OpenExclusive dev) w) with
     | Ok _ => Ok false
     | Err e => if e =? EBUSY then Ok true else Err (Io e)
     | Panic => Panic
     end, w).
Proof.
  unfold is_dev_in_use. rewrite run_bind, run_query by done.
  destruct (fst _) as [|e|]; [done| |done]. by destruct (e =? EBUSY).
Qed.

Lemma unit_result_dec (r : result anyhow unit) : r = Ok tt \/ r <> Ok tt.
Proof. destruct r as [[]| |]; [by left|by right..]. Qed.

(** The subsystems a device may have after an attempt to format it. *)
Definition formatted_or (old : option string) : list (option string) :=
  [old; None; Some LUKS2_SUBSYSTEM_INITIALIZING].

Lemma crypt_format_header dev c m k i w :
  luks_subsystem (snd (handle (CryptFormat dev c m k (luks2_params i)) w)) dev
    ∈ formatted_or (luks_subsystem w dev).
Proof.
  destruct (unit_result_dec (fst (handle (CryptFormat dev c m k (luks2_params i)) w))) as [E|E].
  - rewrite (format_ok _ _ _ _ _ _ E). unfold formatted_or. set_solver.
  - exact (format_other _ _ _ _ _ _ E).
Qed.

Lemma formatted_or_old old : old ∈ formatted_or old.
Proof. unfold formatted_or. set_solver. Qed.

(** At every point of [format] the device has its old subsystem, none, or the
    marker of an unfinished initialization. *)
Lemma format_n dev p i n w :
  luks_subsystem (snd (run_n n (format dev p i) w)) dev ∈ formatted_or (luks_subsystem w dev).
Proof.
  unfold format, rpbind. simpl. destruct n as [|n]; [apply formatted_or_old|].
  destruct (handle (CryptInit dev) w) as [r0 w0] eqn:E0.
  assert (w0 = w) as ->.
  { change w0 with (snd (r0, w0)). rewrite <- E0. by apply query_pure. }
  destruct r0 as [[]| |]; [|apply formatted_or_old..]. simpl.
  destruct n as [|n]; [apply formatted_or_old|].
  pose proof (crypt_format_header dev "aes" "xts-plain64" (volume_key_size i) i w) as Hf.
  destruct (handle (CryptFormat _ _ _ _ _) w) as [r1 w1] eqn:E1. simpl in Hf.
  destruct r1 as [[]| |]; [|done..]. simpl. destruct n as [|n]; [done|].
  pose proof (add_key_header w1 dev (volume_key_size i) (passphrase_bytes p)) as Ha.
  destruct (handle (CryptAddByKey _ _ _) w1) as [r2 w2]. simpl in Ha.
  by destruct r2 as [[]| |]; simpl; rewrite Ha.
Qed.

Lemma format_run_header dev p i w :
  luks_subsystem (snd (run (format dev p i) w)) dev ∈ formatted_or (luks_subsystem w dev).
Proof.
  destruct (run_n_complete (format dev p i) w) as [n Hn].
  pose proof (format_n dev p i n w) as H1. by rewrite Hn in H1.
Qed.

(** A successful [format]. *)
Lemma luks_format_run_ok dev p i w w' :
  run (format dev p i) w = (Ok tt, w') ->
  luks_subsystem w' dev = Some LUKS2_SUBSYSTEM_INITIALIZING /\
  unlocks w' dev (passphrase_bytes p) = true.
Proof.
  unfold format. rewrite run_rpbind, run_query by done.
  destruct (fst (handle (CryptInit dev) w)) as [[]| |]; [|done..].
  rewrite run_rpbind, run_call.
  destruct (handle (CryptFormat _ _ _ _ _) w) as [[[]| |] w1] eqn:E1; [|done..].
  rewrite run_rpbind, run_call.
  destruct (handle (CryptAddByKey _ _ _) w1) as [[[]| |] w2] eqn:E2; [|done..].
  intros [= <-]. split.
  - replace w2 with (snd (handle (CryptAddByKey dev (volume_key_size i) (passphrase_bytes p)) w1))
      by (by rewrite E2).
    rewrite add_key_header. replace w1 with
      (snd (handle (CryptFormat dev "aes" "xts-plain64" (volume_key_size i) (luks2_params i)) w)) by (by rewrite E1).
    apply format_ok. by rewrite E1.
  - replace w2 with (snd (handle (CryptAddByKey dev (volume_key_size i) (passphrase_bytes p)) w1))
      by (by rewrite E2).
    apply add_key_ok. by rewrite E2.
Qed.

(** [mark_volume_as_initialized] sets the marker with its last call. *)
Lemma mark_n dev n w :
  luks_subsystem (snd (run_n n (mark_volume_as_initialized dev) w)) dev = luks_subsystem w dev \/
  fst (run_n n (mark_volume_as_initialized dev) w) = Some (Ok tt).
Proof.
  unfold mark_volume_as_initialized, rpbind. simpl. destruct n as [|n]; [by left|].
  destruct (handle (CryptInit dev) w) as [r0 w0] eqn:E0.
  assert (w0 = w) as -> by (change w0 with (snd (r0, w0)); rewrite <- E0; by apply query_pure).
  destruct r0 as [[]| |]; [|by left..]. simpl. destruct n as [|n]; [by left|].
  destruct (handle (CryptLoad dev) w) as [r1 w1] eqn:E1.
  assert (w1 = w) as -> by (change w1 with (snd (r1, w1)); rewrite <- E1; by apply query_pure).
  destruct r1 as [[]| |]; [|by left..]. simpl. destruct n as [|n]; [by left|].
  destruct (handle (CryptSetLabel _ _ _) w) as [r2 w2] eqn:E2.
  destruct (unit_result_dec r2) as [->|Hr]; [by right|left].
  assert (luks_subsystem w2 dev = luks_subsystem w dev) as E.
  { replace w2 with (snd (handle (CryptSetLabel dev None (Some LUKS2_SUBSYSTEM_NAME)) w)) by (by rewrite E2).
    apply set_label_other. by rewrite E2. }
  by destruct r2 as [[]| |].
Qed.

Lemma mark_run_ok dev w w' :
  run (mark_volume_as_initialized dev) w = (Ok tt, w') ->
  luks_subsystem w' dev = Some LUKS2_SUBSYSTEM_NAME /\ forall k, unlocks w' dev k = unlocks w dev k.
Proof.
  unfold mark_volume_as_initialized. rewrite run_rpbind, run_query by done.
  destruct (fst (handle (CryptInit dev) w)) as [[]| |]; [|done..].
  rewrite run_rpbind, run_query by done.
  destruct (fst (handle (CryptLoad dev) w)) as [[]| |]; [|done..].
  rewrite run_rpbind, run_call.
  destruct (handle (CryptSetLabel _ _ _) w) as [[[]| |] w1] eqn:E1; [|done..].
  intros [= <-].
  replace w1 with (snd (handle (CryptSetLabel dev None (Some LUKS2_SUBSYSTEM_NAME)) w)) by (by rewrite E1).
  split; [apply set_label_ok; by rewrite E1|]. intros k. apply set_label_slots.
Qed.

Lemma mark_run_other dev w :
  fst (run (mark_volume_as_initialized dev) w) <> Ok tt ->
  luks_subsystem (snd (run (mark_volume_as_initialized dev) w)) dev = luks_subsystem w dev.
Proof.
  intros Hr. destruct (run_n_complete (mark_volume_as_initialized dev) w) as [n Hn].
  destruct (mark_n dev n w) as [E|E]; rewrite Hn in E; cbn [fst snd] in E; [done|congruence].
Qed.

Lemma check_passphrase_ok dev p w s :
  luks_subsystem w dev = Some s -> unlocks w dev (passphrase_bytes p) = true ->
  run (check_passphrase dev p) w = (Ok tt, w).
Proof.
  intros Hs Hu. destruct (init_loads _ _ _ Hs) as [H1 H2]. unfold check_passphrase.
  rewrite run_rpbind, run_query, H1 by done. rewrite run_rpbind, run_query, H2 by done.
  rewrite run_rpbind, run_query by done.
  apply (activate_checks _ _ _ false) in Hu. by rewrite Hu.
Qed.

Lemma check_passphrase_inv dev p w w' :
  run (check_passphrase dev p) w = (Ok tt, w') -> w' = w /\ unlocks w dev (passphrase_bytes p) = true.
Proof.
  unfold check_passphrase. rewrite run_rpbind, run_query by done.
  destruct (fst (handle (CryptInit dev) w)) as [[]| |]; [|done..].
  rewrite run_rpbind, run_query by done.
  destruct (fst (handle (CryptLoad dev) w)) as [[]| |]; [|done..].
  rewrite run_rpbind, run_query by done.
  destruct (fst (handle (CryptActivate _ _ _ _) w)) as [[]| |] eqn:E; [|done..].
  intros [= <-]. split; [done|]. by apply (activate_checks _ _ _ false).
Qed.
End Operations.

Section Opening.
Context {W : Type} `{Cryptsetup W}.
Implicit Types (w : W) (dev : string).

Lemma modules_touch_nothing dev integrity :
  let p := let> _ := ensure_module_loaded "dm_crypt" [] in
           match integrity with
           | IntegrityNone => Ret tt
           | _ => ensure_module_loaded "dm-integrity" []
           end in
  all_ops (fun _ e => touches dev e = false) p /\ all_ops (fun _ e => remaps e = false) p.
Proof.
  split; all_ops; try (by apply all_ops_ensure_module_loaded).
Qed.

(** Opening a device with a passphrase of its slots maps the volume. *)
Lemma open_with_check_ok volume dev p integrity w s :
  luks_subsystem w dev = Some s -> unlocks w dev (passphrase_bytes p) = true ->
  mapped w volume = false -> fst (handle (OpenExclusive dev) w) = Ok tt ->
  exists w', run (open_with_check_passphrase volume dev p integrity) w = (Ok tt, w') /\
    mapped w' volume = true /\ luks_subsystem w' dev = Some s.
Proof.
  intros Hs Hu Hm Hf. unfold open_with_check_passphrase.
  destruct (modules_touch_nothing dev integrity) as [H1 H2].
  apply (untouched _ _ w) in H1 as [T1 T2]. apply (not_remapped _ w) in H2 as [T3 T4].
  revert T1 T2 T3 T4. rewrite !run_bind.
  destruct (run (ensure_module_loaded _ _) w) as [_u w1]. rewrite run_bind.
  destruct (run (match integrity with IntegrityNone => _ | _ => _ end) w1) as [_v w2].
  cbn [snd]. intros T1 T2 T3 T4.
  rewrite <- T1 in Hs. rewrite <- T2 in Hu. rewrite <- T3 in Hm. rewrite <- T4 in Hf.
  clear T1 T2 T3 T4.
  rewrite run_rpbind, (check_passphrase_ok _ _ _ _ Hs Hu).
  destruct (init_loads _ _ _ Hs) as [L1 L2].
  rewrite run_rpbind, run_query, L1 by done. rewrite run_rpbind, run_query, L2 by done.
  rewrite run_rpbind, run_call.
  set (j := match integrity with IntegrityNone | Journal => false | NoJournal => true end).
  pose proof (activate_works w2 volume dev (passphrase_bytes p) j Hu Hm Hf) as Ha.
  pose proof (activate_maps w2 volume dev (passphrase_bytes p) j Ha) as Hmap.
  pose proof (frame_header _ (CryptActivate (Some volume) dev (passphrase_bytes p) j) w2 dev eq_refl) as Hh.
  destruct (handle (CryptActivate _ _ _ _) w2) as [r w3]. cbn [fst snd] in *. subst r.
  exists w3. split; [done|]. split; [done|]. by rewrite Hh.
Qed.

(** What opening can do to a device: nothing to its header. *)
Lemma open_with_check_touches volume dev d p integrity :
  all_ops (fun _ e => touches d e = false) (open_with_check_passphrase volume dev p integrity).
Proof.
  unfold open_with_check_passphrase, check_passphrase. all_ops; try done;
    by apply all_ops_ensure_module_loaded.
Qed.

Lemma close_touches volume d : all_ops (fun _ e => touches d e = false) (close volume).
Proof. unfold close. all_ops; done. Qed.

Lemma temp_open_touches dev d p integrity :
  all_ops (fun _ e => touches d e = false) (temp_open dev p integrity).
Proof. unfold temp_open. all_ops; try done. apply open_with_check_touches. Qed.

Lemma temp_drop_touches v d : all_ops (fun _ e => touches d e = false) (temp_drop v).
Proof. unfold temp_drop. all_ops; try done. apply close_touches. Qed.
End Opening.

(** ** Crashes *)

Section Crash.
Context {W : Type} `{Cryptsetup W}.
Implicit Types (w : W) (dev : string).

Definition not_ready w dev : Prop :=
  state_of_subsystem (luks_subsystem w dev) <> InitStateReady.

(** A stopped run left the device unmarked, or it had returned. *)
Definition crash_good dev (x : option (result anyhow unit) * W) : Prop :=
  not_ready (snd x) dev \/ fst x = Some (Ok tt).

Lemma keeps_not_ready {A} dev (p : M A) w :
  not_ready w dev -> all_ops (fun _ e => touches dev e = false) p ->
  (forall n, not_ready (snd (run_n n p w)) dev) /\ not_ready (snd (run p w)) dev.
Proof.
  intros Hw Hp. unfold not_ready in *. split.
  - intros n. by rewrite untouched_n.
  - by rewrite (proj1 (untouched _ _ w Hp)).
Qed.

(** A device marked as being initialized, while its volume is written. *)
Lemma keeps_initializing {A} dev (p : M A) w :
  luks_subsystem w dev = Some LUKS2_SUBSYSTEM_INITIALIZING ->
  all_ops_if (fresh_answer dev) (fun _ e => touches dev e = false) p ->
  (forall n, not_ready (snd (run_n n p w)) dev) /\ not_ready (snd (run p w)) dev.
Proof.
  intros Hw Hp. assert (Hn : forall n, not_ready (snd (run_n n p w)) dev).
  { intros n. unfold not_ready. by rewrite (proj1 (untouched_if _ _ n w _ Hw Hp)). }
  split; [done|]. destruct (run_n_complete p w) as [n En]. specialize (Hn n). by rewrite En in Hn.
Qed.

Lemma crash_rpbind {A} dev (p : M A) (f : A -> M unit) w :
  (forall n, not_ready (snd (run_n n p w)) dev) ->
  (forall a w1, run p w = (Ok a, w1) -> forall n, crash_good dev (run_n n (f a) w1)) ->
  forall n, crash_good dev (run_n n (rpbind p f) w).
Proof.
  intros Hp Hf n. destruct (run_n_rpbind p f n w) as [(w' & E1 & E2)|[m Em]].
  - left. rewrite E2. specialize (Hp n). by rewrite E1 in Hp.
  - rewrite Em. destruct (run_n_complete p w) as [k Hk].
    specialize (Hp k). rewrite Hk in Hp. cbn [fst snd] in Hp.
    destruct (run p w) as [[a|e|] w1] eqn:E; cbn [fst snd] in *; [by apply Hf|left; done..].
Qed.

Lemma formatted_not_ready old s :
  state_of_subsystem old <> InitStateReady -> s ∈ formatted_or old ->
  state_of_subsystem s <> InitStateReady.
Proof.
  intros Ho Hs. unfold formatted_or in Hs.
  apply elem_of_cons in Hs as [->|[->|[->|Hs]%elem_of_cons]%elem_of_cons]; [done..|].
  by apply elem_of_nil in Hs.
Qed.

(** A part that keeps the device unmarked, then the rest from where it ends. *)
Lemma crash_seq {A} dev (p : M A) (f : A -> M unit) w :
  (forall n, not_ready (snd (run_n n p w)) dev) ->
  (forall a w1, not_ready w1 dev -> run p w = (Ok a, w1) -> forall n, crash_good dev (run_n n (f a) w1)) ->
  forall n, crash_good dev (run_n n (rpbind p f) w).
Proof.
  intros Hp Hf. apply crash_rpbind; [done|]. intros a w1 E. apply Hf; [|done].
  destruct (run_n_complete p w) as [k Hk]. specialize (Hp k). by rewrite Hk, E in Hp.
Qed.

(** The same for a part that cannot fail. *)
Lemma crash_bind {A} dev (p : sys A) (f : A -> M unit) w :
  (forall n, not_ready (snd (run_n n p w)) dev) ->
  (forall a w1, not_ready w1 dev -> run p w = (a, w1) -> forall n, crash_good dev (run_n n (f a) w1)) ->
  forall n, crash_good dev (run_n n (pbind p f) w).
Proof.
  intros Hp Hf n. destruct (run_n_bind p f n w) as [(w' & E1 & E2)|[m Em]].
  - left. rewrite E2. specialize (Hp n). by rewrite E1 in Hp.
  - rewrite Em. destruct (run_n_complete p w) as [k Hk]. specialize (Hp k). rewrite Hk in Hp.
    destruct (run p w) as [a w1]. by apply Hf.
Qed.

Lemma mark_crash_good dev w : not_ready w dev ->
  forall n, crash_good dev (run_n n (mark_volume_as_initialized dev) w).
Proof.
  intros Hw n. destruct (mark_n dev n w) as [E|E]; [left|by right].
  unfold not_ready in *. cbn [snd]. by rewrite E.
Qed.

Lemma format_not_ready dev p i w : not_ready w dev ->
  forall n, not_ready (snd (run_n n (format dev p i) w)) dev.
Proof. intros Hw n. eapply formatted_not_ready; [exact Hw|apply format_n]. Qed.
End Crash.
