(* ===== verification/KeyProvider.v ===== *)
(** * Key providers

    [cryptpilot-core/src/provider] and [config/encrypt.rs]: where the
    passphrase of a volume comes from.  Base64, JSON text and the services are
    parameters and calls; [cfg!(test)] is false. *)

From Stdlib Require Import Ascii.
From stdpp Require Import base list strings.
From Stdlib Require Import ZArith Lia.
From S2P Require Import Prelude RustString Sys Cmd Luks2.
From S2P Require Import FileVerifier.

Local Open Scope Z_scope.

(** The crate [base64]: its standard and URL-safe engines. *)
Class Base64 := {
  b64_encode : bytes -> string;
  b64_decode : string -> option bytes;
  b64_url_encode : string -> string;
}.

(** [serde_json::Value] as far as the sealed secret needs it, and its text. *)
Inductive Json := JString (s : string) | JObject (fields : list (string * Json)).

Class JsonText := { json_to_string : Json -> string }.

(** ** The trait *)

Inductive VolumeType := Temporary | Persistent.

#[global] Instance VolumeType_eq_dec : EqDecision VolumeType.
Proof. solve_decision. Defined.

(** ** Configurations *)

Record OtpConfig := mkOtp {}.
Record Tpm2Config := mkTpm2 {}.
Record ExecConfig := mkExec { exec_command : string; exec_args : list string }.

Inductive AuthMode :=
| ClientKey (client_key client_key_password kms_cert_pem : string)
| EcsRamRole (ecs_ram_role_name region_id : option string).

Record KmsConfig := mkKms {
  kms_instance_id : string;
  secret_name : string;
  kms_auth : AuthMode;
}.

Record AuthModeDeHelper := mkAuthHelper {
  h_auth_mode : option string;
  h_client_key : option string;
  h_client_key_password : option string;
  h_kms_cert_pem : option string;
  h_ecs_ram_role_name : option string;
  h_region_id : option string;
}.

Definition deserialize_auth_mode (helper : AuthModeDeHelper) : result anyhow AuthMode :=
  if decide (h_auth_mode helper = Some "ecs_ram_role"%string)
  then Ok (EcsRamRole (h_ecs_ram_role_name helper) (h_region_id helper))
  else
    let? client_key := ok_or (h_client_key helper) (Bail "missing field `client_key`") in
    let? password := ok_or (h_client_key_password helper) (Bail "missing field `client_key_password`") in
    let? pem := ok_or (h_kms_cert_pem helper) (Bail "missing field `kms_cert_pem`") in
    Ok (ClientKey client_key password pem).

Definition default_cdh_socket : string := "unix:///run/confidential-containers/cdh.sock".

Inductive CdhType :=
| OneShot (kbs_url : string) (kbs_root_cert : option string)
| Daemon (cdh_socket : string).

Record KbsConfig := mkKbs {
  kbs_cdh_type : CdhType;
  key_uri : string;
}.

Record RawConfig := mkRawConfig {
  raw_cdh_type : option string;
  raw_kbs_url : option string;
  raw_kbs_root_cert : option string;
  raw_cdh_socket : option string;
}.

Definition deserialize_cdh_type (raw : RawConfig) : result anyhow CdhType :=
  let cdh_type := default "one-shot" (raw_cdh_type raw) in
  if decide (cdh_type = "one-shot"%string)
  then let? url := ok_or (raw_kbs_url raw) (Bail "kbs_url is required for one-shot mode") in
       Ok (OneShot url (raw_kbs_root_cert raw))
  else if decide (cdh_type = "daemon"%string)
  then Ok (Daemon (default default_cdh_socket (raw_cdh_socket raw)))
  else Err (Bail "unknown cdh_type").

Record AliyunKmsConfig := mkAliyunKms {
  oidc_provider_arn : string;
  role_arn : string;
  aliyun_region_id : string;
}.

Inductive Kms := Aliyun (c : AliyunKmsConfig).

Record OidcConfig := mkOidc {
  oidc_command : string;
  oidc_args : list string;
  oidc_key_id : string;
  oidc_kms : Kms;
}.

Inductive KeyProviderConfig :=
| Otp (c : OtpConfig)
| KmsProvider (c : KmsConfig)
| Kbs (c : KbsConfig)
| Tpm2 (c : Tpm2Config)
| Oidc (c : OidcConfig)
| Exec (c : ExecConfig).

Section Providers.
Context `{Hex, Base64, JsonText}.

(** ** Passphrases *)

(** [Passphrase::random] *)
Definition passphrase_random : sys Passphrase :=
  let> passphrase := call (RandomBytes (GENERATED_PASSPHRASE_LEN / 2)) in
  Ret (mkPassphrase (as_bytes (hex_encode passphrase))).

(** [String::from_utf8] then base64 decoding, after [f] on the text. *)
Definition decode_base64_key (f : string -> string) (key_u8 : bytes) : result anyhow Passphrase :=
  let? key_base64 := ok_or (from_utf8 key_u8) Decode in
  let? key := ok_or (b64_decode (f key_base64)) Decode in
  Ok (mkPassphrase key).

Definition test_mode : sys bool :=
  let> v := call (EnvVar "CRYPTPILOT_TEST_MODE") in
  Ret (negb (is_none v)).

(** ** helper.rs *)

Definition ONE_SHOT_CDH_BINARY_PATH : string := "/usr/bin/confidential-data-hub".

Definition find_cdh_binary_or_default : sys string :=
  let> found := call (Which "confidential-data-hub") in
  Ret (default ONE_SHOT_CDH_BINARY_PATH found).

(** ** otp.rs, tpm2.rs, exec.rs *)

Definition otp_get_key (c : OtpConfig) : M Passphrase :=
  let> p := passphrase_random in
  ok p.

(** [todo!()] *)
Definition tpm2_get_key (c : Tpm2Config) : M Passphrase := panic.

Definition exec_get_key (c : ExecConfig) : M Passphrase :=
  let* output := run_cmd (mkCommand (exec_command c) (exec_args c)) in
  ok (mkPassphrase output).

(** ** kms.rs *)

Definition IMDS_BASE : string := "http://100.100.100.200/latest/meta-data".

Definition discover_region : M string :=
  let* resp := call (HttpGet (IMDS_BASE +:+ "/region-id")) in
  if http_status resp =? 404 then bail "IMDS region endpoint not reachable"
  else
    let* region_id := lift (ok_or (http_text resp) Service) in
    let region_id := trim region_id in
    if decide (region_id = "") then bail "IMDS returned an empty region ID" else ok region_id.

Definition discover_ram_role_name : M string :=
  let* resp := call (HttpGet (IMDS_BASE +:+ "/ram/security-credentials/")) in
  if http_status resp =? 404 then bail "No RAM role bound to this ECS instance"
  else
    let* body := lift (ok_or (http_text resp) Service) in
    let roles := filter (fun l => l <> "") (map trim (lines body)) in
    match roles with
    | [] => bail "IMDS returned an empty RAM role list"
    | [role_name] => ok role_name
    | _ => bail "Multiple RAM roles bound to this ECS instance"
    end.

(** [RetryPolicy::fixed(..).with_max_retries(retries).retry(f)]: the delays
    are not modelled. *)
Fixpoint retry {A} (retries : nat) (f : M A) : M A :=
  let> r := f in
  match r, retries with
  | Err _, S retries => retry retries f
  | _, _ => Ret r
  end.

Definition kms_client (c : KmsConfig) : M KmsClient :=
  match kms_auth c with
  | ClientKey client_key client_key_password kms_cert_pem =>
    let client := ClientKeyClient client_key (kms_instance_id c) client_key_password kms_cert_pem in
    let* _ := call (KmsNewClient client) in
    ok client
  | EcsRamRole ecs_ram_role_name region_id =>
    let* region_id := match region_id with Some r => ok r | None => discover_region end in
    let* role := match ecs_ram_role_name with Some n => ok n | None => discover_ram_role_name end in
    ok (EcsRamRoleClient role region_id)
  end.

Definition kms_max_attempts : nat := 5.

Definition get_key_from_kms (c : KmsConfig) : M bytes :=
  let* client := kms_client c in
  retry (kms_max_attempts - 1) (call (KmsGetSecret client (secret_name c))).

Definition kms_get_key (c : KmsConfig) : M Passphrase :=
  let> test := test_mode in
  let* key_u8 := (if (test : bool) then ok (as_bytes (b64_encode (as_bytes "test")))
                  else get_key_from_kms c) in
  lift (decode_base64_key id key_u8).

(** ** kbs/mod.rs *)

Definition QUOTES3 : string := let q := String (ascii_of_nat 34) "" in q +:+ q +:+ q.

(** The configuration file written for the one-shot confidential-data-hub. *)
Definition cdh_config (kbs_url : string) (kbs_root_cert : option string) : string :=
  let nl := String (ascii_of_nat 10) "" in
  let q := String (ascii_of_nat 34) "" in
  nl +:+ "socket = " +:+ q +:+ "unix:///run/confidential-containers/cdh.sock" +:+ q +:+ nl +:+
  "[kbc]" +:+ nl +:+ "name = " +:+ q +:+ "cc_kbc" +:+ q +:+ nl +:+
  "url = " +:+ q +:+ kbs_url +:+ q +:+ nl +:+
  match kbs_root_cert with
  | Some cert => "kbs_cert = " +:+ QUOTES3 +:+ nl +:+ cert +:+ nl +:+ QUOTES3 +:+ nl
  | None => ""
  end.

Definition kbs_get_key (c : KbsConfig) : M Passphrase :=
  let> test := test_mode in
  if (test : bool) then ok (mkPassphrase (as_bytes "test"))
  else match kbs_cdh_type c with
  | OneShot kbs_url kbs_root_cert =>
    let> cdh_bin_path := find_cdh_binary_or_default in
    let> exists_ := call (PathExists cdh_bin_path) in
    if negb exists_ then bail "The confidential-data-hub binary not found, you may need to install it first."
    else
      let* config := call (TempFile ".cdh-config" ".toml" (cdh_config kbs_url kbs_root_cert)) in
      let* key_u8 := run_cmd (mkCommand cdh_bin_path
                                ["-c"; config; "get-resource"; "--resource-uri"; key_uri c]) in
      lift (decode_base64_key trim_end key_u8)
  | Daemon cdh_socket =>
    let* _ := call (TtrpcConnect cdh_socket) in
    let* resource := call (TtrpcGetResource cdh_socket (key_uri c)) in
    ok (mkPassphrase resource)
  end.

(** ** oidc.rs *)

Definition export_provider_settings (kms : Kms) (oidc_token : string) : Json :=
  match kms with
  | Aliyun c =>
    JObject [("oidc_provider_arn", JString (oidc_provider_arn c)); ("role_arn", JString (role_arn c));
             ("region_id", JString (aliyun_region_id c)); ("id_token", JString oidc_token);
             ("client_type", JString "oidc_ram")]
  end.

Definition sealed_secret (c : OidcConfig) (oidc_token : string) : string :=
  let sealed_secret :=
    JObject [("version", JString "0.1.0"); ("type", JString "vault"); ("name", JString (oidc_key_id c));
             ("provider", JString "aliyun");
             ("provider_settings", export_provider_settings (oidc_kms c) oidc_token);
             ("annotations", JObject [])] in
  "sealed.h." +:+ b64_url_encode (json_to_string sealed_secret) +:+ ".sig".

Definition oidc_get_key (c : OidcConfig) : M Passphrase :=
  let> cdh_bin_path := find_cdh_binary_or_default in
  let> exists_ := call (PathExists cdh_bin_path) in
  let> missing := (if (exists_ : bool) then Ret false else let> test := test_mode in Ret (negb test)) in
  if (missing : bool)
  then bail "The confidential-data-hub binary not found, you may need to install it first."
  else
    let> get_oidc_token_res := run_cmd (mkCommand (oidc_command c) (oidc_args c)) in
    let> test := test_mode in
    let* oidc_token := lift (if (test : bool) then Ok (as_bytes "test_oidc_token") else get_oidc_token_res) in
    let* oidc_token := lift (ok_or (from_utf8 oidc_token) Decode) in
    let* secret_file := call (TempFile ".sealed_secret" ".json" (sealed_secret c oidc_token)) in
    let> get_secret_res := run_cmd (mkCommand cdh_bin_path ["unseal-secret"; "--secret-path"; secret_file]) in
    let> test := test_mode in
    let* key_u8 := lift (if (test : bool) then Ok (as_bytes (b64_encode (as_bytes "test"))) else get_secret_res) in
    lift (decode_base64_key trim_end key_u8).

(** ** encrypt.rs: the boxed provider of a configuration *)

Definition get_key (c : KeyProviderConfig) : M Passphrase :=
  match c with
  | Otp c => otp_get_key c
  | KmsProvider c => kms_get_key c
  | Kbs c => kbs_get_key c
  | Tpm2 c => tpm2_get_key c
  | Oidc c => oidc_get_key c
  | Exec c => exec_get_key c
  end.

Definition volume_type (c : KeyProviderConfig) : VolumeType :=
  match c with
  | Otp _ => Temporary
  | _ => Persistent
  end.

Definition debug_name (c : KeyProviderConfig) : string :=
  match c with
  | Otp _ => "Secure Random One-Time Password"
  | KmsProvider c =>
    match kms_auth c with
    | ClientKey _ _ _ => "KMS (key ID: " +:+ secret_name c +:+ ") via Client Key"
    | EcsRamRole role _ =>
      "KMS (key ID: " +:+ secret_name c +:+ ") via ECS RAM Role ("
        +:+ default "(auto-discovered)" role +:+ ")"
    end
  | Kbs c =>
    "Key Broker Service (" +:+
      match kbs_cdh_type c with OneShot kbs_url _ => kbs_url | Daemon _ => "via CDH daemon" end +:+ ")"
  | Tpm2 _ => "TPM"
  | Oidc c =>
    "KMS (key ID: " +:+ oidc_key_id c +:+ ") via OIDC token (provider: " +:+ oidc_command c +:+ ")"
  | Exec c => "External Command (" +:+ exec_command c +:+ ")"
  end.

(** The calls that fetch keys. *)
Definition key_op {R} (e : sysop R) : bool :=
  match e with
  | PathExists _ | EnvVar _ | Which _ | TempFile _ _ _ | Spawn _ _ None | RandomBytes _
  | HttpGet _ | KmsNewClient _ | KmsGetSecret _ _ | TtrpcConnect _ | TtrpcGetResource _ _ => true
  | _ => false
  end.

Lemma all_ops_retry {A} (P : forall R, sysop R -> Prop) n (f : M A) :
  all_ops P f -> all_ops P (retry n f).
Proof.
  intros Hf. induction n as [|n IH]; simpl; apply all_ops_bind; try done; intros [a|e|]; done.
Qed.

Lemma get_key_ops c : all_ops (fun _ e => key_op e = true) (get_key c).
Proof.
  destruct c as [c|c|c|c|c|c];
    unfold get_key, otp_get_key, passphrase_random, kms_get_key, get_key_from_kms, kms_client, discover_region,
      discover_ram_role_name, kbs_get_key, find_cdh_binary_or_default, tpm2_get_key, oidc_get_key,
      exec_get_key, test_mode; all_ops; try done;
    try (apply all_ops_run_cmd; done); try (apply all_ops_retry; simpl; auto).
Qed.

(** With CRYPTPILOT_TEST_MODE in the environment the key of a key broker is the
    text test, and that of a KMS is one value for all configurations and
    machines: no service is asked. *)
Theorem test_mode_key_constant {W : Type} `{!Handler sysop W} (w w' : W) :
  fst (handle (EnvVar "CRYPTPILOT_TEST_MODE") w) <> None ->
  fst (handle (EnvVar "CRYPTPILOT_TEST_MODE") w') <> None ->
  (forall c, run (get_key (Kbs c)) w =
    (Ok (mkPassphrase (as_bytes "test")), snd (handle (EnvVar "CRYPTPILOT_TEST_MODE") w))) /\
  (forall c c', fst (run (get_key (KmsProvider c)) w) = fst (run (get_key (KmsProvider c')) w')).
Proof.
  unfold get_key, kbs_get_key, kms_get_key, test_mode. cbn.
  destruct (handle (EnvVar "CRYPTPILOT_TEST_MODE") w) as [[v|] w1]; cbn; [|done].
  destruct (handle (EnvVar "CRYPTPILOT_TEST_MODE") w') as [[v'|] w1']; cbn; [|done]. done.
Qed.
End Providers.
