(* ===== verification/Mkfs.v ===== *)
(** * Making file systems

    [cryptpilot-core/src/fs/mkfs.rs]: mkfs on a plain volume, and on a volume
    with integrity protection, where mkfs runs on a sparse dummy device and the
    pages it touched are copied, so that the volume need not be wiped first.
    The loop device and blktrace are calls; the event flags are the kernel's. *)

From Stdlib Require Import Ascii.
From stdpp Require Import base list strings.
From Stdlib Require Import ZArith Lia.
From S2P Require Import Prelude RustString Sys Cmd Blkid Luks2.

Local Open Scope Z_scope.

(** The generated bindings of [blktrace_api.h]. *)
Class BlkTraceConsts := {
  BLK_TC_SHIFT : Z;
  BLK_TC_READ : Z;
  BLK_TC_WRITE : Z;
  BLK_TC_DISCARD : Z;
}.

(** ** NormalMakeFs *)

Definition mkfs_command (fs_type : MakeFsType) : string * list string :=
  match fs_type with
  | Swap => ("mkswap", ["-f"])
  | Ext4 => ("mkfs.ext4", ["-F"; "-E"; "lazy_itable_init=0,lazy_journal_init=0"])
  | Xfs => ("mkfs.xfs", ["-f"])
  | Vfat => ("mkfs.vfat", ["-I"])
  end%string.

Definition normal_force_mkfs (device_path : string) (fs_type : MakeFsType) : M unit :=
  let '(mkfs_cmd, args) := mkfs_command fs_type in
  let* _ := run_cmd (mkCommand mkfs_cmd (args ++ [device_path])) in
  ok tt.

(** ** The touched pages *)

Section Pages.
Context `{BlkTraceConsts}.

Definition has_category (mask : Z) (e : blk_io_trace) : bool :=
  Z.land (Z.shiftr (bt_action e) BLK_TC_SHIFT) mask =? mask.

Definition is_read (e : blk_io_trace) : bool := has_category BLK_TC_READ e.
Definition is_write (e : blk_io_trace) : bool := has_category BLK_TC_WRITE e.
Definition is_discard (e : blk_io_trace) : bool := has_category BLK_TC_DISCARD e.

(** [OrderSet::insert] *)
Definition oset_insert (i : Z) (s : list Z) : list Z := if decide (i ∈ s) then s else s ++ [i].

(** The ordered sets of pages read or written, read, and written. *)
Record Positions := mkPositions {
  rw_positions : list Z;
  r_positions : list Z;
  w_positions : list Z;
}.

Definition record_page (e : blk_io_trace) (ps : Positions) (i : Z) : Positions := {|
  rw_positions := oset_insert i (rw_positions ps);
  r_positions := if is_read e then oset_insert i (r_positions ps) else r_positions ps;
  w_positions := if is_write e then oset_insert i (w_positions ps) else w_positions ps;
|}.

(** The pages of [(start / page_size)..end.div_ceil(page_size)]. *)
Definition event_pages (page_size : Z) (e : blk_io_trace) : list Z :=
  let bytes_start := wrap64 (bt_sector e * 512) in
  let bytes_end := wrap64 (bytes_start + bt_bytes e) in
  seqZ (bytes_start / page_size) (div_ceil bytes_end page_size - bytes_start / page_size).

Definition is_recorded (e : blk_io_trace) : bool := negb (is_discard e) && (is_read e || is_write e).

Definition record_event (page_size : Z) (ps : Positions) (e : blk_io_trace) : Positions :=
  if is_recorded e
  then foldl (record_page e) ps (event_pages page_size e)
  else ps.

(** A page size of zero would panic on the first division. *)
Definition touched_positions (page_size : Z) (events : list blk_io_trace) : result anyhow Positions :=
  if (page_size =? 0) && existsb is_recorded events then Panic
  else Ok (foldl (record_event page_size) (mkPositions [] [] []) events).
End Pages.

(** ** Copying the pages *)

Definition migrate_page (dummy_path device_path : string) (page_size : Z) (i : Z) : M unit :=
  let offset := wrap64 (i * page_size) in
  let* buf := call (ReadAt dummy_path offset (Z.to_nat page_size)) in
  let* _ := call (WriteAt device_path offset buf) in
  ok tt.

Definition migrate_pages (dummy_path device_path : string) (page_size : Z) (positions : list Z) : M unit :=
  let* _ := call (OpenDevice dummy_path false) in
  let* _ := call (OpenDevice device_path true) in
  let* _ := for_each positions (migrate_page dummy_path device_path page_size) in
  let* _ := call (FlushDevice device_path) in
  ok tt.

(** ** IntegrityNoWipeMakeFs *)

Section Integrity.
Context `{BlkTraceConsts}.

(** Everything between the creation of the dummy device and its drop. *)
Definition record_and_migrate (dummy_path device_path : string) (fs_type : MakeFsType) : M unit :=
  let* _ := call (BlkTraceMonitor dummy_path) in
  let* _ := normal_force_mkfs dummy_path fs_type in
  let* _ := run_cmd (mkCommand "blkid" ["-p"; dummy_path]) in
  let* events := call (BlkTraceShutdown dummy_path) in
  let* page_size := call PageSize in
  let* positions := lift (touched_positions page_size events) in
  migrate_pages dummy_path device_path page_size (rw_positions positions).

Definition integrity_force_mkfs (device_path : string) (fs_type : MakeFsType) : M unit :=
  let* (device_size, block_size) := call (BlockDeviceSize device_path) in
  let> _ := ensure_module_loaded "loop" [] in
  let* dummy_path := call (LoopAttach device_size block_size) in
  let> r := record_and_migrate dummy_path device_path fs_type in
  let> _ := call (LoopDetach dummy_path) in
  lift r.

Definition force_mkfs (volume_path : string) (makefs : MakeFsType) (integrity : IntegrityType) : M unit :=
  match integrity with
  | IntegrityNone => normal_force_mkfs volume_path makefs
  | Journal | NoJournal => integrity_force_mkfs volume_path makefs
  end.
End Integrity.

(** ** Valuable data *)

Definition makefs_str (fs : MakeFsType) : string :=
  match fs with Swap => "swap" | Ext4 => "ext4" | Xfs => "xfs" | Vfat => "vfat" end.

Definition has_valuable_data (device_path : string) (fs_hint : option MakeFsType) : M bool :=
  let* probe := probe_device device_path in
  match probe, fs_hint with
  | NoSignatures, _ => ok false
  | KnownSignature fs_type _ _, Some expected_fs =>
    if decide (fs_type = Some (makefs_str expected_fs)) then ok true
    else bail "Something else is detected"
  | KnownSignature _ _ _, None => ok true
  end.
