(* ===== verification/MkfsProofs.v ===== *)
(** * Making file systems: the copied pages

    The pages recorded from the events are those the events touch, and copying
    them makes the volume agree with the dummy device there and nowhere else.
    [BlockDevices] pgs what the copy relies on of reads and writes. *)

From Stdlib Require Import Ascii.
From stdpp Require Import base list strings numbers sets.
From Stdlib Require Import ZArith Lia.
From S2P Require Import Prelude RustString Sys Cmd Blkid Luks2 Mkfs.

Local Open Scope Z_scope.

(** ** Recorded pages *)

(** An event whose byte range fits in 64 bits. *)
Definition event_ok (e : blk_io_trace) : Prop :=
  0 <= bt_sector e /\ 0 <= bt_bytes e /\ bt_sector e * 512 + bt_bytes e < u64_modulus.

(** Byte [b] is in the range of [e]; an empty event counts as touching its
    position when that is inside a page. *)
Definition touches_byte (page_size : Z) (e : blk_io_trace) (b : Z) : Prop :=
  bt_sector e * 512 <= b < bt_sector e * 512 + bt_bytes e \/
  (bt_bytes e = 0 /\ b = bt_sector e * 512 /\ b mod page_size <> 0).

Lemma event_pages_spec page_size e i :
  0 < page_size -> event_ok e ->
  (i ∈ event_pages page_size e <-> exists b, touches_byte page_size e b /\ b / page_size = i).
Proof.
  intros Hp (Hs & Hb & Hm). unfold event_pages, touches_byte.
  rewrite !wrap64_small by (rewrite ?wrap64_small; lia).
  rewrite elem_of_seqZ. set (st := bt_sector e * 512) in *. set (en := st + bt_bytes e).
  pose proof (div_ceil_bounds en page_size Hp ltac:(lia)) as Hc.
  pose proof (Z.div_mod st page_size ltac:(lia)) as Ed.
  pose proof (Z.mod_pos_bound st page_size Hp) as Em.
  split.
  - intros [H1 H2]. assert (Hi : i * page_size < en) by nia.
    destruct (decide (bt_bytes e = 0)) as [E0|E0].
    + exists st. unfold en in *. rewrite E0, Z.add_0_r in *.
      assert (i = st / page_size) as -> by nia. split; [|done].
      right. repeat split; try done. lia.
    + destruct (decide (i = st / page_size)) as [->|Hne].
      * exists st. split; [left; unfold en in *; lia|done].
      * exists (i * page_size). split; [|apply Z.div_mul; lia].
        left. split; [nia|]. exact Hi.
  - intros (b & Hb' & <-).
    pose proof (Z.div_mod b page_size ltac:(lia)) as Eb.
    pose proof (Z.mod_pos_bound b page_size Hp) as Ebm.
    destruct Hb' as [Hr|(E0 & -> & Hr)].
    + split; [apply Z.div_le_mono; lia|]. assert (b < en) by (unfold en; lia).
      assert (b / page_size < div_ceil en page_size); [|lia]. nia.
    + split; [lia|]. assert (st / page_size < div_ceil en page_size); [|lia].
      unfold en in *. rewrite E0, Z.add_0_r in *. nia.
Qed.

Lemma oset_insert_elem i s x : x ∈ oset_insert i s <-> x = i \/ x ∈ s.
Proof. unfold oset_insert. destruct (decide (i ∈ s)); set_solver. Qed.

Lemma oset_insert_nodup i s : NoDup s -> NoDup (oset_insert i s).
Proof.
  intros Hs. unfold oset_insert. destruct (decide (i ∈ s)); [done|].
  apply NoDup_app. repeat split; [done|set_solver|apply NoDup_singleton].
Qed.

Section Recorded.
Context `{BlkTraceConsts}.

Lemma record_pages_rw e pgs ps x :
  x ∈ rw_positions (foldl (record_page e) ps pgs) <-> x ∈ pgs \/ x ∈ rw_positions ps.
Proof.
  revert ps. induction pgs as [|i pgs IH]; intros ps; simpl; [set_solver|].
  rewrite IH. simpl. rewrite oset_insert_elem. set_solver.
Qed.

Lemma record_pages_nodup e pgs ps :
  NoDup (rw_positions ps) -> NoDup (rw_positions (foldl (record_page e) ps pgs)).
Proof.
  revert ps. induction pgs as [|i pgs IH]; intros ps Hs; simpl; [done|].
  apply IH. by apply oset_insert_nodup.
Qed.

Lemma record_events_rw page_size events ps x :
  x ∈ rw_positions (foldl (record_event page_size) ps events) <->
  (exists e, e ∈ events /\ is_recorded e = true /\ x ∈ event_pages page_size e) \/ x ∈ rw_positions ps.
Proof.
  revert ps. induction events as [|e events IH]; intros ps; simpl; [set_solver|].
  rewrite IH. unfold record_event. destruct (is_recorded e) eqn:E.
  - rewrite record_pages_rw. set_solver.
  - split; [set_solver|]. intros [(e' & [->|Hin]%elem_of_cons & Hr & Hx)|Hx]; [congruence|set_solver|set_solver].
Qed.

Lemma record_events_nodup page_size events ps :
  NoDup (rw_positions ps) -> NoDup (rw_positions (foldl (record_event page_size) ps events)).
Proof.
  revert ps. induction events as [|e events IH]; intros ps Hs; simpl; [done|].
  apply IH. unfold record_event. destruct (is_recorded e); [|done]. by apply record_pages_nodup.
Qed.

(** The recorded pages are, without repetition, those the recorded events
    touch. *)
Lemma touched_positions_spec page_size events :
  0 < page_size -> Forall event_ok events ->
  exists ps, touched_positions page_size events = Ok ps /\ NoDup (rw_positions ps) /\
    forall i, i ∈ rw_positions ps <->
      exists e b, e ∈ events /\ is_recorded e = true /\ touches_byte page_size e b /\ b / page_size = i.
Proof.
  intros Hp Hev. unfold touched_positions.
  assert ((page_size =? 0) = false) as -> by (apply Z.eqb_neq; lia). simpl.
  eexists. split; [reflexivity|]. split; [apply record_events_nodup; constructor|].
  intros i. rewrite record_events_rw. simpl. rewrite Forall_forall in Hev. split.
  - intros [(e & He & Hr & Hx)|Hx]; [|by apply elem_of_nil in Hx].
    apply event_pages_spec in Hx as (b & Hb & <-); [by eauto 10|done|auto].
  - intros (e & b & He & Hr & Hb & <-). left. exists e. repeat split; try done.
    apply event_pages_spec; [done|auto|by eauto].
Qed.
End Recorded.

(** ** Reads and writes of block devices *)

Class BlockDevices (W : Type) `{!Handler sysop W} := {
  content : W -> string -> Z -> byte;
  bd_read w dev off n data : fst (handle (ReadAt dev off n) w) = Ok data ->
    length data = n /\ forall j : nat, (j < n)%nat -> nth j data Byte.x00 = content w dev (off + Z.of_nat j);
  bd_read_keeps w dev off n d o : content (snd (handle (ReadAt dev off n) w)) d o = content w d o;
  bd_write w dev off data d o : fst (handle (WriteAt dev off data) w) = Ok tt ->
    content (snd (handle (WriteAt dev off data) w)) d o =
      if bool_decide (d = dev) && (off <=? o) && (o <? off + Z.of_nat (length data))
      then nth (Z.to_nat (o - off)) data Byte.x00 else content w d o;
  bd_open_keeps w dev b d o : content (snd (handle (OpenDevice dev b) w)) d o = content w d o;
  bd_flush_keeps w dev d o : content (snd (handle (FlushDevice dev) w)) d o = content w d o;
}.

Section Migrate.
Context {W : Type} `{BlockDevices W}.
Context (dummy device : string) (page_size : Z).
Context (Hne : dummy <> device) (Hps : 0 < page_size).

Definition page_ok (i : Z) : Prop := 0 <= i /\ i * page_size < u64_modulus.

Lemma migrate_page_ok i w w' :
  page_ok i -> run (migrate_page dummy device page_size i) w = (Ok tt, w') ->
  forall d o, content w' d o =
    if bool_decide (d = device) && (o / page_size =? i) then content w dummy o else content w d o.
Proof.
  intros [Hi1 Hi2]. unfold migrate_page. rewrite (wrap64_small (i * page_size)) by nia.
  rewrite run_rpbind, run_call.
  pose proof (bd_read w dummy (i * page_size) (Z.to_nat page_size)) as Hr.
  pose proof (bd_read_keeps w dummy (i * page_size) (Z.to_nat page_size)) as Hk.
  destruct (handle (ReadAt _ _ _) w) as [[buf| |] w1]; [|done..]. cbn [fst snd] in *.
  destruct (Hr buf eq_refl) as [Hl Hd].
  rewrite run_rpbind, run_call.
  pose proof (bd_write w1 device (i * page_size) buf) as Hw.
  destruct (handle (WriteAt _ _ _) w1) as [[[]| |] w2]; [|done..]. cbn [fst snd] in *.
  intros [= <-] d o. rewrite (Hw d o eq_refl), Hl, Z2Nat.id, Hk by lia.
  destruct (bool_decide (d = device)); simpl; [|done].
  pose proof (Z.div_mod o page_size ltac:(lia)) as E. pose proof (Z.mod_pos_bound o page_size Hps) as Em.
  destruct (Z.eqb_spec (o / page_size) i) as [E1|E1].
  - assert ((i * page_size <=? o) && (o <? i * page_size + page_size) = true) as ->.
    { apply andb_true_iff. rewrite Z.leb_le, Z.ltb_lt. nia. }
    rewrite Hd by nia. rewrite Z2Nat.id by nia. f_equal. lia.
  - assert ((i * page_size <=? o) && (o <? i * page_size + page_size) = false) as ->; [|done].
    apply andb_false_iff. rewrite Z.leb_gt, Z.ltb_ge.
    destruct (Z.lt_ge_cases (o / page_size) i); [left|right]; nia.
Qed.

Lemma migrate_loop_ok pgs w w' :
  Forall page_ok pgs ->
  run (for_each pgs (migrate_page dummy device page_size)) w = (Ok tt, w') ->
  forall d o, content w' d o =
    if bool_decide (d = device) && bool_decide (o / page_size ∈ pgs) then content w dummy o else content w d o.
Proof.
  revert w. induction pgs as [|i pgs IH]; intros w Hall.
  - intros [= <-] d o. rewrite (bool_decide_eq_false_2 (_ ∈ [])) by apply not_elem_of_nil.
    by rewrite andb_false_r.
  - apply Forall_cons in Hall as [Hi Hall]. cbn [for_each]. rewrite run_rpbind.
    destruct (run (migrate_page _ _ _ i) w) as [[[]| |] w1] eqn:E1; [|done..].
    intros E2 d o. rewrite (IH _ Hall E2). rewrite !(migrate_page_ok _ _ _ Hi E1).
    rewrite (bool_decide_eq_false_2 (dummy = device)) by done. simpl.
    destruct (bool_decide (d = device)); simpl; [|done].
    destruct (bool_decide (o / page_size ∈ pgs)) eqn:Ei.
    + apply bool_decide_eq_true in Ei. rewrite bool_decide_eq_true_2; [done|]. by right.
    + apply bool_decide_eq_false in Ei. destruct (Z.eqb_spec (o / page_size) i) as [E|E].
      * rewrite bool_decide_eq_true_2; [done|]. subst. by left.
      * rewrite bool_decide_eq_false_2; [done|]. set_solver.
Qed.

Lemma migrate_pages_ok pgs w w' :
  Forall page_ok pgs ->
  run (migrate_pages dummy device page_size pgs) w = (Ok tt, w') ->
  forall d o, content w' d o =
    if bool_decide (d = device) && bool_decide (o / page_size ∈ pgs) then content w dummy o else content w d o.
Proof.
  intros Hall. unfold migrate_pages.
  rewrite run_rpbind, run_call. pose proof (bd_open_keeps w dummy false) as K1.
  destruct (handle (OpenDevice dummy false) w) as [[[]| |] w1]; [|done..]. cbn [snd] in K1.
  rewrite run_rpbind, run_call. pose proof (bd_open_keeps w1 device true) as K2.
  destruct (handle (OpenDevice device true) w1) as [[[]| |] w2]; [|done..]. cbn [snd] in K2.
  rewrite run_rpbind. destruct (run (for_each _ _) w2) as [[[]| |] w3] eqn:E; [|done..].
  rewrite run_rpbind, run_call. pose proof (bd_flush_keeps w3 device) as K3.
  destruct (handle (FlushDevice device) w3) as [[[]| |] w4]; [|done..]. cbn [snd] in K3.
  intros [= <-] d o. rewrite K3, (migrate_loop_ok _ _ _ Hall E). by rewrite !K2, !K1.
Qed.
End Migrate.

(** C17: copying the recorded pages: afterwards every byte that mkfs read or
    wrote on the dummy device is on the volume, every byte of a page that no
    recorded event touched is as before, and no other device has changed. *)
Theorem mkfs_replay_correct `{BlkTraceConsts} {W : Type} `{BlockDevices W}
    dummy device page_size events ps w w' :
  dummy <> device -> 0 < page_size -> Forall event_ok events ->
  touched_positions page_size events = Ok ps ->
  run (migrate_pages dummy device page_size (rw_positions ps)) w = (Ok tt, w') ->
  (forall e b, e ∈ events -> is_recorded e = true -> touches_byte page_size e b ->
     content w' device b = content w dummy b) /\
  (forall b, (forall e b', e ∈ events -> is_recorded e = true -> touches_byte page_size e b' ->
                b' / page_size <> b / page_size) ->
     content w' device b = content w device b) /\
  (forall d b, d <> device -> content w' d b = content w d b).
Proof.
  intros Hne Hp Hev Hps Hrun.
  destruct (touched_positions_spec page_size events Hp Hev) as (ps' & Hps' & _ & Hin).
  rewrite Hps in Hps'. injection Hps' as <-.
  assert (Hok : Forall (page_ok page_size) (rw_positions ps)).
  { apply Forall_forall. intros i Hi. apply Hin in Hi as (e & b & He & _ & Hb & <-).
    rewrite Forall_forall in Hev. destruct (Hev e He) as (H1 & H2 & H3).
    assert (0 <= b < u64_modulus) as Hb' by (destruct Hb as [?|(? & ? & _)]; lia).
    split; [apply Z.div_pos; lia|]. pose proof (Z.mul_div_le b page_size Hp). lia. }
  pose proof (migrate_pages_ok dummy device page_size Hne Hp _ _ _ Hok Hrun) as Hc.
  split; [|split].
  - intros e b He Hr Hb. rewrite Hc. rewrite !bool_decide_eq_true_2; [done| |done].
    apply Hin. by exists e, b.
  - intros b Hb. rewrite Hc. rewrite (bool_decide_eq_false_2 (_ ∈ _)); [by rewrite andb_false_r|].
    intros (e & b' & He & Hr & Ht & E)%Hin. by eapply Hb.
  - intros d b Hd. rewrite Hc. by rewrite bool_decide_eq_false_2.
Qed.
