(* ===== verification/DummyDevice.v ===== *)
(** * Sparse loop devices

    [cryptpilot-core/src/fs/block/dummy.rs]: a sparse file of the size of a
    volume behind a loop device, for mkfs to be recorded on.  The calls are the
    loop driver's; the retries are those of the policy the code asks for. *)

From stdpp Require Import base list strings.
From Stdlib Require Import ZArith Lia.
From S2P Require Import Prelude RustString Sys.

Local Open Scope Z_scope.

Inductive loopop : Type -> Type :=
| EnsureLoopModule : loopop unit
| TempDirPath : loopop string
| CacheDirPath : loopop (option string)
| CreateDirs (dir : string) : loopop (result anyhow unit)
| TempFileIn (dir prefix suffix : string) : loopop (result anyhow string)
| SeekStart (file : string) (offset : Z) : loopop (result anyhow unit)
| WriteAllTo (file : string) (data : bytes) : loopop (result anyhow unit)
| LoopControlOpen : loopop (result anyhow unit)
| NextFree : loopop (result anyhow string)
| Attach (ld file : string) : loopop (result anyhow unit)
| SetBlockSize (ld : string) (block_size : Z) : loopop (result anyhow unit)
| Detach (ld : string) : loopop (result anyhow unit)
| RemoveTempFile (file : string) : loopop unit.

Abbreviation L A := (prog loopop (result anyhow A)).

Definition BLOCK_SIZE_DEFAULT : Z := 512.
Definition MAX_RETRIES : nat := 200.

Record DummyDevice := mkDummy {
  sparse_file : string;
  loop_device : string;
}.

(** The directory of the sparse file. *)
Definition sparse_dir (on_tmpfs : bool) : prog loopop string :=
  if on_tmpfs then call TempDirPath
  else
    let> cache := call CacheDirPath in
    match cache with
    | Some dir =>
      let dir := join_str dir "cryptpilot" in
      let> r := call (CreateDirs dir) in
      match r with
      | Ok _ => Ret dir
      | _ => call TempDirPath
      end
    | None => call TempDirPath
    end.

(** One attempt. *)
Definition attach_once (file : string) (block_size : Z) : L string :=
  let* ld := call NextFree in
  let* _ := call (Attach ld file) in
  let* _ := call (SetBlockSize ld block_size) in
  Ret (Ok ld).

(** [RetryPolicy::retry]: the first success, or the last error. *)
Fixpoint retry {A} (max_retries : nat) (p : L A) : L A :=
  let> r := p in
  match r with
  | Err e =>
    match max_retries with
    | O => Ret (Err e)
    | S n => retry n p
    end
  | _ => Ret r
  end.

(** The file is given its size and attached. *)
Definition attach_file (file : string) (device_size block_size : Z) : L DummyDevice :=
  let* _ := call (SeekStart file (wrap64 (device_size - 1))) in
  let* _ := call (WriteAllTo file [Byte.x00]) in
  let* _ := call LoopControlOpen in
  let* ld := retry MAX_RETRIES (attach_once file block_size) in
  Ret (Ok (mkDummy file ld)).

(** [NamedTempFile::drop] on the way out. *)
Definition with_file {A} (file : string) (p : L A) : L A :=
  let> r := p in
  match r with
  | Ok a => Ret (Ok a)
  | _ => let> _ := call (RemoveTempFile file) in Ret r
  end.

Definition setup (device_size block_size : Z) (on_tmpfs : bool) : L DummyDevice :=
  let> _ := call EnsureLoopModule in
  let> dir := sparse_dir on_tmpfs in
  let* file := call (TempFileIn dir "cryptpilot-" ".img") in
  with_file file (attach_file file device_size block_size).

Definition setup_on_tmpfs_with_block_size (device_size block_size : Z) : L DummyDevice := setup device_size block_size true.
Definition setup_on_tmpfs (device_size : Z) : L DummyDevice := setup device_size BLOCK_SIZE_DEFAULT true.
Definition setup_on_cache_dir (device_size : Z) : L DummyDevice := setup device_size BLOCK_SIZE_DEFAULT false.

(** [DummyDevice::drop], then the drop of its file. *)
Definition drop_dummy (d : DummyDevice) : prog loopop unit :=
  let> _ := call (Detach (loop_device d)) in
  call (RemoveTempFile (sparse_file d)).

(** ** Properties *)

Section Properties.
Context {W : Type} `{!Handler loopop W}.
Implicit Types (w : W).

Definition is_next_free (ev : event loopop) : bool :=
  match ev with Ev e _ => match e with NextFree => true | _ => false end end.

Definition attempts (tr : list (event loopop)) : nat := length (List.filter is_next_free tr).

Lemma attempts_app tr1 tr2 : attempts (tr1 ++ tr2) = (attempts tr1 + attempts tr2)%nat.
Proof. unfold attempts. by rewrite List.filter_app, length_app. Qed.

(** The device of a successful attempt has the file and the block size. *)
Definition attached (file : string) (block_size : Z) (ld : string) (tr : list (event loopop)) : Prop :=
  exists tr0, tr = tr0 ++ [Ev NextFree (Ok ld); Ev (Attach ld file) (Ok tt); Ev (SetBlockSize ld block_size) (Ok tt)].

Lemma attach_once_spec file block_size w :
  attempts (trace (attach_once file block_size) w) = 1%nat /\
  forall ld w', run (attach_once file block_size) w = (Ok ld, w') -> attached file block_size ld (trace (attach_once file block_size) w).
Proof.
  unfold attach_once. cbn. destruct (handle NextFree w) as [[ld|e|] w1]; cbn; [|by split..].
  destruct (handle (Attach ld file) w1) as [[[]|e|] w2]; cbn; [|by split..].
  destruct (handle (SetBlockSize ld block_size) w2) as [[[]|e|] w3]; cbn; [|by split..].
  split; [done|]. intros ld' w' [= <- _]. by exists [].
Qed.

Lemma retry_spec n file block_size w :
  let tr := trace (retry n (attach_once file block_size)) w in
  (attempts tr <= S n)%nat /\
  forall ld w', run (retry n (attach_once file block_size)) w = (Ok ld, w') -> attached file block_size ld tr.
Proof.
  cbv zeta. revert w. induction n as [|n IH]; intros w; cbn [retry]; rewrite run_bind, trace_bind;
    destruct (attach_once_spec file block_size w) as [Ha Hs];
    destruct (run (attach_once file block_size) w) as [[ld|e|] w1]; rewrite attempts_app, Ha; cbn [run trace].
  1,2,3,4,6: split; [unfold attempts; cbn; lia|]; intros ld' w' [=]; subst; rewrite app_nil_r; by eapply Hs.
  destruct (IH w1) as [IH1 IH2]. split; [lia|]. intros ld w' Hr. destruct (IH2 ld w' Hr) as [tr0 ->].
  eexists (_ ++ tr0). by rewrite <- app_assoc.
Qed.

(** A trace that comes after one without attempts. *)
Lemma attached_after file block_size ld tr1 tr2 : attached file block_size ld tr2 -> attached file block_size ld (tr1 ++ tr2).
Proof. intros [tr0 ->]. exists (tr1 ++ tr0). by rewrite <- app_assoc. Qed.

Lemma attach_file_spec file device_size block_size w :
  let tr := trace (attach_file file device_size block_size) w in
  (attempts tr <= 201)%nat /\
  forall d w', run (attach_file file device_size block_size) w = (Ok d, w') ->
    sparse_file d = file /\ attached file block_size (loop_device d) tr.
Proof.
  cbv zeta. unfold attach_file. rewrite run_rpbind, trace_rpbind. cbn [call trace run].
  destruct (handle (SeekStart _ _) w) as [[[]|e|] w1]; [|by split; [unfold attempts; cbn; lia|]..].
  rewrite run_rpbind, trace_rpbind. cbn [call trace run].
  destruct (handle (WriteAllTo _ _) w1) as [[[]|e|] w2]; [|by split; [unfold attempts; cbn; lia|]..].
  rewrite run_rpbind, trace_rpbind. cbn [call trace run].
  destruct (handle LoopControlOpen w2) as [[[]|e|] w3]; [|by split; [unfold attempts; cbn; lia|]..].
  rewrite run_rpbind, trace_rpbind. destruct (retry_spec MAX_RETRIES file block_size w3) as [Hr Hs].
  change (S MAX_RETRIES) with 201%nat in Hr.
  destruct (run (retry MAX_RETRIES _) w3) as [[ld|e|] w4]; cbn [run trace]; rewrite app_nil_r;
    (split; [exact Hr|]); intros d w' [=]; subst. split; [done|].
  do 3 apply (attached_after _ _ _ [_]). by eapply Hs.
Qed.

Lemma sparse_dir_attempts on_tmpfs w : attempts (trace (sparse_dir on_tmpfs) w) = 0%nat.
Proof.
  unfold sparse_dir. destruct on_tmpfs; cbn; [by destruct (handle TempDirPath w)|].
  destruct (handle CacheDirPath w) as [[dir|] w1]; cbn; [|by destruct (handle TempDirPath w1)].
  destruct (handle (CreateDirs _) w1) as [[[]|e|] w2]; cbn; [done|by destruct (handle TempDirPath w2)..].
Qed.

(** A dummy device that is set up is the loop device of the last attempt,
    attached to the sparse file and given the block size of the volume, and
    the set-up ends: it makes at most 201 attempts. *)
Theorem dummy_setup_spec device_size block_size on_tmpfs w :
  let tr := trace (setup device_size block_size on_tmpfs) w in
  (attempts tr <= 201)%nat /\
  forall d w', run (setup device_size block_size on_tmpfs) w = (Ok d, w') ->
    attached (sparse_file d) block_size (loop_device d) tr.
Proof.
  cbv zeta. unfold setup. rewrite run_bind, trace_bind. cbn [call trace run].
  destruct (handle EnsureLoopModule w) as [[] w0]. rewrite run_bind, trace_bind.
  pose proof (sparse_dir_attempts on_tmpfs w0) as Hd. destruct (run (sparse_dir on_tmpfs) w0) as [dir w1].
  rewrite run_rpbind, trace_rpbind, !attempts_app, Hd. cbn [call trace run].
  destruct (handle (TempFileIn _ _ _) w1) as [[file|e|] w2]; [|by split; [unfold attempts; cbn; lia|]..].
  unfold with_file. rewrite run_bind, trace_bind, attempts_app.
  destruct (attach_file_spec file device_size block_size w2) as [Ha Hs].
  destruct (run (attach_file file device_size block_size) w2) as [[d0|e|] w3]; cbn [run trace pbind call].
  - split; [unfold attempts in *; cbn in *; lia|]. intros d w' [= <- <-]. destruct (Hs d0 w3 eq_refl) as [<- Hat].
    rewrite app_nil_r. do 3 apply attached_after. exact Hat.
  - destruct (handle (RemoveTempFile file) w3) as [[] w4]. by split; [unfold attempts in *; cbn in *; lia|].
  - destruct (handle (RemoveTempFile file) w3) as [[] w4]. by split; [unfold attempts in *; cbn in *; lia|].
Qed.

(** No attempt gives its device back: one that fails after the device was
    attached leaves it attached, and the next attempt takes another. *)
Definition is_detach {R} (e : loopop R) : bool := match e with Detach _ => true | _ => false end.

Lemma setup_never_detaches device_size block_size on_tmpfs :
  all_ops (fun R e => is_detach e = false) (setup device_size block_size on_tmpfs).
Proof.
  unfold setup, sparse_dir, with_file, attach_file.
  assert (Hr : forall n file, all_ops (fun R e => is_detach e = false) (retry n (attach_once file block_size))).
  { intros n file. induction n as [|n IH]; cbn [retry]; unfold attach_once; all_ops; done. }
  all_ops; try done.
Qed.
End Properties.
