(* ===== verification/Blktrace.v ===== *)
(** * Recording block device operations

    [cryptpilot-core/src/fs/block/blktrace/mod.rs]: the relay channels of the
    kernel are read by one task for each processor, which decodes the events
    and sends them to a collector; [monitor] starts the recording and
    [shutdown] ends it.  The layout of an event is the kernel's
    ([blktrace_api.h], through generated bindings) and a parameter. *)

From stdpp Require Import base list strings pretty.
From Stdlib Require Import ZArith Lia.
From S2P Require Import Prelude RustString Sys.

Local Open Scope Z_scope.

(** ** Events *)

(** The header of an event: the fields the reader looks at, and those mkfs
    looks at. *)
Record TraceHeader := mkHeader {
  hd_magic : Z;
  hd_pdu_len : Z;
  hd_trace : blk_io_trace;
}.

Class BlkTraceAbi := {
  BLK_IO_TRACE_MAGIC : Z;
  BLK_IO_TRACE_VERSION : Z;
  EVENT_SIZE : nat;
  decode_header : bytes -> TraceHeader;
}.

Record BlkTraceEvent := mkEvent {
  ev_header : TraceHeader;
  ev_data : bytes;
}.

(** ** The reader of a relay channel *)

(** [read_exact]: the buffer and what is left, or the end of what is there,
    and then what was read is lost. *)
Definition read_exact (n : nat) (avail : bytes) : option (bytes * bytes) :=
  if decide (n <= length avail)%nat then Some (take n avail, drop n avail) else None.

(** An end of file, as the task sees it: whether the recording has been
    cancelled, and the bytes that arrive while it sleeps. *)
Record Poll := mkPoll {
  cancelled : bool;
  arrived : bytes;
}.

Section Reader.
Context `{BlkTraceAbi}.

(** What becomes of a header and the bytes after it: an event to send and the
    bytes left, or an error. *)
Definition read_event (buf rest : bytes) : result anyhow (BlkTraceEvent * bytes) :=
  let blk_event := decode_header buf in
  if negb (hd_magic blk_event =? BLK_IO_TRACE_MAGIC + BLK_IO_TRACE_VERSION)
  then Err (Bail "blktrace event magic number mismatch")
  else
    match read_exact (Z.to_nat (hd_pdu_len blk_event)) rest with
    | Some (data, rest) => Ok (mkEvent blk_event data, rest)
    | None => Err UnexpectedEof
    end.

(** The loop of a task: the events it sends, and its result once it has
    ended. *)
Fixpoint relay_read (fuel : nat) (avail : bytes) (polls : list Poll) {struct fuel} :
    list BlkTraceEvent * option (result anyhow unit) :=
  match fuel with
  | O => ([], None)
  | S fuel =>
    let event buf rest polls :=
      match read_event buf rest with
      | Ok (e, rest) => let '(sent, r) := relay_read fuel rest polls in (e :: sent, r)
      | Err e => ([], Some (Err e))
      | Panic => ([], Some Panic)
      end in
    match read_exact EVENT_SIZE avail with
    | Some (buf, rest) => event buf rest polls
    | None =>
      match polls with
      | [] => ([], None)
      | p :: polls =>
        if cancelled p
        then match read_exact EVENT_SIZE (arrived p) with
             | Some (buf, rest) => event buf rest polls
             | None => ([], Some (Ok tt))
             end
        else relay_read fuel (arrived p) polls
      end
    end
  end.
End Reader.

(** ** The collector *)

(** [task.await??] for every reader; the events received are lost with an
    error. *)
Fixpoint join_readers (readers : list (result anyhow unit)) (traces : list BlkTraceEvent) :
    result anyhow (list BlkTraceEvent) :=
  match readers with
  | [] => Ok traces
  | r :: readers => let? _ := r in join_readers readers traces
  end.

(** ** monitor and shutdown *)

(** The calls of the recording. *)
Inductive traceop : Type -> Type :=
| DebugfsExists : traceop bool
| MountPoints : traceop (result anyhow (list (option string)))
| CreateDebugfsDir : traceop (result anyhow unit)
| MountDebugfs : traceop (result anyhow unit)
| OpenBlockDevice (path : string) : traceop (result anyhow unit)
| BlkTraceSetup (act_mask buf_size buf_nr : Z) : traceop (result anyhow bytes)
| BlkTraceStart : traceop (result anyhow unit)
| SpawnReaders (relay_channels : list string) : traceop unit
| NumCpus : traceop nat
| DropCaches : traceop (result anyhow unit)
| FlushBlkBuf : traceop (result anyhow unit)
| Cancel : traceop unit
| JoinCollector : traceop (result anyhow (list BlkTraceEvent))
| ReadDropped (path : string) : traceop (result anyhow bytes)
| BlkTraceStop : traceop (result anyhow unit)
| BlkTraceTeardown : traceop (result anyhow unit).

Abbreviation T A := (prog traceop (result anyhow A)).

Definition BLK_TRACE_BUF_SIZE : Z := 4 * 1024 * 1024.
Definition BLK_TRACE_BUF_COUNT : Z := 16.
Definition DEBUGFS : string := "/sys/kernel/debug".

Definition check_and_setup_debugfs : T unit :=
  let> exists_ := call DebugfsExists in
  if negb exists_ then Ret (Err (Bail "The debugfs is not supported"))
  else
    let* items := call MountPoints in
    if existsb (fun item => bool_decide (item = Some DEBUGFS)) items then Ret (Ok tt)
    else
      let* _ := call CreateDebugfsDir in
      call MountDebugfs.

(** [BlkTraceTask::drop] *)
Definition drop_task : prog traceop unit :=
  let> _ := call BlkTraceStop in
  let> _ := call BlkTraceTeardown in
  Ret tt.

(** [?] with the task in scope. *)
Definition with_task {A} (p : T A) : T A :=
  let> r := p in
  match r with
  | Ok a => Ret (Ok a)
  | _ => let> _ := drop_task in Ret r
  end.

(** [CStr::from_bytes_until_nul(..)?.to_str()?] *)
Fixpoint until_nul (l : bytes) : option bytes :=
  match l with
  | [] => None
  | b :: l => if Z_of_byte b =? 0 then Some [] else (b ::.) <$> until_nul l
  end.

Definition block_name (name : bytes) : result anyhow string :=
  let? n := ok_or (until_nul name) Decode in
  ok_or (from_utf8 n) Decode.

Definition relay_channel (block_name : string) (i : nat) : string :=
  "/sys/kernel/debug/block/" +:+ block_name +:+ "/trace" +:+ pretty i.

Section Monitor.
Context (act_mask : Z).

(** The block device is open and its name known; the task is what is left to
    drop. *)
Definition monitor (path : string) : T string :=
  let* _ := check_and_setup_debugfs in
  let* _ := call (OpenBlockDevice path) in
  with_task
    (let* name := call (BlkTraceSetup act_mask BLK_TRACE_BUF_SIZE BLK_TRACE_BUF_COUNT) in
     let* block_name := Ret (block_name name) in
     let* _ := call BlkTraceStart in
     let> num_cpus := call NumCpus in
     let> _ := call (SpawnReaders (relay_channel block_name <$> seq 0 num_cpus)) in
     let* _ := call DropCaches in
     Ret (Ok block_name)).
End Monitor.

Definition get_dropped (block_name : string) : T Z :=
  let* buf := call (ReadDropped ("/sys/kernel/debug/block/" +:+ block_name +:+ "/dropped")) in
  let* value := Ret (ok_or (from_utf8 buf) Decode) in
  Ret (ok_or (parse_u64 (trim value)) Decode).

Definition shutdown (block_name : string) : T (list BlkTraceEvent * Z) :=
  let> r := (let* _ := call FlushBlkBuf in
             let> _ := call Cancel in
             let* events := call JoinCollector in
             let* dropped := get_dropped block_name in
             Ret (Ok (events, dropped))) in
  let> _ := drop_task in
  Ret r.
