(* ===== verification/BlktraceProofs.v ===== *)
(** * Recording: nothing is lost, everything ends

    The events the kernel writes in whole records are those the readers send,
    in every interleaving of arrivals, ends of file and cancellation; a
    cancelled reader ends; what is recorded of all processors gives the pages
    mkfs touched; and the recording is torn down. *)

From stdpp Require Import base list strings.
From Stdlib Require Import ZArith Lia.
From S2P Require Import Prelude RustString Sys Mkfs MkfsProofs Blktrace.

Local Open Scope Z_scope.

(** ** Records *)

(** What the reader relies on of the layout: headers of a fixed size that can
    be decoded again. *)
Class BlkTraceAbiSpec `{BlkTraceAbi} := {
  header_ok : TraceHeader -> Prop;
  encode_header : TraceHeader -> bytes;
  event_size_pos : (0 < EVENT_SIZE)%nat;
  encode_header_length h : length (encode_header h) = EVENT_SIZE;
  decode_encode_header h : header_ok h -> decode_header (encode_header h) = h;
}.

Section Reader.
Context `{BlkTraceAbiSpec}.

(** An event as the kernel writes it. *)
Definition event_valid (e : BlkTraceEvent) : Prop :=
  header_ok (ev_header e) /\ hd_magic (ev_header e) = BLK_IO_TRACE_MAGIC + BLK_IO_TRACE_VERSION /\
  hd_pdu_len (ev_header e) = Z.of_nat (length (ev_data e)).

Definition encode_event (e : BlkTraceEvent) : bytes := encode_header (ev_header e) ++ ev_data e.
Definition encode_events (es : list BlkTraceEvent) : bytes := es ≫= encode_event.

Lemma read_exact_app a b : read_exact (length a) (a ++ b) = Some (a, b).
Proof.
  unfold read_exact. rewrite decide_True by (rewrite length_app; lia).
  by rewrite take_app_length, drop_app_length.
Qed.

Lemma read_header e rest :
  read_exact EVENT_SIZE (encode_event e ++ rest) = Some (encode_header (ev_header e), ev_data e ++ rest).
Proof.
  unfold encode_event. rewrite <- (encode_header_length (ev_header e)), <- app_assoc. apply read_exact_app.
Qed.

Lemma read_event_encoded e rest :
  event_valid e -> read_event (encode_header (ev_header e)) (ev_data e ++ rest) = Ok (e, rest).
Proof.
  intros (Hh & Hm & Hl). unfold read_event. rewrite decode_encode_header by done.
  rewrite Hm, Z.eqb_refl, Hl, Nat2Z.id, read_exact_app. by destruct e.
Qed.

Lemma read_nothing : read_exact EVENT_SIZE [] = None.
Proof. unfold read_exact. pose proof event_size_pos. by rewrite decide_False by (cbn; lia). Qed.

(** Whole records are sent. *)
Lemma relay_read_events fuel es avail polls :
  Forall event_valid es ->
  relay_read (length es + fuel) (encode_events es ++ avail) polls =
    (let '(sent, r) := relay_read fuel avail polls in (es ++ sent, r)).
Proof.
  induction 1 as [|e es He Hes IH].
  { change (relay_read fuel avail polls = let '(sent, r) := relay_read fuel avail polls in ([] ++ sent, r)).
    by destruct (relay_read fuel avail polls). }
  change (encode_events (e :: es)) with (encode_event e ++ encode_events es).
  rewrite <- app_assoc. cbn [length Nat.add relay_read]. rewrite read_header, read_event_encoded by done.
  rewrite IH. by destruct (relay_read fuel avail polls).
Qed.

(** The records that arrive at the ends of file, each with whether the
    recording has been cancelled by then. *)
Definition polls_of (segs : list (bool * list BlkTraceEvent)) : list Poll :=
  (fun seg => mkPoll (fst seg) (encode_events (snd seg))) <$> segs.

(** Once cancelled, the task waits once more for what is still to come. *)
Definition quiescent : Poll := mkPoll true [].

Definition segs_valid (segs : list (bool * list BlkTraceEvent)) : Prop :=
  Forall (fun seg => Forall event_valid (snd seg) /\ (fst seg = true -> snd seg <> [])) segs.

Lemma relay_read_polls fuel segs :
  segs_valid segs -> (length (concat (snd <$> segs)) + length segs < fuel)%nat ->
  relay_read fuel [] (polls_of segs ++ [quiescent]) = (concat (snd <$> segs), Some (Ok tt)).
Proof.
  intros Hv. revert fuel. induction Hv as [|[c es] segs [Hes Hc] Hv IH]; intros [|fuel] Hf; try (cbn in Hf; lia).
  - cbn [relay_read polls_of fmap list_fmap app]. rewrite read_nothing. cbn. by rewrite read_nothing.
  - assert (Hnext : forall es' fuel', Forall event_valid es' ->
      (length es' + length (concat (snd <$> segs)) + length segs < fuel')%nat ->
      relay_read fuel' (encode_events es') (polls_of segs ++ [quiescent]) =
        (es' ++ concat (snd <$> segs), Some (Ok tt))).
    { intros es' fuel' Hes' Hf'. replace fuel' with (length es' + (fuel' - length es'))%nat by lia.
      rewrite <- (app_nil_r (encode_events es')), relay_read_events by done. rewrite IH by lia. done. }
    cbn in Hf. rewrite length_app in Hf.
    cbn [relay_read polls_of fmap list_fmap app fst snd]. rewrite read_nothing. cbn [cancelled arrived].
    destruct c; [|apply Hnext; [done|cbn in *; lia]].
    destruct es as [|e es]; [by destruct Hc|]. apply Forall_cons in Hes as [He Hes].
    change (encode_events (e :: es)) with (encode_event e ++ encode_events es).
    rewrite read_header, read_event_encoded by done.
    change (fmap _ segs ++ [quiescent]) with (polls_of segs ++ [quiescent]).
    rewrite Hnext; [done|done|cbn in *; lia].
Qed.

(** The events a task sends, from what is there at first and what arrives. *)
Definition reader_events (first : list BlkTraceEvent) (segs : list (bool * list BlkTraceEvent)) : list BlkTraceEvent :=
  first ++ concat (snd <$> segs).

(** The events of a relay channel survive it: written by the kernel as whole
    records, in any number of pieces, before and after the recording is
    cancelled, they are the ones the reader sends, each once and in order, and
    the reader then ends without an error. *)
Theorem relay_roundtrip first segs fuel :
  Forall event_valid first -> segs_valid segs ->
  (length (reader_events first segs) + length segs < fuel)%nat ->
  relay_read fuel (encode_events first) (polls_of segs ++ [quiescent]) = (reader_events first segs, Some (Ok tt)).
Proof.
  intros Hf Hs Hfuel. unfold reader_events in *. rewrite length_app in Hfuel.
  replace fuel with (length first + (fuel - length first))%nat by lia.
  rewrite <- (app_nil_r (encode_events first)), relay_read_events by done.
  rewrite relay_read_polls by (try done; lia). done.
Qed.

(** ** Termination *)

Definition arrivals (polls : list Poll) : nat := length (concat (arrived <$> polls)).

Lemma arrivals_cons p polls : arrivals (p :: polls) = (length (arrived p) + arrivals polls)%nat.
Proof. unfold arrivals. cbn. apply length_app. Qed.

Lemma read_exact_some n l buf rest :
  read_exact n l = Some (buf, rest) -> length l = (n + length rest)%nat /\ length buf = n.
Proof.
  unfold read_exact. case_decide; [|done]. intros [= <- <-]. rewrite length_drop, length_take. lia.
Qed.

Lemma read_event_rest buf rest e rest' : read_event buf rest = Ok (e, rest') -> (length rest' <= length rest)%nat.
Proof.
  unfold read_event. destruct (negb _); [done|]. destruct (read_exact _ rest) as [[d r]|] eqn:E; [|done].
  intros [= <- <-]. apply read_exact_some in E. lia.
Qed.

(** C38: A cancelled reader ends: when no more bytes arrive after the
    cancellation, whatever is in the channel, also a damaged record, the loop
    ends within a number of turns bounded by the bytes and the ends of file. *)
Theorem relay_reader_terminates fuel avail polls :
  (length avail + arrivals polls + length polls + 1 < fuel)%nat ->
  exists r, snd (relay_read fuel avail (polls ++ [quiescent])) = Some r.
Proof.
  pose proof event_size_pos as Hpos. revert avail polls.
  induction fuel as [|fuel IH]; intros avail polls Hf; [lia|]. cbn [relay_read].
  assert (Hev : forall buf rest qs, (length rest + arrivals qs + length qs + 1 < fuel)%nat ->
    exists r, snd (match read_event buf rest with
                   | Ok (e, rest) => let '(sent, r) := relay_read fuel rest (qs ++ [quiescent]) in (e :: sent, r)
                   | Err e => ([], Some (Err e))
                   | Panic => ([], Some Panic)
                   end) = Some r).
  { intros buf rest qs Hq. destruct (read_event buf rest) as [[e rest']|e|] eqn:E; [|by eexists..].
    apply read_event_rest in E. destruct (IH rest' qs) as [r Hr]; [lia|].
    destruct (relay_read fuel rest' _) as [sent r']. by exists r. }
  destruct (read_exact EVENT_SIZE avail) as [[buf rest]|] eqn:E.
  { apply read_exact_some in E. apply Hev. lia. }
  destruct polls as [|p polls]; cbn [app cancelled arrived quiescent].
  { rewrite read_nothing. by eexists. }
  rewrite arrivals_cons in Hf. cbn [length] in Hf. destruct (cancelled p).
  - destruct (read_exact EVENT_SIZE (arrived p)) as [[buf rest]|] eqn:E'; [|by eexists].
    apply read_exact_some in E'. apply Hev. lia.
  - apply IH. lia.
Qed.

(** A reader that is never cancelled never ends well. *)
Lemma relay_uncancelled fuel avail polls :
  Forall (fun p => cancelled p = false) polls -> snd (relay_read fuel avail polls) <> Some (Ok tt).
Proof.
  revert avail polls. induction fuel as [|fuel IH]; intros avail polls Hp; [done|]. cbn [relay_read].
  destruct (read_exact EVENT_SIZE avail) as [[buf rest]|].
  - destruct (read_event buf rest) as [[e rest']|e|]; [|done..].
    specialize (IH rest' polls Hp). by destruct (relay_read fuel rest' polls).
  - destruct Hp as [|p polls Hc Hp]; [done|]. rewrite Hc. by apply IH.
Qed.

(** A record that arrives in two pieces is lost: the bytes before the end of
    file are read and dropped, and the next record is read from its middle. *)
Lemma split_record_lost e k fuel polls :
  (0 < k < EVENT_SIZE)%nat ->
  relay_read (S fuel) (take k (encode_event e)) (mkPoll false (drop k (encode_event e)) :: polls) =
  relay_read fuel (drop k (encode_event e)) polls.
Proof.
  intros Hk. cbn [relay_read]. unfold read_exact at 1. rewrite decide_False; [done|]. rewrite length_take. lia.
Qed.
End Reader.

(** ** All processors *)

Section Collected.
Context `{BlkTraceAbiSpec, BlkTraceConsts}.

(** A relay channel: what is in it at first and what arrives. *)
Record Channel := mkChannel {
  ch_first : list BlkTraceEvent;
  ch_segs : list (bool * list BlkTraceEvent);
}.

Definition channel_valid (c : Channel) : Prop := Forall event_valid (ch_first c) /\ segs_valid (ch_segs c).
Definition channel_events (c : Channel) : list BlkTraceEvent := reader_events (ch_first c) (ch_segs c).
Definition channel_run (fuel : nat) (c : Channel) : list BlkTraceEvent * option (result anyhow unit) :=
  relay_read fuel (encode_events (ch_first c)) (polls_of (ch_segs c) ++ [quiescent]).

Definition trace_of (e : BlkTraceEvent) : blk_io_trace := hd_trace (ev_header e).

Lemma join_readers_ok (rs : list (result anyhow unit)) traces :
  Forall (fun r => r = Ok tt) rs -> join_readers rs traces = Ok traces.
Proof. induction 1 as [|r rs -> _ IH]; [done|]. exact IH. Qed.

Lemma channels_run fuel cs :
  Forall channel_valid cs ->
  Forall (fun c => (length (channel_events c) + length (ch_segs c) < fuel)%nat) cs ->
  (fst ∘ channel_run fuel) <$> cs = channel_events <$> cs /\
  Forall (fun r => r = Ok tt) ((default Panic ∘ snd ∘ channel_run fuel) <$> cs).
Proof.
  intros Hv Hf. induction Hv as [|c cs [Hv1 Hv2] Hv IH]; [by split; [|constructor]|].
  apply Forall_cons in Hf as [Hc Hf]. destruct (IH Hf) as [IH1 IH2].
  assert (channel_run fuel c = (channel_events c, Some (Ok tt))) as E by (by apply relay_roundtrip).
  rewrite !fmap_cons. cbn [compose]. rewrite E. split; [by rewrite IH1|]. by constructor.
Qed.

(** C21: The pages that are copied are those of all the operations recorded:
    provided that every poll of a relay channel finds whole records, valid and
    with byte ranges that fit in 64 bits, and the last poll finds nothing more,
    then (with fuel for the events and the polls), in whatever order the events
    of the processors reach the collector, the readers join without an error,
    and the pages are, without repetition, exactly the ones some recorded event
    of some processor touches.  (Without the proviso records are lost:
    [split_record_lost].) *)
Theorem recorded_pages_complete fuel cs received page_size :
  Forall channel_valid cs ->
  Forall (fun c => (length (channel_events c) + length (ch_segs c) < fuel)%nat) cs ->
  received ≡ₚ concat ((fst ∘ channel_run fuel) <$> cs) ->
  0 < page_size -> Forall (fun e => event_ok (trace_of e)) (concat (channel_events <$> cs)) ->
  join_readers ((default Panic ∘ snd ∘ channel_run fuel) <$> cs) received = Ok received /\
  exists ps, touched_positions page_size (trace_of <$> received) = Ok ps /\ NoDup (rw_positions ps) /\
    forall i, i ∈ rw_positions ps <->
      exists c e b, c ∈ cs /\ e ∈ channel_events c /\ is_recorded (trace_of e) = true /\
        touches_byte page_size (trace_of e) b /\ b / page_size = i.
Proof.
  intros Hv Hf Hr Hp He. destruct (channels_run fuel cs Hv Hf) as [E1 E2]. rewrite E1 in Hr.
  split; [by apply join_readers_ok|].
  destruct (touched_positions_spec page_size (trace_of <$> received)) as (ps & E & Hnd & Hi); [done| |].
  { rewrite <- Hr in He. by apply Forall_fmap. }
  exists ps. split; [done|]. split; [done|]. intros i. rewrite Hi. split.
  - intros (t & b & (e & -> & Hin)%list_elem_of_fmap & Ht). rewrite Hr in Hin.
    apply list_elem_of_In, in_concat in Hin as (es & Hes & Hin).
    apply list_elem_of_In, list_elem_of_fmap in Hes as (c & -> & Hc). apply list_elem_of_In in Hin. naive_solver.
  - intros (c & e & b & Hc & Hin & Ht). exists (trace_of e), b. split; [|done].
    apply list_elem_of_fmap_2. rewrite Hr. apply list_elem_of_In, in_concat. exists (channel_events c).
    split; apply list_elem_of_In; [by apply list_elem_of_fmap_2|done].
Qed.
End Collected.

(** ** The recording is torn down *)

Section Teardown.
Context {W : Type} `{!Handler traceop W}.
Implicit Types (w : W).

(** The last two calls stop the recording and free its buffers. *)
Definition torn_down (tr : list (event traceop)) : Prop :=
  exists tr0 r1 r2, tr = tr0 ++ [Ev BlkTraceStop r1; Ev BlkTraceTeardown r2].

Definition is_setup (ev : event traceop) : bool :=
  match ev with Ev e _ => match e with BlkTraceSetup _ _ _ => true | _ => false end end.

Lemma trace_drop_task w : exists r1 r2, trace drop_task w = [Ev BlkTraceStop r1; Ev BlkTraceTeardown r2].
Proof. cbn. destruct (handle BlkTraceStop w) as [r1 w1]. cbn. destruct (handle BlkTraceTeardown w1) as [r2 w2]. by do 2 eexists. Qed.

Lemma with_task_torn_down {A} (p : T A) w :
  (exists a w', run (with_task p) w = (Ok a, w')) \/ torn_down (trace (with_task p) w).
Proof.
  unfold with_task. rewrite run_bind, trace_bind. destruct (run p w) as [[a|e|] w1]; [left; by do 2 eexists|right..];
    rewrite trace_bind; destruct (trace_drop_task w1) as (r1 & r2 & ->); destruct (run drop_task w1);
    exists (trace p w), r1, r2; by rewrite app_nil_r.
Qed.

Lemma no_setup_debugfs w : Forall (fun ev => is_setup ev = false) (trace check_and_setup_debugfs w).
Proof.
  unfold check_and_setup_debugfs. cbn. destruct (handle DebugfsExists w) as [[|] w1]; cbn; [|by repeat constructor].
  destruct (handle MountPoints w1) as [[items|e|] w2]; cbn; [|by repeat constructor..].
  constructor; [done|]. constructor; [done|]. destruct (existsb _ items); [constructor|]. cbn.
  destruct (handle CreateDebugfsDir w2) as [[[]|e|] w3]; cbn; [|by repeat constructor..].
  destruct (handle MountDebugfs w3) as [r w4]. by repeat constructor.
Qed.

(** C39: A recording never outlives its user: when monitoring fails after the
    set-up of the trace was tried, its last calls stop the trace and free its
    buffers, and so do those of every shutdown, whatever fails in it. *)
Theorem recording_torn_down act_mask path block_name w :
  ((exists name w', run (monitor act_mask path) w = (Ok name, w')) \/
   Forall (fun ev => is_setup ev = false) (trace (monitor act_mask path) w) \/
   torn_down (trace (monitor act_mask path) w)) /\
  torn_down (trace (shutdown block_name) w).
Proof.
  split.
  - unfold monitor. rewrite run_rpbind, trace_rpbind. pose proof (no_setup_debugfs w) as Hd.
    destruct (run check_and_setup_debugfs w) as [[[]|e|] w1]; [|right; left; by rewrite app_nil_r..].
    rewrite run_rpbind, trace_rpbind, run_call. cbn [trace call].
    destruct (handle (OpenBlockDevice path) w1) as [[[]|e|] w2]; cbn [app].
    2,3: right; left; apply Forall_app; split; [done|by repeat constructor].
    match goal with |- context [with_task ?p] => destruct (with_task_torn_down p w2) as [Hok|(tr & r1 & r2 & Htr)] end.
    + by left.
    + right. right. rewrite Htr. eexists (_ ++ _ :: tr), r1, r2. by rewrite <- app_assoc.
  - unfold shutdown. rewrite trace_bind. destruct (run _ w) as [r w1]. rewrite trace_bind.
    destruct (trace_drop_task w1) as (r1 & r2 & ->). destruct (run drop_task w1).
    eexists _, r1, r2. by rewrite app_nil_r.
Qed.

(** A monitor that fails after it has started the readers does not cancel
    them: no call of it does, and a reader that is not cancelled never ends
    well. *)
Definition is_cancel {R} (e : traceop R) : bool := match e with Cancel => true | _ => false end.

Lemma monitor_never_cancels act_mask path : all_ops (fun R e => is_cancel e = false) (monitor act_mask path).
Proof.
  unfold monitor, check_and_setup_debugfs, with_task, drop_task.
  repeat first [split; [done|intros ?]|done|exact I|
    match goal with
    | |- all_ops _ (pbind _ _) => apply all_ops_bind; [|intros ?]
    | |- all_ops _ (rpbind _ _) => apply all_ops_rpbind; [|intros ?]
    | |- all_ops _ (if ?b then _ else _) => destruct b
    | |- all_ops _ (match ?x with _ => _ end) => destruct x
    end].
Qed.
End Teardown.
