(* ===== verification/CachedSource.v ===== *)
(** * The cached configuration source

    [CachedFdeConfigSource] and [CachedVolumeConfigSource]: a configuration is
    loaded by the first caller that gets the write lock and shared by all.
    Concurrent callers as a transition system: each task has a program
    counter, the lock has its readers and its writer, and the load may answer
    differently each time, or fail. *)

From stdpp Require Import base list gmap sets.
From Stdlib Require Import Lia.
From S2P Require Import Prelude.

Section Cached.
Context {B E : Type}.

(** Where a task is in [get_fde_config_bundle]. *)
Inductive pc :=
| Called
| HoldsRead
| MissedRead
| HoldsWrite
| Loading
| Returned (r : E + B).

(** [RwLock<Option<B>>], the tasks, and the values loaded so far. *)
Record state := mkState {
  cache : option B;
  readers : gset nat;
  writer : option nat;
  tasks : gmap nat pc;
  loaded : list B;
}.

(** One task goes on. *)
Inductive step : state -> state -> Prop :=
| step_read_lock i c rs ts l :
    ts !! i = Some Called ->
    step (mkState c rs None ts l) (mkState c ({[i]} ∪ rs) None (<[i := HoldsRead]> ts) l)
| step_read_hit i b rs w ts l :
    ts !! i = Some HoldsRead ->
    step (mkState (Some b) rs w ts l) (mkState (Some b) (rs ∖ {[i]}) w (<[i := Returned (inr b)]> ts) l)
| step_read_miss i rs w ts l :
    ts !! i = Some HoldsRead ->
    step (mkState None rs w ts l) (mkState None (rs ∖ {[i]}) w (<[i := MissedRead]> ts) l)
| step_write_lock i c ts l :
    ts !! i = Some MissedRead ->
    step (mkState c ∅ None ts l) (mkState c ∅ (Some i) (<[i := HoldsWrite]> ts) l)
| step_write_hit i b rs w ts l :
    ts !! i = Some HoldsWrite ->
    step (mkState (Some b) rs w ts l) (mkState (Some b) rs None (<[i := Returned (inr b)]> ts) l)
| step_load i rs w ts l :
    ts !! i = Some HoldsWrite ->
    step (mkState None rs w ts l) (mkState None rs w (<[i := Loading]> ts) l)
| step_loaded i b c rs w ts l :
    ts !! i = Some Loading ->
    step (mkState c rs w ts l) (mkState (Some b) rs None (<[i := Returned (inr b)]> ts) (l ++ [b]))
| step_failed i e c rs w ts l :
    ts !! i = Some Loading ->
    step (mkState c rs w ts l) (mkState c rs None (<[i := Returned (inl e)]> ts) l).

(** The source as it is created, with tasks that call it. *)
Definition initial (s : state) : Prop :=
  cache s = None /\ readers s = ∅ /\ writer s = None /\ loaded s = [] /\ map_Forall (fun _ p => p = Called) (tasks s).

Inductive reachable : state -> Prop :=
| reach_initial s : initial s -> reachable s
| reach_step s s' : reachable s -> step s s' -> reachable s'.

(** ** The invariant *)

(** What a program counter means for the lock and the cache. *)
Definition pc_ok (s : state) (i : nat) (p : pc) : Prop :=
  match p with
  | Called | MissedRead => (i ∉ readers s) /\ writer s <> Some i
  | HoldsRead => i ∈ readers s /\ writer s = None
  | HoldsWrite => (i ∉ readers s) /\ writer s = Some i
  | Loading => (i ∉ readers s) /\ writer s = Some i /\ cache s = None
  | Returned (inl _) => (i ∉ readers s) /\ writer s <> Some i
  | Returned (inr b) => (i ∉ readers s) /\ writer s <> Some i /\ cache s = Some b
  end.

Record inv (s : state) : Prop := {
  inv_pc : map_Forall (pc_ok s) (tasks s);
  inv_readers : forall i, i ∈ readers s -> tasks s !! i = Some HoldsRead;
  inv_writer : forall i, writer s = Some i -> tasks s !! i = Some HoldsWrite \/ tasks s !! i = Some Loading;
  inv_excl : writer s <> None -> readers s = ∅;
  inv_loaded : loaded s = option_list (cache s);
}.

Lemma inv_initial s : initial s -> inv s.
Proof.
  intros (Hc & Hr & Hw & Hl & Ht). split.
  - intros i p Hi. rewrite (Ht i p Hi). cbn. rewrite Hr, Hw. set_solver.
  - set_solver.
  - by rewrite Hw.
  - by rewrite Hw.
  - by rewrite Hl, Hc.
Qed.

(** What a step makes of the task [j]. *)
Ltac step_task j :=
  match goal with
  | Hj : <[?i := _]> ?ts !! j = Some ?p |- _ =>
    destruct (decide (i = j)) as [<-|?];
    [rewrite lookup_insert_eq in Hj; injection Hj as <-|rewrite lookup_insert_ne in Hj by done]
  | |- context [<[?i := _]> ?ts !! j] =>
    destruct (decide (i = j)) as [<-|?]; [rewrite lookup_insert_eq|rewrite lookup_insert_ne by done]
  end.

(** A task that did not move: what was known of it, and of the lock. *)
Lemma pc_ok_other s s' j p :
  pc_ok s j p -> (j ∈ readers s <-> j ∈ readers s') ->
  (writer s' = writer s /\ (cache s' = cache s \/ (cache s = None /\ writer s <> Some j)) \/
   (exists k, writer s = Some k /\ k <> j /\ writer s' = None /\ (cache s' = cache s \/ cache s = None)) \/
   (exists k, writer s = None /\ readers s = ∅ /\ k <> j /\ writer s' = Some k /\ cache s' = cache s)) ->
  pc_ok s' j p.
Proof.
  destruct p as [| | | | |[e|b]]; cbn; intros Hp Hr Hl; destruct_and?; destruct_or? Hl; destruct_and?;
    repeat match goal with H : exists k, _ |- _ => destruct H as [? ?]; destruct_and? end; destruct_or?;
    naive_solver (congruence || set_solver).
Qed.

(** The five parts of the invariant after a step. *)
Ltac inv_parts Hpc Hrd Hwr :=
  split; cbn [cache readers writer tasks loaded];
  [intros j p Hj; step_task j; [cbn; set_solver|];
   eapply pc_ok_other; [by apply Hpc|cbn; set_solver|cbn; eauto 12]
  |intros j Hj; step_task j; [set_solver|]; apply Hrd; set_solver
  |intros j Hj; step_task j; [first [by left|by right|congruence|set_solver]|]; first [congruence|by apply Hwr]
  |first [done|set_solver]
  |first [done|by subst]].

Lemma inv_step s s' : inv s -> step s s' -> inv s'.
Proof.
  intros [Hpc Hrd Hwr Hex Hld] Hs.
  destruct Hs as [i c rs ts l Hi|i b rs w ts l Hi|i rs w ts l Hi|i c ts l Hi|i b rs w ts l Hi|i rs w ts l Hi
    |i b c rs w ts l Hi|i e c rs w ts l Hi]; cbn [cache readers writer tasks loaded] in *;
    pose proof (Hpc i _ Hi) as Hi'; cbn in Hi'; destruct_and?; subst; inv_parts Hpc Hrd Hwr.
Qed.

Lemma reachable_inv s : reachable s -> inv s.
Proof. induction 1 as [s Hs|s s' _ IH Hs]; [by apply inv_initial|by eapply inv_step]. Qed.

(** C18: However the calls of a cached source interleave, the configuration is
    loaded with success at most once, also when the source answers differently
    each time; all calls that return a configuration return that one, which is
    the one in the cache; and two tasks are never both loading. *)
Theorem cached_loaded_once s :
  reachable s ->
  length (loaded s) <= 1 /\
  (forall i j b b', tasks s !! i = Some (Returned (inr b)) -> tasks s !! j = Some (Returned (inr b')) ->
     b = b' /\ loaded s = [b] /\ cache s = Some b) /\
  (forall i j, tasks s !! i = Some Loading -> tasks s !! j = Some Loading -> i = j).
Proof.
  intros [Hpc _ _ _ Hl]%reachable_inv. split; [|split].
  - rewrite Hl. by destruct (cache s); cbn; lia.
  - intros i j b b' Hi Hj. apply Hpc in Hi as (_ & _ & Hi), Hj as (_ & _ & Hj). rewrite Hl, Hi. naive_solver congruence.
  - intros i j Hi Hj. apply Hpc in Hi as (_ & Hi & _), Hj as (_ & Hj & _). congruence.
Qed.

(** C37: The lock of a cached source never deadlocks: as long as a call has not
    returned, some task can go on. *)
Theorem cached_progress (e : E) s i p :
  reachable s -> tasks s !! i = Some p -> (forall r, p <> Returned r) -> exists s', step s s'.
Proof.
  intros [Hpc Hrd Hwr Hex Hl]%reachable_inv Hi Hp. destruct s as [c rs w ts l]. cbn [cache readers writer tasks loaded] in *.
  destruct w as [k|].
  - destruct (Hwr k eq_refl) as [Hk|Hk].
    + destruct c as [b|]; eexists; [by eapply step_write_hit|by eapply step_load].
    + eexists. by eapply (step_failed k e).
  - destruct (decide (rs = ∅)) as [->|Hne].
    + destruct p as [| | | | |r]; [| | | | |by destruct (Hp r)].
      * eexists. by eapply step_read_lock.
      * apply Hpc in Hi as [Hi _]. set_solver.
      * eexists. by eapply step_write_lock.
      * by apply Hpc in Hi as [_ Hi].
      * by apply Hpc in Hi as (_ & Hi & _).
    + apply set_choose_L in Hne as [k Hk]. apply Hrd in Hk.
      destruct c as [b|]; eexists; [by eapply step_read_hit|by eapply step_read_miss].
Qed.
End Cached.
Arguments state : clear implicits.
Arguments pc : clear implicits.

(** ** Two calls *)

(** A call that misses while another is loading returns what that one loads. *)
Definition two_calls : state nat unit := mkState None ∅ None {[0 := Called; 1 := Called]} [].

Lemma two_calls_initial : initial two_calls.
Proof.
  repeat split. intros i p. unfold two_calls. cbn [tasks]. rewrite lookup_insert_Some, lookup_singleton_Some. naive_solver.
Qed.

(** Both miss, the first loads 7, the second then finds it. *)
Definition two_tasks : gmap nat (pc nat unit) :=
  <[1 := Returned (inr 7)]> (<[1 := HoldsWrite]> (<[0 := Returned (inr 7)]> (<[0 := Loading]> (<[0 := HoldsWrite]>
    (<[1 := MissedRead]> (<[0 := MissedRead]> (<[1 := HoldsRead]> (<[0 := HoldsRead]> (tasks two_calls))))))))).

Lemma two_calls_share : reachable (mkState (Some 7) ∅ None two_tasks [7]).
Proof.
  pose proof (reach_initial _ two_calls_initial) as R. unfold two_calls in R.
  eapply reach_step in R; [|eapply (step_read_lock 0); reflexivity].
  eapply reach_step in R; [|eapply (step_read_lock 1); reflexivity].
  eapply reach_step in R; [|eapply (step_read_miss 0); reflexivity].
  eapply reach_step in R; [|eapply (step_read_miss 1); reflexivity].
  assert (({[1]} ∪ ({[0]} ∪ ∅)) ∖ {[0]} ∖ {[1]} = (∅ : gset nat)) as Hrs by set_solver. rewrite Hrs in R. clear Hrs.
  eapply reach_step in R; [|eapply (step_write_lock 0); reflexivity].
  eapply reach_step in R; [|eapply (step_load 0); reflexivity].
  eapply reach_step in R; [|eapply (step_loaded 0 7); reflexivity].
  eapply reach_step in R; [|eapply (step_write_lock 1); reflexivity].
  eapply reach_step in R; [|eapply (step_write_hit 1); reflexivity].
  exact R.
Qed.

Lemma cached_loaded_once_witness :
  reachable (mkState (Some 7) ∅ None two_tasks [7]) /\
  forall i j b b', two_tasks !! i = Some (Returned (inr b)) -> two_tasks !! j = Some (Returned (inr b')) -> b = b'.
Proof.
  split; [exact two_calls_share|]. intros i j b b' Hi Hj.
  exact (proj1 (proj1 (proj2 (cached_loaded_once _ two_calls_share)) i j b b' Hi Hj)).
Defined.

Lemma cached_progress_witness : exists s', step two_calls s'.
Proof.
  apply (cached_progress tt two_calls 0 Called (reach_initial _ two_calls_initial)); [reflexivity|].
  intros r Hr. discriminate Hr.
Defined.
