(* ===== verification/VolumeConfig.v ===== *)
(** * Volume configurations

    [cryptpilot-crypt/src/config]: the configuration files of the volumes, how
    they are loaded, and the cache in front of the files.  TOML parsing is a
    parameter. *)

From Stdlib Require Import Ascii.
From stdpp Require Import base list strings sets sorting.
From Stdlib Require Import ZArith Lia.
From S2P Require Import Prelude RustString Sys Cmd Luks2 KeyProvider.

(** ** volume.rs *)

Record ExtraConfig := mkExtra {
  auto_open : option bool;
  makefs : option MakeFsType;
  integrity : option bool;
}.

Record VolumeConfig := mkVolume {
  vc_volume : string;
  vc_dev : string;
  extra_config : ExtraConfig;
  key_provider : KeyProviderConfig;
}.

Definition volume_path (c : VolumeConfig) : string := join_str "/dev/mapper" (vc_volume c).

(** [toml::from_str::<VolumeConfig>] *)
Class Toml := { toml_volume_config : string -> option VolumeConfig }.

(** ** fs.rs *)

Definition CRYPTPILOT_CONFIG_DIR_DEFAULT : string := "/etc/cryptpilot".

Definition volume_le (a b : VolumeConfig) : Prop := String.le (vc_volume a) (vc_volume b).

#[export] Instance volume_le_dec : RelDecision volume_le := fun a b => String.le_dec _ _.

Section Load.
Context `{Toml}.

(** [path.extension().is_some_and(|ext| ext == "toml")] on a directory entry. *)
Definition is_volume_file (e : DirEnt) : bool :=
  ent_is_file e && bool_decide (extension (ent_name e) = Some "toml"%string).

(** One configuration file: read, parsed, and its name not taken yet. *)
Definition load_volume_file (path : string) (volume_names : list string) : M VolumeConfig :=
  let* content := call (ReadToString path) in
  match toml_volume_config content with
  | None => bail "Failed to parse content as TOML"
  | Some volume_config =>
    if decide (vc_volume volume_config ∈ volume_names)
    then bail "Volume is already defined in other volume config files. Please checking your volume config files."
    else ok volume_config
  end.

(** The loop over the directory entries; [volume_configs] are those pushed so
    far, whose names are the ones seen. *)
Fixpoint load_entries (config_dir : string) (entries : list (result anyhow DirEnt))
    (volume_configs : list VolumeConfig) : M (list VolumeConfig) :=
  match entries with
  | [] => ok volume_configs
  | entry :: entries =>
    let* entry := lift entry in
    if is_volume_file entry
    then
      let* volume_config :=
        load_volume_file (join_str config_dir (ent_name entry)) (map vc_volume volume_configs) in
      load_entries config_dir entries (volume_configs ++ [volume_config])
    else load_entries config_dir entries volume_configs
  end.

Definition load_volume_configs (dir : string) : M (list VolumeConfig) :=
  let config_dir := join_str dir "volumes" in
  let> exists_ := call (PathExists config_dir) in
  if negb exists_ then ok []
  else
    let* entries := call (ReadDir config_dir) in
    let* volume_configs := load_entries config_dir entries [] in
    ok (merge_sort volume_le volume_configs).
End Load.

(** ** mod.rs: any source of configurations *)

(** [VolumeConfigSource::get_volume_config] *)
Definition get_volume_config (get_volume_configs : M (list VolumeConfig)) (volume : string) :
  M VolumeConfig :=
  let* volume_configs := get_volume_configs in
  match filter (fun c => vc_volume c = volume) volume_configs with
  | volume_config :: _ => ok volume_config
  | [] => bail "Unknown volume name"
  end.

(** ** cached.rs *)

(** [CachedVolumeConfigSource::get_volume_configs]: the cache before and
    after; a failed load is not cached. *)
Definition cached_get_volume_configs (inner : M (list VolumeConfig)) (volumes : option (list VolumeConfig)) :
  sys (result anyhow (list VolumeConfig) * option (list VolumeConfig)) :=
  match volumes with
  | Some volumes' => Ret (Ok volumes', volumes)
  | None =>
    let> r := inner in
    Ret (r, match r with Ok volumes' => Some volumes' | _ => None end)
  end.

(** ** Properties *)

Section Properties.
Context `{Toml} {W : Type} `{!Handler sysop W}.

(** The configuration in a file of the directory, if it can be read and
    parsed. *)
Definition parsed (w : W) (config_dir : string) (e : DirEnt) : option VolumeConfig :=
  match fst (handle (ReadToString (join_str config_dir (ent_name e))) w) with
  | Ok content => toml_volume_config content
  | _ => None
  end.

(** Reading files and directories does not change the world. *)
Context (read_pure : forall (p : string) w, snd (handle (ReadToString p) w) = w).
Context (exists_pure : forall (p : string) w, snd (handle (PathExists p) w) = w).
Context (dir_pure : forall (p : string) w, snd (handle (ReadDir p) w) = w).

Lemma run_load_file config_dir e names w c w' :
  run (load_volume_file (join_str config_dir (ent_name e)) names) w = (Ok c, w') <->
  parsed w config_dir e = Some c /\ ~ (vc_volume c ∈ names) /\ w' = w.
Proof.
  unfold load_volume_file, parsed. rewrite run_rpbind, run_call.
  pose proof (read_pure (join_str config_dir (ent_name e)) w) as Hp.
  destruct (handle (ReadToString _) w) as [[s| |] w1]; cbn [fst snd] in *; subst w1;
    [|split; [done|by intros [? _]]..].
  destruct (toml_volume_config s) as [c'|]; [|split; [done|by intros [? _]]].
  destruct (decide (vc_volume c' ∈ names)).
  - split; [done|]. intros ([= ->] & ? & _). done.
  - split; [intros [= -> ->]; done|]. by intros ([= ->] & _ & ->).
Qed.

Lemma run_load_entries config_dir entries acc w cs w' :
  NoDup (map vc_volume acc) ->
  run (load_entries config_dir entries acc) w = (Ok cs, w') <->
  w' = w /\ exists ents l, entries = map Ok ents /\
    mapM (parsed w config_dir) (filter (fun e => is_volume_file e = true) ents) = Some l /\
    NoDup (map vc_volume (acc ++ l)) /\ cs = acc ++ l.
Proof.
  revert acc. induction entries as [|e entries IH]; intros acc Hacc.
  { split.
    - intros [= <- <-]. split; [done|]. exists [], []. by rewrite app_nil_r.
    - intros (-> & [|e0 ents0] & l & ? & E & _ & ->); [|done]. injection E as <-. by rewrite app_nil_r. }
  cbn [load_entries]. rewrite run_rpbind. cbn [run lift].
  destruct e as [e|x|]; [|split; [done|by intros (_ & [|e0 ents0] & ? & [=] & _)]..].
  destruct (is_volume_file e) eqn:Ee; [rewrite run_rpbind; split|rewrite IH by done; split].
  - destruct (run (load_volume_file _ _) w) as [[c| |] w1] eqn:E1; [|done..].
    apply run_load_file in E1 as (Hc & Hn & ->). rewrite IH.
    2: { rewrite map_app. apply NoDup_app. split; [done|]. split; [set_solver|apply NoDup_singleton]. }
    intros (-> & ents & l' & -> & Hl & Hnd & ->). split; [done|]. rewrite <- app_assoc in *.
    exists (e :: ents), (c :: l'). rewrite filter_cons, decide_True by done. simpl. by rewrite Hc, Hl.
  - intros (-> & [|e' ents] & l' & E & Hl & Hnd & ->); [done|]. injection E as <- ->.
    rewrite filter_cons, decide_True in Hl by done. simpl in Hl.
    destruct (parsed w config_dir e) as [c|] eqn:Hc; [|done]. simpl in Hl.
    destruct (mapM _ (filter _ ents)) as [l''|] eqn:El; [|done]. injection Hl as <-.
    assert (Hn : vc_volume c ∉ map vc_volume acc).
    { rewrite map_app in Hnd. apply NoDup_app in Hnd as (_ & Hd & _). intros Hin. apply (Hd _ Hin). by left. }
    destruct (run_load_file config_dir e (map vc_volume acc) w c w) as [_ R]. rewrite R by done.
    apply IH.
    + change (acc ++ c :: l'') with (acc ++ [c] ++ l'') in Hnd. rewrite (app_assoc acc [c] l''), map_app in Hnd.
      by apply NoDup_app in Hnd as [? _].
    + split; [done|]. exists ents, l''. by rewrite <- (app_assoc acc [c] l'').
  - intros (-> & ents & l' & -> & Hl & Hnd & ->). split; [done|]. exists (e :: ents), l'.
    rewrite filter_cons, decide_False by congruence. done.
  - intros (-> & [|e' ents] & l' & E & Hl & Hnd & ->); [done|]. injection E as <- ->.
    rewrite filter_cons, decide_False in Hl by congruence. split; [done|]. by exists ents, l'.
Qed.

Lemma get_volume_config_found cs c w :
  NoDup (map vc_volume cs) -> c ∈ cs ->
  run (get_volume_config (Ret (Ok cs)) (vc_volume c)) w = (Ok c, w).
Proof.
  intros Hnd Hc. unfold get_volume_config. rewrite run_rpbind. cbn [run].
  assert (exists t, filter (fun c' => vc_volume c' = vc_volume c) cs = c :: t) as [t ->]; [|done].
  induction cs as [|x m IH]; [by apply elem_of_nil in Hc|].
  apply NoDup_cons in Hnd as [Hx Hnd]. rewrite filter_cons. apply elem_of_cons in Hc as [<-|Hc].
  - rewrite decide_True by done. by eexists.
  - rewrite decide_False; [by apply IH|]. intros Exc. apply Hx. rewrite Exc.
    apply list_elem_of_fmap. by exists c.
Qed.

(** Loading the volume configurations succeeds exactly when every entry of
    the directory can be listed, every [.toml] file can be read and parsed, and
    no volume name is defined twice; the result is the parsed configurations
    sorted by name, and looking a volume up by its name finds its
    configuration. *)
Theorem load_volume_configs_spec dir w entries cs w' :
  fst (handle (PathExists (join_str dir "volumes")) w) = true ->
  fst (handle (ReadDir (join_str dir "volumes")) w) = Ok entries ->
  (run (load_volume_configs dir) w = (Ok cs, w') <->
   w' = w /\ exists ents l, entries = map Ok ents /\
     mapM (parsed w (join_str dir "volumes")) (filter (fun e => is_volume_file e = true) ents) = Some l /\
     NoDup (map vc_volume l) /\ cs = merge_sort volume_le l) /\
  (run (load_volume_configs dir) w = (Ok cs, w') ->
   StronglySorted volume_le cs /\
   forall c, c ∈ cs -> forall w2, run (get_volume_config (Ret (Ok cs)) (vc_volume c)) w2 = (Ok c, w2)).
Proof.
  intros Hex Hent.
  assert (Hiff : run (load_volume_configs dir) w = (Ok cs, w') <->
    w' = w /\ exists ents l, entries = map Ok ents /\
     mapM (parsed w (join_str dir "volumes")) (filter (fun e => is_volume_file e = true) ents) = Some l /\
     NoDup (map vc_volume l) /\ cs = merge_sort volume_le l).
  { unfold load_volume_configs. rewrite run_bind, run_call.
    pose proof (exists_pure (join_str dir "volumes") w) as P1.
    destruct (handle (PathExists _) w) as [ex w1]. cbn [fst snd] in *. subst ex w1. cbn [negb].
    rewrite run_rpbind, run_call. pose proof (dir_pure (join_str dir "volumes") w) as P2.
    destruct (handle (ReadDir _) w) as [r w2]. cbn [fst snd] in *. subst r w2.
    rewrite run_rpbind. split.
    - destruct (run (load_entries _ _ _) w) as [[l0| |] w3] eqn:E; [|done..]. intros [= <- <-].
      apply run_load_entries in E as (-> & ents & l1 & -> & Hl & Hnd & ->); [|constructor].
      split; [done|]. by exists ents, l1.
    - intros (-> & ents & l1 & -> & Hl & Hnd & ->).
      destruct (run_load_entries (join_str dir "volumes") (map Ok ents) [] w l1 w ltac:(constructor)) as [_ R].
      rewrite R; [done|]. split; [done|]. by exists ents, l1. }
  split; [exact Hiff|]. rewrite Hiff. intros (_ & ents & l1 & _ & _ & Hnd & ->).
  assert (Transitive volume_le) as Htr by (intros a b d; unfold volume_le; by transitivity (vc_volume b)).
  assert (Total volume_le) as Hto by (intros a b; unfold volume_le; apply String.le_total).
  split; [apply StronglySorted_merge_sort; done|].
  intros c Hc w2. apply get_volume_config_found; [|done]. by rewrite merge_sort_Permutation.
Qed.

(** The cache is transparent: once filled it answers with the loaded
    configurations without any system call. *)
Lemma cached_get_spec inner cache w r cache' w' :
  run (cached_get_volume_configs inner cache) w = ((r, cache'), w') ->
  (cache = None /\ run inner w = (r, w') /\ (forall cs, r = Ok cs <-> cache' = Some cs)) \/
  (exists cs, cache = Some cs /\ r = Ok cs /\ cache' = cache /\ w' = w).
Proof.
  unfold cached_get_volume_configs. destruct cache as [cs|].
  - intros [= <- <- <-]. right. by exists cs.
  - rewrite run_bind. destruct (run inner w) as [r0 w0]. intros [= <- <- <-]. left.
    split; [done|]. split; [done|]. intros cs. destruct r0; split; congruence.
Qed.
End Properties.
