(* ===== verification/CryptCmd.v ===== *)
(** * The commands of cryptpilot-crypt

    [cryptpilot-crypt/src/cmd]: the status of a volume, and the commands init,
    open, close, show, config check and the boot service, over any source of
    volume configurations. *)

From Stdlib Require Import Ascii.
From stdpp Require Import base list strings.
From Stdlib Require Import ZArith Lia.
From S2P Require Import Prelude RustString Sys Cmd Blkid Luks2 KeyProvider Mkfs VolumeConfig.
From S2P Require Import FileVerifier.

(** ** cli.rs *)

Record ShowOptions := mkShowOptions { show_volume : list string; show_json : bool }.
Record InitOptions := mkInitOptions { init_volume : list string; force_reinit : bool; yes : bool }.
Record OpenOptions := mkOpenOptions { open_volume : list string; check_fs : bool }.
Record CloseOptions := mkCloseOptions { close_volume : list string }.
Record ConfigCheckOptions := mkCheckOptions { keep_checking : bool; skip_check_passphrase : bool }.

(** ** show.rs *)

Inductive VolumeStatusKind :=
| DeviceNotFound | CheckFailed | RequiresInit | Initializing | ReadyToOpen | Opened.

#[global] Instance VolumeStatusKind_eq_dec : EqDecision VolumeStatusKind.
Proof. solve_decision. Defined.

(** The kind of [determine_status]; the description is text for people. *)
Definition determine_status (c : VolumeConfig) : sys VolumeStatusKind :=
  let> is_open := is_active (vc_volume c) in
  if (is_open : bool) then Ret Opened
  else
    let> dev_exist := call (PathExists (vc_dev c)) in
    if negb dev_exist then Ret DeviceNotFound
    else match volume_type (key_provider c) with
    | Temporary => Ret ReadyToOpen
    | Persistent =>
      let> r := get_init_state (vc_dev c) in
      Ret match r with
          | Ok InitStateReady => ReadyToOpen
          | Ok InitStateInitializing => Initializing
          | Ok InitStateNone => RequiresInit
          | _ => CheckFailed
          end
    end.

Record ShowVolume := mkShowVolume {
  sv_volume : string;
  sv_volume_path : string;
  sv_underlay_device : string;
  sv_key_provider : KeyProviderConfig;
  sv_extra_options : ExtraConfig;
  sv_status : VolumeStatusKind;
}.

Definition show_from_config (c : VolumeConfig) : sys ShowVolume :=
  let> status := determine_status c in
  Ret {| sv_volume := vc_volume c; sv_volume_path := volume_path c; sv_underlay_device := vc_dev c;
         sv_key_provider := key_provider c; sv_extra_options := extra_config c; sv_status := status |}.

(** The rows [print_as_table] and [print_as_json] print. *)
Fixpoint show_rows (cs : list VolumeConfig) : sys (list ShowVolume) :=
  match cs with
  | [] => Ret []
  | c :: cs =>
    let> row := show_from_config c in
    let> rows := show_rows cs in
    Ret (row :: rows)
  end.

(** The cells of a table row that depend on the status. *)
Inductive Color := Green | Yellow | Red | DarkGrey.

Definition status_color (k : VolumeStatusKind) : Color :=
  match k with
  | Opened | ReadyToOpen => Green
  | RequiresInit | Initializing => Yellow
  | CheckFailed | DeviceNotFound => Red
  end.

Definition path_cell (row : ShowVolume) : string * Color :=
  match sv_status row with
  | DeviceNotFound => ("N/A"%string, Yellow)
  | Opened => (sv_volume_path row, Green)
  | _ => ("<not opened>"%string, Yellow)
  end.

Section Commands.
Context `{Hex, Base64, JsonText, BlkTraceConsts}.
Context (source : M (list VolumeConfig)).

Definition show_run (o : ShowOptions) : M (list ShowVolume) :=
  let* volume_configs := source in
  let volume_configs :=
    match show_volume o with
    | [] => volume_configs
    | names => filter (fun c => vc_volume c ∈ names) volume_configs
    end in
  let> rows := show_rows volume_configs in
  ok rows.

(** ** init.rs *)

Definition init_integrity (c : VolumeConfig) : IntegrityType :=
  match integrity (extra_config c) with
  | Some true => Journal
  | _ => IntegrityNone
  end.

(** [makefs] on a temporary mapping; the mapping is closed when it is
    dropped, also after an error. *)
Definition init_makefs (c : VolumeConfig) (passphrase : Passphrase) (fs : MakeFsType) : M unit :=
  let* tmp_volume := temp_open (vc_dev c) passphrase (init_integrity c) in
  let> r := force_mkfs (temp_volume_path tmp_volume) fs (init_integrity c) in
  let> _ := temp_drop tmp_volume in
  lift r.

(** The part of [persistent_disk_init] that checks, before anything is
    written. *)
Definition init_guards (o : InitOptions) (c : VolumeConfig) : M unit :=
  let> status := determine_status c in
  let* _ := match status with
            | DeviceNotFound | CheckFailed | Opened => bail "The status of device is incorrect"
            | RequiresInit | Initializing => ok tt
            | ReadyToOpen =>
              if negb (force_reinit o) then bail "The device is already initialized." else ok tt
            end in
  let* _ := (if negb (yes o)
             then
               let> is_term := call StderrIsTerm in
               if negb is_term then bail "Standard error is not a terminal."
               else
                 let* confirmed := call (Confirm (vc_dev c)) in
                 if negb confirmed then bail "Operation canceled" else ok tt
             else ok tt) in
  let* in_use := is_dev_in_use (vc_dev c) in
  if (in_use : bool) then bail "The device is currently in use" else ok tt.

Definition persistent_disk_init (o : InitOptions) (c : VolumeConfig) : M unit :=
  let* _ := init_guards o c in
  let* passphrase := get_key (key_provider c) in
  let* _ := format (vc_dev c) passphrase (init_integrity c) in
  let* _ := match makefs (extra_config c) with
            | Some fs => init_makefs c passphrase fs
            | None => ok tt
            end in
  mark_volume_as_initialized (vc_dev c).

Definition init_volume_run (o : InitOptions) (volume : string) : M unit :=
  let* volume_config := get_volume_config source volume in
  match volume_type (key_provider volume_config) with
  | Temporary => ok tt
  | Persistent => persistent_disk_init o volume_config
  end.

Definition init_run (o : InitOptions) : M unit := for_each (init_volume o) (init_volume_run o).

(** ** open.rs *)

Definition open_integrity (c : VolumeConfig) : IntegrityType :=
  match integrity (extra_config c) with
  | Some true => NoJournal
  | _ => IntegrityNone
  end.

Definition temporary_disk_open (c : VolumeConfig) : M unit :=
  let* passphrase := get_key (key_provider c) in
  let* _ := format (vc_dev c) passphrase (open_integrity c) in
  let* _ := open_with_check_passphrase (vc_volume c) (vc_dev c) passphrase (open_integrity c) in
  let* _ := match makefs (extra_config c) with
            | Some fs =>
              let> r := force_mkfs (volume_path c) fs (open_integrity c) in
              match r with
              | Ok _ => ok tt
              | Err e =>
                let* _ := close (vc_volume c) in
                lift (Err e)
              | Panic => panic
              end
            | None => ok tt
            end in
  mark_volume_as_initialized (vc_dev c).

Definition persistent_disk_open (c : VolumeConfig) : M unit :=
  let* initialized := is_initialized (vc_dev c) in
  if negb initialized then bail "Not a valid LUKS2 volume, should be initialized before opening it"
  else
    let* passphrase := get_key (key_provider c) in
    open_with_check_passphrase (vc_volume c) (vc_dev c) passphrase (open_integrity c).

(** The choice by the type of the volume. *)
Definition disk_open (c : VolumeConfig) : M unit :=
  match volume_type (key_provider c) with
  | Temporary => temporary_disk_open c
  | Persistent => persistent_disk_open c
  end.

Definition open_for_specific_volume (c : VolumeConfig) (check_fs : bool) : M unit :=
  let> active := is_active (vc_volume c) in
  if (active : bool) then ok tt
  else
    let* in_use := is_dev_in_use (vc_dev c) in
    if (in_use : bool) then bail "The device is currently in use"
    else
      let* _ := disk_open c in
      match check_fs, makefs (extra_config c) with
      | true, Some fs =>
        let* valuable := has_valuable_data (volume_path c) (Some fs) in
        if negb valuable
        then
          let> _ := close (vc_volume c) in
          bail "The filesystem is not initialized but makefs is set"
        else ok tt
      | _, _ => ok tt
      end.

Definition open_volume_run (o : OpenOptions) (volume : string) : M unit :=
  let* volume_config := get_volume_config source volume in
  open_for_specific_volume volume_config (check_fs o).

Definition open_cmd_run (o : OpenOptions) : M unit := for_each (open_volume o) (open_volume_run o).

(** ** close.rs *)

Definition close_volume_run (volume : string) : M unit :=
  let> active := is_active volume in
  if negb active then ok tt else close volume.

Definition close_cmd_run (o : CloseOptions) : M unit := for_each (close_volume o) close_volume_run.

(** ** boot_service/auto_open.rs *)

Fixpoint auto_open_volumes (cs : list VolumeConfig) : sys unit :=
  match cs with
  | [] => Ret tt
  | c :: cs =>
    if decide (auto_open (extra_config c) = Some true)
    then
      let> _ := open_for_specific_volume c false in
      auto_open_volumes cs
    else auto_open_volumes cs
  end.

Definition setup_user_provided_volumes : M unit :=
  let* volume_configs := source in
  match volume_configs with
  | [] => ok tt
  | _ =>
    let> _ := show_rows volume_configs in
    let> _ := auto_open_volumes volume_configs in
    let> _ := show_rows volume_configs in
    ok tt
  end.

(** ** config/check.rs *)

(** [continue_or_throw!]: an error ends the check, or is counted. *)
Definition continue_or_throw (o : ConfigCheckOptions) (e : anyhow) : M bool :=
  if keep_checking o then ok true else lift (Err e).

(** The device part of one volume: the error flag, and whether the device is
    initialized. *)
Definition check_device (o : ConfigCheckOptions) (c : VolumeConfig) : M (bool * bool) :=
  let> exists_ := call (PathExists (vc_dev c)) in
  if negb exists_
  then let* is_error := continue_or_throw o (Bail "The device does not exist") in ok (is_error, false)
  else
    let> r := is_initialized (vc_dev c) in
    match r with
    | Ok initialized =>
      let* is_error :=
        (if decide (auto_open (extra_config c) = Some true /\ initialized = false)
         then continue_or_throw o (Bail "The volume is set to auto open but the device is not initialized")
         else ok false) in
      ok (is_error, initialized)
    | Err e => let* is_error := continue_or_throw o e in ok (is_error, false)
    | Panic => panic
    end.

(** The key part of one volume. *)
Definition check_key (o : ConfigCheckOptions) (c : VolumeConfig) (dev_is_initialized : bool) : M bool :=
  if skip_check_passphrase o then ok false
  else
    let> r := get_key (key_provider c) in
    match r with
    | Ok passphrase =>
      if dev_is_initialized
      then
        let> r := check_passphrase (vc_dev c) passphrase in
        match r with
        | Ok _ => ok false
        | Err e => continue_or_throw o e
        | Panic => panic
        end
      else ok false
    | Err e => continue_or_throw o e
    | Panic => panic
    end.

(** One volume: whether it has errors. *)
Definition check_volume (o : ConfigCheckOptions) (c : VolumeConfig) : M bool :=
  let* (dev_error, dev_is_initialized) := check_device o c in
  let* key_error := check_key o c dev_is_initialized in
  ok (dev_error || key_error).

Fixpoint check_volumes (o : ConfigCheckOptions) (cs : list VolumeConfig) (is_error : bool) : M bool :=
  match cs with
  | [] => ok is_error
  | c :: cs =>
    let* e := check_volume o c in
    check_volumes o cs (is_error || e)
  end.

Definition config_check_run (o : ConfigCheckOptions) : M unit :=
  let* volumes := source in
  let* is_error := check_volumes o volumes false in
  if (is_error : bool) then bail "Volume config check failed, please check the errors above" else ok tt.
End Commands.
