(* ===== verification/CryptCmdProofs.v ===== *)
(** * The commands of cryptpilot-crypt: properties

    Initialization writes only after its checks, leaves no volume marked ready
    unless it completed, and makes a volume that opens; opening and booting
    never format persistent volumes; what a passed configuration check means.
    All over any world with [Cryptsetup]. *)

From Stdlib Require Import Ascii.
From stdpp Require Import base list strings sets.
From Stdlib Require Import ZArith Lia.
From S2P Require Import Prelude RustString Sys Cmd Blkid Luks2 Luks2Spec KeyProvider Mkfs.
From S2P Require Import VolumeConfig CryptCmd.
From S2P Require Import FileVerifier.

(** ** What the parts can touch *)

Section Touches.
Context `{Hex, Base64, JsonText, BlkTraceConsts}.

(** The command that the user configured to provide the key neither names the
    device nor creates logical volumes. *)
Definition clean_command (d program : string) (args : list string) : bool :=
  negb (creates_volumes program args) && negb (names_device program args d).

Definition key_clean (d : string) (c : KeyProviderConfig) : bool :=
  match c with
  | Exec c => clean_command d (exec_command c) (exec_args c)
  | Oidc c => clean_command d (oidc_command c) (oidc_args c)
  | _ => true
  end.

Lemma clean_command_touches d program args input :
  clean_command d program args = true -> touches d (Spawn program args input) = false.
Proof.
  unfold clean_command. intros [Hc Hn]%andb_true_iff. apply negb_true_iff in Hc, Hn.
  simpl. by rewrite Hc, Hn, andb_false_r.
Qed.

Lemma get_key_touches d c : key_clean d c = true -> all_ops (fun _ e => touches d e = false) (get_key c).
Proof.
  destruct c as [c|c|c|c|c|c]; cbn [key_clean]; intros Hc;
    unfold get_key, otp_get_key, passphrase_random, kms_get_key, get_key_from_kms, kms_client, discover_region,
      discover_ram_role_name, kbs_get_key, find_cdh_binary_or_default, tpm2_get_key, oidc_get_key,
      exec_get_key, test_mode; all_ops; try done;
    try (apply all_ops_run_cmd; (by apply cdh_touches) || by apply clean_command_touches);
    apply all_ops_retry; simpl; auto.
Qed.

(** Making a file system writes to the volume it is given, and to the loop
    device it is prepared on. *)
Lemma normal_mkfs_touches d path fs :
  d <> path -> all_ops (fun _ e => touches d e = false) (normal_force_mkfs path fs).
Proof.
  intros Hd. unfold normal_force_mkfs.
  destruct fs; cbn [mkfs_command]; all_ops; apply all_ops_run_cmd, spawn_touches; try done;
    intros Hs Hin; cbn [app] in Hin;
    repeat (apply elem_of_cons in Hin as [->|Hin]; [done|]); by apply elem_of_nil in Hin.
Qed.

Lemma migrate_pages_touches d dummy path page_size ps :
  d <> path -> all_ops (fun _ e => touches d e = false) (migrate_pages dummy path page_size ps).
Proof.
  intros Hd. assert (HW : forall off data, touches d (WriteAt path off data) = false).
  { intros off data. simpl. apply bool_decide_eq_false. congruence. }
  unfold migrate_pages. all_ops; try done.
  apply all_ops_for_each. intros x _. unfold migrate_page. all_ops; auto.
Qed.

Lemma record_and_migrate_touches d dummy path fs :
  d <> path -> d <> dummy -> all_ops (fun _ e => touches d e = false) (record_and_migrate dummy path fs).
Proof.
  intros Hd Hu. unfold record_and_migrate.
  all_ops; try done; [by apply normal_mkfs_touches|by apply all_ops_run_cmd|by apply migrate_pages_touches].
Qed.

Lemma integrity_mkfs_touches d path fs :
  d <> path ->
  all_ops_if (fresh_answer d) (fun _ e => touches d e = false) (integrity_force_mkfs path fs).
Proof.
  intros Hd. unfold integrity_force_mkfs. apply all_ops_if_rpbind; [done|]. intros [device_size block_size].
  apply all_ops_if_bind; [by apply all_ops_all_ops_if, all_ops_ensure_module_loaded|]. intros _.
  split; [done|]. intros [dummy|e|] Hfresh; [|done..]. apply all_ops_all_ops_if. cbn [pbind].
  apply all_ops_bind; [|intros r; by all_ops].
  apply record_and_migrate_touches; [done|]. intros ->. by apply Hfresh.
Qed.

Lemma force_mkfs_touches d path fs i :
  d <> path ->
  all_ops_if (fresh_answer d) (fun _ e => touches d e = false) (force_mkfs path fs i).
Proof.
  intros Hd. destruct i; [by apply all_ops_all_ops_if, normal_mkfs_touches|by apply integrity_mkfs_touches..].
Qed.

(** Queries of the status and of the device. *)
Lemma determine_status_ops c : all_ops (fun _ e => query e = true) (determine_status c).
Proof. unfold determine_status, is_active, get_init_state, get_luks2_subsystem. all_ops; done. Qed.

Lemma init_guards_ops o c : all_ops (fun _ e => query e = true) (init_guards o c).
Proof.
  unfold init_guards, is_dev_in_use. all_ops; try done. apply determine_status_ops.
Qed.

Lemma query_touches d {R} (e : sysop R) : query e = true -> touches d e = false.
Proof. by destruct e. Qed.

Lemma show_rows_ops cs : all_ops (fun _ e => query e = true) (show_rows cs).
Proof.
  induction cs as [|c cs IH]; [done|]. cbn [show_rows]. apply all_ops_bind.
  - unfold show_from_config. apply all_ops_bind; [apply determine_status_ops|done].
  - intros row. apply all_ops_bind; [done|done].
Qed.
End Touches.

(** ** Initialization *)

Section Init.
Context `{Hex, Base64, JsonText, BlkTraceConsts} {W : Type} `{Cryptsetup W}.
Implicit Types (w : W) (c : VolumeConfig).

Lemma run_queries {A} (p : sys A) w :
  all_ops (fun _ e => query e = true) p -> snd (run p w) = w /\ forall n, snd (run_n n p w) = w.
Proof.
  intros Hp. assert (Hq : forall R (e : sysop R) v, query e = true -> v = snd (handle e v)).
  { intros R e v He. symmetry. by apply query_pure. }
  split.
  - symmetry. apply (run_all_ops _ (fun u v => u = v) p w) in Hp; [done|done|congruence|exact Hq].
  - intros n. symmetry. apply (run_n_all_ops _ (fun u v => u = v) p n w) in Hp; [done|done|congruence|exact Hq].
Qed.

Lemma run_determine_status c w :
  run (determine_status c) w =
    (if mapped w (vc_volume c) then Opened
     else if negb (fst (handle (PathExists (vc_dev c)) w)) then DeviceNotFound
     else match volume_type (key_provider c) with
          | Temporary => ReadyToOpen
          | Persistent =>
            match state_of_subsystem (luks_subsystem w (vc_dev c)) with
            | InitStateReady => ReadyToOpen
            | InitStateInitializing => Initializing
            | InitStateNone => RequiresInit
            end
          end, w).
Proof.
  unfold determine_status. rewrite run_bind, run_is_active.
  destruct (mapped w (vc_volume c)); [done|].
  rewrite run_bind, run_query by done. destruct (fst (handle _ w)); [|done]. simpl negb. cbv iota.
  destruct (volume_type _); [done|]. rewrite run_bind, run_get_init_state.
  by destruct (state_of_subsystem _).
Qed.

(** What [persistent_disk_init] has checked before it writes. *)
Record init_allowed (o : InitOptions) (c : VolumeConfig) w : Prop := {
  ia_not_mapped : mapped w (vc_volume c) = false;
  ia_exists : fst (handle (PathExists (vc_dev c)) w) = true;
  ia_not_ready : state_of_subsystem (luks_subsystem w (vc_dev c)) = InitStateReady -> force_reinit o = true;
  ia_confirmed : yes o = true \/ fst (handle (Confirm (vc_dev c)) w) = Ok true;
  ia_free : fst (handle (OpenExclusive (vc_dev c)) w) = Ok tt;
}.

Lemma init_guards_ok o c w w' :
  volume_type (key_provider c) = Persistent ->
  run (init_guards o c) w = (Ok tt, w') -> w' = w /\ init_allowed o c w.
Proof.
  intros Hvt Hrun. assert (w' = w) as ->.
  { change w' with (snd (Ok (E:=anyhow) tt, w')). rewrite <- Hrun. apply run_queries, init_guards_ops. }
  split; [done|]. revert Hrun. unfold init_guards. rewrite run_bind, run_determine_status, Hvt.
  destruct (mapped w (vc_volume c)) eqn:Em; [done|].
  destruct (fst (handle (PathExists (vc_dev c)) w)) eqn:Ee; [simpl negb; cbv iota|done].
  rewrite run_rpbind.
  set (st := state_of_subsystem (luks_subsystem w (vc_dev c))).
  assert (Hst : forall r w1, run (match match st with
      | InitStateReady => ReadyToOpen | InitStateInitializing => Initializing
      | InitStateNone => RequiresInit end with
      | DeviceNotFound | CheckFailed | Opened => bail "The status of device is incorrect"
      | RequiresInit | Initializing => ok tt
      | ReadyToOpen => if negb (force_reinit o) then bail "The device is already initialized." else ok tt
      end) w = (Ok r, w1) -> w1 = w /\ (st = InitStateReady -> force_reinit o = true)).
  { intros r w1. destruct st; [intros [= _ <-]; done..|].
    destruct (force_reinit o); [intros [= _ <-]; done|done]. }
  destruct (run _ w) as [[[]| |] w1] eqn:E1; [|done..].
  destruct (Hst tt w1 eq_refl) as [-> Hready]. clear Hst E1.
  rewrite run_rpbind.
  assert (Hc : forall r w1, run (if negb (yes o) then
      let> is_term := call StderrIsTerm in
      if negb is_term then bail "Standard error is not a terminal."
      else let* confirmed := call (Confirm (vc_dev c)) in
           if negb confirmed then bail "Operation canceled" else ok tt
      else ok tt) w = (Ok r, w1) -> w1 = w /\ (yes o = true \/ fst (handle (Confirm (vc_dev c)) w) = Ok true)).
  { intros r w1. destruct (yes o); [intros [= _ <-]; auto|]. simpl negb. cbv iota.
    rewrite run_bind, run_query by done. destruct (fst (handle StderrIsTerm w)); [simpl negb; cbv iota|done].
    rewrite run_rpbind, run_query by done.
    destruct (fst (handle (Confirm _) w)) as [[]| |]; [|done..]. intros [= _ <-]. auto. }
  destruct (run _ w) as [[[]| |] w1] eqn:E1; [|done..].
  destruct (Hc tt w1 eq_refl) as [-> Hconf]. clear Hc E1.
  rewrite run_rpbind, run_is_dev_in_use.
  destruct (fst (handle (OpenExclusive (vc_dev c)) w)) as [[]|e|] eqn:Ef; [|by destruct (Z.eqb e EBUSY)|done].
  intros _. by constructor.
Qed.

(** C9: [init] of a persistent volume changes nothing of the machine, at any
    point of its run, unless the volume is not mapped, the device exists, is
    not marked ready (or --force-reinit was given), the user agreed, and no one
    holds the device. *)
Theorem init_writes_only_when_allowed o c w n :
  volume_type (key_provider c) = Persistent ->
  snd (run_n n (persistent_disk_init o c) w) = w \/ init_allowed o c w.
Proof.
  intros Hvt. unfold persistent_disk_init.
  destruct (run_queries _ w (init_guards_ops o c)) as [Hw Hn]. 
  match goal with |- context [rpbind (init_guards o c) ?f] =>
    destruct (run_n_rpbind (init_guards o c) f n w) as [(w' & E1 & E2)|[m Em]] end.
  - left. rewrite E2. specialize (Hn n). by rewrite E1 in Hn.
  - rewrite Em. destruct (run (init_guards o c) w) as [[[]|e|] w1] eqn:E; cbn [snd] in *; [|by left..].
    right. by apply init_guards_ok in E as [].
Qed.

(** ** Crashes *)

(** The volume's device is not one of the temporary mappings. *)
Definition dev_not_temporary c : Prop :=
  starts_with (vc_dev c) "/dev/mapper/.cryptpilot-" = false.

Lemma temp_path_ne c s :
  dev_not_temporary c -> vc_dev c <> temp_volume_path (mkTempLuksVolume (".cryptpilot-" +:+ s)).
Proof.
  unfold dev_not_temporary, temp_volume_path, join_str. simpl temp_name.
  change (starts_with (".cryptpilot-" +:+ s) "/") with false. cbv iota.
  change (bool_decide ("/dev/mapper" = "") || ends_with "/dev/mapper" "/") with false. cbv iota.
  intros Hd E. rewrite E in Hd. change ("/dev/mapper" +:+ "/" +:+ ".cryptpilot-" +:+ s)
    with ("/dev/mapper/.cryptpilot-" +:+ s) in Hd. by rewrite starts_with_app in Hd.
Qed.

Lemma init_makefs_touches c p fs :
  dev_not_temporary c ->
  all_ops_if (fresh_answer (vc_dev c)) (fun _ e => touches (vc_dev c) e = false) (init_makefs c p fs).
Proof.
  intros Hd. unfold init_makefs, rpbind.
  apply (all_ops_if_bind_rets _ _ (fun r => forall t, r = Ok t ->
    exists s, t = mkTempLuksVolume (".cryptpilot-" +:+ s))).
  - apply all_ops_all_ops_if, temp_open_touches.
  - unfold temp_open, rpbind. apply (all_rets_bind (fun _ => True)); [by apply all_rets_true|]. intros s _.
    apply (all_rets_bind (fun _ => True)); [by apply all_rets_true|].
    intros [a|e|] _ t; intros [= <-]. by exists s.
  - intros [t|e|] Ht; [|done..]. destruct (Ht t eq_refl) as [s ->].
    apply all_ops_if_bind; [by apply force_mkfs_touches, temp_path_ne|]. intros r.
    apply all_ops_if_bind; [apply all_ops_all_ops_if, temp_drop_touches|done].
Qed.

(** C5: crash safety of [init]: started on a device that is not marked ready,
    the device is never marked ready while [init] is still running or after it
    failed; only a run that returned successfully leaves it marked.  (The device
    is not one of the temporary mappings of [init], and the command configured
    to provide the key does not name it.) *)
Theorem init_crash_safe o c w n :
  dev_not_temporary c -> key_clean (vc_dev c) (key_provider c) = true -> not_ready w (vc_dev c) ->
  not_ready (snd (run_n n (persistent_disk_init o c) w)) (vc_dev c) \/
  fst (run_n n (persistent_disk_init o c) w) = Some (Ok tt).
Proof.
  intros Hd Hkc Hw. revert n. change (forall n, crash_good (vc_dev c) (run_n n (persistent_disk_init o c) w)).
  unfold persistent_disk_init. apply crash_rpbind.
  { apply keeps_not_ready; [done|]. eapply all_ops_weaken; [|apply init_guards_ops]. intros R e. apply query_touches. }
  intros [] w1 E1. assert (w1 = w) as ->.
  { change w1 with (snd (Ok (E:=anyhow) tt, w1)). rewrite <- E1. apply run_queries, init_guards_ops. }
  apply crash_rpbind; [apply keeps_not_ready; [done|by apply get_key_touches]|]. intros p w2 E2.
  assert (Hnr2 : not_ready w2 (vc_dev c)).
  { destruct (keeps_not_ready (vc_dev c) (get_key (key_provider c)) w Hw (get_key_touches _ _ Hkc)) as [_ Hk]. by rewrite E2 in Hk. }
  apply crash_rpbind; [intros n; eapply formatted_not_ready; [exact Hnr2|apply format_n]|]. intros [] w3 E3.
  apply luks_format_run_ok in E3 as [Hs3 _].
  assert (Hm : all_ops_if (fresh_answer (vc_dev c)) (fun _ e => touches (vc_dev c) e = false)
    (match makefs (extra_config c) with Some fs => init_makefs c p fs | None => ok tt end)).
  { destruct (makefs _); [by apply init_makefs_touches|done]. }
  destruct (keeps_initializing _ _ w3 Hs3 Hm) as [Hmn Hmr].
  apply crash_rpbind; [done|]. intros [] w4 E4.
  assert (Hnr4 : not_ready w4 (vc_dev c)).
  { by rewrite E4 in Hmr. }
  intros n. destruct (mark_n (vc_dev c) n w4) as [E|E]; [left|by right].
  unfold not_ready in *. cbn [snd]. by rewrite E.
Qed.

(** ** Initialize, then open *)

Lemma init_run_ok o c w w' :
  dev_not_temporary c -> volume_type (key_provider c) = Persistent ->
  run (persistent_disk_init o c) w = (Ok tt, w') ->
  exists p w1, run (get_key (key_provider c)) w = (Ok p, w1) /\ luks_subsystem w' (vc_dev c) = Some LUKS2_SUBSYSTEM_NAME /\ unlocks w' (vc_dev c) (passphrase_bytes p) = true.
Proof.
  intros Hd Hvt. unfold persistent_disk_init.
  rewrite run_rpbind. destruct (run (init_guards o c) w) as [[[]| |] w0] eqn:E0; [|done..].
  apply init_guards_ok in E0 as [-> _]; [|done].
  rewrite run_rpbind. destruct (run (get_key _) w) as [[p| |] w1] eqn:E1; [|done..].
  rewrite run_rpbind. destruct (run (format _ _ _) w1) as [[[]| |] w2] eqn:E2; [|done..].
  apply luks_format_run_ok in E2 as [Hs2 Hu].
  assert (Hm : all_ops_if (fresh_answer (vc_dev c)) (fun _ e => touches (vc_dev c) e = false)
    (match makefs (extra_config c) with Some fs => init_makefs c p fs | None => ok tt end)).
  { destruct (makefs _); [by apply init_makefs_touches|done]. }
  apply (untouched_run_if _ _ w2 _ Hs2) in Hm as [_ Hm].
  rewrite run_rpbind. destruct (run (match makefs _ with Some _ => _ | None => _ end) w2) as [[[]| |] w3] eqn:E3; [|done..].
  cbn [snd] in Hm. intros E4. apply mark_run_ok in E4 as [Hs Hk].
  exists p, w1. split; [done|]. split; [done|]. by rewrite Hk, Hm.
Qed.

(** C12: a persistent volume that [init] initialized successfully opens: when
    its mapping is not active and nobody holds the device, before and after the
    key is fetched, and the key provider gives the same passphrase again, [open]
    succeeds and the volume is mapped and still marked ready.  (The device is
    not one of the temporary mappings of [init], and the command configured to
    provide the key does not name it.) *)
Theorem init_then_open o c w w' p w1 w2 :
  dev_not_temporary c -> key_clean (vc_dev c) (key_provider c) = true -> volume_type (key_provider c) = Persistent ->
  run (persistent_disk_init o c) w = (Ok tt, w') ->
  run (get_key (key_provider c)) w = (Ok p, w1) ->
  run (get_key (key_provider c)) w' = (Ok p, w2) ->
  mapped w' (vc_volume c) = false -> mapped w2 (vc_volume c) = false ->
  fst (handle (OpenExclusive (vc_dev c)) w') = Ok tt ->
  fst (handle (OpenExclusive (vc_dev c)) w2) = Ok tt ->
  exists w3, run (open_for_specific_volume c false) w' = (Ok tt, w3) /\ mapped w3 (vc_volume c) = true /\ luks_subsystem w3 (vc_dev c) = Some LUKS2_SUBSYSTEM_NAME.
Proof.
  intros Hd Hkc Hvt Hinit Hk1 Hk2 Hm Hm2 Hf Hf2.
  destruct (init_run_ok _ _ _ _ Hd Hvt Hinit) as (p' & w1' & Hk1' & Hs & Hu).
  rewrite Hk1 in Hk1'. injection Hk1' as <- <-.
  unfold open_for_specific_volume. rewrite run_bind, run_is_active, Hm.
  rewrite run_rpbind, run_is_dev_in_use, Hf. rewrite run_rpbind.
  unfold disk_open. rewrite Hvt. unfold persistent_disk_open. rewrite run_rpbind, run_is_initialized, Hs.
  change (bool_decide (state_of_subsystem (Some LUKS2_SUBSYSTEM_NAME) = InitStateReady)) with true.
  simpl negb. cbv iota. rewrite run_rpbind, Hk2.
  pose proof (untouched _ _ w' (get_key_touches (vc_dev c) (key_provider c) Hkc)) as [U1 U2].
  rewrite Hk2 in U1, U2. cbn [snd] in U1, U2.
  destruct (open_with_check_ok (vc_volume c) (vc_dev c) p (open_integrity c) w2 LUKS2_SUBSYSTEM_NAME)
    as (w3 & -> & Hm3 & Hs3).
  - by rewrite U1.
  - by rewrite U2.
  - done.
  - done.
  - exists w3. by repeat split.
Qed.
End Init.

(** ** Opening *)

Lemma all_ops_trivial {E : Type -> Type} {A} (P : forall R, E R -> Prop) (p : prog E A) :
  (forall R e, P R e) -> all_ops P p.
Proof. intros HP. induction p as [a|R e k IH]; simpl; auto. Qed.

Section Open.
Context `{Hex, Base64, JsonText, BlkTraceConsts}.

Lemma format_touches d dev p i :
  d <> dev -> all_ops (fun _ e => touches d e = false) (format dev p i).
Proof.
  intros Hd. unfold format. assert (bool_decide (dev = d) = false) by (apply bool_decide_eq_false; congruence).
  all_ops; done.
Qed.

Lemma mark_touches d dev :
  d <> dev -> all_ops (fun _ e => touches d e = false) (mark_volume_as_initialized dev).
Proof.
  intros Hd. unfold mark_volume_as_initialized.
  assert (bool_decide (dev = d) = false) by (apply bool_decide_eq_false; congruence). all_ops; done.
Qed.

Lemma probe_touches d path hint :
  all_ops (fun _ e => touches d e = false) (has_valuable_data path hint).
Proof.
  unfold has_valuable_data. apply all_ops_rpbind; [by apply all_ops_run_checked|].
  intros r. all_ops.
Qed.

Lemma persistent_open_touches d c :
  key_clean d (key_provider c) = true -> all_ops (fun _ e => touches d e = false) (persistent_disk_open c).
Proof.
  intros Hkc. unfold persistent_disk_open, is_initialized, is_a_cryptpilot_initialized_luks2_volume, get_init_state,
    get_luks2_subsystem. all_ops; try done; [by apply get_key_touches|apply open_with_check_touches].
Qed.

Lemma temporary_open_touches d c :
  key_clean d (key_provider c) = true -> d <> vc_dev c -> d <> volume_path c ->
  all_ops_if (fresh_answer d) (fun _ e => touches d e = false) (temporary_disk_open c).
Proof.
  intros Hkc Hd Hp. unfold temporary_disk_open.
  apply all_ops_if_rpbind; [by apply all_ops_all_ops_if, get_key_touches|intros p].
  apply all_ops_if_rpbind; [by apply all_ops_all_ops_if, format_touches|intros _].
  apply all_ops_if_rpbind; [apply all_ops_all_ops_if, open_with_check_touches|intros _].
  apply all_ops_if_rpbind; [|intros _; by apply all_ops_all_ops_if, mark_touches].
  destruct (makefs _); [|done]. apply all_ops_if_bind; [by apply force_mkfs_touches|].
  intros [u|e|]; [done| |done]. apply all_ops_all_ops_if, all_ops_rpbind; [apply close_touches|done].
Qed.

(** The devices opening a volume may write to: the device and the mapping of
    a temporary volume, nothing for a persistent one. *)
Definition may_write (c : VolumeConfig) (d : string) : Prop :=
  volume_type (key_provider c) = Temporary /\ (d = vc_dev c \/ d = volume_path c).

Lemma open_touches c cf d :
  key_clean d (key_provider c) = true ->
  all_ops_if (fresh_answer d) (fun _ e => touches d e = true -> may_write c d) (open_for_specific_volume c cf).
Proof.
  intros Hkc. assert (Hweak : forall A (p : sys A), all_ops (fun _ e => touches d e = false) p ->
    all_ops (fun _ e => touches d e = true -> may_write c d) p).
  { intros A p. apply all_ops_weaken. congruence. }
  assert (Hopen : all_ops_if (fresh_answer d) (fun _ e => touches d e = true -> may_write c d) (disk_open c)).
  { unfold disk_open.
    destruct (volume_type (key_provider c)) eqn:Ev; [|by apply all_ops_all_ops_if, Hweak, persistent_open_touches].
    destruct (decide (d = vc_dev c)) as [->|Hd];
      [apply all_ops_all_ops_if, all_ops_trivial; intros R e _; split; auto|].
    destruct (decide (d = volume_path c)) as [->|Hp];
      [apply all_ops_all_ops_if, all_ops_trivial; intros R e _; split; auto|].
    eapply all_ops_if_weaken; [|by apply temporary_open_touches]. congruence. }
  unfold open_for_specific_volume. apply all_ops_if_bind; [done|intros active].
  destruct active; [done|]. apply all_ops_if_rpbind.
  { apply all_ops_all_ops_if. unfold is_dev_in_use. by all_ops. }
  intros busy. destruct busy; [done|]. apply all_ops_if_rpbind; [done|]. intros _.
  apply all_ops_all_ops_if. all_ops; try done; apply Hweak; [apply probe_touches|apply close_touches].
Qed.

(** C16: the boot service writes to no device but those of volumes that are
    configured with auto_open and a one-time key, and their mappings: whatever
    the system answers (a loop device attached for mkfs being a new one), every
    call that may change the header or the data of [d] (a command naming [d] in
    its arguments included, unless it only probes) is made for such a volume;
    so no persistent volume is formatted or overwritten.  The commands that
    users configure to provide keys are assumed not to name [d]. *)
Theorem boot_touches_only_temporary cs d :
  (forall c, c ∈ cs -> key_clean d (key_provider c) = true) ->
  all_ops_if (fresh_answer d)
    (fun _ e => touches d e = true ->
       exists c, c ∈ cs /\ auto_open (extra_config c) = Some true /\ may_write c d)
    (setup_user_provided_volumes (Ret (Ok cs))).
Proof.
  intros Hkc. unfold setup_user_provided_volumes.
  assert (Hq : forall l, all_ops_if (fresh_answer d) (fun _ e => touches d e = true ->
    exists c, c ∈ cs /\ auto_open (extra_config c) = Some true /\ may_write c d) (show_rows l)).
  { intros l. eapply all_ops_all_ops_if, all_ops_weaken; [|apply show_rows_ops]. intros R e Hq Ht.
    by rewrite (query_touches d e Hq) in Ht. }
  assert (Ha : forall l, l ⊆ cs -> all_ops_if (fresh_answer d) (fun _ e => touches d e = true ->
    exists c, c ∈ cs /\ auto_open (extra_config c) = Some true /\ may_write c d) (auto_open_volumes l)).
  { induction l as [|c l IH]; intros Hl; [done|]. cbn [auto_open_volumes].
    destruct (decide (auto_open (extra_config c) = Some true)) as [Ea|_]; [|apply IH; set_solver].
    apply all_ops_if_bind; [|intros _; apply IH; set_solver].
    eapply all_ops_if_weaken; [|apply (open_touches c false d), Hkc; set_solver]. intros R e He Ht.
    exists c. split; [set_solver|]. auto. }
  change (rpbind (Ret (Ok cs)) ?f) with (f cs). cbv beta.
  destruct cs as [|c0 cs0]; [done|].
  apply all_ops_if_bind; [apply Hq|intros _]. apply all_ops_if_bind; [by apply Ha|intros _].
  by apply all_ops_if_bind; [apply Hq|].
Qed.
End Open.

(** ** The configuration check *)

Section Check.
Context `{Hex, Base64, JsonText, BlkTraceConsts} {W : Type} `{Cryptsetup W}.
Implicit Types (w : W) (c : VolumeConfig).

(** What a volume without errors satisfies, [w] being the machine at the start
    of the check and [wc] the one in which the volume is checked: an
    automatically opened device is marked ready, and unless the key check is
    skipped the key that its provider gives in [wc] opens a device marked
    ready. *)
Definition volume_checked (o : ConfigCheckOptions) c w wc : Prop :=
  let ready := state_of_subsystem (luks_subsystem w (vc_dev c)) = InitStateReady in
  (auto_open (extra_config c) = Some true -> ready) /\
  (skip_check_passphrase o = false -> ready ->
   exists p wk, run (get_key (key_provider c)) wc = (Ok p, wk) /\
     unlocks w (vc_dev c) (passphrase_bytes p) = true).

Lemma continue_or_throw_ok o e w b w' : run (continue_or_throw o e) w = (Ok b, w') -> b = true /\ w' = w.
Proof. unfold continue_or_throw. destruct (keep_checking o); [by intros [= <- <-]|done]. Qed.

Lemma check_device_ok o c w ini w' :
  run (check_device o c) w = (Ok (false, ini), w') ->
  w' = w /\ ini = bool_decide (state_of_subsystem (luks_subsystem w (vc_dev c)) = InitStateReady) /\
  (auto_open (extra_config c) = Some true -> ini = true).
Proof.
  unfold check_device. rewrite run_bind, run_query by done.
  destruct (fst (handle (PathExists _) w)); simpl negb; cbv iota.
  - rewrite run_bind, run_is_initialized. set (b := bool_decide _).
    rewrite run_rpbind. destruct (decide _) as [Hd|Hd].
    + destruct (run (continue_or_throw _ _) w) as [[e| |] w1] eqn:E; [|done..].
      apply continue_or_throw_ok in E as [-> ->]. done.
    + intros [= <- <-]. repeat split; try done. intros Ha. destruct b; [done|]. destruct Hd. auto.
  - rewrite run_rpbind. destruct (run (continue_or_throw _ _) w) as [[e| |] w1] eqn:E; [|done..].
    apply continue_or_throw_ok in E as [-> ->]. done.
Qed.

Lemma check_key_ok o c ini w w' :
  key_clean (vc_dev c) (key_provider c) = true -> run (check_key o c ini) w = (Ok false, w') -> skip_check_passphrase o = false -> ini = true ->
  exists p wk', run (get_key (key_provider c)) w = (Ok p, wk') /\
    unlocks w (vc_dev c) (passphrase_bytes p) = true.
Proof.
  intros Hkc Hrun Hs ->. revert Hrun. unfold check_key. rewrite Hs. rewrite run_bind.
  pose proof (untouched _ _ w (get_key_touches (vc_dev c) (key_provider c) Hkc)) as [_ U].
  destruct (run (get_key _) w) as [[p|e|] w1] eqn:E1; [| |done].
  - cbn [snd] in U. rewrite run_bind.
    destruct (run (check_passphrase _ p) w1) as [[[]|e|] w2] eqn:E2; [| |done].
    + intros _. exists p, w1. split; [done|]. apply check_passphrase_inv in E2 as [_ Hu]. by rewrite U in Hu.
    + intros E. by apply continue_or_throw_ok in E as [? _].
  - intros E. by apply continue_or_throw_ok in E as [? _].
Qed.

(** Checking leaves the LUKS2 headers and key slots as they are. *)
Lemma check_volume_touches o c d :
  key_clean d (key_provider c) = true -> all_ops (fun _ e => touches d e = false) (check_volume o c).
Proof.
  intros Hkc.
  unfold check_volume, check_device, check_key, is_initialized, is_a_cryptpilot_initialized_luks2_volume,
    get_init_state, get_luks2_subsystem, check_passphrase, continue_or_throw.
  all_ops; try done; by apply get_key_touches.
Qed.

Lemma check_volume_ok o c w w' :
  key_clean (vc_dev c) (key_provider c) = true -> run (check_volume o c) w = (Ok false, w') ->
  volume_checked o c w w.
Proof.
  intros Hkc. unfold check_volume. rewrite run_rpbind.
  destruct (run (check_device o c) w) as [[[de ini]| |] w1] eqn:E1; [|done..].
  rewrite run_rpbind. destruct (run (check_key o c ini) w1) as [[ke| |] w2] eqn:E2; [|done..].
  intros [= E _]. apply orb_false_iff in E as [-> ->].
  apply check_device_ok in E1 as (-> & -> & Ha). split.
  - intros Hau. apply Ha in Hau. by apply bool_decide_eq_true in Hau.
  - intros Hs Hr. apply check_key_ok in E2 as (p & wk' & Hk & Hu); [|done|done|by apply bool_decide_eq_true_2].
    by exists p, wk'.
Qed.

Lemma volume_checked_transport o c w w' wc :
  luks_subsystem w' (vc_dev c) = luks_subsystem w (vc_dev c) ->
  (forall k, unlocks w' (vc_dev c) k = unlocks w (vc_dev c) k) ->
  volume_checked o c w' wc -> volume_checked o c w wc.
Proof. unfold volume_checked. intros -> Hu. by setoid_rewrite Hu. Qed.

(** The key commands of the volumes name none of their devices. *)
Definition keys_clean (cs : list VolumeConfig) : Prop :=
  forall c c', c ∈ cs -> c' ∈ cs -> key_clean (vc_dev c') (key_provider c) = true.

Lemma check_volumes_ok o cs :
  keys_clean cs -> forall e w w',
  run (check_volumes o cs e) w = (Ok false, w') ->
  e = false /\ forall pre c post, cs = pre ++ c :: post ->
    exists wc, run (check_volumes o pre false) w = (Ok false, wc) /\ volume_checked o c w wc.
Proof.
  induction cs as [|c cs IH]; intros Hkc e w w'.
  - intros [= <- _]. split; [done|]. intros pre c post E. by destruct pre.
  - cbn [check_volumes]. rewrite run_rpbind.
    destruct (run (check_volume o c) w) as [[b| |] w1] eqn:E; [|done..]. intros Hrun.
    apply IH in Hrun as [He Hcs]; [|unfold keys_clean in *; set_solver].
    apply orb_false_iff in He as [-> ->]. split; [done|].
    intros [|c0 pre] c' post; intros [= -> ->].
    { exists w. split; [done|]. eapply check_volume_ok; [apply Hkc; by left|done]. }
    destruct (Hcs pre c' post eq_refl) as (wc & Hwc & Hc'). exists wc.
    cbn [check_volumes]. rewrite run_rpbind, E. split; [done|].
    pose proof (untouched _ _ w (check_volume_touches o c0 (vc_dev c')
      (Hkc c0 c' ltac:(set_solver) ltac:(set_solver)))) as [U1 U2]. rewrite E in U1, U2.
    by eapply volume_checked_transport.
Qed.

(** C34: when [config check] passes, with or without --keep-checking, every
    volume that is opened automatically is on a device marked ready, and unless
    the key check is skipped the key of every volume on a ready device opens
    it: the key that its provider gives in the state in which the check comes
    to the volume, after the volumes before it.  (The commands that users
    configure to provide keys do not name the devices of the volumes.) *)
Theorem config_check_sound o cs w w' :
  keys_clean cs ->
  run (config_check_run (Ret (Ok cs)) o) w = (Ok tt, w') ->
  forall pre c post, cs = pre ++ c :: post ->
  exists wc, run (check_volumes o pre false) w = (Ok false, wc) /\ volume_checked o c w wc.
Proof.
  intros Hkc. unfold config_check_run. change (rpbind (Ret (Ok cs)) ?f) with (f cs). cbv beta. rewrite run_rpbind.
  destruct (run (check_volumes o cs false) w) as [[[]| |] w1] eqn:E; [done| |done..].
  intros _. by apply (check_volumes_ok _ _ Hkc) in E as [_ E].
Qed.

(** [config check] of the volumes [cs] ends without an error. *)
Definition check_passes (o : ConfigCheckOptions) (cs : list VolumeConfig) w : Prop :=
  fst (run (config_check_run (Ret (Ok cs)) o) w) = Ok tt.

(** A volume with a one-time key that is opened automatically never passes
    [config check] while its device is blank, although its status is that it is
    ready to open. *)
Theorem otp_auto_open_fails_check o cs c k w :
  keys_clean cs ->
  c ∈ cs -> key_provider c = Otp k -> auto_open (extra_config c) = Some true ->
  luks_subsystem w (vc_dev c) = None ->
  ~ check_passes o cs w /\
  (mapped w (vc_volume c) = false -> fst (handle (PathExists (vc_dev c)) w) = true ->
   fst (run (determine_status c) w) = ReadyToOpen).
Proof.
  intros Hkc Hc Hk Ha Hl. split.
  - unfold check_passes. destruct (run (config_check_run (Ret (Ok cs)) o) w) as [r w'] eqn:E. cbn [fst]. intros ->.
    apply list_elem_of_split in Hc as (pre & post & Ecs).
    assert (exists wc, volume_checked o c w wc) as (wc & Hr & _).
    { revert E. unfold config_check_run. change (rpbind (Ret (Ok cs)) ?f) with (f cs). cbv beta.
      rewrite run_rpbind. destruct (run (check_volumes o cs false) w) as [[[]| |] w1] eqn:E; [done| |done..].
      intros _. apply (check_volumes_ok _ _ Hkc) in E as [_ E].
      destruct (E pre c post Ecs) as (wc & _ & Hv). by exists wc. }
    specialize (Hr Ha). by rewrite Hl in Hr.
  - intros Hm He. by rewrite run_determine_status, Hm, He, Hk.
Qed.
End Check.
