(* ===== verification/CryptShow.v ===== *)
(** * The table that cryptpilot-crypt show prints

    [print_as_table] of [cryptpilot-crypt/src/cmd/show.rs]: the cells of the
    table, with their colours; drawing it is the [comfy_table] crate. *)

From Stdlib Require Import Ascii.
From stdpp Require Import base list strings.
From Stdlib Require Import ZArith Lia.
From S2P Require Import Prelude RustString Sys Cmd Blkid Luks2 KeyProvider Mkfs VolumeConfig CryptCmd.

Record Cell := mkCell { cell_text : string; cell_fg : option Color }.

(** [serde_variant::to_variant_name]: lower case names. *)
Definition variant_name (c : KeyProviderConfig) : string :=
  match c with
  | Otp _ => "otp"
  | KmsProvider _ => "kms"
  | Kbs _ => "kbs"
  | Tpm2 _ => "tpm2"
  | Oidc _ => "oidc"
  | Exec _ => "exec"
  end.

Definition kind_debug (k : VolumeStatusKind) : string :=
  match k with
  | DeviceNotFound => "DeviceNotFound"
  | CheckFailed => "CheckFailed"
  | RequiresInit => "RequiresInit"
  | Initializing => "Initializing"
  | ReadyToOpen => "ReadyToOpen"
  | Opened => "Opened"
  end.

(** [serde_json::to_value] of the extra options is the empty object: absent
    options are not serialized. *)
Definition extra_is_empty (c : ExtraConfig) : bool :=
  match auto_open c, makefs c, integrity c with
  | None, None, None => true
  | _, _, _ => false
  end.

Section Table.
(** [toml::to_string_pretty] of the extra options, and the [Debug] text of a
    path. *)
Context (extra_pretty : ExtraConfig -> option string) (path_debug : string -> string).

Definition device_cell (row : ShowVolume) : Cell :=
  match sv_status row with
  | DeviceNotFound => mkCell (path_debug (sv_underlay_device row) +:+ " <not exist>") (Some Red)
  | _ => mkCell (sv_underlay_device row) None
  end.

Definition extra_cell (c : ExtraConfig) : result anyhow Cell :=
  if extra_is_empty c then Ok (mkCell "<none>" (Some DarkGrey))
  else
    let? s := ok_or (extra_pretty c) (Bail "toml") in
    Ok (mkCell s None).

Definition table_header : list string :=
  ["Volume"; "Volume Path"; "Underlay Device"; "Key Provider"; "Extra Options"; "Status"].

(** One row of the table. *)
Definition table_row (row : ShowVolume) : result anyhow (list Cell) :=
  let? extra := extra_cell (sv_extra_options row) in
  Ok [mkCell (sv_volume row) None;
      (let '(text, colour) := path_cell row in mkCell text (Some colour));
      device_cell row;
      mkCell (variant_name (sv_key_provider row)) None;
      extra;
      mkCell (kind_debug (sv_status row)) (Some (status_color (sv_status row)))].

Fixpoint table_rows (cs : list VolumeConfig) : M (list (list Cell)) :=
  match cs with
  | [] => ok []
  | c :: cs =>
    let> show_volume := show_from_config c in
    let* row := lift (table_row show_volume) in
    let* rows := table_rows cs in
    ok (row :: rows)
  end.

(** The header and the rows that are printed. *)
Definition print_as_table (cs : list VolumeConfig) : M (list string * list (list Cell)) :=
  let* rows := table_rows cs in
  ok (table_header, rows).

(** ** Properties *)

Context {W : Type} `{!Handler sysop W}.

Lemma show_from_config_extra c (w : W) : sv_extra_options (fst (run (show_from_config c) w)) = extra_config c.
Proof. unfold show_from_config. rewrite run_bind. by destruct (run (determine_status c) w). Qed.

(** The table and the JSON output say the same: when the options of every volume
    can be written, the table has, in order, the row of each volume that
    [print_as_json] prints, found by the same calls, and a row has one cell per
    column. *)
Theorem table_shows_rows cs (w : W) :
  (forall c, In c cs -> is_Some (extra_pretty (extra_config c))) ->
  exists rows, run (print_as_table cs) w = (Ok (table_header, rows), snd (run (show_rows cs) w)) /\
    Forall2 (fun v row => table_row v = Ok row /\ length row = length table_header)
      (fst (run (show_rows cs) w)) rows.
Proof.
  intros Hp. unfold print_as_table. rewrite run_rpbind.
  enough (exists rows, run (table_rows cs) w = (Ok rows, snd (run (show_rows cs) w)) /\
    Forall2 (fun v row => table_row v = Ok row /\ length row = length table_header)
      (fst (run (show_rows cs) w)) rows) as (rows & -> & Hr) by (exists rows; by split).
  revert w. induction cs as [|c cs IH]; intros w; [by exists []|].
  cbn [table_rows show_rows]. rewrite !run_bind.
  pose proof (show_from_config_extra c w) as Hx. destruct (run (show_from_config c) w) as [v w1]. cbn [fst] in Hx.
  destruct (IH ltac:(intros d Hd; apply Hp; by right) w1) as (rows & Er & Hr).
  rewrite run_rpbind, run_bind. destruct (run (show_rows cs) w1) as [vs w2] eqn:Es. cbn [fst snd run] in *.
  assert (exists row, table_row v = Ok row /\ length row = length table_header) as (row & Et & Hl).
  { unfold table_row, extra_cell. rewrite Hx. destruct (extra_is_empty _); [by eexists|].
    destruct (Hp c ltac:(by left)) as [s ->]. by eexists. }
  unfold lift. cbn [run]. rewrite Et, run_rpbind, Er. exists (row :: rows). split; [done|]. by constructor.
Qed.
End Table.
