(* ===== verification/ToyMachine.v ===== *)
(** * A small machine

    A concrete world for the system calls, with LUKS2 headers, key slots,
    mappings and block devices, that has the documented behaviour the theorems
    rely on. *)

From Stdlib Require Import Ascii.
From stdpp Require Import base list strings gmap.
From Stdlib Require Import ZArith Lia.
From S2P Require Import Prelude Slices RustString Sys Cmd Luks2 Luks2Spec Mkfs MkfsProofs.

Local Open Scope Z_scope.

Record machine := mkMachine {
  m_subsystems : gmap string string;
  m_keys : gmap string (list bytes);
  m_maps : list (string * string);
  m_exists : list string;
  m_files : gmap string string;
  m_data : string -> Z -> byte;
}.

(** ** Headers *)

Definition encodable (s : string) : bool :=
  (length (as_bytes s) <=? 48)%nat && is_none (position_nul (as_bytes s))
  && forallb is_ascii_byte (as_bytes s).

Arguments encodable : simpl never.

Definition header_prefix : bytes := LUKS_MAGIC_1ST ++ [Byte.x00; Byte.x02] ++ zeros 200.

Definition machine_header (s : string) : bytes :=
  header_prefix ++ pad_to 48 (as_bytes s) ++ zeros 3840.

Lemma machine_header_ok s : encodable s = true -> luks2_header (machine_header s) s.
Proof.
  unfold encodable. intros [[Hl Hn]%andb_true_iff Ha]%andb_true_iff. apply Nat.leb_le in Hl.
  apply is_none_eq in Hn. unfold machine_header. constructor; try done.
  - rewrite !length_app, pad_to_length, zeros_length by done. done.
  - left. done.
  - rewrite (drop_app_length' header_prefix) by done.
    rewrite take_app_length'; [done|]. by rewrite pad_to_length.
Qed.

Definition m_subsystem (w : machine) (dev : string) : option string :=
  match m_subsystems w !! dev with
  | Some s => if encodable s then Some s else None
  | None => None
  end.

Definition m_unlocks (w : machine) (dev : string) (k : bytes) : bool :=
  bool_decide (k ∈ default [] (m_keys w !! dev)).

Definition m_mapped (w : machine) (name : string) : bool :=
  existsb (fun m => bool_decide (fst m = name)) (m_maps w).

Definition m_busy (w : machine) (dev : string) : bool :=
  existsb (fun m => bool_decide (snd m = dev)) (m_maps w).

(** ** Changes *)

Definition set_subsystem (dev s : string) (w : machine) : machine :=
  mkMachine (<[dev := s]> (m_subsystems w)) (m_keys w) (m_maps w) (m_exists w) (m_files w) (m_data w).

Definition set_keys (dev : string) (ks : list bytes) (w : machine) : machine :=
  mkMachine (m_subsystems w) (<[dev := ks]> (m_keys w)) (m_maps w) (m_exists w) (m_files w) (m_data w).

Definition set_maps (maps : list (string * string)) (w : machine) : machine :=
  mkMachine (m_subsystems w) (m_keys w) maps (m_exists w) (m_files w) (m_data w).

Definition set_data (data : string -> Z -> byte) (w : machine) : machine :=
  mkMachine (m_subsystems w) (m_keys w) (m_maps w) (m_exists w) (m_files w) data.

(** A write at the start of a device destroys its header. *)
Definition clear_subsystem (dev : string) (off : Z) (w : machine) : machine :=
  if off =? 0
  then mkMachine (delete dev (m_subsystems w)) (m_keys w) (m_maps w) (m_exists w) (m_files w) (m_data w)
  else w.

Definition write_bytes (f : string -> Z -> byte) (dev : string) (off : Z) (data : bytes) : string -> Z -> byte :=
  fun d o =>
    if bool_decide (d = dev) && (off <=? o) && (o <? off + Z.of_nat (length data))
    then nth (Z.to_nat (o - off)) data Byte.x00 else f d o.

Definition read_bytes (f : string -> Z -> byte) (dev : string) (off : Z) (n : nat) : bytes :=
  map (fun j => f dev (off + Z.of_nat j)) (seq 0 n).

(** ** The calls; every external command prints [secret] *)

Definition machine_handle (R : Type) (e : sysop R) (w : machine) : R * machine :=
  match e in sysop R return R * machine with
  | PathExists p =>
    (match str_strip_prefix p "/dev/mapper/" with
     | Some name => m_mapped w name
     | None => bool_decide (p ∈ m_exists w)
     end, w)
  | ReadExact p n =>
    (match m_subsystem w p with
     | Some s => Ok (machine_header s)
     | None => if bool_decide (p ∈ m_exists w) then Ok (zeros n) else Err (Io 2)
     end, w)
  | ReadToString p => (ok_or (m_files w !! p) (Io 2), w)
  | ReadDir p =>
    (Ok (map (fun f => Ok (mkDirEnt f true)) ["b.toml"; "a.toml"; "README"]%string), w)
  | PathIsDir _ => (true, w)
  | WriteFile _ _ => (Ok tt, w)
  | CreateFile _ => (Ok tt, w)
  | WriteAll _ _ => (Ok tt, w)
  | StillLooping => (tt, w)
  | CreateDirAll _ => (Ok tt, w)
  | RemoveDirAll _ => (Ok tt, w)
  | IsBlockDevice p => (Ok (starts_with p "/dev/"), w)
  | ReadFile p => (rmap as_bytes (ok_or (m_files w !! p) (Io 2)), w)
  | IsSymlink p => (bool_decide (is_Some (m_files w !! (p +:+ " ->"))), w)
  | ReadLink p => (ok_or (m_files w !! (p +:+ " ->")) (Io 22), w)
  | WalkDir p =>
    (map (fun f => Ok (mkDirEnt f true)) (filter (fun f => starts_with f (p +:+ "/") = true) (map fst (map_to_list (m_files w)))), w)
  | Glob _ => (Ok [], w)
  | TempDir prefix => (Ok ("/tmp/" +:+ prefix), w)
  | RemoveFile _ => (Ok tt, w)
  | SpawnIn _ _ _ => (Ok (mkOutput (Some 0) [] []), w)
  | DmRemove _ => (Ok tt, w)
  | OpenExclusive p => (if m_busy w p then Err EBUSY else Ok tt, w)
  | EnvVar _ => (None, w)
  | Which _ => (None, w)
  | TempFile _ _ _ => (Ok "/tmp/file"%string, w)
  | Spawn _ _ _ => (Ok (mkOutput (Some 0) (as_bytes "secret") []), w)
  | StderrIsTerm => (true, w)
  | Confirm _ => (Ok true, w)
  | RandomBytes n => (zeros n, w)
  | RandomAlphanumeric _ => ("x"%string, w)
  | CryptInit _ => (Ok tt, w)
  | CryptInitByName _ => (Ok tt, w)
  | CryptFormat dev _ _ _ params =>
    let s := default ""%string (cp_subsystem params) in
    if encodable s then (Ok tt, set_keys dev [] (set_subsystem dev s w)) else (Err (Libcryptsetup 22), w)
  | CryptAddByKey dev _ k => (Ok tt, set_keys dev (k :: default [] (m_keys w !! dev)) w)
  | CryptLoad dev => (if is_none (m_subsystem w dev) then Err (Libcryptsetup 22) else Ok tt, w)
  | CryptSetLabel dev _ s =>
    match s with
    | Some s => if encodable s then (Ok tt, set_subsystem dev s w) else (Err (Libcryptsetup 22), w)
    | None => (Ok tt, w)
    end
  | CryptActivate None dev k _ => (if m_unlocks w dev k then Ok tt else Err (Libcryptsetup 1), w)
  | CryptActivate (Some name) dev k _ =>
    if m_unlocks w dev k && negb (m_mapped w name) && negb (m_busy w dev)
    then (Ok tt, set_maps ((name, dev) :: m_maps w) w) else (Err (Libcryptsetup 1), w)
  | CryptDeactivate name => (Ok tt, set_maps (filter (fun m => fst m <> name) (m_maps w)) w)
  | BlockDeviceSize dev => (Ok (if starts_with dev "/dev/nbd" then 0 else 16, 4), w)
  | LoopAttach _ _ =>
    (if is_none (m_subsystem w "/dev/loop0") then Ok "/dev/loop0"%string else Err (Io 16), w)
  | LoopDetach _ => (Ok tt, w)
  | BlkTraceMonitor _ => (Ok tt, w)
  | BlkTraceShutdown _ => (Ok [], w)
  | PageSize => (Ok 4, w)
  | OpenDevice _ _ => (Ok tt, w)
  | ReadAt dev off n => (Ok (read_bytes (m_data w) dev off n), w)
  | WriteAt dev off data => (Ok tt, set_data (write_bytes (m_data w) dev off data) (clear_subsystem dev off w))
  | FlushDevice _ => (Ok tt, w)
  | ExtendMeasurement _ _ _ => (Ok tt, w)
  | TcpConnect _ => (Ok tt, w)
  | HttpPut _ => (Ok (mkHttpResponse 200 (Some "token"%string)), w)
  | HttpGetToken _ _ => (Ok (mkHttpResponse 200 (m_files w !! "user-data"%string)), w)
  | NtpTime _ => (Ok 0, w)
  | ClockSetTime _ => (Ok tt, w)
  | HttpGet _ => (Err Service, w)
  | KmsNewClient _ => (Err Service, w)
  | KmsGetSecret _ _ => (Err Service, w)
  | TtrpcConnect _ => (Ok tt, w)
  | TtrpcGetResource _ _ => (Err Service, w)
  end.

#[global] Instance machine_handler : Handler sysop machine := machine_handle.

(** ** It is a machine with libcryptsetup *)

Ltac machine := unfold handle, machine_handler; cbn [machine_handle fst snd].

Lemma strip_mapper name : str_strip_prefix ("/dev/mapper/" +:+ name) "/dev/mapper/" = Some name.
Proof. unfold str_strip_prefix. rewrite starts_with_app. by rewrite skip_app. Qed.

Lemma m_subsystem_set w dev s : encodable s = true -> m_subsystem (set_subsystem dev s w) dev = Some s.
Proof. intros Hs. unfold m_subsystem. simpl. by rewrite lookup_insert_eq, Hs. Qed.

Lemma m_subsystem_set_ne w dev dev' s :
  dev <> dev' -> m_subsystem (set_subsystem dev s w) dev' = m_subsystem w dev'.
Proof. intros Hd. unfold m_subsystem. simpl. by rewrite lookup_insert_ne. Qed.

Lemma m_unlocks_set_ne w dev dev' ks k :
  dev <> dev' -> m_unlocks (set_keys dev ks w) dev' k = m_unlocks w dev' k.
Proof. intros Hd. unfold m_unlocks. simpl. by rewrite lookup_insert_ne. Qed.

Lemma machine_frame {R} (e : sysop R) w dev k :
  touches dev e = false ->
  m_subsystem (snd (handle e w)) dev = m_subsystem w dev /\
  m_unlocks (snd (handle e w)) dev k = m_unlocks w dev k.
Proof.
  destruct e; intros Ht; try done; simpl in Ht; try (apply bool_decide_eq_false in Ht).
  - machine. destruct (encodable _); cbn [snd]; [|done]. split; [exact (m_subsystem_set_ne w _ _ _ Ht)|].
    by rewrite m_unlocks_set_ne.
  - machine. split; [done|]. by rewrite m_unlocks_set_ne.
  - machine. destruct subsystem as [s|]; [|done]. destruct (encodable s); cbn [snd]; [|done].
    split; [by apply m_subsystem_set_ne|done].
  - machine. destruct name as [name|]; [|done]. by destruct (_ && _).
  - machine. unfold clear_subsystem, m_subsystem, m_unlocks, set_data.
    destruct (_ =? _); cbn; [by rewrite lookup_delete_ne|done].
Qed.

Lemma machine_frame_maps {R} (e : sysop R) w :
  remaps e = false -> m_maps (snd (handle e w)) = m_maps w.
Proof.
  destruct e; intros Hr; try done; machine.
  - by destruct (encodable _).
  - destruct subsystem as [s|]; [|done]. by destruct (encodable s).
  - by destruct name.
  - unfold clear_subsystem. by destruct (_ =? _).
Qed.

#[global] Instance machine_cryptsetup : Cryptsetup machine.
Proof.
  refine {| luks_subsystem := m_subsystem; unlocks := m_unlocks; mapped := m_mapped |}.
  - intros R e w Hq. destruct e; try done. by destruct name.
  - intros w name. machine. by rewrite strip_mapper.
  - intros w dev s Hs. machine. rewrite Hs. eexists. split; [done|]. apply machine_header_ok.
    revert Hs. unfold m_subsystem. destruct (m_subsystems w !! dev) as [s'|]; [|done].
    destruct (encodable s') eqn:E; [|done]. by intros [= ->].
  - intros w dev hdr Hs. machine. rewrite Hs. case_bool_decide; [|done]. intros [= <-]. done.
  - intros R e w dev Ht. by apply (machine_frame e w dev []).
  - intros R e w dev k Ht. by apply machine_frame.
  - intros R e w name Hr. unfold m_mapped. by rewrite machine_frame_maps.
  - intros R e w dev Hr. change (fst (handle (OpenExclusive dev) ?v)) with
      (if m_busy v dev then Err EBUSY else Ok tt : result Z unit).
    unfold m_busy. by rewrite machine_frame_maps.
  - intros w n b dev s Hs. machine. destruct (m_subsystem w "/dev/loop0") eqn:E; [done|]. simpl.
    intros [= <-]. congruence.
  - intros w dev c m k params. machine. destruct (encodable _) eqn:E; [|done]. intros _. simpl.
    change (m_subsystem (set_subsystem dev (default ""%string (cp_subsystem params)) w) dev =
      Some (default ""%string (cp_subsystem params))). by apply m_subsystem_set.
  - intros w dev c m k params. machine. destruct (encodable _) eqn:E; [done|]. intros _. simpl. set_solver.
  - done.
  - intros w dev n k _. machine. unfold m_unlocks. simpl. rewrite lookup_insert_eq. simpl.
    apply bool_decide_eq_true. by left.
  - intros w dev s. machine. destruct (encodable s) eqn:E; [|done]. intros _. by apply m_subsystem_set.
  - intros w dev s. machine. by destruct (encodable s).
  - intros w dev s k. machine. by destruct (encodable s).
  - intros w dev _. machine. unfold m_subsystem. cbn. by rewrite lookup_delete_eq.
  - intros w dev s Hs. machine. by rewrite Hs.
  - intros w dev k j. machine. destruct (m_unlocks w dev k); split; done.
  - intros w name dev k j. machine. by destruct (m_unlocks w dev k).
  - intros w name dev k j Hu Hm Hf. unfold handle, machine_handler in *. cbn [machine_handle fst snd] in *. rewrite Hu, Hm. by destruct (m_busy w dev).
  - intros w name dev k j. machine. destruct (_ && _); [|done]. intros _. unfold m_mapped. simpl.
    by rewrite bool_decide_eq_true_2.
  - intros w name _. machine. unfold m_mapped. simpl. induction (m_maps w) as [|m l IH]; [done|].
    rewrite filter_cons. case_decide as Hm; [|done]. simpl. rewrite IH.
    by rewrite bool_decide_eq_false_2.
Defined.

(** ** And one with block devices *)

#[global] Instance machine_blocks : BlockDevices machine.
Proof.
  refine {| content := m_data |}; try done.
  - intros w dev off n data. machine. intros [= <-]. unfold read_bytes. rewrite length_map, length_seq.
    split; [done|]. intros j Hj.
    rewrite (nth_indep _ _ (m_data w dev (off + Z.of_nat 0))) by (by rewrite length_map, length_seq).
    rewrite (map_nth (fun j => m_data w dev (off + Z.of_nat j))), seq_nth by done. done.
Defined.
