(* ===== verification/CryptInstances.v ===== *)
(** * The commands of cryptpilot-crypt: concrete runs

    The theorems of [CryptCmdProofs], [VolumeConfig] and [MkfsProofs] applied
    on [ToyMachine]. *)

From Stdlib Require Import Ascii.
From stdpp Require Import base list strings gmap sorting.
From Stdlib Require Import ZArith Lia.
From S2P Require Import Prelude Slices RustString Sys Cmd Blkid Luks2 Luks2Spec KeyProvider Mkfs.
From S2P Require Import MkfsProofs VolumeConfig CryptCmd CryptCmdProofs ToyMachine.
From S2P Require Import FileVerifier.

Local Open Scope Z_scope.

Definition toy_base64 : Base64 := {|
  b64_encode := of_bytes;
  b64_decode := fun s => Some (as_bytes s);
  b64_url_encode := id;
|}.

Definition toy_json_text : JsonText := {| json_to_string := fun _ => "{}"%string |}.

(** The values of the kernel's [blktrace_api.h]. *)
Definition toy_consts : BlkTraceConsts := {|
  BLK_TC_SHIFT := 16;
  BLK_TC_READ := 1;
  BLK_TC_WRITE := 2;
  BLK_TC_DISCARD := 8192;
|}.

(** A configuration file holds just the name of the volume. *)
Definition exec_volume (name dev : string) (fs : option MakeFsType) : VolumeConfig :=
  mkVolume name dev (mkExtra (Some true) fs None) (Exec (mkExec "/bin/key" [])).

Definition toy_toml : Toml := {|
  toml_volume_config := fun s => Some (exec_volume s ("/dev/" +:+ s) None);
|}.

#[local] Existing Instances toy_hex toy_base64 toy_json_text toy_consts toy_toml.

Definition machine0 : machine :=
  mkMachine ∅ ∅ [] ["/dev/vdb"; "/dev/vdc"; "/etc/cryptpilot/volumes"]%string
    (<["/etc/cryptpilot/volumes/a.toml" := "data1"%string]>
      (<["/etc/cryptpilot/volumes/b.toml" := "data0"%string]> ∅))
    (fun d o => if bool_decide (d = "/dev/loop0"%string) then Byte.x61 else Byte.x00).

Definition data0 : VolumeConfig := exec_volume "data0" "/dev/vdb" (Some Ext4).
Definition scratch : VolumeConfig :=
  mkVolume "scratch" "/dev/vdc" (mkExtra (Some true) None None) (Otp mkOtp).
Definition init_yes : InitOptions := mkInitOptions ["data0"%string] false true.

Lemma run_pair {A} (p : sys A) (w : machine) r : fst (run p w) = r -> run p w = (r, snd (run p w)).
Proof. intros <-. by destruct (run p w). Qed.

Lemma init_writes_only_when_allowed_witness :
  snd (run_n 10 (persistent_disk_init init_yes data0) machine0) = machine0 \/ init_allowed init_yes data0 machine0.
Proof. apply (init_writes_only_when_allowed init_yes data0 machine0 10). reflexivity. Defined.

Lemma init_crash_safe_witness :
  not_ready (snd (run_n 12 (persistent_disk_init init_yes data0) machine0)) "/dev/vdb" \/
  fst (run_n 12 (persistent_disk_init init_yes data0) machine0) = Some (Ok tt).
Proof.
  apply (init_crash_safe init_yes data0 machine0 12).
  - reflexivity.
  - reflexivity.
  - unfold not_ready. vm_compute. discriminate.
Defined.

Definition machine1 : machine := snd (run (persistent_disk_init init_yes data0) machine0).

Lemma init_then_open_witness :
  exists w3, run (open_for_specific_volume data0 false) machine1 = (Ok tt, w3) /\
    mapped w3 "data0" = true /\ luks_subsystem w3 "/dev/vdb" = Some LUKS2_SUBSYSTEM_NAME.
Proof.
  apply (init_then_open init_yes data0 machine0 machine1 (mkPassphrase (as_bytes "secret"))
           (snd (run (get_key (key_provider data0)) machine0))
           (snd (run (get_key (key_provider data0)) machine1))).
  - reflexivity.
  - reflexivity.
  - reflexivity.
  - apply run_pair. vm_compute. reflexivity.
  - apply run_pair. vm_compute. reflexivity.
  - apply run_pair. vm_compute. reflexivity.
  - vm_compute. reflexivity.
  - vm_compute. reflexivity.
  - vm_compute. reflexivity.
  - vm_compute. reflexivity.
Defined.

Lemma config_check_sound_witness :
  exists wc, run (check_volumes (mkCheckOptions false false) [] false) machine1 = (Ok false, wc) /\
    volume_checked (mkCheckOptions false false) data0 machine1 wc.
Proof.
  apply (config_check_sound (mkCheckOptions false false) [data0] machine1
           (snd (run (config_check_run (Ret (Ok [data0])) (mkCheckOptions false false)) machine1))) with (post := []).
  - intros c c' ->%list_elem_of_singleton ->%list_elem_of_singleton. reflexivity.
  - apply run_pair. vm_compute. reflexivity.
  - reflexivity.
Defined.

(** A command that is given the device counts as writing to it. *)
Example mkfs_of_device_touches :
  touches "/dev/vdb" (Spawn "mkfs.ext4" ["-F"; "/dev/vdb"] None) = true /\
  touches "/dev/vdb" (Spawn "bash" ["-c"; "wipefs -a /dev/vdb"] None) = true /\
  touches "/dev/vdb" (Spawn "blkid" ["-p"; "/dev/vdb"] None) = false.
Proof. vm_compute. repeat split. Qed.

Lemma boot_touches_only_temporary_witness :
  all_ops_if (fresh_answer "/dev/vdb") (fun _ e => touches "/dev/vdb" e = true ->
             exists c, c ∈ [data0] /\ auto_open (extra_config c) = Some true /\ may_write c "/dev/vdb")
    (setup_user_provided_volumes (Ret (Ok [data0]))).
Proof.
  apply (boot_touches_only_temporary [data0] "/dev/vdb").
  intros c Hc. apply list_elem_of_singleton in Hc as ->. reflexivity.
Defined.

Lemma otp_auto_open_fails_check_witness :
  fst (run (config_check_run (Ret (Ok [scratch])) (mkCheckOptions true false)) machine0) <> Ok tt /\
  fst (run (determine_status scratch) machine0) = ReadyToOpen.
Proof.
  destruct (otp_auto_open_fails_check (mkCheckOptions true false) [scratch] scratch mkOtp machine0) as [H1 H2].
  - intros c c' ->%list_elem_of_singleton ->%list_elem_of_singleton. reflexivity.
  - by left.
  - reflexivity.
  - reflexivity.
  - vm_compute. reflexivity.
  - split; [exact H1|]. apply H2; vm_compute; reflexivity.
Defined.

Lemma load_volume_configs_spec_witness :
  let cs := [exec_volume "data0" "/dev/data0" None; exec_volume "data1" "/dev/data1" None] in
  run (load_volume_configs "/etc/cryptpilot") machine0 = (Ok cs, machine0) /\ StronglySorted volume_le cs.
Proof.
  cbv zeta.
  destruct (@load_volume_configs_spec toy_toml machine machine_handler (fun _ _ => eq_refl) (fun _ _ => eq_refl) (fun _ _ => eq_refl)
    "/etc/cryptpilot" machine0 (map (fun f => Ok (mkDirEnt f true)) ["b.toml"; "a.toml"; "README"]%string)
    [exec_volume "data0" "/dev/data0" None; exec_volume "data1" "/dev/data1" None] machine0) as [H1 H2].
  - vm_compute. reflexivity.
  - vm_compute. reflexivity.
  - assert (E : run (load_volume_configs "/etc/cryptpilot") machine0 =
      (Ok [exec_volume "data0" "/dev/data0" None; exec_volume "data1" "/dev/data1" None], machine0)).
    { vm_compute. reflexivity. }
    split; [exact E|]. apply H2. exact E.
Defined.

(** One write of two bytes at the start of the device, and a discard. *)
Definition toy_events : list blk_io_trace :=
  [mkTrace (Z.shiftl 2 16) 0 2; mkTrace (Z.shiftl 8194 16) 1 4].

Lemma mkfs_replay_correct_witness :
  let w' := snd (run (migrate_pages "/dev/loop0" "/dev/mapper/data0" 4 [0]) machine0) in
  content w' "/dev/mapper/data0" 1 = Byte.x61 /\ content w' "/dev/mapper/data0" 4 = Byte.x00.
Proof.
  destruct (mkfs_replay_correct "/dev/loop0" "/dev/mapper/data0" 4 toy_events (mkPositions [0] [] [0]) machine0
    (snd (run (migrate_pages "/dev/loop0" "/dev/mapper/data0" 4 [0]) machine0))) as (H1 & H2 & _).
  - discriminate.
  - lia.
  - repeat constructor; vm_compute; congruence.
  - vm_compute. reflexivity.
  - apply run_pair. vm_compute. reflexivity.
  - split.
    + rewrite (H1 (mkTrace (Z.shiftl 2 16) 0 2) 1); [vm_compute; reflexivity|by left|vm_compute; reflexivity|].
      left. simpl. lia.
    + rewrite H2; [vm_compute; reflexivity|].
      intros e b' He Hr Ht. repeat (apply elem_of_cons in He as [->|He]); [|discriminate Hr|by apply elem_of_nil in He].
      destruct Ht as [Ht|(Ht & _)]; [|discriminate Ht]. simpl in Ht.
      assert (b' / 4 = 0) as -> by (apply Z.div_small; lia). vm_compute. discriminate.
Defined.
