(* ===== verification/FdeConfig.v ===== *)
(** * Configuration of full disk encryption

    [cryptpilot-fde/src/config], the metadata of the root file system, the
    runtime measurement of [cryptpilot-core/src/measure] and how the guest
    obtains its configuration at boot.  TOML, SHA-384 and the services are
    parameters and calls. *)

From Stdlib Require Import Ascii.
From stdpp Require Import base list strings.
From Stdlib Require Import ZArith Lia.
From S2P Require Import Prelude RustString Sys Cmd Luks2 KeyProvider.
From S2P Require Import FileVerifier.

Local Open Scope Z_scope.

(** ** fde.rs, global.rs *)

Inductive DeltaLocation := Disk | DiskPersist | Ram.
Inductive DeltaBackend := Overlayfs | DmSnapshot.

#[global] Instance DeltaLocation_eq_dec : EqDecision DeltaLocation.
Proof. solve_decision. Defined.
#[global] Instance DeltaBackend_eq_dec : EqDecision DeltaBackend.
Proof. solve_decision. Defined.

(** [DeltaBackend::default()] *)
Definition default_backend : DeltaBackend := DmSnapshot.

Record RootFsConfig := mkRootFs {
  delta_location : option DeltaLocation;
  delta_backend : option DeltaBackend;
  rootfs_encrypt : option KeyProviderConfig;
}.

Record DeltaConfig := mkDelta {
  delta_integrity : bool;
  delta_encrypt : KeyProviderConfig;
}.

Record FdeConfig := mkFde {
  fde_rootfs : RootFsConfig;
  fde_delta : DeltaConfig;
}.

Record BootServiceConfig := mkBootService { boot_verbose : bool }.
Record GlobalConfig := mkGlobal { global_boot : option BootServiceConfig }.

Record FdeConfigBundle := mkBundle {
  bundle_global : option GlobalConfig;
  bundle_fde : option FdeConfig;
}.

(** ** metadata.rs *)

Record Metadata := mkMetadata {
  md_type : Z;
  md_root_hash : string;
}.

Definition METADATA_PATH_IN_INITRD : string := "/etc/cryptpilot/metadata.toml".

(** The TOML texts of the configurations. *)
Class FdeToml := {
  toml_global : string -> option GlobalConfig;
  toml_fde : string -> option FdeConfig;
  toml_bundle : string -> option FdeConfigBundle;
  toml_metadata : string -> option Metadata;
  bundle_to_toml : FdeConfigBundle -> option string;
  initrd_state_to_toml : FdeConfigBundle -> option string;
  toml_initrd_state : string -> option FdeConfigBundle;
}.

Class Sha384 := { sha384 : string -> bytes }.

Section Sources.
Context `{Hex, FdeToml, Sha384}.

(** [read_to_string] then [toml::from_str]. *)
Definition read_toml {A} (parse : string -> option A) (path : string) : M A :=
  let* content := call (ReadToString path) in
  lift (ok_or (parse content) (Bail "Failed to parse content as TOML")).

Definition load_metadata_from_file (metadata_path : string) : M Metadata :=
  let* metadata := read_toml toml_metadata metadata_path in
  let* root_hash_bin := lift (ok_or (hex_decode (md_root_hash metadata)) (Bail "Bad root hash")) in
  ok (mkMetadata (md_type metadata) (hex_encode root_hash_bin)).

(** ** fs.rs *)

Definition load_global_config (config_dir : string) : M (option GlobalConfig) :=
  let config_path := join_str config_dir "global.toml" in
  let> exists_ := call (PathExists config_path) in
  if negb exists_ then ok None
  else let* c := read_toml toml_global config_path in ok (Some c).

Definition load_fde_config (config_dir : string) : M (option FdeConfig) :=
  let config_path := join_str config_dir "fde.toml" in
  let> exists_ := call (PathExists config_path) in
  if negb exists_ then ok None
  else let* c := read_toml toml_fde config_path in ok (Some c).

Definition fs_get_fde_config_bundle (config_dir : string) : M FdeConfigBundle :=
  let* global := load_global_config config_dir in
  let* fde := load_fde_config config_dir in
  ok (mkBundle global fde).

(** ** mod.rs *)

(** [gen_hash_content], [gen_hash_hex] *)
Definition gen_hash_content (b : FdeConfigBundle) : result anyhow string :=
  ok_or (bundle_to_toml b) (Bail "toml").

Definition gen_hash_hex (b : FdeConfigBundle) : result anyhow string :=
  let? content := gen_hash_content b in
  Ok (hex_encode (sha384 content)).

(** [get_fde_config] of any source. *)
Definition get_fde_config (get_bundle : M FdeConfigBundle) : M (option FdeConfig) :=
  let* b := get_bundle in
  ok (bundle_fde b).

(** ** vendor/aliyun *)

Definition IMDS_ADDRESS : string := "100.100.100.200:80".

Definition check_is_aliyun_ecs : M unit := call (TcpConnect IMDS_ADDRESS).

Definition get_aliyun_ecs_cloudinit_user_data : M string :=
  let* resp := call (HttpPut "http://100.100.100.200/latest/api/token") in
  let* token := lift (ok_or (http_text resp) Service) in
  let* resp := call (HttpGetToken "http://100.100.100.200/latest/user-data" token) in
  lift (ok_or (http_text resp) Service).

(** ** cloud_init.rs *)

Definition CLOUD_INIT_FDE_CONFIG_BUNDLE_HEADER : string := "#cryptpilot-fde-config".

Definition parse_from_user_data (user_data : string) : result anyhow FdeConfigBundle :=
  if bool_decide (trim user_data = "") then Err (Bail "The cloud-init user data is empty")
  else if negb (starts_with user_data CLOUD_INIT_FDE_CONFIG_BUNDLE_HEADER)
  then Err (Bail "Cannot find cryptplot header in cloud-init user data")
  else ok_or (toml_bundle user_data) (Bail "Failed to parse cloud-init user data").

Definition cloud_init_get_fde_config_bundle : M FdeConfigBundle :=
  let* _ := check_is_aliyun_ecs in
  let* user_data := get_aliyun_ecs_cloudinit_user_data in
  lift (parse_from_user_data user_data).

(** ** measure *)

Definition OPERATION_NAME_LOAD_CONFIG_UNTRUSTED : string := "load_config_untrusted".
Definition AAEL_DOMAIN : string := "cryptpilot.alibabacloud.com".
Definition ATTESTATION_AGENT_TTRPC_SOCKET_DEFAULT_PATH : string :=
  "unix:///run/confidential-containers/attestation-agent/attestation-agent.sock".

Inductive AutoDetectMeasure := Aael | Nope.

(** [AutoDetectMeasure::new] *)
(** [AaelMeasure::new] and its [extend_measurement]. *)
Definition aael_new : M unit := call (TtrpcConnect ATTESTATION_AGENT_TTRPC_SOCKET_DEFAULT_PATH).

Definition aael_extend_measurement (operation content : string) : M unit :=
  call (ExtendMeasurement AAEL_DOMAIN operation content).

Definition measure_new : sys AutoDetectMeasure :=
  let> r := aael_new in
  Ret match r with Ok _ => Aael | _ => Nope end.

Definition extend_measurement (m : AutoDetectMeasure) (operation content : string) : M unit :=
  match m with
  | Aael => aael_extend_measurement operation content
  | Nope => ok tt
  end.

Definition calculate_hashed_measurement_value (content_to_hash : string) : string :=
  hex_encode (sha384 content_to_hash).

Definition extend_measurement_hash (m : AutoDetectMeasure) (operation content_to_hash : string) : M unit :=
  extend_measurement m operation (calculate_hashed_measurement_value content_to_hash).

(** ** initrd_state.rs *)

Definition CRYPTPILOT_INITRD_STATE_PATH : string := "/var/run/cryptpilot/initrd_state.toml".

Definition initrd_state_save (bundle : FdeConfigBundle) : M unit :=
  let* str := lift (unwrap (initrd_state_to_toml bundle)) in
  let* _ := call (CreateDirAll "/var/run/cryptpilot") in
  call (WriteFile CRYPTPILOT_INITRD_STATE_PATH str).

Definition initrd_state_load : M FdeConfigBundle :=
  read_toml toml_initrd_state CRYPTPILOT_INITRD_STATE_PATH.

(** ** copy_config.rs *)

Definition FDE_CONFIG_DIR_DEFAULT : string := "/etc/cryptpilot".

(** The configuration of cloud-init, when it may be used: it is measured
    first, and not used when the measurement fails. *)
Definition load_untrusted_config (measurement_if_from_unsafe_source : bool) : M (option FdeConfigBundle) :=
  let> r := cloud_init_get_fde_config_bundle in
  match r with
  | Ok config =>
    if measurement_if_from_unsafe_source
    then
      let* content_to_hash := lift (gen_hash_content config) in
      let> measure := measure_new in
      let> m := extend_measurement_hash measure OPERATION_NAME_LOAD_CONFIG_UNTRUSTED content_to_hash in
      match m with
      | Ok _ => ok (Some config)
      | Err _ => ok None
      | Panic => panic
      end
    else ok (Some config)
  | Err _ => ok None
  | Panic => panic
  end.

Definition load_fde_config_bundle (measurement_if_from_unsafe_source : bool) : M FdeConfigBundle :=
  let* untrusted := load_untrusted_config measurement_if_from_unsafe_source in
  match untrusted with
  | Some config => ok config
  | None =>
    let> r := fs_get_fde_config_bundle FDE_CONFIG_DIR_DEFAULT in
    match r with
    | Ok config => ok config
    | Err _ => bail "Failed to load config from any source"
    | Panic => panic
    end
  end.

Definition copy_config_to_initrd_state_if_not_exist (measurement_if_from_unsafe_source : bool) : M unit :=
  let> exists_ := call (PathExists CRYPTPILOT_INITRD_STATE_PATH) in
  if (exists_ : bool) then ok tt
  else
    let* fde_config_bundle := load_fde_config_bundle measurement_if_from_unsafe_source in
    initrd_state_save fde_config_bundle.

(** ** time_sync.rs *)

Definition sync_time_to_system : M unit :=
  let> r := check_is_aliyun_ecs in
  match r with
  | Ok _ =>
    let> t := call (NtpTime "ntp.cloud.aliyuncs.com") in
    match t with
    | Ok t => call (ClockSetTime t)
    | Err _ => ok tt
    | Panic => panic
    end
  | Err _ => ok tt
  | Panic => panic
  end.
End Sources.
