(* ===== verification/FdeBoot.v ===== *)
(** * The boot service of cryptpilot-fde

    [cryptpilot-fde/src/cmd/boot_service]: the two stages that run in the
    initrd.  Before the root file system is mounted the volumes are set up:
    dm-crypt and dm-verity for the read-only root, LUKS2 for the writable
    delta, dm-snapshot when it is the backend; afterwards the mounts. *)

From Stdlib Require Import Ascii.
From stdpp Require Import base list strings pretty.
From Stdlib Require Import ZArith Lia.
From S2P Require Import Prelude Slices RustString Sys Cmd Blkid Luks2 KeyProvider Mkfs FdeConfig.
From S2P Require Import FileVerifier.

Local Open Scope Z_scope.

(** ** stage/mod.rs *)

Definition VOLUME_GROUP_NAME : string := "cryptpilot".
Definition ROOTFS_LOGICAL_VOLUME : string := "/dev/mapper/cryptpilot-rootfs".
Definition ROOTFS_HASH_LOGICAL_VOLUME : string := "/dev/mapper/cryptpilot-rootfs_hash".
Definition DELTA_LOGICAL_VOLUME : string := "/dev/mapper/cryptpilot-delta".
Definition ROOTFS_NAME : string := "rootfs".
Definition ROOTFS_DEVICE : string := "/dev/mapper/rootfs".
Definition ROOTFS_DECRYPTED_NAME : string := "rootfs_decrypted".
Definition ROOTFS_DECRYPTED_LAYER_DEVICE : string := "/dev/mapper/rootfs_decrypted".
Definition DELTA_NAME : string := "delta".
Definition DELTA_DEVICE : string := "/dev/mapper/delta".
Definition ROOTFS_VERITY_NAME : string := "rootfs_verity".
Definition ROOTFS_VERITY_DEVICE : string := "/dev/mapper/rootfs_verity".
Definition ROOTFS_EXTENDED_NAME : string := "rootfs_extended".
Definition ROOTFS_EXTENDED_DEVICE : string := "/dev/mapper/rootfs_extended".

(** A text in which backquotes stand for double quotes. *)
Fixpoint quoted (s : string) : string :=
  match s with
  | EmptyString => EmptyString
  | String a s => String (if Ascii.eqb a "`" then ascii_of_nat 34 else a) (quoted s)
  end.

(** The script that finds the last partition of the disk and grows it. *)
Definition expand_script : string := quoted "
set -euo pipefail

VG_NAME=`cryptpilot`

# Find any PV belonging to the volume group
PV_DEV=$(pvs --noheadings -o pv_name,vg_name | awk `\$2==\`$VG_NAME\` {print \$1; exit}`)

if [[ -z `$PV_DEV` ]]; then
    echo `Error: No physical volume found for volume group '$VG_NAME'` >&2
    exit 1
fi

# Get the parent disk (e.g. nvme0n1)
DISK_DEV=$(lsblk -dno PKNAME `$PV_DEV`)
DISK_PATH=`/dev/$DISK_DEV`

if [[ ! -b `$DISK_PATH` ]]; then
    echo `Error: Disk device not found: $DISK_PATH` >&2
    exit 1
fi

echo `Volume group '$VG_NAME' uses PV: $PV_DEV`
echo `Located on disk: $DISK_PATH`

# Get the last partition number
LAST_PART_NUM=$(lsblk -nro NAME `$DISK_PATH` |
    grep -E `^${DISK_DEV}[p]*[0-9]+$` |
    tail -1 |
    sed -E `s/^${DISK_DEV}[p]*//`)

if [[ -z `$LAST_PART_NUM` ]]; then
    echo `Error: Failed to detect last partition on $DISK_PATH` >&2
    exit 1
fi

echo `Last partition number: $LAST_PART_NUM`

echo `Expanding partition and physical volume ...`
if growpart `$DISK_PATH` `$LAST_PART_NUM`; then
    # the growpart command fill also call lvm pvresize to resize the related delta volume
    echo `Physical volume resized successfully`

elif [[ $? -eq 1 ]]; then
    # return 1 means no more space available
    echo `No action: partition $LAST_PART_NUM is already at maximum size.`
else
    echo `ERROR: growpart failed unexpectedly.` >&2
    exit 1
fi
            ".

Section Boot.
Context `{Hex, Base64, JsonText, BlkTraceConsts, FdeToml, Sha384}.

(** ** before_sysroot.rs *)

(** A command run for its effect. *)
Definition run_unit (program : string) (args : list string) : M unit :=
  let* _ := run_cmd (mkCommand program args) in
  ok tt.

Definition load_metadata : M Metadata := load_metadata_from_file METADATA_PATH_IN_INITRD.

Definition setup_rootfs_dm_verity (dm_verity_output_name root_hash lower_dm_device : string) : M unit :=
  let> _ := ensure_module_loaded "dm-verity" [] in
  run_unit "veritysetup" ["open"; lower_dm_device; dm_verity_output_name; ROOTFS_HASH_LOGICAL_VOLUME; root_hash].

Definition expand_system_pv_partition : M unit := run_unit "bash" ["-c"; expand_script].

Definition expand_system_delta_lv : M unit :=
  run_with_status_checker (mkCommand "lvextend" ["-l"; "+100%FREE"; DELTA_LOGICAL_VOLUME])
    (fun code _ _ => if (code =? 0) || (code =? 5) then Ok tt else Err (Bail "Bad exit code")).

(** Four kilobytes of zeros at the start of a device. *)
Definition zero_header (dev : string) : M unit :=
  let* _ := call (OpenDevice dev true) in
  call (WriteAt dev 0 (zeros 4096)).

Definition ensure_delta_volume_exist_and_expanded : M unit :=
  let> exists_ := call (PathExists DELTA_LOGICAL_VOLUME) in
  if negb exists_
  then
    let* _ := run_unit "lvcreate" ["-n"; DELTA_NAME; "--zero"; "n"; "-l"; "100%FREE"; "cryptpilot"] in
    zero_header DELTA_LOGICAL_VOLUME
  else
    let> _ := expand_system_delta_lv in
    ok tt.

(** Whether the content of the delta volume has to be created anew. *)
Definition delta_recreate (vt : VolumeType) (initialized : bool) (location : DeltaLocation) : bool :=
  match vt with
  | Temporary => true
  | Persistent => if negb initialized then true else match location with Disk => true | _ => false end
  end.

Definition delta_integrity_type (c : DeltaConfig) : IntegrityType :=
  if delta_integrity c then Journal else IntegrityNone.

Definition setup_delta_volume_luks2 (c : DeltaConfig) (location : DeltaLocation) : M (bool * IntegrityType) :=
  let* passphrase := get_key (delta_encrypt c) in
  let* recreate :=
    match volume_type (delta_encrypt c) with
    | Temporary => ok true
    | Persistent =>
      let* initialized := is_initialized DELTA_LOGICAL_VOLUME in
      ok (delta_recreate Persistent initialized location)
    end in
  let* _ := (if (recreate : bool)
             then format DELTA_LOGICAL_VOLUME passphrase (delta_integrity_type c) else ok tt) in
  let* _ := open_with_check_passphrase DELTA_NAME DELTA_LOGICAL_VOLUME passphrase (delta_integrity_type c) in
  ok (recreate, delta_integrity_type c).

(** The value of the first [MemTotal:] line. *)
Definition mem_total_kb (mem_info : string) : option Z :=
  match filter (fun l => starts_with l "MemTotal:" = true) (lines mem_info) with
  | line :: _ =>
    match split_whitespace line !! 1%nat with
    | Some s => parse_u64 s
    | None => None
    end
  | [] => None
  end.

Definition create_zram_cow_device : M string :=
  let> _ := ensure_module_loaded "zram" [] in
  let* mem_info := call (ReadToString "/proc/meminfo") in
  let* mem_total_kb := lift (ok_or (mem_total_kb mem_info) (Bail "Failed to parse MemTotal from /proc/meminfo")) in
  let* hot_add := call (ReadToString "/sys/class/zram-control/hot_add") in
  let* zram_id := lift (ok_or (parse_u64 (trim_end hot_add)) (Bail "Allocate new zram device number")) in
  let* _ := call (WriteFile ("/sys/block/zram" +:+ pretty zram_id +:+ "/disksize") (pretty mem_total_kb +:+ "K")) in
  ok ("/dev/zram" +:+ pretty zram_id).

Definition wipe_cow_device_header_async (device_path : string) : M unit :=
  let* _ := zero_header device_path in
  call (FlushDevice device_path).

Definition get_device_size_bytes (device : string) : M Z :=
  let* (size, _) := call (BlockDeviceSize device) in
  ok size.

(** What is done with the COW device before it is used. *)
Definition prepare_cow_device (cow_device : string) (persistent : bool) : M unit :=
  if negb persistent then wipe_cow_device_header_async cow_device
  else
    let* probe := probe_device cow_device in
    match probe with
    | NoSignatures => wipe_cow_device_header_async cow_device
    | KnownSignature _ _ _ =>
      if is_dm_snapshot_cow probe then ok tt
      else bail "COW device has valuable data, cannot overwrite in persistent mode"
    end.

Definition linear_table (verity_size cow_size : Z) (rootfs_device : string) : string :=
  "0 " +:+ pretty verity_size +:+ " linear " +:+ rootfs_device +:+ " 0" +:+ String (ascii_of_nat 10) ""
    +:+ pretty verity_size +:+ " " +:+ pretty cow_size +:+ " zero".

Definition snapshot_table (linear_size : Z) (cow_device : string) (persistent : bool) : string :=
  "0 " +:+ pretty linear_size +:+ " snapshot " +:+ ROOTFS_EXTENDED_DEVICE +:+ " " +:+ cow_device +:+ " "
    +:+ (if persistent then "PO" else "N") +:+ " 16".

Definition setup_dm_snapshot_device_chain (rootfs_device cow_device : string) (persistent : bool) : M unit :=
  let> _ := ensure_module_loaded "dm-snapshot" [] in
  let> _ := ensure_module_loaded "dm-zero" [] in
  let* verity_bytes := get_device_size_bytes rootfs_device in
  let* cow_bytes := get_device_size_bytes cow_device in
  let verity_size := verity_bytes / 512 in
  let cow_size := cow_bytes / 512 in
  let linear_size := wrap64 (verity_size + cow_size) in
  let* _ := run_unit "dmsetup" ["create"; ROOTFS_EXTENDED_NAME; "--table";
                                linear_table verity_size cow_size rootfs_device] in
  let* _ := prepare_cow_device cow_device persistent in
  run_unit "dmsetup" ["create"; ROOTFS_NAME; "--table"; snapshot_table linear_size cow_device persistent].

Definition resize_ext4_filesystem (device : string) : M unit :=
  let* _ := run_unit "tune2fs" ["-O"; "^read-only"; device] in
  run_unit "resize2fs" [device].

(** The decryption of the root file system, when it is encrypted. *)
Definition setup_rootfs_dm_crypt (c : RootFsConfig) : M unit :=
  match rootfs_encrypt c with
  | Some provider =>
    match volume_type provider with
    | Temporary => bail "Key provider is not supported for rootfs volume"
    | Persistent =>
      let* passphrase := get_key provider in
      open_with_check_passphrase ROOTFS_DECRYPTED_NAME ROOTFS_LOGICAL_VOLUME passphrase IntegrityNone
    end
  | None => ok tt
  end.

(** The name and device dm-verity is set up under, and the device below it. *)
Definition verity_output (backend : DeltaBackend) : string * string :=
  match backend with
  | Overlayfs => (ROOTFS_NAME, ROOTFS_DEVICE)
  | DmSnapshot => (ROOTFS_VERITY_NAME, ROOTFS_VERITY_DEVICE)
  end.

Definition verity_lower (c : RootFsConfig) : string :=
  match rootfs_encrypt c with
  | Some _ => ROOTFS_DECRYPTED_LAYER_DEVICE
  | None => ROOTFS_LOGICAL_VOLUME
  end.

(** The delta volume on disk, once the logical volume is available. *)
Definition setup_disk_delta_rest (c : FdeConfig) (backend : DeltaBackend) (location : DeltaLocation) : M unit :=
  let* (recreate, integrity) := setup_delta_volume_luks2 (fde_delta c) location in
  let* _ :=
    match backend with
    | Overlayfs =>
      if (recreate : bool) then force_mkfs DELTA_DEVICE Ext4 integrity
      else resize_ext4_filesystem DELTA_DEVICE
    | DmSnapshot =>
      let* _ := setup_dm_snapshot_device_chain (snd (verity_output backend)) DELTA_DEVICE
                  (bool_decide (location = DiskPersist)) in
      resize_ext4_filesystem ROOTFS_DEVICE
    end in
  if (recreate : bool) then mark_volume_as_initialized DELTA_LOGICAL_VOLUME else ok tt.

(** The delta volume on disk. *)
Definition setup_disk_delta (c : FdeConfig) (backend : DeltaBackend) (location : DeltaLocation) : M unit :=
  let> _ := expand_system_pv_partition in
  let* _ := ensure_delta_volume_exist_and_expanded in
  setup_disk_delta_rest c backend location.

(** The delta in memory. *)
Definition setup_ram_delta (backend : DeltaBackend) : M unit :=
  match backend with
  | Overlayfs => ok tt
  | DmSnapshot =>
    let* cow_device := create_zram_cow_device in
    let* _ := setup_dm_snapshot_device_chain (snd (verity_output backend)) cow_device false in
    resize_ext4_filesystem ROOTFS_DEVICE
  end.

Definition fde_backend (c : FdeConfig) : DeltaBackend := default default_backend (delta_backend (fde_rootfs c)).
Definition fde_location (c : FdeConfig) : DeltaLocation := default Disk (delta_location (fde_rootfs c)).

Definition setup_delta (c : FdeConfig) : M unit :=
  match fde_location c with
  | Disk | DiskPersist => setup_disk_delta c (fde_backend c) (fde_location c)
  | Ram => setup_ram_delta (fde_backend c)
  end.

Definition setup_volumes_required_by_fde (source : M FdeConfigBundle) : M unit :=
  let* fde_config := get_fde_config source in
  match fde_config with
  | None => ok tt
  | Some c =>
    let> _ := ensure_module_loaded "dm_mod" [] in
    let* _ := run_unit "vgchange" ["-a"; "y"; VOLUME_GROUP_NAME] in
    let* metadata := load_metadata in
    if negb (md_type metadata =? 1) then bail "Unsupported cryptpilot metadata type"
    else
      let* _ := setup_rootfs_dm_crypt (fde_rootfs c) in
      let* _ := setup_rootfs_dm_verity (fst (verity_output (fde_backend c))) (md_root_hash metadata)
                  (verity_lower (fde_rootfs c)) in
      setup_delta c
  end.

(** ** after_sysroot.rs *)

(** The first two fields of a line split at spaces. *)
Definition mtab_fields (line : string) : option (string * string) :=
  match split_on " "%char "" line with
  | device :: target :: _ => Some (device, target)
  | _ => None
  end.

Fixpoint check_mtab (ls : list string) : result anyhow unit :=
  match ls with
  | [] => Err (Bail "Failed to find the device mounted at /sysroot")
  | line :: ls =>
    match mtab_fields line with
    | Some (device, target) =>
      if decide (target = "/sysroot"%string)
      then if decide (device = ROOTFS_DEVICE) then Ok tt
           else Err (Bail "Rootfs mounted at /sysroot is not expected and could be a security risk.")
      else check_mtab ls
    | None => check_mtab ls
    end
  end.

Definition check_sysroot : M unit :=
  let* mtab_content := call (ReadToString "/etc/mtab") in
  lift (check_mtab (lines mtab_content)).

(** [Path::new(base).join("./" + dir)], where [dir] starts with a slash. *)
Definition join_dot (base dir : string) : string := join_str base ("./" +:+ dir).

(** One bind mount; errors are only logged. *)
Definition setup_mount_bind (overlay_dir dir : string) : M unit :=
  let target := join_dot "/sysroot/" dir in
  let> target_exists := call (PathExists target) in
  let* _ := (if (target_exists : bool)
             then
               let> is_dir := call (PathIsDir target) in
               if negb is_dir then bail "The target exists but not a dir" else ok tt
             else call (CreateDirAll target)) in
  let origin := join_dot (join_str overlay_dir "mount-binds") dir in
  let> origin_exists := call (PathExists origin) in
  let* _ := (if (origin_exists : bool)
             then
               let> is_dir := call (PathIsDir origin) in
               if negb is_dir then bail "The origin exists but not a dir" else ok tt
             else
               let* _ := call (CreateDirAll origin) in
               let copy_source := join_dot "/sysroot_bak" dir in
               let> source_exists := call (PathExists copy_source) in
               if (source_exists : bool)
               then
                 let> r := run_unit "cp" ["-a"; join_str copy_source "."; origin] in
                 match r with
                 | Err e =>
                   let> _ := call (RemoveDirAll origin) in
                   lift (Err e)
                 | _ => lift r
                 end
               else ok tt) in
  run_unit "mount" ["--bind"; origin; target].

Definition mount_bind_dirs : list string :=
  ["/var/lib/containerd/io.containerd.snapshotter.v1.overlayfs/snapshots/"; "/var/lib/containers/";
   "/var/lib/docker/"].

Fixpoint setup_mount_binds (overlay_dir : string) (dirs : list string) : sys unit :=
  match dirs with
  | [] => Ret tt
  | dir :: dirs =>
    let> _ := setup_mount_bind overlay_dir dir in
    setup_mount_binds overlay_dir dirs
  end.

(** The overlay on /sysroot; the directory that holds it. *)
Definition mount_overlay (location : DeltaLocation) : M string :=
  match location with
  | Ram =>
    let* _ := call (CreateDirAll "/ram_overlay") in
    let* _ := run_unit "mount" ["tmpfs"; "-t"; "tmpfs"; "/ram_overlay"] in
    let* _ := call (CreateDirAll "/ram_overlay/upper") in
    let* _ := call (CreateDirAll "/ram_overlay/work") in
    let* _ := run_unit "mount" ["-t"; "overlay"; ROOTFS_DEVICE; "-o";
                "lowerdir=/sysroot,upperdir=/ram_overlay/upper,workdir=/ram_overlay/work"; "/sysroot"] in
    ok "/ram_overlay"%string
  | Disk | DiskPersist =>
    let* _ := call (CreateDirAll "/delta_volume/overlay/upper") in
    let* _ := call (CreateDirAll "/delta_volume/overlay/work") in
    let* _ := run_unit "mount" ["-t"; "overlay"; ROOTFS_DEVICE; "-o";
                "lowerdir=/sysroot,upperdir=/delta_volume/overlay/upper,workdir=/delta_volume/overlay/work";
                "/sysroot"] in
    ok "/delta_volume/overlay"%string
  end.

Definition setup_overlayfs_mounts (c : FdeConfig) : M unit :=
  let* _ := call (CreateDirAll "/delta_volume") in
  let* _ := run_unit "mount" [DELTA_DEVICE; "/delta_volume"] in
  let* _ := call (CreateDirAll "/sysroot_bak") in
  let* _ := run_unit "mount" ["--bind"; "/sysroot"; "/sysroot_bak"; "--make-private"] in
  let> _ := ensure_module_loaded "overlay" [] in
  let* overlay_dir := mount_overlay (fde_location c) in
  let> _ := setup_mount_binds overlay_dir mount_bind_dirs in
  ok tt.

Definition setup_mounts_required_by_fde (source : M FdeConfigBundle) : M unit :=
  let* fde_config := get_fde_config source in
  match fde_config with
  | None => ok tt
  | Some c =>
    let* _ := check_sysroot in
    match fde_backend c with
    | Overlayfs => setup_overlayfs_mounts c
    | DmSnapshot => ok tt
    end
  end.

(** ** mod.rs *)

Inductive BootStage := InitrdFdeBeforeSysroot | InitrdFdeAfterSysroot.

Definition boot_service_run (source : M FdeConfigBundle) (stage : BootStage) : M unit :=
  match stage with
  | InitrdFdeBeforeSysroot =>
    let* _ := sync_time_to_system in
    setup_volumes_required_by_fde source
  | InitrdFdeAfterSysroot => setup_mounts_required_by_fde source
  end.

(** bin/guest.rs, without the log level: the saved state is read once and
    cached. *)
Definition guest_main (stage : BootStage) : M unit :=
  let* _ := copy_config_to_initrd_state_if_not_exist true in
  let* bundle := initrd_state_load in
  boot_service_run (ok bundle) stage.
End Boot.
