(* ===== verification/FdeBootProofs.v ===== *)
(** * The boot service of cryptpilot-fde: properties

    The root file system is only ever used through dm-verity with the root
    hash of the metadata; the writable delta volume is reused exactly when it
    should be and is never left marked ready by an interrupted boot; what the
    mounts check; when an untrusted configuration is used. *)

From Stdlib Require Import Ascii.
From stdpp Require Import base list strings sets pretty.
From Stdlib Require Import ZArith Lia.
From S2P Require Import Prelude Slices RustString Sys Cmd Blkid Luks2 Luks2Spec KeyProvider Mkfs.
From S2P Require Import CryptCmdProofs FdeConfig FdeBoot.
From S2P Require Import FileVerifier.

Local Open Scope Z_scope.

(** ** Commands in a trace *)

(** The trace has a run of the command that exited with 0. *)
Definition succeeded (program : string) (args : list string) (tr : list (event sysop)) : Prop :=
  exists out, Ev (Spawn program args None) (Ok out) ∈ tr /\ status_code out = Some 0.

Section Trace.
Context {W : Type} `{!Handler sysop W}.
Implicit Types (w : W).

Lemma succeeded_app_l program args l1 l2 : succeeded program args l1 -> succeeded program args (l1 ++ l2).
Proof. intros (out & Ho & Hc). exists out. split; [apply elem_of_app; by left|done]. Qed.

Lemma succeeded_app_r program args l1 l2 : succeeded program args l2 -> succeeded program args (l1 ++ l2).
Proof. intros (out & Ho & Hc). exists out. split; [apply elem_of_app; by right|done]. Qed.

Lemma run_unit_succeeded program args w u w' :
  run (run_unit program args) w = (Ok u, w') -> succeeded program args (trace (run_unit program args) w).
Proof.
  unfold run_unit, run_cmd, run_with_input, run_with_input_and_status_checker. cbn [cmd_program cmd_args].
  rewrite trace_rpbind, run_rpbind, !trace_rpbind, run_rpbind, run_call. intros Hrun.
  unfold call. cbn [trace]. destruct (handle (Spawn program args None) w) as [[out| |] w1]; [|done..].
  exists out. split; [apply elem_of_app; left; apply elem_of_app; left; by left|].
  destruct (status_code out) as [code|]; [|done]. cbn [run lift] in Hrun.
  destruct (Z.eqb_spec code 0) as [E|E]; [by rewrite E|done].
Qed.

(** A later part of a successful run, with its trace. *)
Lemma rpbind_inv {A B} (p : M A) (f : A -> M B) w b w' :
  run (rpbind p f) w = (Ok b, w') ->
  exists a w1, run p w = (Ok a, w1) /\ run (f a) w1 = (Ok b, w') /\
    trace (rpbind p f) w = trace p w ++ trace (f a) w1.
Proof.
  rewrite run_rpbind, trace_rpbind. destruct (run p w) as [[a| |] w1] eqn:E; [|done..].
  intros Hf. by exists a, w1.
Qed.

Lemma pbind_inv {A B} (p : sys A) (f : A -> M B) w b w' :
  run (pbind p f) w = (Ok b, w') ->
  exists a w1, run p w = (a, w1) /\ run (f a) w1 = (Ok b, w') /\
    trace (pbind p f) w = trace p w ++ trace (f a) w1.
Proof.
  rewrite run_bind, trace_bind. destruct (run p w) as [a w1] eqn:E.
  intros Hf. by exists a, w1.
Qed.
End Trace.

(** ** The root file system *)

Section Verity.
Context `{Hex, Base64, JsonText, BlkTraceConsts, FdeToml, Sha384} {W : Type} `{!Handler sysop W}.
Implicit Types (w : W).

(** The chain of devices above the verified one that makes the root device
    with the dm-snapshot backend. *)
Definition snapshot_chain (tr : list (event sysop)) : Prop :=
  exists vs cs ls cow persistent,
    succeeded "dmsetup" ["create"; ROOTFS_EXTENDED_NAME; "--table"; linear_table vs cs ROOTFS_VERITY_DEVICE] tr /\
    succeeded "dmsetup" ["create"; ROOTFS_NAME; "--table"; snapshot_table ls cow persistent] tr.

Lemma snapshot_chain_app_r l1 l2 : snapshot_chain l2 -> snapshot_chain (l1 ++ l2).
Proof.
  intros (vs & cs & ls & cow & p & H1' & H2'). exists vs, cs, ls, cow, p.
  split; by apply succeeded_app_r.
Qed.

Lemma snapshot_chain_app_l l1 l2 : snapshot_chain l1 -> snapshot_chain (l1 ++ l2).
Proof.
  intros (vs & cs & ls & cow & p & H1' & H2'). exists vs, cs, ls, cow, p.
  split; by apply succeeded_app_l.
Qed.

Lemma chain_succeeded cow persistent w u w' :
  run (setup_dm_snapshot_device_chain ROOTFS_VERITY_DEVICE cow persistent) w = (Ok u, w') ->
  snapshot_chain (trace (setup_dm_snapshot_device_chain ROOTFS_VERITY_DEVICE cow persistent) w).
Proof.
  unfold setup_dm_snapshot_device_chain. intros Hrun.
  apply pbind_inv in Hrun as (x1 & w1 & _ & Hrun & ->). apply snapshot_chain_app_r.
  apply pbind_inv in Hrun as (x2 & w2 & _ & Hrun & ->). apply snapshot_chain_app_r.
  apply rpbind_inv in Hrun as (vb & w3 & _ & Hrun & ->). apply snapshot_chain_app_r.
  apply rpbind_inv in Hrun as (cb & w4 & _ & Hrun & ->). apply snapshot_chain_app_r.
  cbv zeta in *.
  apply rpbind_inv in Hrun as (x5 & w5 & R5 & Hrun & ->).
  apply rpbind_inv in Hrun as (x6 & w6 & R6 & Hrun & ->).
  exists (vb / 512), (cb / 512), (wrap64 (vb / 512 + cb / 512)), cow, persistent. split.
  - apply succeeded_app_l. by eapply run_unit_succeeded.
  - apply succeeded_app_r, succeeded_app_r. by eapply run_unit_succeeded.
Qed.

Lemma delta_chain c w u w' :
  fde_backend c = DmSnapshot ->
  run (setup_delta c) w = (Ok u, w') -> snapshot_chain (trace (setup_delta c) w).
Proof.
  intros Hb. unfold setup_delta. rewrite Hb.
  assert (Hd : forall loc, run (setup_disk_delta c DmSnapshot loc) w = (Ok u, w') ->
    snapshot_chain (trace (setup_disk_delta c DmSnapshot loc) w)).
  { intros loc Hrun. unfold setup_disk_delta, setup_disk_delta_rest in *.
    apply pbind_inv in Hrun as (x1 & w1 & _ & Hrun & ->). apply snapshot_chain_app_r.
    apply rpbind_inv in Hrun as (x2 & w2 & _ & Hrun & ->). apply snapshot_chain_app_r.
    apply rpbind_inv in Hrun as ([rc i] & w3 & _ & Hrun & ->). apply snapshot_chain_app_r.
    apply rpbind_inv in Hrun as (x4 & w4 & R4 & Hrun & ->). apply snapshot_chain_app_l.
    apply rpbind_inv in R4 as (x5 & w5 & R5 & _ & ->). apply snapshot_chain_app_l.
    by eapply chain_succeeded. }
  destruct (fde_location c); [apply Hd|apply Hd|].
  unfold setup_ram_delta. intros Hrun.
  apply rpbind_inv in Hrun as (cow & w1 & _ & Hrun & ->). apply snapshot_chain_app_r.
  apply rpbind_inv in Hrun as (x2 & w2 & R2 & _ & ->). apply snapshot_chain_app_l.
  by eapply chain_succeeded.
Qed.

Lemma load_metadata_trace w md' w' :
  run load_metadata w = (Ok md', w') ->
  exists content md bin, Ev (ReadToString METADATA_PATH_IN_INITRD) (Ok content) ∈ trace load_metadata w /\
    toml_metadata content = Some md /\ hex_decode (md_root_hash md) = Some bin /\
    md' = mkMetadata (md_type md) (hex_encode bin).
Proof.
  unfold load_metadata, load_metadata_from_file, read_toml. intros R3.
  apply rpbind_inv in R3 as (md & w4 & R4 & R5 & ->).
  apply rpbind_inv in R4 as (content & w5 & R6 & R7 & ->).
  apply rpbind_inv in R5 as (bin & w6 & R8 & R9 & _).
  injection R9 as <- _. injection R7 as E7 _. apply ok_or_ok in E7. injection R8 as E8 _. apply ok_or_ok in E8.
  exists content, md, bin. split; [|done].
  rewrite run_call in R6. unfold call. cbn [trace]. rewrite R6. set_solver.
Qed.

(** C8: when the first boot stage succeeds and the configuration has an fde
    section, the root file system is set up through dm-verity: the metadata of
    the initrd was read, is of type 1 and its root hash is valid hexadecimal,
    and veritysetup has opened the root volume (decrypted first when it is
    encrypted) with exactly that root hash; with the dm-snapshot backend the
    root device is stacked on the verified one.  Without an fde section the
    stage succeeds and makes no call at all: nothing is verified. *)
Theorem rootfs_verified b w w' :
  run (setup_volumes_required_by_fde (Ret (Ok b))) w = (Ok tt, w') ->
  let tr := trace (setup_volumes_required_by_fde (Ret (Ok b))) w in
  match bundle_fde b with
  | Some c =>
    (exists content md bin,
      Ev (ReadToString METADATA_PATH_IN_INITRD) (Ok content) ∈ tr /\
      toml_metadata content = Some md /\ md_type md = 1 /\ hex_decode (md_root_hash md) = Some bin /\
      succeeded "veritysetup" ["open"; verity_lower (fde_rootfs c); fst (verity_output (fde_backend c));
                               ROOTFS_HASH_LOGICAL_VOLUME; hex_encode bin] tr) /\
    (fde_backend c = DmSnapshot -> snapshot_chain tr)
  | None => tr = []
  end.
Proof.
  intros Hrun. unfold setup_volumes_required_by_fde in *.
  apply rpbind_inv in Hrun as (fc & w0 & R0 & Hrun & ->).
  injection R0 as <- <-. destruct (bundle_fde b) as [c|]; [|done].
  apply pbind_inv in Hrun as (x1 & w1 & _ & Hrun & ->).
  apply rpbind_inv in Hrun as (x2 & w2 & _ & Hrun & ->).
  apply rpbind_inv in Hrun as (metadata & w3 & R3 & Hrun & ->).
  apply load_metadata_trace in R3 as (content & md & bin & Hev & Hmd & Hbin & ->).
  cbn [md_type md_root_hash] in *. destruct (Z.eqb_spec (md_type md) 1) as [Hty|]; [|done].
  simpl negb in *. cbv iota in *.
  apply rpbind_inv in Hrun as (x4 & w4 & _ & Hrun & ->).
  apply rpbind_inv in Hrun as (x5 & w5 & R5 & Hrun & ->). split.
  - exists content, md, bin. split; [set_solver|]. repeat (split; [done|]).
    do 5 apply succeeded_app_r. apply succeeded_app_l.
    unfold setup_rootfs_dm_verity in *. apply pbind_inv in R5 as (x6 & w6 & _ & R6 & ->).
    apply succeeded_app_r. by eapply run_unit_succeeded.
  - intros Hbk. do 6 apply snapshot_chain_app_r. by eapply delta_chain.
Qed.
End Verity.

(** ** The delta volume *)

Section Delta.
Context `{Hex, Base64, JsonText, BlkTraceConsts, FdeToml, Sha384} {W : Type} `{Cryptsetup W}.
Implicit Types (w : W).

Definition delta_ready w : bool :=
  bool_decide (state_of_subsystem (luks_subsystem w DELTA_LOGICAL_VOLUME) = InitStateReady).

Lemma run_delta_recreate c loc w1 r w2 :
  run (match volume_type (delta_encrypt c) with
       | Temporary => ok true
       | Persistent =>
         let* initialized := is_initialized DELTA_LOGICAL_VOLUME in
         ok (delta_recreate Persistent initialized loc)
       end) w1 = (r, w2) ->
  r = Ok (delta_recreate (volume_type (delta_encrypt c)) (delta_ready w1) loc) /\ w2 = w1.
Proof.
  destruct (volume_type (delta_encrypt c)); [by intros [= <- <-]|].
  rewrite run_rpbind, run_is_initialized. by intros [= <- <-].
Qed.

Lemma recreate_ops c loc :
  all_ops (fun _ e => query e = true)
    (match volume_type (delta_encrypt c) with
     | Temporary => ok true
     | Persistent =>
       let* initialized := is_initialized DELTA_LOGICAL_VOLUME in
       ok (delta_recreate Persistent initialized loc)
     end).
Proof.
  unfold is_initialized, is_a_cryptpilot_initialized_luks2_volume, get_init_state, get_luks2_subsystem.
  all_ops; done.
Qed.

(** What opening the delta volume decides: it is recreated unless the key is
    persistent, the volume is marked ready and the delta is to persist. *)
Lemma setup_delta_luks2_recreates c loc w rc i w' :
  key_clean DELTA_LOGICAL_VOLUME (delta_encrypt c) = true ->
  run (setup_delta_volume_luks2 c loc) w = (Ok (rc, i), w') ->
  rc = delta_recreate (volume_type (delta_encrypt c)) (delta_ready w) loc /\ i = delta_integrity_type c.
Proof.
  unfold setup_delta_volume_luks2. intros Hkc Hrun.
  apply rpbind_inv in Hrun as (p & w1 & R1 & Hrun & _).
  apply rpbind_inv in Hrun as (b & w2 & R2 & Hrun & _).
  apply run_delta_recreate in R2 as [E2 ->]. injection E2 as ->.
  apply rpbind_inv in Hrun as (x3 & w3 & _ & Hrun & _).
  apply rpbind_inv in Hrun as (x4 & w4 & _ & Hrun & _). injection Hrun as <- <- _. split; [|done].
  unfold delta_ready. pose proof (untouched _ _ w (get_key_touches DELTA_LOGICAL_VOLUME (delta_encrypt c) Hkc)) as [U _].
  rewrite R1 in U. cbn [snd] in U. by rewrite U.
Qed.

(** The header and the key slots of the delta volume are as in [w]. *)
Definition delta_kept w v : Prop :=
  luks_subsystem v DELTA_LOGICAL_VOLUME = luks_subsystem w DELTA_LOGICAL_VOLUME /\
  forall k, unlocks v DELTA_LOGICAL_VOLUME k = unlocks w DELTA_LOGICAL_VOLUME k.

Lemma delta_kept_ops {A} (p : M A) w v n :
  delta_kept w v -> all_ops (fun _ e => touches DELTA_LOGICAL_VOLUME e = false) p ->
  delta_kept w (snd (run_n n p v)).
Proof.
  intros [H1' H2'] Hp. split; [by rewrite untouched_n|]. intros k. by rewrite untouched_n_slots.
Qed.

Lemma delta_reuse_kept c loc w :
  key_clean DELTA_LOGICAL_VOLUME (delta_encrypt c) = true ->
  delta_recreate (volume_type (delta_encrypt c)) (delta_ready w) loc = false ->
  forall n, delta_kept w (snd (run_n n (setup_delta_volume_luks2 c loc) w)).
Proof.
  intros Hkc Hr. unfold setup_delta_volume_luks2. apply (run_n_inv_rpbind (delta_kept w)).
  { intros n. apply delta_kept_ops; [done|by apply get_key_touches]. }
  intros p w1 Hw1 _. assert (Hq : forall n, snd (run_n n _ w1) = w1) by apply (run_queries _ w1 (recreate_ops c loc)).
  apply (run_n_inv_rpbind (delta_kept w)); [intros n; by rewrite Hq|].
  intros b w2 Hw2 R2. apply run_delta_recreate in R2 as [E2 ->]. injection E2 as ->.
  assert (delta_ready w1 = delta_ready w) as -> by (unfold delta_ready; by rewrite (proj1 Hw1)).
  rewrite Hr. cbv iota. apply (run_n_inv_rpbind (delta_kept w)); [done|]. intros [] w3 Hw3 _.
  apply (run_n_inv_rpbind (delta_kept w)); [|intros [] w4 Hw4 _ n; done].
  intros n. apply delta_kept_ops; [done|apply open_with_check_touches].
Qed.

Lemma delta_recreated c loc w rc i w' :
  key_clean DELTA_LOGICAL_VOLUME (delta_encrypt c) = true ->
  delta_recreate (volume_type (delta_encrypt c)) (delta_ready w) loc = true ->
  run (setup_delta_volume_luks2 c loc) w = (Ok (rc, i), w') ->
  luks_subsystem w' DELTA_LOGICAL_VOLUME = Some LUKS2_SUBSYSTEM_INITIALIZING.
Proof.
  intros Hkc Hr Hrun. unfold setup_delta_volume_luks2 in Hrun.
  apply rpbind_inv in Hrun as (p & w1 & R1 & Hrun & _).
  apply rpbind_inv in Hrun as (b & w2 & R2 & Hrun & _).
  apply run_delta_recreate in R2 as [E2 ->]. injection E2 as ->.
  pose proof (untouched _ _ w (get_key_touches DELTA_LOGICAL_VOLUME (delta_encrypt c) Hkc)) as [U _].
  rewrite R1 in U. cbn [snd] in U.
  assert (delta_ready w1 = delta_ready w) as Edr by (unfold delta_ready; by rewrite U).
  rewrite Edr, Hr in Hrun. cbv iota in Hrun.
  apply rpbind_inv in Hrun as ([] & w3 & R3 & Hrun & _). apply luks_format_run_ok in R3 as [Hs _].
  apply rpbind_inv in Hrun as ([] & w4 & R4 & Hrun & _). injection Hrun as _ _ <-.
  pose proof (untouched _ _ w3 (open_with_check_touches DELTA_NAME DELTA_LOGICAL_VOLUME DELTA_LOGICAL_VOLUME p
    (delta_integrity_type c))) as [U4 _].
  rewrite R4 in U4. cbn [snd] in U4. by rewrite U4.
Qed.

Lemma delta_recreate_false vt ready loc :
  delta_recreate vt ready loc = false <-> vt = Persistent /\ ready = true /\ loc <> Disk.
Proof. destruct vt, ready, loc; simpl; naive_solver. Qed.

(** C29: the writable delta volume is reused exactly when its key is
    persistent, it is marked ready and the delta is configured to persist.
    Then setting it up leaves its LUKS2 header and key slots alone at every
    point of the run, and reports that nothing was recreated, so that the
    caller neither makes a file system nor marks it; otherwise a successful
    set-up has formatted it, left it marked as initializing, and reports that.
    Either way the integrity mode returned is the configured one.  (The command
    configured to provide the key does not name the volume.) *)
Theorem delta_reused_iff c loc w :
  key_clean DELTA_LOGICAL_VOLUME (delta_encrypt c) = true ->
  let reuse := volume_type (delta_encrypt c) = Persistent /\ delta_ready w = true /\ loc <> Disk in
  (reuse ->
   (forall n, luks_subsystem (snd (run_n n (setup_delta_volume_luks2 c loc) w)) DELTA_LOGICAL_VOLUME =
                luks_subsystem w DELTA_LOGICAL_VOLUME /\
              forall k, unlocks (snd (run_n n (setup_delta_volume_luks2 c loc) w)) DELTA_LOGICAL_VOLUME k =
                unlocks w DELTA_LOGICAL_VOLUME k) /\
   forall rc i w', run (setup_delta_volume_luks2 c loc) w = (Ok (rc, i), w') ->
     rc = false /\ i = delta_integrity_type c) /\
  (~ reuse ->
   forall rc i w', run (setup_delta_volume_luks2 c loc) w = (Ok (rc, i), w') ->
     rc = true /\ i = delta_integrity_type c /\
     luks_subsystem w' DELTA_LOGICAL_VOLUME = Some LUKS2_SUBSYSTEM_INITIALIZING).
Proof.
  intros Hkc reuse. unfold reuse. rewrite <- delta_recreate_false. split.
  - intros Hr. split; [by apply delta_reuse_kept|]. intros rc i w' Hrun.
    by destruct (setup_delta_luks2_recreates _ _ _ _ _ _ Hkc Hrun) as [-> ->].
  - intros Hr%not_false_is_true rc i w' Hrun.
    destruct (setup_delta_luks2_recreates _ _ _ _ _ _ Hkc Hrun) as [-> ->].
    split; [done|]. split; [done|]. by eapply delta_recreated.
Qed.

(** ** Crashes while booting *)

Lemma run_unit_touches d program args :
  touches d (Spawn program args None) = false ->
  all_ops (fun _ e => touches d e = false) (run_unit program args).
Proof. intros Ht. unfold run_unit. all_ops. by apply all_ops_run_cmd. Qed.

Lemma zero_header_touches d dev : d <> dev -> all_ops (fun _ e => touches d e = false) (zero_header dev).
Proof.
  intros Hd. assert (bool_decide (dev = d) = false) by (apply bool_decide_eq_false; congruence).
  unfold zero_header. all_ops; done.
Qed.

Lemma resize_touches d dev :
  d <> dev -> all_ops (fun _ e => touches d e = false) (resize_ext4_filesystem dev).
Proof.
  intros Hd. unfold resize_ext4_filesystem.
  all_ops; apply run_unit_touches, spawn_touches; try done; intros Hs Hin;
    repeat (apply elem_of_cons in Hin as [->|Hin]; [done|]); by apply elem_of_nil in Hin.
Qed.

Lemma prepare_cow_touches d cow persistent :
  d <> cow -> all_ops (fun _ e => touches d e = false) (prepare_cow_device cow persistent).
Proof.
  intros Hd.
  assert (Hw : all_ops (fun _ e => touches d e = false) (wipe_cow_device_header_async cow)).
  { unfold wipe_cow_device_header_async. all_ops; [by apply zero_header_touches|done]. }
  unfold prepare_cow_device, probe_device. all_ops; try done. by apply all_ops_run_checked.
Qed.

Lemma snapshot_chain_touches d rootfs cow persistent :
  d <> cow -> all_ops (fun _ e => touches d e = false) (setup_dm_snapshot_device_chain rootfs cow persistent).
Proof.
  intros Hd. unfold setup_dm_snapshot_device_chain, get_device_size_bytes.
  all_ops; try done; try (by apply all_ops_ensure_module_loaded); try (by apply prepare_cow_touches).
  all: apply run_unit_touches, spawn_touches; try done; intros Hs Hin.
  all: repeat (apply elem_of_cons in Hin as [->|Hin]; [done|]); by apply elem_of_nil in Hin.
Qed.

(** Once the delta volume is there, with no marker if it was there before, it
    has none. *)
Lemma ensure_delta_not_ready w w' :
  not_ready w DELTA_LOGICAL_VOLUME ->
  run ensure_delta_volume_exist_and_expanded w = (Ok tt, w') -> not_ready w' DELTA_LOGICAL_VOLUME.
Proof.
  intros Hw. unfold ensure_delta_volume_exist_and_expanded. rewrite run_bind, run_query by done.
  destruct (fst _); simpl negb; cbv iota.
  - intros Hrun. apply (f_equal snd) in Hrun. cbn [snd] in Hrun. rewrite <- Hrun.
    apply (keeps_not_ready _ _ w Hw). unfold expand_system_delta_lv.
    all_ops. by apply all_ops_run_checked.
  - intros Hrun. apply rpbind_inv in Hrun as ([] & w1 & _ & Hrun & _).
    apply rpbind_inv in Hrun as ([] & w2 & _ & Hrun & _). revert Hrun. rewrite run_call.
    pose proof (zero_header_gone w2 DELTA_LOGICAL_VOLUME) as Hz.
    destruct (handle (WriteAt _ _ _) w2) as [r w3]. intros [= -> ->]. unfold not_ready.
    cbn [fst snd] in Hz. by rewrite Hz.
Qed.

Lemma setup_delta_luks2_not_ready c loc w :
  key_clean DELTA_LOGICAL_VOLUME (delta_encrypt c) = true -> not_ready w DELTA_LOGICAL_VOLUME ->
  forall n, not_ready (snd (run_n n (setup_delta_volume_luks2 c loc) w)) DELTA_LOGICAL_VOLUME.
Proof.
  intros Hkc Hw. set (nr := fun v : W => not_ready v DELTA_LOGICAL_VOLUME).
  assert (Hk : forall A (p : M A) v, nr v -> all_ops (fun _ e => touches DELTA_LOGICAL_VOLUME e = false) p ->
    forall n, nr (snd (run_n n p v))) by (intros A p v Hv Hp n; by apply keeps_not_ready).
  unfold setup_delta_volume_luks2. apply (run_n_inv_rpbind nr); [by apply Hk, get_key_touches|].
  intros p w1 Hw1 _. apply (run_n_inv_rpbind nr).
  { apply Hk; [done|]. eapply all_ops_weaken; [|apply recreate_ops]. intros R e. apply query_touches. }
  intros b w2 Hw2 _. apply (run_n_inv_rpbind nr); [destruct b; [by apply format_not_ready|done]|].
  intros [] w3 Hw3 _. apply (run_n_inv_rpbind nr); [apply Hk; [done|apply open_with_check_touches]|].
  intros [] w4 Hw4 _ n. done.
Qed.

(** The part of the set-up that makes the delta volume available. *)
Definition delta_available : M unit :=
  let> _ := expand_system_pv_partition in
  ensure_delta_volume_exist_and_expanded.

(** And the rest of it. *)
Lemma disk_delta_rest_crash_good c backend loc w :
  key_clean DELTA_LOGICAL_VOLUME (delta_encrypt (fde_delta c)) = true -> not_ready w DELTA_LOGICAL_VOLUME ->
  forall n, crash_good DELTA_LOGICAL_VOLUME (run_n n (setup_disk_delta_rest c backend loc) w).
Proof.
  intros Hkc Hw. apply crash_seq; [by apply setup_delta_luks2_not_ready|]. intros [rc i] w1 Hw1 E1.
  apply crash_seq; [|intros [] w2 Hw2 _; destruct rc; [by apply mark_crash_good|by left]].
  assert (Hi : rc = true -> luks_subsystem w1 DELTA_LOGICAL_VOLUME = Some LUKS2_SUBSYSTEM_INITIALIZING).
  { intros ->. destruct (setup_delta_luks2_recreates _ _ _ _ _ _ Hkc E1) as [Erc _]. by eapply delta_recreated. }
  destruct backend, rc.
  - apply keeps_initializing; [by apply Hi|by apply force_mkfs_touches].
  - apply keeps_not_ready; [done|by apply resize_touches].
  - apply keeps_not_ready; [done|].
    apply all_ops_rpbind; [by apply snapshot_chain_touches|intros _; by apply resize_touches].
  - apply keeps_not_ready; [done|].
    apply all_ops_rpbind; [by apply snapshot_chain_touches|intros _; by apply resize_touches].
Qed.

Lemma setup_disk_delta_assoc c backend loc n w :
  run_n n (setup_disk_delta c backend loc) w =
  run_n n (let* _ := delta_available in setup_disk_delta_rest c backend loc) w.
Proof. unfold setup_disk_delta, rpbind, delta_available. by rewrite run_n_assoc. Qed.

Lemma delta_available_not_ready w w' :
  not_ready w DELTA_LOGICAL_VOLUME -> run delta_available w = (Ok tt, w') -> not_ready w' DELTA_LOGICAL_VOLUME.
Proof.
  intros Hw. unfold delta_available. rewrite run_bind.
  assert (He : not_ready (snd (run (expand_system_pv_partition) w)) DELTA_LOGICAL_VOLUME).
  { apply (keeps_not_ready _ _ w Hw). by apply run_unit_touches. }
  destruct (run expand_system_pv_partition w) as [r w1]. by apply ensure_delta_not_ready.
Qed.

(** C13: crash safety of the delta volume: booting with a delta volume that is
    not marked ready, from the moment the volume is available (a new logical
    volume shows what its extents held until its header is wiped) it is not
    marked ready until the whole set-up has succeeded.  (The command configured
    to provide its key does not name it.) *)
Theorem delta_crash_safe c backend loc w n :
  key_clean DELTA_LOGICAL_VOLUME (delta_encrypt (fde_delta c)) = true -> not_ready w DELTA_LOGICAL_VOLUME ->
  fst (run_n n delta_available w) = Some (Ok tt) ->
  not_ready (snd (run_n n (setup_disk_delta c backend loc) w)) DELTA_LOGICAL_VOLUME \/
  fst (run_n n (setup_disk_delta c backend loc) w) = Some (Ok tt).
Proof.
  intros Hkc Hw Ha. change (crash_good DELTA_LOGICAL_VOLUME (run_n n (setup_disk_delta c backend loc) w)).
  rewrite setup_disk_delta_assoc.
  destruct (run_n n delta_available w) as [r w1] eqn:E. simpl in Ha. subst r.
  apply (run_n_bind_done _ (fun r => match r with
    | Ok _ => setup_disk_delta_rest c backend loc | Err e => Ret (Err e) | Panic => Ret Panic end))
    in E as [Er [m Em]].
  unfold rpbind. rewrite Em.
  apply disk_delta_rest_crash_good; [done|]. by eapply delta_available_not_ready.
Qed.
End Delta.

(** ** The mounts *)

Section Mounts.
Context `{Hex, Base64, JsonText, BlkTraceConsts, FdeToml, Sha384} {W : Type} `{!Handler sysop W}.
Implicit Types (w : W).

(** A line of the mount table about /sysroot. *)
Definition mounts_sysroot (line : string) : Prop := exists device, mtab_fields line = Some (device, "/sysroot"%string).

Lemma check_mtab_spec ls :
  check_mtab ls = Ok tt <->
  exists pre line post, ls = pre ++ line :: post /\ mtab_fields line = Some (ROOTFS_DEVICE, "/sysroot"%string) /\
    Forall (fun l => ~ mounts_sysroot l) pre.
Proof.
  induction ls as [|l ls IH]; simpl.
  { split; [done|]. intros (pre & line & post & E & _). by destruct pre. }
  assert (Hskip : (forall d, mtab_fields l <> Some (d, "/sysroot"%string)) ->
    (exists pre line post, ls = pre ++ line :: post /\ mtab_fields line = Some (ROOTFS_DEVICE, "/sysroot"%string) /\
       Forall (fun l => ~ mounts_sysroot l) pre) <->
    (exists pre line post, l :: ls = pre ++ line :: post /\
       mtab_fields line = Some (ROOTFS_DEVICE, "/sysroot"%string) /\ Forall (fun l => ~ mounts_sysroot l) pre)).
  { intros Hl. split.
    - intros (pre & line & post & -> & Hf & Hp). exists (l :: pre), line, post. split; [done|]. split; [done|].
      constructor; [|done]. intros [d Hd]. by apply Hl in Hd.
    - intros (pre & line & post & E & Hf & Hp). destruct pre as [|l' pre]; simpl in E; injection E as -> ->.
      + by apply Hl in Hf.
      + exists pre, line, post. split; [done|]. split; [done|]. by inversion Hp. }
  destruct (mtab_fields l) as [[device target]|] eqn:El; [|rewrite IH; by apply Hskip].
  destruct (decide (target = _)) as [->|Ht]; [|rewrite IH; apply Hskip; congruence].
  destruct (decide (device = ROOTFS_DEVICE)) as [->|Hd]; split; try done.
  - intros _. exists [], l, ls. by repeat split.
  - intros (pre & line & post & E & Hf & Hp). destruct pre as [|l' pre]; simpl in E; injection E as -> ->; [congruence|].
    inversion Hp as [|? ? Hn _]. destruct Hn. by exists device.
Qed.

(** The check of /sysroot accepts exactly the mount tables whose first
    line about /sysroot has the verified root device; what the lines after it
    say, further mounts over /sysroot included, makes no difference. *)
Theorem check_sysroot_spec w w' :
  run check_sysroot w = (Ok tt, w') <->
  exists mtab, handle (ReadToString "/etc/mtab") w = (Ok mtab, w') /\
  exists pre line post, lines mtab = pre ++ line :: post /\
    mtab_fields line = Some (ROOTFS_DEVICE, "/sysroot"%string) /\ Forall (fun l => ~ mounts_sysroot l) pre.
Proof.
  unfold check_sysroot. rewrite run_rpbind, run_call.
  destruct (handle (ReadToString _) w) as [[mtab|e|] w1]; cbn [run lift].
  - split.
    + intros [= Hc <-]. exists mtab. split; [done|]. by apply check_mtab_spec.
    + intros (m & [= -> ->] & Hm). apply check_mtab_spec in Hm. by rewrite Hm.
  - by split; [|intros (m & [=] & _)].
  - by split; [|intros (m & [=] & _)].
Qed.

(** The call activates a LUKS2 mapping. *)
Definition activates (name : string) {R} (e : sysop R) : bool :=
  match e with
  | CryptActivate (Some n) _ _ _ => bool_decide (n = name)
  | _ => false
  end.

Lemma run_unit_activates name program args :
  all_ops (fun _ e => activates name e = false) (run_unit program args).
Proof. unfold run_unit. all_ops. by apply all_ops_run_cmd. Qed.

Lemma rootfs_crypt_activates c :
  all_ops (fun _ e => activates DELTA_NAME e = false) (setup_rootfs_dm_crypt c).
Proof.
  unfold setup_rootfs_dm_crypt, open_with_check_passphrase, check_passphrase.
  all_ops; try done; try (by apply all_ops_ensure_module_loaded).
  eapply all_ops_weaken; [|apply get_key_ops]. by intros R [].
Qed.

Lemma load_metadata_activates name : all_ops (fun _ e => activates name e = false) load_metadata.
Proof. unfold load_metadata, load_metadata_from_file, read_toml. all_ops; done. Qed.

(** With the overlayfs backend and the delta in memory the first stage of
    the boot never activates the delta mapping, yet the second stage only
    succeeds once it has mounted it. *)
Theorem overlayfs_ram_needs_delta b c :
  bundle_fde b = Some c -> fde_backend c = Overlayfs -> fde_location c = Ram ->
  all_ops (fun _ e => activates DELTA_NAME e = false)
    (setup_volumes_required_by_fde (Ret (Ok b))) /\
  forall w w', run (setup_mounts_required_by_fde (Ret (Ok b))) w = (Ok tt, w') ->
    succeeded "mount" [DELTA_DEVICE; "/delta_volume"%string] (trace (setup_mounts_required_by_fde (Ret (Ok b))) w).
Proof.
  intros Hb Hk Hl. split.
  - unfold setup_volumes_required_by_fde.
    change (rpbind (get_fde_config (Ret (Ok b))) ?f) with (f (bundle_fde b)). cbv beta. rewrite Hb.
    unfold setup_delta. rewrite Hk, Hl. unfold setup_rootfs_dm_verity.
    all_ops; try (by apply run_unit_activates); try (by apply all_ops_ensure_module_loaded).
    + apply load_metadata_activates.
    + apply rootfs_crypt_activates.
    + done.
  - intros w w' Hrun. unfold setup_mounts_required_by_fde in *.
    apply rpbind_inv in Hrun as (fc & w0 & R0 & Hrun & ->). injection R0 as <- <-. rewrite Hb in *.
    apply succeeded_app_r. apply rpbind_inv in Hrun as (x1 & w1 & _ & Hrun & ->). apply succeeded_app_r.
    rewrite Hk in *. unfold setup_overlayfs_mounts in *.
    apply rpbind_inv in Hrun as (x2 & w2 & _ & Hrun & ->). apply succeeded_app_r.
    apply rpbind_inv in Hrun as (x3 & w3 & R3 & Hrun & ->). apply succeeded_app_l.
    by eapply run_unit_succeeded.
Qed.
End Mounts.

(** ** Configurations from untrusted sources *)

Section Measured.
Context `{Hex, FdeToml, Sha384} {W : Type} `{!Handler sysop W}.
Implicit Types (w : W).

(** The hash of the text of the bundle was extended into the runtime
    measurement. *)
Definition measured (b : FdeConfigBundle) (tr : list (event sysop)) : Prop :=
  exists content, bundle_to_toml b = Some content /\
    Ev (ExtendMeasurement AAEL_DOMAIN OPERATION_NAME_LOAD_CONFIG_UNTRUSTED (hex_encode (sha384 content))) (Ok tt) ∈ tr.

(** The attestation agent could not be reached. *)
Definition no_attestation_agent (tr : list (event sysop)) : Prop :=
  exists r, Ev (TtrpcConnect ATTESTATION_AGENT_TTRPC_SOCKET_DEFAULT_PATH) r ∈ tr /\ r <> Ok tt.

Lemma untrusted_measured w b w' :
  run (load_untrusted_config true) w = (Ok (Some b), w') ->
  measured b (trace (load_untrusted_config true) w) \/ no_attestation_agent (trace (load_untrusted_config true) w).
Proof.
  unfold load_untrusted_config. rewrite run_bind, trace_bind.
  destruct (run cloud_init_get_fde_config_bundle w) as [[cfg|e|] w1]; [|done..].
  unfold gen_hash_content. destruct (bundle_to_toml cfg) as [content|] eqn:Ec; [|done]. cbn [ok_or].
  change (rpbind (lift (Ok content)) ?f) with (f content). cbv beta. unfold measure_new, aael_new.
  cbn [pbind call run trace].
  destruct (handle (TtrpcConnect _) w1) as [r w2] eqn:Et.
  destruct r as [[]|e|]; cbn [pbind run trace extend_measurement_hash extend_measurement aael_extend_measurement call].
  2,3: intros _; right; eexists; split; [apply elem_of_app; right; by left|done].
  destruct (handle (ExtendMeasurement _ _ _) w2) as [[[]|e|] w3] eqn:Em; [|done..].
  intros [= <- _]. left. exists content. split; [done|].
  apply elem_of_app. right. right. by left.
Qed.

(** C30: the configuration the boot service loads comes from the files of the
    initrd, or its hash has been extended into the runtime measurement before
    it is used, or there is no attestation agent to extend it with. *)
Theorem untrusted_config_measured w b w' :
  run (load_fde_config_bundle true) w = (Ok b, w') ->
  (exists w1, run (fs_get_fde_config_bundle FDE_CONFIG_DIR_DEFAULT) w1 = (Ok b, w')) \/
  measured b (trace (load_fde_config_bundle true) w) \/
  no_attestation_agent (trace (load_fde_config_bundle true) w).
Proof.
  intros Hrun. unfold load_fde_config_bundle in *. apply rpbind_inv in Hrun as (u & w1 & R1 & Hrun & ->).
  destruct u as [cfg|].
  - injection Hrun as <- <-. right. rewrite app_nil_r. by eapply untrusted_measured.
  - left. exists w1. rewrite run_bind in Hrun.
    destruct (run (fs_get_fde_config_bundle _) w1) as [[cfg|e|] w2]; [|done..]. by injection Hrun as <- <-.
Qed.
End Measured.
