(* ===== verification/FdeInstances.v ===== *)
(** * The boot service of cryptpilot-fde: concrete runs

    The theorems of [FdeBootProofs] applied on [ToyMachine]. *)

From Stdlib Require Import Ascii.
From stdpp Require Import base list strings gmap.
From Stdlib Require Import ZArith Lia.
From S2P Require Import Prelude RustString Sys Cmd Luks2 Luks2Spec KeyProvider Mkfs ToyMachine.
From S2P Require Import CryptCmdProofs CryptInstances FdeConfig FdeBoot FdeBootProofs.
From S2P Require Import FileVerifier.

Local Open Scope Z_scope.

Definition exec_key : KeyProviderConfig := Exec (mkExec "/bin/key" []).

(** A delta volume under dm-snapshot, and a delta in memory under overlayfs. *)
Definition fde0 : FdeConfig :=
  mkFde (mkRootFs (Some Disk) None None) (mkDelta true exec_key).
Definition fde_ram : FdeConfig :=
  mkFde (mkRootFs (Some Ram) (Some Overlayfs) (Some exec_key)) (mkDelta true exec_key).
Definition bundle0 : FdeConfigBundle := mkBundle None (Some fde0).
Definition bundle_ram : FdeConfigBundle := mkBundle None (Some fde_ram).

Definition toy_fde_toml : FdeToml := {|
  toml_global := fun _ => None;
  toml_fde := fun _ => Some fde0;
  toml_bundle := fun _ => Some bundle0;
  toml_metadata := fun s => if bool_decide (s = "metadata"%string) then Some (mkMetadata 1 "ab") else None;
  bundle_to_toml := fun _ => Some "bundle"%string;
  initrd_state_to_toml := fun _ => Some "state"%string;
  toml_initrd_state := fun _ => Some bundle0;
|}.

Definition toy_sha384 : Sha384 := {| sha384 := as_bytes |}.

#[local] Existing Instances toy_hex toy_base64 toy_json_text toy_consts toy_fde_toml toy_sha384.

(** A disk with the logical volumes active and nothing on the delta volume. *)
Definition boot_machine : machine :=
  mkMachine ∅ ∅ [("cryptpilot-delta", "/dev/vda3"); ("cryptpilot-rootfs", "/dev/vda3")]%string []
    (<["/etc/cryptpilot/metadata.toml" := "metadata"%string]>
      (<["/etc/mtab" := "/dev/mapper/rootfs /sysroot ext4 ro 0 0"%string]>
        (<["user-data" := "#cryptpilot-fde-config"%string]> ∅)))
    (fun _ _ => Byte.x00).

Definition boot0 : M unit := setup_volumes_required_by_fde (Ret (Ok bundle0)).

Lemma rootfs_verified_witness :
  run boot0 boot_machine = (Ok tt, snd (run boot0 boot_machine)) /\
  snapshot_chain (trace boot0 boot_machine).
Proof.
  assert (E : run boot0 boot_machine = (Ok tt, snd (run boot0 boot_machine))).
  { apply run_pair. vm_compute. reflexivity. }
  split; [exact E|].
  apply (rootfs_verified bundle0 boot_machine (snd (run boot0 boot_machine))); [exact E|reflexivity].
Defined.

(** The machine after a first boot with a persistent delta. *)
Definition booted : machine := set_maps [] (set_subsystem DELTA_LOGICAL_VOLUME LUKS2_SUBSYSTEM_NAME boot_machine).

Lemma delta_reused_iff_witness :
  (forall n, luks_subsystem (snd (run_n n (setup_delta_volume_luks2 (fde_delta fde0) DiskPersist) booted)) DELTA_LOGICAL_VOLUME =
     luks_subsystem booted DELTA_LOGICAL_VOLUME /\
   forall k, unlocks (snd (run_n n (setup_delta_volume_luks2 (fde_delta fde0) DiskPersist) booted)) DELTA_LOGICAL_VOLUME k =
     unlocks booted DELTA_LOGICAL_VOLUME k) /\
  forall rc i w', run (setup_delta_volume_luks2 (fde_delta fde0) DiskPersist) booted = (Ok (rc, i), w') ->
    rc = false /\ i = delta_integrity_type (fde_delta fde0).
Proof.
  apply (delta_reused_iff (fde_delta fde0) DiskPersist booted); [reflexivity|].
  split; [reflexivity|]. split; [vm_compute; reflexivity|discriminate].
Defined.

(** The first boot creates the volume and reports it; the second reuses it. *)
Example delta_flags :
  fst (run (setup_delta_volume_luks2 (fde_delta fde0) DiskPersist) boot_machine) =
    Ok (true, delta_integrity_type (fde_delta fde0)) /\
  fst (run (setup_delta_volume_luks2 (fde_delta fde0) DiskPersist)
         (set_keys DELTA_LOGICAL_VOLUME [as_bytes "secret"] booted)) =
    Ok (false, delta_integrity_type (fde_delta fde0)).
Proof. vm_compute. repeat split. Qed.

Lemma delta_crash_safe_witness :
  not_ready (snd (run_n 12 (setup_disk_delta fde0 DmSnapshot Disk) boot_machine)) DELTA_LOGICAL_VOLUME \/
  fst (run_n 12 (setup_disk_delta fde0 DmSnapshot Disk) boot_machine) = Some (Ok tt).
Proof.
  apply (delta_crash_safe fde0 DmSnapshot Disk boot_machine 12).
  - reflexivity.
  - unfold not_ready. vm_compute. discriminate.
  - vm_compute. reflexivity.
Defined.

Lemma check_sysroot_spec_witness :
  run check_sysroot boot_machine = (Ok tt, boot_machine).
Proof.
  apply (check_sysroot_spec boot_machine boot_machine).
  exists "/dev/mapper/rootfs /sysroot ext4 ro 0 0"%string. split; [vm_compute; reflexivity|].
  exists [], "/dev/mapper/rootfs /sysroot ext4 ro 0 0"%string, []. split; [vm_compute; reflexivity|].
  split; [vm_compute; reflexivity|constructor].
Defined.

Lemma overlayfs_ram_needs_delta_witness :
  all_ops (fun _ e => activates DELTA_NAME e = false) (setup_volumes_required_by_fde (Ret (Ok bundle_ram))) /\
  succeeded "mount" [DELTA_DEVICE; "/delta_volume"%string]
    (trace (setup_mounts_required_by_fde (Ret (Ok bundle_ram))) boot_machine).
Proof.
  destruct (overlayfs_ram_needs_delta (W := machine) bundle_ram fde_ram) as [H1 H2];
    [reflexivity|reflexivity|reflexivity|].
  split; [exact H1|].
  apply (H2 boot_machine (snd (run (setup_mounts_required_by_fde (Ret (Ok bundle_ram))) boot_machine))).
  apply run_pair. vm_compute. reflexivity.
Defined.

Lemma untrusted_config_measured_witness :
  fst (run (load_fde_config_bundle true) boot_machine) = Ok bundle0 /\
  ((exists w1, run (fs_get_fde_config_bundle FDE_CONFIG_DIR_DEFAULT) w1
      = (Ok bundle0, snd (run (load_fde_config_bundle true) boot_machine))) \/
   measured bundle0 (trace (load_fde_config_bundle true) boot_machine) \/
   no_attestation_agent (trace (load_fde_config_bundle true) boot_machine)).
Proof.
  assert (E : fst (run (load_fde_config_bundle true) boot_machine) = Ok bundle0) by (vm_compute; reflexivity).
  split; [exact E|].
  apply (untrusted_config_measured boot_machine bundle0 (snd (run (load_fde_config_bundle true) boot_machine))).
  apply run_pair. exact E.
Defined.
