(* ===== verification/GrubConfig.v ===== *)
(** * GRUB configuration texts

    The texts [cryptpilot-fde/src/disk/grub.rs] reads: the environment block,
    the menu of grub.cfg and the loader entries, with the substitution of the
    environment variables in them; and the names of partitions in
    [disk/mod.rs] and [disk/partition_table.rs]. *)

From Stdlib Require Import Ascii.
From stdpp Require Import base list strings gmap pretty.
From Stdlib Require Import ZArith Lia.
From S2P Require Import Prelude RustString Sys.

Local Open Scope Z_scope.

(** ** The environment *)

Definition QUOTATION : ascii := ascii_of_nat 34.

(** [HashMap::insert] for every [key=value] line. *)
Definition env_line (vars : gmap string string) (line : string) : gmap string string :=
  match find "=" line with
  | Some eq_pos => <[first_n eq_pos line := skip (S eq_pos) line]> vars
  | None => vars
  end.

(** [if !vars.contains_key(k) { vars.insert(k, v) }] *)
Definition insert_default (k v : string) (vars : gmap string string) : gmap string string :=
  match vars !! k with
  | Some _ => vars
  | None => <[k := v]> vars
  end.

Definition opts_value (opts : string) : string := trim_matches QUOTATION (trim opts).

(** The first definition of kernelopts at the start of a line. *)
Fixpoint cfg_kernelopts (ls : list string) : option string :=
  match ls with
  | [] => None
  | line :: ls =>
    if contains line "set kernelopts="
    then match str_strip_prefix line "set kernelopts=" with
         | Some opts => Some (opts_value opts)
         | None => cfg_kernelopts ls
         end
    else cfg_kernelopts ls
  end.

Definition BACKSLASH : ascii := ascii_of_nat 92.

(** The test of kernelopts being empty, as the code spells it: with a
    backslash before each of its two quotation marks. *)
Definition kernelopts_test : string :=
  "if [ -z " +:+ String BACKSLASH (String QUOTATION "${kernelopts}") +:+
  String BACKSLASH (String QUOTATION " ]; then").

(** The definition on the line after the test. *)
Fixpoint cfg_fallback_kernelopts (ls : list string) : option string :=
  match ls with
  | [] => None
  | line :: rest =>
    if contains line kernelopts_test
    then match rest with
         | next_line :: _ =>
           if contains next_line "set kernelopts="
           then match str_strip_prefix next_line "  set kernelopts=" with
                | Some opts => Some (opts_value opts)
                | None => cfg_fallback_kernelopts rest
                end
           else cfg_fallback_kernelopts rest
         | [] => cfg_fallback_kernelopts rest
         end
    else cfg_fallback_kernelopts rest
  end.

Definition insert_found (k : string) (v : option string) (vars : gmap string string) : gmap string string :=
  match v with
  | Some v => <[k := v]> vars
  | None => vars
  end.

Definition parse_grub_env_vars (grub_env grub_cfg : string) : gmap string string :=
  let vars := foldl env_line ∅ (lines grub_env) in
  let vars := insert_default "tuned_params" "" vars in
  let vars := insert_default "tuned_initrd" "" vars in
  match vars !! "kernelopts" with
  | Some _ => vars
  | None =>
    let vars := insert_found "kernelopts" (cfg_kernelopts (lines grub_cfg)) vars in
    insert_found "kernelopts" (cfg_fallback_kernelopts (lines grub_cfg)) vars
  end.

(** ** grub.cfg *)

(** The kernel and initrd lines of an entry. *)
Record EntryLines := mkEntryLines {
  kernel_line : option string;
  initrd_line : option string;
}.

Definition entry_line (acc : EntryLines) (trimmed : string) : EntryLines :=
  if starts_with trimmed "linux" || starts_with trimmed "linuxefi"
  then mkEntryLines (Some trimmed) (initrd_line acc)
  else if starts_with trimmed "initrd" || starts_with trimmed "initrdefi"
  then mkEntryLines (kernel_line acc) (Some trimmed)
  else acc.

Definition opens_entry (saved_entry line : string) : bool :=
  starts_with line "menuentry" && contains line saved_entry.

(** The loop over the lines, [line.trim()] each. *)
Fixpoint scan_entry (saved_entry : string) (in_target_entry : bool) (acc : EntryLines) (ls : list string) :
    EntryLines :=
  match ls with
  | [] => acc
  | line :: ls =>
    let line := trim line in
    if opens_entry saved_entry line then scan_entry saved_entry true acc ls
    else if in_target_entry && bool_decide (line = "}") then acc
    else if in_target_entry then scan_entry saved_entry in_target_entry (entry_line acc (trim line)) ls
    else scan_entry saved_entry in_target_entry acc ls
  end.

(** [if let Some(path) = p.strip_prefix('/') { if !p.starts_with("/boot") ... }] *)
Definition under_boot (p : string) : string :=
  match str_strip_prefix p "/" with
  | Some path => if starts_with p "/boot" then p else "/boot/" +:+ path
  | None => p
  end.

(** The second word of a line, and the words after it. *)
Definition line_path (l : option string) : string :=
  match l with
  | Some l => default "" (split_whitespace l !! 1%nat)
  | None => ""
  end.

Definition line_rest (l : option string) : string :=
  match l with
  | Some l => String.concat " " (drop 2 (split_whitespace l))
  | None => ""
  end.

(** The part of a saved entry after the last [>]. *)
Definition entry_title (saved_entry : string) : string :=
  if contains saved_entry ">"
  then match rsplit_once ">" saved_entry with Some (_, last) => last | None => saved_entry end
  else saved_entry.

(** The kernel, the initrd and the command line of the entry. *)
Definition load_from_grub_cfg (saved_entry grub_cfg : string) : string * string * string :=
  let e := scan_entry (entry_title saved_entry) false (mkEntryLines None None) (lines grub_cfg) in
  (under_boot (line_path (kernel_line e)), under_boot (line_path (initrd_line e)),
   trim (replace (line_rest (kernel_line e)) "  " " ")).

(** ** Loader entries *)

(** What follows the keyword of a line. *)
Definition field_value (line : string) : string :=
  trim (default "" (snd <$> split_once " " line)).

Record LoaderEntry := mkLoaderEntry {
  le_kernel : string;
  le_cmdline : string;
  le_initrd : string;
}.

Definition loader_line (e : LoaderEntry) (line : string) : LoaderEntry :=
  if starts_with line "linux " then mkLoaderEntry (field_value line) (le_cmdline e) (le_initrd e)
  else if starts_with line "options " then mkLoaderEntry (le_kernel e) (field_value line) (le_initrd e)
  else if starts_with line "initrd " then mkLoaderEntry (le_kernel e) (le_cmdline e) (field_value line)
  else e.

Definition parse_loader_entry (content : string) : LoaderEntry :=
  foldl loader_line (mkLoaderEntry "" "" "") (lines content).

(** The substitution of the variables one after the other, in the order the
    map is iterated in. *)
Definition substitute (vars : list (string * string)) (s : string) : string :=
  foldl (fun s '(key, value) => replace s (String "$" key) value) s vars.

(** [if let Some(pos) = p.find(' ') { p = p[..pos] }] *)
Definition cut_at_space (p : string) : string :=
  match find " " p with
  | Some space_pos => first_n space_pos p
  | None => p
  end.

Definition expand_loader_entry (vars : list (string * string)) (e : LoaderEntry) : string * string * string :=
  (cut_at_space (le_kernel e), cut_at_space (substitute vars (le_initrd e)),
   trim (replace (substitute vars (le_cmdline e)) "  " " ")).

(** ** Partitions *)

Inductive PartitionTableType := Mbr | Gpt.

#[global] Instance PartitionTableType_eq_dec : EqDecision PartitionTableType.
Proof. solve_decision. Defined.

(** The label in the output of [fdisk -l]. *)
Fixpoint partition_table_of (ls : list string) : PartitionTableType :=
  match ls with
  | [] => Gpt
  | line :: ls =>
    if contains line "Disklabel type: gpt" then Gpt
    else if contains line "Disklabel type: dos" then Mbr
    else partition_table_of ls
  end.

Definition get_disk_root_device (part_dev : string) : string :=
  match rfind_digit part_dev with
  | Some pos =>
    let disk := first_n pos part_dev in
    if ends_with disk "p" then first_n (String.length disk - 1) disk else disk
  | None => part_dev
  end.

(** [(hd0,gpt3)] *)
Definition device_identifier (partition_type : PartitionTableType) (boot_dir_dev : string) : option string :=
  match parse_u32 (trailing_digits boot_dir_dev) with
  | Some n =>
    Some match partition_type with
         | Gpt => "(hd0,gpt" +:+ pretty n +:+ ")"
         | Mbr => "(hd0,msdos" +:+ pretty n +:+ ")"
         end
  | None => None
  end.

(** The command lines the kernel may be booted with. *)
Definition kernel_cmdline_shorter (kernel_path cmdline : string) : string :=
  default kernel_path (str_strip_prefix kernel_path "/boot") +:+ " " +:+ cmdline.

Definition kernel_cmdline_with_device (device kernel_path cmdline : string) : string :=
  device +:+ kernel_path +:+ " " +:+ cmdline.

(** ** Examples *)

Definition nl : string := String (ascii_of_nat 10) "".

Example loader_entry_example :
  expand_loader_entry [("tuned_params", ""); ("kernelopts", "ro quiet")]
    (parse_loader_entry ("title A" +:+ nl +:+ "linux /vmlinuz-1" +:+ nl +:+
      "options $kernelopts $tuned_params  x" +:+ nl +:+ "initrd /initrd-1.img $tuned_initrd"))
  = ("/vmlinuz-1", "/initrd-1.img", "ro quiet  x")%string.
Proof. reflexivity. Qed.

Example grub_cfg_example :
  load_from_grub_cfg "a>Linux 2"
    ("menuentry 'Linux 1' {" +:+ nl +:+ "  linux /vmlinuz-1 ro" +:+ nl +:+ "}" +:+ nl +:+
     "menuentry 'Linux 2' {" +:+ nl +:+ "  linux /vmlinuz-2   ro  quiet" +:+ nl +:+ "  initrd /initrd-2" +:+ nl +:+
     "}" +:+ nl)
  = ("/boot/vmlinuz-2", "/boot/initrd-2", "ro quiet")%string.
Proof. vm_compute. reflexivity. Qed.
