(* ===== verification/GrubProofs.v ===== *)
(** * GRUB configuration texts: properties

    The substitution of variables is the simultaneous one and does not depend
    on the order of the map, under conditions on the names; the menu entry of
    grub.cfg that is used; the disk of a partition. *)

From Stdlib Require Import Ascii.
From stdpp Require Import base list strings gmap pretty.
From Stdlib Require Import ZArith Lia.
From S2P Require Import Prelude RustPath RustString Sys GrubConfig.

(** ** Prefixes *)

Lemma starts_with_refl s : starts_with s s = true.
Proof. rewrite <- (string_app_nil_r s) at 1. apply starts_with_app. Qed.

(** A pattern that the text is not a proper prefix of occurs at the start of
    the text however it goes on. *)
Lemma starts_with_extend s rest n :
  (starts_with n s = true -> n = s) -> starts_with (s +:+ rest) n = starts_with s n.
Proof.
  revert n. induction s as [|a s IH]; intros n Hn.
  - destruct n as [|b n]; [by destruct rest|]. discriminate (Hn eq_refl).
  - destruct n as [|b n]; [done|]. rewrite string_cons_app. cbn [starts_with].
    destruct (Ascii.eqb_spec b a) as [->|Hb]; [|done]. cbn [andb]. apply IH. intros Hs.
    cbn [starts_with] in Hn. rewrite Ascii.eqb_refl, Hs in Hn. by injection (Hn eq_refl) as ->.
Qed.

(** Two prefixes of a text are prefixes of one another. *)
Lemma starts_with_compare s n1 n2 :
  starts_with s n1 = true -> starts_with s n2 = true ->
  starts_with n1 n2 = true \/ starts_with n2 n1 = true.
Proof.
  revert n1 n2. induction s as [|a s IH]; intros [|b1 n1] [|b2 n2] H1 H2; try done; try (by left); try (by right).
  cbn [starts_with] in *. apply andb_true_iff in H1 as [->%Ascii.eqb_eq H1], H2 as [->%Ascii.eqb_eq H2].
  rewrite Ascii.eqb_refl. cbn [andb]. by apply IH.
Qed.

Lemma no_sep_skip sep n s : no_sep sep s = true -> no_sep sep (skip n s) = true.
Proof.
  revert n. induction s as [|a s IH]; intros n Hs; [by destruct n|].
  destruct n as [|n]; [done|]. simpl in *. apply andb_true_iff in Hs as [_ Hs]. by apply IH.
Qed.

(** ** Texts with variables *)

Definition dollar_free (s : string) : bool := no_sep "$"%char s.

(** A text is cut at its dollars; a part is replaced text, or a dollar with
    the text up to the next one. *)
Inductive part := Plain (t : string) | Var (seg : string).

Definition render_part (p : part) : string :=
  match p with Plain t => t | Var seg => String "$" seg end.

Fixpoint render (ps : list part) : string :=
  match ps with
  | [] => ""
  | p :: ps => render_part p +:+ render ps
  end.

Definition parts_of (s : string) : list part :=
  match split_on "$" "" s with
  | first :: segs => Plain first :: map Var segs
  | [] => []
  end.

Lemma split_on_render sep acc s :
  exists first segs, split_on sep acc s = (acc +:+ first) :: segs /\
    s = first +:+ foldr (fun seg r => String sep seg +:+ r) "" segs /\
    no_sep sep first = true /\ Forall (fun seg => no_sep sep seg = true) segs.
Proof.
  revert acc. induction s as [|a s IH]; intros acc.
  - exists "", []. by rewrite string_app_nil_r.
  - cbn [split_on]. destruct (Ascii.eqb_spec a sep) as [->|Ha].
    + destruct (IH "") as (first & segs & -> & Es & Hf & Hs). exists "", (first :: segs).
      rewrite string_app_nil_r. split; [done|]. split; [|by auto]. simpl. rewrite string_cons_app. by rewrite <- Es.
    + destruct (IH (acc +:+ String a "")) as (first & segs & -> & Es & Hf & Hs).
      exists (String a first), segs. rewrite <- string_app_assoc. split; [done|].
      split; [rewrite string_cons_app; by rewrite <- Es|]. split; [|done].
      simpl. rewrite Hf, andb_true_r. apply negb_true_iff, bool_decide_eq_false. done.
Qed.

(** What is asked of the parts for the names of variables [ns]. *)
Definition part_ok (ns : list string) (p : part) : Prop :=
  match p with
  | Plain t => dollar_free t = true
  | Var seg => dollar_free seg = true /\ forall n, n ∈ ns -> starts_with n seg = true -> n = seg
  end.

Lemma render_parts_of s : render (parts_of s) = s.
Proof.
  unfold parts_of. destruct (split_on_render "$"%char "" s) as (first & segs & -> & Es & _).
  transitivity (first +:+ foldr (fun seg r => String "$" seg +:+ r) "" segs); [|done].
  simpl. clear. f_equal. induction segs as [|seg segs IH]; [done|]. simpl. by rewrite IH.
Qed.

(** ** One replacement *)

Definition step (n v : string) (p : part) : part :=
  match p with
  | Plain t => Plain t
  | Var seg => if starts_with seg n then Plain (v +:+ skip (String.length n) seg) else Var seg
  end.

Lemma replace_go_plain n v t s :
  dollar_free t = true -> replace_go (String "$" n) v 0 (t +:+ s) = t +:+ replace_go (String "$" n) v 0 s.
Proof.
  induction t as [|a t IH]; [done|]. unfold dollar_free. cbn [no_sep]. intros [Ha Ht]%andb_true_iff.
  rewrite !string_cons_app. cbn [replace_go starts_with].
  assert (Ascii.eqb "$" a = false) as ->.
  { apply Ascii.eqb_neq. intros <-. by rewrite bool_decide_eq_true_2 in Ha. }
  cbn [andb]. by rewrite IH.
Qed.

Lemma replace_go_skipping p v t s : replace_go p v (String.length t) (t +:+ s) = replace_go p v 0 s.
Proof. induction t as [|a t IH]; [done|]. rewrite string_cons_app. exact IH. Qed.

Lemma replace_go_var n v seg s :
  dollar_free seg = true -> (starts_with n seg = true -> n = seg) ->
  replace_go (String "$" n) v 0 (String "$" seg +:+ s) =
    render_part (step n v (Var seg)) +:+ replace_go (String "$" n) v 0 s.
Proof.
  intros Hd Hn. rewrite string_cons_app. cbn [replace_go starts_with step]. rewrite Ascii.eqb_refl. cbn [andb].
  rewrite starts_with_extend by done. destruct (starts_with seg n) eqn:E; cbn [render_part].
  - rewrite (starts_with_inv _ _ E) at 1. rewrite <- string_app_assoc.
    replace (String.length (String "$" n) - 1) with (String.length n) by (simpl; lia).
    rewrite replace_go_skipping, replace_go_plain by (by apply no_sep_skip). by rewrite string_app_assoc.
  - rewrite replace_go_plain by done. done.
Qed.

Lemma replace_render ns n v ps :
  n ∈ ns -> Forall (part_ok ns) ps -> replace (render ps) (String "$" n) v = render (map (step n v) ps).
Proof.
  intros Hn. unfold replace. induction 1 as [|p ps Hp _ IH]; [done|]. simpl.
  destruct p as [t|seg]; simpl in Hp.
  - simpl. rewrite replace_go_plain by done. by rewrite IH.
  - destruct Hp as [Hd Hs]. cbn [render_part]. rewrite replace_go_var by auto. by rewrite IH.
Qed.

Lemma step_ok ns n v p : dollar_free v = true -> part_ok ns p -> part_ok ns (step n v p).
Proof.
  intros Hv. destruct p as [t|seg]; [done|]. intros [Hd Hs]. simpl. destruct (starts_with seg n); [|done].
  simpl. unfold dollar_free in *. rewrite no_sep_app, Hv. by apply no_sep_skip.
Qed.

(** ** All replacements *)

Definition steps (vars : list (string * string)) (p : part) : part :=
  foldl (fun p '(n, v) => step n v p) p vars.

Lemma substitute_render ns vars ps :
  Forall (fun '(n, v) => n ∈ ns /\ dollar_free v = true) vars -> Forall (part_ok ns) ps ->
  substitute vars (render ps) = render (map (steps vars) ps).
Proof.
  intros Hv. revert ps. induction Hv as [|[n v] vars [Hn Hd] _ IH]; intros ps Hps.
  - simpl. by rewrite map_id.
  - unfold substitute. cbn [foldl]. rewrite (replace_render ns) by done.
    change (substitute vars (render (map (step n v) ps)) = render (map (steps ((n, v) :: vars)) ps)).
    rewrite IH; [by rewrite map_map|]. apply Forall_map. eapply Forall_impl; [exact Hps|]. intros p. by apply step_ok.
Qed.

(** The simultaneous substitution: every dollar is looked at once, and the
    first variable whose name follows it is replaced. *)
Definition substitute_seg (vars : list (string * string)) (seg : string) : string :=
  match List.find (fun '(n, _) => starts_with seg n) vars with
  | Some (n, v) => v +:+ skip (String.length n) seg
  | None => String "$" seg
  end.

Definition substitute_once (vars : list (string * string)) (s : string) : string :=
  match split_on "$" "" s with
  | first :: segs => first +:+ foldr (fun seg r => substitute_seg vars seg +:+ r) "" segs
  | [] => ""
  end.

Lemma steps_plain vars t : steps vars (Plain t) = Plain t.
Proof. unfold steps. induction vars as [|[n v] vars IH]; [done|]. exact IH. Qed.

Lemma steps_var vars seg : render_part (steps vars (Var seg)) = substitute_seg vars seg.
Proof.
  unfold substitute_seg. induction vars as [|[n v] vars IH]; [done|].
  unfold steps. cbn [foldl List.find step]. destruct (starts_with seg n); [|exact IH].
  change (render_part (steps vars (Plain (v +:+ skip (String.length n) seg))) = v +:+ skip (String.length n) seg).
  by rewrite steps_plain.
Qed.

(** The names and values hold no dollar, and no dollar of the text is followed
    by just a part of a name up to the next dollar. *)
Definition well_scoped (vars : list (string * string)) (s : string) : Prop :=
  Forall (fun '(n, v) => dollar_free n = true /\ dollar_free v = true) vars /\
  Forall (fun seg => forall n v, (n, v) ∈ vars -> starts_with n seg = true -> n = seg) (tail (split_on "$" "" s)).

(** No name is a prefix of another. *)
Definition prefix_free (vars : list (string * string)) : Prop :=
  forall x y, x ∈ vars -> y ∈ vars -> starts_with (fst x) (fst y) = true -> x = y.

Lemma substitute_is_once vars s : well_scoped vars s -> substitute vars s = substitute_once vars s.
Proof.
  intros [Hv Hs]. unfold substitute_once. rewrite <- (render_parts_of s) at 1. unfold parts_of.
  destruct (split_on_render "$"%char "" s) as (first & segs & E & _ & Hf & Hsegs). rewrite E in *. simpl in Hs.
  rewrite (substitute_render (map fst vars)).
  - cbn [map render]. rewrite steps_plain. cbn [render_part]. f_equal. clear.
    induction segs as [|seg segs IH]; [done|]. cbn [map render foldr]. by rewrite steps_var, IH.
  - apply Forall_forall. intros [n v] Hin. rewrite Forall_forall in Hv. destruct (Hv _ Hin) as [_ Hd].
    split; [|done]. apply list_elem_of_fmap. by exists (n, v).
  - constructor; [exact Hf|]. apply Forall_map, Forall_forall. intros seg Hseg.
    rewrite Forall_forall in Hsegs, Hs. split; [by apply Hsegs|]. intros n Hn.
    apply list_elem_of_fmap in Hn as ([n' v] & -> & Hin). by apply (Hs seg Hseg n' v).
Qed.

Lemma substitute_seg_perm vars vars' seg :
  prefix_free vars -> vars ≡ₚ vars' -> substitute_seg vars seg = substitute_seg vars' seg.
Proof.
  intros Hpf Hp. unfold substitute_seg.
  destruct (List.find _ vars) as [[n v]|] eqn:E1, (List.find _ vars') as [[n' v']|] eqn:E2; [| | |done].
  - apply List.find_some in E1 as [I1 S1], E2 as [I2 S2]. apply list_elem_of_In in I1, I2. rewrite <- Hp in I2.
    destruct (starts_with_compare _ _ _ S1 S2) as [H|H].
    + by specialize (Hpf _ _ I1 I2 H) as [= -> ->].
    + by specialize (Hpf _ _ I2 I1 H) as [= -> ->].
  - apply List.find_some in E1 as [I1 S1]. apply list_elem_of_In in I1. rewrite Hp in I1.
    apply list_elem_of_In in I1. apply (List.find_none _ _ E2) in I1. simpl in I1. congruence.
  - apply List.find_some in E2 as [I2 S2]. apply list_elem_of_In in I2. rewrite <- Hp in I2.
    apply list_elem_of_In in I2. apply (List.find_none _ _ E1) in I2. simpl in I2. congruence.
Qed.

Lemma well_scoped_perm vars vars' s : vars ≡ₚ vars' -> well_scoped vars s -> well_scoped vars' s.
Proof.
  intros Hp [H1 H2]. split; [by rewrite <- Hp|]. eapply Forall_impl; [exact H2|].
  intros seg H n v Hin. apply (H n v). by rewrite Hp.
Qed.

(** C40: substituting the GRUB variables one after the other, as the code does,
    is the simultaneous substitution, and whatever order the map of variables
    is iterated in the text is the same; provided that names and values hold
    no dollar, no name is a prefix of another and no dollar of the text is
    followed, up to the next dollar or the end, by only a (possibly empty)
    beginning of a name. *)
Theorem substitute_simultaneous vars vars' s :
  well_scoped vars s -> prefix_free vars -> vars ≡ₚ vars' ->
  substitute vars s = substitute_once vars s /\ substitute vars' s = substitute vars s.
Proof.
  intros Hw Hpf Hp. rewrite (substitute_is_once vars) by done. split; [done|].
  rewrite (substitute_is_once vars') by (by eapply well_scoped_perm). unfold substitute_once.
  destruct (split_on "$" "" s) as [|first segs]; [done|]. f_equal.
  induction segs as [|seg segs IH]; [done|]. cbn [foldr]. by rewrite (substitute_seg_perm vars vars') , IH.
Qed.

(** The order matters without the conditions: the name [a] is a prefix of the
    name [ab]. *)
Example substitute_order_matters :
  substitute [("a", "x"); ("ab", "y")]%string "$ab" = "xb"%string /\
  substitute [("ab", "y"); ("a", "x")]%string "$ab" = "y"%string.
Proof. split; reflexivity. Qed.

(** ** Menu entries *)

Definition trimmed_twice (l : string) : string := trim (trim l).

Lemma scan_entry_body t acc body close post :
  Forall (fun l => opens_entry t (trim l) = false /\ trim l <> "}"%string) body -> trim close = "}"%string ->
  scan_entry t true acc (body ++ close :: post) = foldl entry_line acc (map trimmed_twice body).
Proof.
  intros Hb Hc. revert acc. induction Hb as [|l body [Ho Hl] _ IH]; intros acc.
  - simpl. rewrite Hc. done.
  - cbn [app scan_entry map foldl]. rewrite Ho. cbn [andb]. rewrite bool_decide_eq_false_2 by done. apply IH.
Qed.

Lemma scan_entry_pre t acc pre m rest :
  Forall (fun l => opens_entry t (trim l) = false) pre -> opens_entry t (trim m) = true ->
  scan_entry t false acc (pre ++ m :: rest) = scan_entry t true acc rest.
Proof.
  intros Hp Hm. induction Hp as [|l pre Ho _ IH]; cbn [app scan_entry]; [by rewrite Hm|].
  rewrite Ho. exact IH.
Qed.

Definition is_kernel_line (l : string) : bool := starts_with l "linux".
Definition is_initrd_line (l : string) : bool := negb (is_kernel_line l) && starts_with l "initrd".

Lemma starts_with_weaken l p q : starts_with l (p +:+ q) = true -> starts_with l p = true.
Proof.
  intros H. rewrite (starts_with_inv _ _ H), <- string_app_assoc. apply starts_with_app.
Qed.

Lemma entry_line_spec acc l :
  entry_line acc l = mkEntryLines (if is_kernel_line l then Some l else kernel_line acc)
                                  (if is_initrd_line l then Some l else initrd_line acc).
Proof.
  unfold entry_line, is_initrd_line, is_kernel_line.
  destruct (starts_with l "linux") eqn:E; [done|]. cbn [orb negb andb].
  assert (starts_with l "linuxefi" = false) as ->.
  { apply not_true_is_false. intros H. by rewrite (starts_with_weaken l "linux" "efi" H) in E. }
  destruct (starts_with l "initrd") eqn:E2; [done|]. cbn [orb].
  assert (starts_with l "initrdefi" = false) as ->.
  { apply not_true_is_false. intros H. by rewrite (starts_with_weaken l "initrd" "efi" H) in E2. }
  by destruct acc.
Qed.

Lemma last_filter_cons (f : string -> bool) l ls d :
  default (if f l then Some l else d) (Some <$> last (List.filter f ls)) =
  default d (Some <$> last (List.filter f (l :: ls))).
Proof.
  cbn [List.filter]. destruct (f l); [|done]. rewrite last_cons. by destruct (last (List.filter f ls)).
Qed.

Lemma entry_lines_last acc ls :
  foldl entry_line acc ls =
    mkEntryLines (default (kernel_line acc) (Some <$> last (List.filter is_kernel_line ls)))
                 (default (initrd_line acc) (Some <$> last (List.filter is_initrd_line ls))).
Proof.
  revert acc. induction ls as [|l ls IH]; intros acc; [by destruct acc|].
  cbn [foldl]. rewrite IH, entry_line_spec. cbn [kernel_line initrd_line]. by rewrite !last_filter_cons.
Qed.

(** The kernel and the initrd of grub.cfg are those of the first menu entry
    whose line contains the title of the saved entry: the last linux line and
    the last initrd line before its closing brace, whatever follows. *)
Theorem grub_menu_entry saved_entry grub_cfg pre m body close post :
  let t := entry_title saved_entry in
  lines grub_cfg = pre ++ m :: body ++ close :: post ->
  Forall (fun l => opens_entry t (trim l) = false) pre -> opens_entry t (trim m) = true ->
  Forall (fun l => opens_entry t (trim l) = false /\ trim l <> "}"%string) body -> trim close = "}"%string ->
  let ls := map trimmed_twice body in
  let kernel := last (List.filter is_kernel_line ls) in
  load_from_grub_cfg saved_entry grub_cfg =
    (under_boot (line_path kernel), under_boot (line_path (last (List.filter is_initrd_line ls))),
     trim (replace (line_rest kernel) "  " " ")).
Proof.
  intros t Hls Hpre Hm Hbody Hclose. unfold load_from_grub_cfg. cbv zeta. fold t.
  rewrite Hls, scan_entry_pre, scan_entry_body, entry_lines_last by done. cbn [kernel_line initrd_line].
  by destruct (last (List.filter is_kernel_line _)), (last (List.filter is_initrd_line _)).
Qed.

(** ** Partitions *)

Lemma rfind_digit_last d x : is_ascii_digit x = true -> rfind_digit (d +:+ String x "") = Some (String.length d).
Proof.
  intros Hx. induction d as [|a d IH]; [simpl; by rewrite Hx|].
  rewrite string_cons_app. cbn [rfind_digit]. by rewrite IH.
Qed.

Lemma ends_with_last d a c : ends_with (d +:+ String a "") (String c "") = Ascii.eqb a c.
Proof.
  unfold ends_with. rewrite string_length_app. simpl String.length.
  replace (1 <=? String.length d + 1) with true by (symmetry; apply Nat.leb_le; lia).
  replace (String.length d + 1 - 1) with (String.length d) by lia. rewrite skip_app.
  destruct (Ascii.eqb_spec a c) as [->|H].
  - by rewrite bool_decide_eq_true_2.
  - rewrite bool_decide_eq_false_2; [done|]. congruence.
Qed.

Lemma first_n_last d a : first_n (String.length (d +:+ String a "") - 1) (d +:+ String a "") = d.
Proof.
  rewrite string_length_app. simpl String.length. replace (String.length d + 1 - 1) with (String.length d) by lia.
  apply first_n_app.
Qed.

(** The disk of a partition device: the name without its one-digit
    partition number, and without the p before it that separates the number
    from a disk name; of a partition number with more digits only the last one
    is removed, which leaves the name of another partition. *)
Theorem disk_of_partition d a x y :
  is_ascii_digit x = true -> is_ascii_digit y = true ->
  (a <> "p"%char ->
   get_disk_root_device (d +:+ String a (String x "")) = d +:+ String a "") /\
  get_disk_root_device (d +:+ String "p" (String x "")) = d /\
  get_disk_root_device (d +:+ String x (String y "")) = d +:+ String x "".
Proof.
  intros Hx Hy.
  assert (H : forall b z, is_ascii_digit z = true ->
    get_disk_root_device (d +:+ String b (String z "")) = if Ascii.eqb b "p" then d else d +:+ String b "").
  { intros b z Hz. unfold get_disk_root_device.
    change (String b (String z "")) with (String b "" +:+ String z ""). rewrite string_app_assoc.
    rewrite rfind_digit_last by done. cbv zeta. rewrite first_n_app, ends_with_last, first_n_last. done. }
  split; [|split].
  - intros Ha. rewrite H by done. by destruct (Ascii.eqb_spec a "p").
  - by rewrite H.
  - rewrite H by done. destruct (Ascii.eqb_spec x "p") as [->|]; done.
Qed.

(** ** The environment block *)

Definition NL : ascii := ascii_of_nat 10.
Definition CR : ascii := ascii_of_nat 13.

(** A text without line ends. *)
Definition one_line (s : string) : bool := no_sep NL s && no_sep CR s.

Lemma split_on_app sep acc c rest :
  no_sep sep c = true -> split_on sep acc (c +:+ String sep rest) = (acc +:+ c) :: split_on sep "" rest.
Proof.
  revert acc. induction c as [|a c IH]; intros acc Hc.
  - cbn [split_on]. change ("" +:+ String sep rest) with (String sep rest). cbn [split_on].
    by rewrite Ascii.eqb_refl, string_app_nil_r.
  - cbn [no_sep] in Hc. apply andb_true_iff in Hc as [Ha Hc]. rewrite string_cons_app. cbn [split_on].
    destruct (Ascii.eqb_spec a sep) as [->|_]; [by rewrite bool_decide_eq_true_2 in Ha|].
    rewrite IH by done. by rewrite <- string_app_assoc.
Qed.

(** Each text on a line of its own. *)
Definition unlines (ls : list string) : string := foldr (fun l r => l +:+ String NL r) "" ls.

Lemma split_unlines ls :
  Forall (fun l => one_line l = true) ls -> split_on NL "" (unlines ls) = ls ++ [""%string].
Proof.
  induction 1 as [|l ls Hl _ IH]; [done|]. cbn [unlines foldr]. apply andb_true_iff in Hl as [Hl _].
  rewrite split_on_app by done. fold (unlines ls). by rewrite IH.
Qed.

Lemma no_cr_suffix l : no_sep CR l = true -> ends_with l (String CR "") = false.
Proof.
  intros Hl. unfold ends_with. apply andb_false_iff.
  destruct (String.length (String CR "") <=? String.length l)%nat; [right|by left].
  apply bool_decide_eq_false. intros E.
  assert (Hs := no_sep_skip CR (String.length l - String.length (String CR "")) l Hl). by rewrite E in Hs.
Qed.

Lemma lines_unlines ls : Forall (fun l => one_line l = true) ls -> lines (unlines ls) = ls.
Proof.
  intros Hls. unfold lines. fold NL. rewrite split_unlines by done. rewrite last_snoc, removelast_last.
  induction Hls as [|l ls Hl _ IH]; [done|]. cbn [map]. rewrite IH. f_equal.
  apply andb_true_iff in Hl as [_ Hl]. unfold str_strip_suffix. fold CR. by rewrite no_cr_suffix.
Qed.

Definition env_text (vars : list (string * string)) : string :=
  unlines (map (fun '(k, v) => k +:+ "=" +:+ v) vars).

Lemma find_eq k v : no_sep "="%char k = true -> find "=" (k +:+ "=" +:+ v) = Some (String.length k).
Proof.
  intros Hk. induction k as [|a k IH].
  - change ("" +:+ "=" +:+ v) with (String "="%char v). by destruct v.
  - cbn [no_sep] in Hk. apply andb_true_iff in Hk as [Ha Hk]. rewrite string_cons_app. cbn [find starts_with].
    destruct (Ascii.eqb_spec "="%char a) as [<-|_]; [by rewrite bool_decide_eq_true_2 in Ha|].
    cbn [andb]. by rewrite IH.
Qed.

Lemma env_line_eq vars k v :
  no_sep "="%char k = true -> env_line vars (k +:+ "=" +:+ v) = <[k := v]> vars.
Proof.
  intros Hk. unfold env_line. rewrite find_eq by done. rewrite first_n_app.
  change (skip (S (String.length k)) (k +:+ "=" +:+ v)) with (skip (S (String.length k)) (k +:+ String "=" v)).
  replace (k +:+ String "=" v) with ((k +:+ String "=" "") +:+ v) by (by rewrite <- string_app_assoc).
  replace (S (String.length k)) with (String.length (k +:+ String "=" "")) by (rewrite string_length_app; simpl; lia).
  by rewrite skip_app.
Qed.

Definition env_entry_ok (kv : string * string) : Prop :=
  no_sep "="%char (fst kv) = true /\ one_line (fst kv) = true /\ one_line (snd kv) = true.

Lemma env_fold vars m : Forall env_entry_ok vars ->
  foldl env_line m (map (fun '(k, v) => k +:+ "=" +:+ v) vars) = foldl (fun m '(k, v) => <[k := v]> m) m vars.
Proof.
  intros Hv. revert m. induction Hv as [|[k v] vars [Hk _] _ IH]; intros m; [done|].
  cbn [map foldl]. by rewrite env_line_eq, IH.
Qed.

Lemma foldl_insert_lookup (vars : list (string * string)) (m : gmap string string) k v :
  NoDup vars.*1 ->
  (foldl (fun m '(k, v) => <[k := v]> m) m vars) !! k = Some v <->
  (k, v) ∈ vars \/ (~ (k ∈ vars.*1) /\ m !! k = Some v).
Proof.
  revert m. induction vars as [|[k' v'] vars IH]; intros m Hn.
  - simpl. split; [right; set_solver|]. intros [H|[_ H]]; [by apply elem_of_nil in H|done].
  - cbn [fmap list_fmap fst] in Hn. apply NoDup_cons in Hn as [Hk' Hn]. cbn [foldl]. rewrite IH by done.
    destruct (decide (k = k')) as [->|Hne].
    + rewrite lookup_insert_eq. split.
      * intros [H|[_ [= ->]]]; left; [by right|by left].
      * intros [H|[H _]]; [|exfalso; apply H; cbn; by left]. apply elem_of_cons in H as [[= ->]|H]; [by right|by left].
    + rewrite lookup_insert_ne by done. assert (Ek : k ∈ ((k', v') :: vars).*1 <-> k ∈ vars.*1).
      { cbn [fmap list_fmap fst]. rewrite elem_of_cons. naive_solver. }
      rewrite Ek, elem_of_cons. naive_solver.
Qed.

Lemma insert_default_lookup k v m k' v' :
  m !! k' = Some v' -> insert_default k v m !! k' = Some v'.
Proof.
  intros H. unfold insert_default. destruct (m !! k) eqn:E; [done|].
  rewrite lookup_insert_ne; [done|]. congruence.
Qed.

(** The environment block is read back: every variable written as a
    [name=value] line has its value, whatever grub.cfg says. *)
Theorem grub_env_roundtrip vars grub_cfg k v :
  Forall env_entry_ok vars -> NoDup vars.*1 -> (k, v) ∈ vars ->
  parse_grub_env_vars (env_text vars) grub_cfg !! k = Some v.
Proof.
  intros Hv Hn Hin. unfold parse_grub_env_vars, env_text. rewrite lines_unlines, env_fold; [|done|].
  2:{ apply Forall_map. eapply Forall_impl; [exact Hv|]. intros [k0 v0] (_ & H1 & H2). cbn [fst snd] in *.
      unfold one_line in *. rewrite !no_sep_app. apply andb_true_iff in H1 as [-> ->], H2 as [-> ->]. done. }
  assert (Hk : (foldl (fun m '(k, v) => <[k := v]> m) (∅ : gmap string string) vars) !! k = Some v).
  { apply foldl_insert_lookup; [done|by left]. }
  set (m := insert_default "tuned_initrd" "" _).
  assert (Hm : m !! k = Some v) by (by do 2 apply insert_default_lookup).
  destruct (m !! "kernelopts"%string) eqn:E; [done|].
  assert (Hne : k <> "kernelopts"%string) by congruence.
  assert (Hi : forall o (m' : gmap string string), m' !! k = Some v -> insert_found "kernelopts" o m' !! k = Some v).
  { intros [o|] m' H; [|done]. simpl. by rewrite lookup_insert_ne. }
  by do 2 apply Hi.
Qed.

(** ** The fallback for kernelopts *)

Lemma contains_no_sep sep p q s :
  no_sep sep s = true -> contains s (p +:+ String sep q) = false.
Proof.
  intros Hs. unfold contains. destruct (find _ s) as [n|] eqn:E; [|done].
  apply find_some in E as (Hf & _ & _). apply starts_with_inv in Hf.
  assert (H := no_sep_skip sep n s Hs). rewrite Hf, !no_sep_app in H. cbn [no_sep] in H.
  rewrite bool_decide_eq_true_2 in H by done. cbn [negb andb] in H. rewrite andb_false_r in H. by cbn in H.
Qed.

(** Without a backslash in grub.cfg the definition after the test is never
    found, and an indented definition is not found either. *)
Theorem kernelopts_not_found ls :
  Forall (fun l => no_sep BACKSLASH l = true /\ starts_with l "set kernelopts=" = false) ls ->
  cfg_kernelopts ls = None /\ cfg_fallback_kernelopts ls = None.
Proof.
  induction 1 as [|l ls [Hb Hs] _ [IH1 IH2]]; [done|]. split.
  - cbn [cfg_kernelopts]. unfold str_strip_prefix. rewrite Hs. by destruct (contains _ _).
  - cbn [cfg_fallback_kernelopts].
    assert (contains l kernelopts_test = false) as ->; [|exact IH2].
    exact (contains_no_sep BACKSLASH "if [ -z " _ l Hb).
Qed.
