(* ===== verification/Nbd.v ===== *)
(** * Temporary mounts and network block devices

    [cryptpilot-core/src/fs/mount.rs] and [nbd.rs]: a partition mounted on a
    temporary directory, a disk image connected to an nbd device, and the udev
    rule that keeps udev away from it.  What [Drop] does is a program of its
    own, to be run where the value goes out of scope. *)

From Stdlib Require Import Ascii.
From stdpp Require Import base list strings pretty.
From Stdlib Require Import ZArith Lia.
From S2P Require Import Prelude RustString Sys Cmd.

Local Open Scope Z_scope.

(** Cleaning up after a program that did not succeed: the locals that go out
    of scope at its [?]. *)
Definition on_error {A} (cleanup : sys unit) (p : M A) : M A :=
  let> r := p in
  match r with
  | Ok a => ok a
  | _ => let> _ := cleanup in lift r
  end.

(** ** mount.rs *)

Record TmpMountPoint := mkTmpMount {
  mount_dir : string;
  tmp_dev : string;
}.

(** [TempDir::drop]: the directory is removed with its content, errors are
    ignored. *)
Definition drop_temp_dir (dir : string) : sys unit :=
  let> _ := call (RemoveDirAll dir) in Ret tt.

Definition mount_args (dev : string) (writable : bool) (mount_point : string) : list string :=
  (if writable then [] else ["-o"; "ro"]) ++ [dev; mount_point].

Definition tmp_mount (dev : string) (writable : bool) : M TmpMountPoint :=
  let* mount_dir := call (TempDir "cryptpilot-mount-") in
  on_error (drop_temp_dir mount_dir)
    (let* _ := run_cmd (mkCommand "mount" (mount_args dev writable mount_dir)) in
     ok (mkTmpMount mount_dir dev)).

(** [TmpMountPoint::drop], and the drop of its directory. *)
Definition drop_mount (m : TmpMountPoint) : sys unit :=
  let> _ := run_cmd (mkCommand "umount" [mount_dir m]) in
  drop_temp_dir (mount_dir m).

(** A block in which a partition is mounted. *)
Definition with_mount {A} (dev : string) (body : string -> M A) : M A :=
  let* m := tmp_mount dev false in
  let> r := body (mount_dir m) in
  let> _ := drop_mount m in
  lift r.

(** ** nbd.rs *)

(** [UdevRule]: the file of the rule, none without udevadm. *)
Definition UdevRule : Type := option string.

Definition UDEV_RULES_DIR : string := "/run/udev/rules.d".
Definition LF : string := String (ascii_of_nat 10) "".
Definition QUOT : string := String (ascii_of_nat 34) "".

Definition udev_rule_text : string :=
  LF +:+ "# Device used by CryptPilot" +:+ LF +:+
  "ACTION==" +:+ QUOT +:+ "add|change" +:+ QUOT +:+ ", KERNEL==" +:+ QUOT +:+ "nbd*" +:+ QUOT +:+
  ", OPTIONS:=" +:+ QUOT +:+ "nowatch" +:+ QUOT +:+ LF +:+ "        ".

Definition install_ignore_nbd_rule : M UdevRule :=
  let> udevadm := call (Which "udevadm") in
  match udevadm with
  | None => ok None
  | Some _ =>
    let> exists_ := call (PathExists UDEV_RULES_DIR) in
    let* _ := (if negb exists_ then call (CreateDirAll UDEV_RULES_DIR) else ok tt) in
    let rule_path := join_str UDEV_RULES_DIR "99-cryptpilot-ignore.rules" in
    let* _ := call (CreateFile rule_path) in
    let* _ := call (WriteAll rule_path udev_rule_text) in
    let> reload := run_cmd (mkCommand "udevadm" ["control"; "--reload-rules"]) in
    let> _ := match reload with
              | Err _ => run_cmd (mkCommand "udevadm" ["settle"])
              | _ => run_cmd (mkCommand "udevadm" ["trigger"])
              end in
    ok (Some rule_path)
  end.

Definition drop_udev_rule (r : UdevRule) : sys unit :=
  match r with
  | None => Ret tt
  | Some rule_path =>
    let> _ := call (RemoveFile rule_path) in
    let> _ := run_cmd (mkCommand "udevadm" ["control"; "--reload-rules"]) in
    let> _ := run_cmd (mkCommand "udevadm" ["trigger"]) in
    Ret tt
  end.

Record NbdDevice := mkNbd {
  nbd_dev_num : Z;
  udev_rule : UdevRule;
}.

Definition nbd_num_path (i : Z) : string := "/dev/nbd" +:+ pretty i.
Definition nbd_path (d : NbdDevice) : string := nbd_num_path (nbd_dev_num d).

(** An nbd device of size zero is not connected. *)
Fixpoint first_free_nbd (nums : list Z) : M Z :=
  match nums with
  | [] => bail "No available NBD device"
  | i :: nums =>
    let> exists_ := call (PathExists (nbd_num_path i)) in
    if negb exists_ then first_free_nbd nums
    else
      let> blk_size := call (BlockDeviceSize (nbd_num_path i)) in
      match blk_size with
      | Ok (blk_size, _) => if blk_size =? 0 then ok i else first_free_nbd nums
      | Err _ => first_free_nbd nums
      | Panic => panic
      end
  end.

Definition get_avaliable : M Z :=
  let> loaded := call (PathExists "/dev/nbd0") in
  let> _ := (if negb loaded then ensure_module_loaded "nbd" ["max_part=8"] else Ret tt) in
  first_free_nbd (seqZ 0 100).

Definition holder_pattern (i : Z) : string :=
  "/sys/block/nbd" +:+ pretty i +:+ "/nbd" +:+ pretty i +:+ "p*/holders/*/dm/name".

(** The names of the device-mapper devices that hold the partitions. *)
Fixpoint holder_names (entries : list (result anyhow string)) : M (list string) :=
  match entries with
  | [] => ok []
  | entry :: entries =>
    let* entry := lift entry in
    let* dm_name := call (ReadToString entry) in
    let* rest := holder_names entries in
    ok (trim_end dm_name :: rest)
  end.

Definition remove_holder_dm_devices (d : NbdDevice) : M unit :=
  let* entries := call (Glob (holder_pattern (nbd_dev_num d))) in
  let* dm_names := holder_names entries in
  for_each dm_names (fun device_name => call (DmRemove device_name)).

(** [NbdDevice::drop], then the drop of its rule. *)
Definition drop_nbd (d : NbdDevice) : sys unit :=
  let> _ := run_cmd (mkCommand "qemu-nbd" ["--disconnect"; nbd_path d]) in
  let> _ := remove_holder_dm_devices d in
  drop_udev_rule (udev_rule d).

Definition nbd_connect (disk_img : string) : M NbdDevice :=
  let> exists_ := call (PathExists disk_img) in
  if negb exists_ then bail "Disk image does not exist"
  else
    let* nbd_dev_num := get_avaliable in
    let* udev_rule := install_ignore_nbd_rule in
    on_error (drop_udev_rule udev_rule)
      (let* _ := run_cmd (mkCommand "qemu-nbd"
         ["--connect"; nbd_num_path nbd_dev_num; "--discard=on"; "--detect-zeroes=unmap"; disk_img]) in
       let device := mkNbd nbd_dev_num udev_rule in
       let> _ := remove_holder_dm_devices device in
       ok device).
