(* ===== verification/FdeDisk.v ===== *)
(** * Boot artifacts and reference values

    [cryptpilot-fde/src/disk]: the interface of a disk, the disk of the running
    system and an external one, the artifacts GRUB or a unified kernel image
    boot with; [cmd/show_reference_value.rs] and [cmd/config] on top of them.
    Object files, Authenticode and the hash functions are parameters. *)

From Stdlib Require Import Ascii.
From stdpp Require Import base list strings gmap pretty.
From Stdlib Require Import ZArith Lia.
From S2P Require Import Prelude RustPath RustString Sys Cmd Luks2 KeyProvider FdeConfig GrubConfig Nbd.
From S2P Require Import FileVerifier.

Local Open Scope Z_scope.

(** ** Parameters *)

Inductive HashAlgo := Sha1 | Sha256 | Sha384Algo | Sm3.

#[global] Instance HashAlgo_eq_dec : EqDecision HashAlgo.
Proof. solve_decision. Defined.

Inductive BinaryFormat := Coff | Pe | OtherFormat.

(** [object::File]: its format, and [section_by_name] with what [data()] gives. *)
Record ObjectFile := mkObject {
  object_format : BinaryFormat;
  object_section : string -> option (option bytes);
}.

Class BinaryTools := {
  digest_of : HashAlgo -> bytes -> bytes;
  object_parse : bytes -> option ObjectFile;
  PeImage : Type;
  pe_parse64 : bytes -> option PeImage;
  pe_parse32 : bytes -> option PeImage;
  authenticode_digest : HashAlgo -> PeImage -> option bytes;
}.

(** The order in which a [HashMap] and a [HashSet] are iterated. *)
Class HashOrder := {
  map_order : gmap string string -> list (string * string);
  set_order : list string -> list string;
}.

Class HashOrderSpec `{HashOrder} := {
  map_order_perm m : map_order m ≡ₚ map_to_list m;
  set_order_perm l : set_order l ≡ₚ l;
}.

(** ** IndexMap *)

Definition IndexMap : Type := list (string * list string).

(** An inserted key keeps its place. *)
Fixpoint imap_insert (k : string) (v : list string) (m : IndexMap) : IndexMap :=
  match m with
  | [] => [(k, v)]
  | (k', v') :: m => if decide (k = k') then (k, v) :: m else (k', v') :: imap_insert k v m
  end.

Definition imap_lookup (k : string) (m : IndexMap) : option (list string) :=
  snd <$> List.find (fun e => bool_decide (fst e = k)) m.

(** ** kernel.rs, grub.rs: the artifacts *)

Record KernelArtifacts := mkKernel {
  kernel_cmdlines : list string;
  kernel_image : bytes;
  kernel_initrd : bytes;
}.

Record GrubArtifacts := mkGrub {
  efi_grub_dir : string;
  grub_data : bytes;
  shim_data : bytes;
  grub_env : option string;
  grub_cfg : option string;
}.

Record GrubBootArtifactsItem := mkItem {
  item_grub : GrubArtifacts;
  item_kernel : KernelArtifacts;
}.

Inductive BootArtifactsType :=
| GrubBoot (items : list GrubBootArtifactsItem)
| UkiBoot (uki_data : bytes).

Section Artifacts.
Context `{Hex, BinaryTools}.

Definition parse_pe (data : bytes) : option PeImage :=
  match pe_parse64 data with
  | Some pe => Some pe
  | None => pe_parse32 data
  end.

Definition calculate_authenticode_hash (T : HashAlgo) (data : bytes) : result anyhow string :=
  let? pe := ok_or (parse_pe data) Decode in
  let? h := ok_or (authenticode_digest T pe) Decode in
  Ok (hex_encode h).

Definition hash_hex (T : HashAlgo) (data : bytes) : string := hex_encode (digest_of T data).

(** [iter().map(f).collect::<Result<Vec<_>>>()] *)
Fixpoint collect {A B} (f : A -> result anyhow B) (l : list A) : result anyhow (list B) :=
  match l with
  | [] => Ok []
  | x :: l =>
    let? y := f x in
    let? ys := collect f l in
    Ok (y :: ys)
  end.

Definition grub_insert_reference_value (T : HashAlgo) (hash_key : string)
    (items : list GrubBootArtifactsItem) (m : IndexMap) : result anyhow IndexMap :=
  let cmdlines := concat (map (fun i => kernel_cmdlines (item_kernel i)) items) in
  let m := imap_insert "kernel_cmdline" (map (fun c => "grub_kernel_cmdline " +:+ c) cmdlines) m in
  let m := imap_insert ("measurement.kernel_cmdline." +:+ hash_key)
             (map (fun c => hash_hex T (as_bytes c)) cmdlines) m in
  let m := imap_insert ("measurement.kernel." +:+ hash_key)
             (map (fun i => hash_hex T (kernel_image (item_kernel i))) items) m in
  let m := imap_insert ("measurement.initrd." +:+ hash_key)
             (map (fun i => hash_hex T (kernel_initrd (item_kernel i))) items) m in
  let? grubs := collect (fun i => calculate_authenticode_hash T (grub_data (item_grub i))) items in
  let m := imap_insert ("measurement.grub." +:+ hash_key) grubs m in
  let? shims := collect (fun i => calculate_authenticode_hash T (shim_data (item_grub i))) items in
  Ok (imap_insert ("measurement.shim." +:+ hash_key) shims m).

(** ** uki.rs *)

Definition UKI_FILE_PATH_IN_EFI_PART : string := "EFI/BOOT/BOOTX64.EFI".
Definition UKI_FILE_PATH : string := "/boot/efi/EFI/BOOT/BOOTX64.EFI".

Definition assume_uki_image (file_content : bytes) : result anyhow unit :=
  let? uki_file := ok_or (object_parse file_content) Decode in
  match object_format uki_file with
  | OtherFormat => Err (Bail "Should be PE or COFF executable")
  | _ =>
    match object_section uki_file ".linux" with
    | Some _ => Ok tt
    | None => Err (Bail "No .linux section found")
    end
  end.

Definition uki_insert_reference_value (T : HashAlgo) (hash_key : string) (uki_data : bytes) (m : IndexMap) :
    result anyhow IndexMap :=
  let? h := calculate_authenticode_hash T uki_data in
  Ok (imap_insert ("measurement.uki." +:+ hash_key) [h] m).

(** [section_by_name(name).context(..)?.data()?] *)
Definition section_data (f : ObjectFile) (name : string) : result anyhow bytes :=
  let? s := ok_or (object_section f name) (Bail "No section found") in
  ok_or s Decode.

Definition uki_extract_kernel_artifacts (uki_data : bytes) : result anyhow (list KernelArtifacts) :=
  let? uki_file := ok_or (object_parse uki_data) Decode in
  let? cmdline := section_data uki_file ".cmdline" in
  let? cmdline := ok_or (from_utf8 cmdline) Decode in
  let? kernel := section_data uki_file ".linux" in
  let? initrd := section_data uki_file ".initrd" in
  Ok [mkKernel [cmdline] kernel initrd].

Definition extract_kernel_artifacts (a : BootArtifactsType) : result anyhow (list KernelArtifacts) :=
  match a with
  | GrubBoot items => Ok (map item_kernel items)
  | UkiBoot uki_data => uki_extract_kernel_artifacts uki_data
  end.

(** ** show_reference_value.rs: the values *)

Definition hash_key (T : HashAlgo) : string :=
  match T with
  | Sha1 => "SHA-1"
  | Sha256 => "SHA-256"
  | Sha384Algo => "SHA-384"
  | Sm3 => "SM3"
  end.

Definition insert_reference_value (a : BootArtifactsType) (T : HashAlgo) (m : IndexMap) : result anyhow IndexMap :=
  match a with
  | GrubBoot items => grub_insert_reference_value T (hash_key T) items m
  | UkiBoot uki_data => uki_insert_reference_value T (hash_key T) uki_data m
  end.

Fixpoint common_insert (a : BootArtifactsType) (hash_algos : list HashAlgo) (m : IndexMap) : result anyhow IndexMap :=
  match hash_algos with
  | [] => Ok m
  | T :: hash_algos =>
    let? m := insert_reference_value a T m in
    common_insert a hash_algos m
  end.
End Artifacts.

(** ** mod.rs: disks *)

Inductive FdeBootType := BootNoFde | BootGrub | BootUki.

(** The traits [Disk], [FdeDiskGrubExt] and [FdeDisk]: the methods an
    implementation gives. *)
Class Disk (D : Type) := {
  check_file_exist_on_disk : D -> string -> M bool;
  read_file_on_disk : D -> string -> M bytes;
  get_boot_dir_located_dev : D -> result anyhow string;
  get_efi_part_root_dir : D -> string;
  load_global_grub_env_file : D -> M string;
  fde_boot_type : D -> FdeBootType;
}.

(** [run_cmd] with its output as text. *)
Definition findmnt_of_dir (dir : string) : M string :=
  let* stdout := run_cmd (mkCommand "findmnt" ["-n"; "-o"; "SOURCE"; dir]) in
  let* text := lift (ok_or (from_utf8 stdout) Decode) in
  let dev := trim text in
  let> exists_ := call (PathExists dev) in
  if negb exists_ then bail "mount source not exists" else ok dev.

Definition detect_partition_table_type (disk_dev : string) : M PartitionTableType :=
  let* stdout := run_cmd (mkCommand "fdisk" ["-l"; disk_dev]) in
  ok (partition_table_of (lines (from_utf8_lossy stdout))).

(** The final component of a path and what is before it. *)
Definition file_name_of (p : string) : string :=
  match rsplit_once "/" p with Some (_, name) => name | None => p end.
Definition parent_of (p : string) : string :=
  match rsplit_once "/" p with Some (dir, _) => dir | None => "" end.

Section OnDisk.
Context `{Hex, BinaryTools, HashOrder} {D : Type} `{!Disk D}.

Definition detect_disk_partition_type (d : D) : M PartitionTableType :=
  let* dev := lift (get_boot_dir_located_dev d) in
  detect_partition_table_type (get_disk_root_device dev).

Definition read_file_on_disk_to_string (d : D) (path : string) : M string :=
  let* v := read_file_on_disk d path in
  lift (ok_or (from_utf8 v) Decode).

(** [matches!(self.check_file_exist_on_disk(path), Ok(true))] *)
Definition exists_on_disk (d : D) (path : string) : sys bool :=
  let> r := check_file_exist_on_disk d path in
  Ret match r with Ok true => true | _ => false end.

(** ** grub.rs: the methods of the trait *)

Definition load_global_grub_cfg_file (d : D) : M string :=
  let> grub2 := exists_on_disk d "/boot/grub2/grub.cfg" in
  read_file_on_disk_to_string d (if (grub2 : bool) then "/boot/grub2/grub.cfg" else "/boot/grub/grub.cfg").

Definition load_from_loader_entry_file (d : D) (saved_entry : string) (grub_vars : gmap string string) :
    M (string * string * string) :=
  let* content := read_file_on_disk_to_string d ("/boot/loader/entries/" +:+ saved_entry +:+ ".conf") in
  ok (expand_loader_entry (map_order grub_vars) (parse_loader_entry content)).

(** [if p.is_relative() { p = Path::new("/boot").join(p) }] *)
Definition absolute_in_boot (p : string) : string :=
  if starts_with p "/" then p else join_str "/boot" p.

Definition load_kernel_artifacts (d : D) (grub_vars : gmap string string) (grub_cfg : string) : M KernelArtifacts :=
  let* saved_entry := lift (ok_or (grub_vars !! "saved_entry")
                              (Bail "saved_entry not found in GRUB environment")) in
  let> entry := load_from_loader_entry_file d saved_entry grub_vars in
  let* (paths, cmdline) := match entry with
                           | Err _ => ok (load_from_grub_cfg saved_entry grub_cfg)
                           | _ => lift entry
                           end in
  let kernel_path := absolute_in_boot (fst paths) in
  let initrd_path := absolute_in_boot (snd paths) in
  let* kernel := read_file_on_disk d kernel_path in
  let* initrd := read_file_on_disk d initrd_path in
  let* partition_type := detect_disk_partition_type d in
  let* boot_dir_dev := lift (get_boot_dir_located_dev d) in
  let* device := lift (ok_or (device_identifier partition_type boot_dir_dev)
                         (Bail "Unable to extract partition number from device path")) in
  ok (mkKernel [kernel_cmdline_shorter kernel_path cmdline;
                kernel_cmdline_with_device device kernel_path cmdline] kernel initrd).

(** The entries of a walk up to the first error. *)
Fixpoint walked (entries : list (result anyhow DirEnt)) : list DirEnt :=
  match entries with
  | Ok e :: entries => e :: walked entries
  | _ => []
  end.

Definition is_grub_binary (e : DirEnt) : bool :=
  ent_is_file e && bool_decide (to_lowercase (file_name_of (ent_name e)) = "grubx64.efi").

(** What has been read of a GRUB directory. *)
Record GrubFiles := mkGrubFiles {
  gf_grub : option bytes;
  gf_shim : option bytes;
  gf_env : option string;
  gf_cfg : option string;
}.

Fixpoint read_grub_files (entries : list DirEnt) (g : GrubFiles) : M GrubFiles :=
  match entries with
  | [] => ok g
  | e :: entries =>
    if negb (ent_is_file e) then read_grub_files entries g
    else
      let file_name := to_lowercase (file_name_of (ent_name e)) in
      let* g :=
        (if bool_decide (file_name = "grubx64.efi")
         then let* b := call (ReadFile (ent_name e)) in ok (mkGrubFiles (Some b) (gf_shim g) (gf_env g) (gf_cfg g))
         else if bool_decide (file_name = "shimx64.efi" \/ file_name = "shim.efi")
         then let* b := call (ReadFile (ent_name e)) in ok (mkGrubFiles (gf_grub g) (Some b) (gf_env g) (gf_cfg g))
         else if bool_decide (file_name = "grubenv")
         then let* s := call (ReadToString (ent_name e)) in ok (mkGrubFiles (gf_grub g) (gf_shim g) (Some s) (gf_cfg g))
         else if bool_decide (file_name = "grub.cfg")
         then let* s := call (ReadToString (ent_name e)) in ok (mkGrubFiles (gf_grub g) (gf_shim g) (gf_env g) (Some s))
         else ok g) in
      read_grub_files entries g
  end.

Fixpoint load_grub_dirs (dirs : list string) : M (list GrubArtifacts) :=
  match dirs with
  | [] => ok []
  | dir :: dirs =>
    let> entries := call (WalkDir dir) in
    let* g := read_grub_files (walked entries) (mkGrubFiles None None None None) in
    let* rest := load_grub_dirs dirs in
    match gf_grub g, gf_shim g with
    | Some grub, Some shim => ok (mkGrub dir grub shim (gf_env g) (gf_cfg g) :: rest)
    | _, _ => ok rest
    end
  end.

Definition load_grub_artifacts (d : D) : M (list GrubArtifacts) :=
  let> entries := call (WalkDir (get_efi_part_root_dir d)) in
  let grub_dirs := remove_dups (map (fun e => parent_of (ent_name e)) (List.filter is_grub_binary (walked entries))) in
  if bool_decide (grub_dirs = []) then bail "No grubx64.efi found"
  else
    let* artifacts_list := load_grub_dirs (set_order grub_dirs) in
    if bool_decide (length artifacts_list = 0%nat)
    then bail "Found grubx64.efi directories but failed to load complete artifacts from any"
    else ok artifacts_list.

(** [match r { Ok(v) => Some(v), Err(_) => None }] *)
Definition ok_opt {A} (p : M A) : M (option A) :=
  let> r := p in
  match r with
  | Ok v => ok (Some v)
  | Err _ => ok None
  | Panic => panic
  end.

Fixpoint extract_grub_items (d : D) (global_env global_cfg : option string) (gs : list GrubArtifacts) :
    M (list GrubBootArtifactsItem) :=
  match gs with
  | [] => ok []
  | g :: gs =>
    match global_env ∪ grub_env g, global_cfg ∪ grub_cfg g with
    | Some env, Some cfg =>
      let* kernel := load_kernel_artifacts d (parse_grub_env_vars env cfg) cfg in
      let* rest := extract_grub_items d global_env global_cfg gs in
      ok (mkItem g kernel :: rest)
    | _, _ => extract_grub_items d global_env global_cfg gs
    end
  end.

Definition extract_boot_artifacts_grub (d : D) : M (list GrubBootArtifactsItem) :=
  let* global_grub_env := ok_opt (load_global_grub_env_file d) in
  let* global_grub_cfg := ok_opt (load_global_grub_cfg_file d) in
  let* grub_artifacts := load_grub_artifacts d in
  let* artifacts := extract_grub_items d global_grub_env global_grub_cfg grub_artifacts in
  if bool_decide (length artifacts = 0%nat)
  then bail "Failed to calculate reference value for any GRUB artifacts"
  else ok artifacts.

Definition extract_boot_artifacts_uki (d : D) : M bytes :=
  let* uki_data := read_file_on_disk d UKI_FILE_PATH in
  let* _ := lift (assume_uki_image uki_data) in
  ok uki_data.

Definition extract_boot_artifacts (d : D) : M BootArtifactsType :=
  match fde_boot_type d with
  | BootNoFde | BootGrub => let* items := extract_boot_artifacts_grub d in ok (GrubBoot items)
  | BootUki => let* uki_data := extract_boot_artifacts_uki d in ok (UkiBoot uki_data)
  end.
End OnDisk.
