(* ===== verification/FdeDiskImpl.v ===== *)
(** * The two disks, and the commands on them

    [cryptpilot-fde/src/disk/current.rs] and [external.rs], the files of
    cryptpilot in an initrd ([kernel.rs]), and the host commands
    show-reference-value, config dump and config check. *)

From Stdlib Require Import Ascii.
From stdpp Require Import base list strings gmap pretty.
From Stdlib Require Import ZArith Lia.
From S2P Require Import Prelude RustPath RustString Sys Cmd Luks2 KeyProvider FdeConfig GrubConfig Nbd FdeDisk.
From S2P Require Import FileVerifier.

Local Open Scope Z_scope.

(** ** current.rs *)

Inductive OnCurrentSystemFdeDisk :=
| CurNoFde (root_dev : string)
| CurGrub (boot_dev : string)
| CurUki.

#[global] Instance current_disk : Disk OnCurrentSystemFdeDisk := {|
  check_file_exist_on_disk _ path := let> e := call (PathExists path) in ok e;
  read_file_on_disk _ path := call (ReadFile path);
  get_boot_dir_located_dev d :=
    match d with
    | CurNoFde root_dev => Ok root_dev
    | CurGrub boot_dev => Ok boot_dev
    | CurUki => Err (Bail "Not supported for UKI")
    end;
  get_efi_part_root_dir _ := "/boot/efi"%string;
  load_global_grub_env_file _ :=
    let* stdout := run_cmd (mkCommand "grub2-editenv" ["list"]) in
    lift (ok_or (from_utf8 stdout) Decode);
  fde_boot_type d :=
    match d with
    | CurNoFde _ => BootNoFde
    | CurGrub _ => BootGrub
    | CurUki => BootUki
    end;
|}.

(** ** external.rs *)

Inductive ExternalDiskType :=
| ExtNoFde (efi_dev : string) (efi_dev_tmp_mount : TmpMountPoint)
    (root_dev : string) (root_dev_tmp_mount : TmpMountPoint)
| ExtGrub (boot_dev : string) (boot_dev_tmp_mount : TmpMountPoint)
    (efi_dev : string) (efi_dev_tmp_mount : TmpMountPoint)
| ExtUki (efi_dev : string) (efi_dev_tmp_mount : TmpMountPoint).

Record OnExternalFdeDisk := mkExternal {
  nbd_device : option NbdDevice;
  disk_type : ExternalDiskType;
}.

(** [path.starts_with(prefix)], [path.strip_prefix(prefix)] by components; the
    rest as text. *)
Definition path_starts_with (path prefix : string) : bool :=
  negb (is_none (strip_prefix (path_from path) (path_from prefix))).

Definition path_rest (path prefix : string) : string :=
  default "" (path_to_string <$> strip_prefix (path_from path) (path_from prefix)).

Definition resolve_path_on_real_disk (d : OnExternalFdeDisk) (path : string) : result anyhow string :=
  if negb (path_starts_with path "/boot") then Err (Bail "The path must be start with /boot")
  else
    match disk_type d with
    | ExtNoFde _ efi _ root =>
      if path_starts_with path "/boot/efi" then Ok (join_str (mount_dir efi) (path_rest path "/boot/efi"))
      else if path_starts_with path "/" then Ok (join_str (mount_dir root) (path_rest path "/"))
      else Err (Bail "The path must be start with /")
    | ExtGrub _ boot _ efi =>
      if path_starts_with path "/boot/efi" then Ok (join_str (mount_dir efi) (path_rest path "/boot/efi"))
      else Ok (join_str (mount_dir boot) (path_rest path "/boot"))
    | ExtUki _ efi =>
      if path_starts_with path "/boot/efi" then Ok (join_str (mount_dir efi) (path_rest path "/boot/efi"))
      else Err (Bail "Access files other than /boot/efi is not supported")
    end.

(** The loop over symbolic links; when it has not ended within the fuel, that
    is noted in the trace of the run, and what follows is not a behaviour of
    the program. *)
Fixpoint real_path_of (fuel : nat) (d : OnExternalFdeDisk) (path : string) : M string :=
  match fuel with
  | O => let> _ := call StillLooping in panic
  | S fuel =>
    let* real_path := lift (resolve_path_on_real_disk d path) in
    let> is_symlink := call (IsSymlink real_path) in
    if (is_symlink : bool)
    then
      let* link := call (ReadLink real_path) in
      real_path_of fuel d (join_str path link)
    else ok real_path
  end.

Definition external_exists (d : OnExternalFdeDisk) (path : string) : M bool :=
  let* p := lift (resolve_path_on_real_disk d path) in
  let> e := call (PathExists p) in
  ok e.

Definition external_read (fuel : nat) (d : OnExternalFdeDisk) (path : string) : M bytes :=
  let* real_path := real_path_of fuel d path in
  call (ReadFile real_path).

Definition external_boot_dev (d : OnExternalFdeDisk) : result anyhow string :=
  match disk_type d with
  | ExtNoFde _ _ root_dev _ => Ok root_dev
  | ExtGrub boot_dev _ _ _ => Ok boot_dev
  | ExtUki _ _ => Err (Bail "Not supported for UKI")
  end.

Definition external_efi_root (d : OnExternalFdeDisk) : string :=
  match disk_type d with
  | ExtNoFde _ efi _ _ | ExtGrub _ _ _ efi | ExtUki _ efi => mount_dir efi
  end.

Definition external_boot_type (d : OnExternalFdeDisk) : FdeBootType :=
  match disk_type d with
  | ExtNoFde _ _ _ _ => BootNoFde
  | ExtGrub _ _ _ _ => BootGrub
  | ExtUki _ _ => BootUki
  end.

(** [matches!(self.check_file_exist_on_disk(path), Ok(true))] *)
Definition external_has (d : OnExternalFdeDisk) (path : string) : sys bool :=
  let> r := external_exists d path in
  Ret match r with Ok true => true | _ => false end.

Definition external_grub_env (fuel : nat) (d : OnExternalFdeDisk) : M string :=
  let> e1 := external_has d "/boot/grubenv" in
  let path := if (e1 : bool) then "/boot/grubenv"%string else "/boot/grub/grubenv"%string in
  let> e2 := external_has d path in
  let path := if (e2 : bool) then path else "/boot/grub2/grubenv"%string in
  let* content := external_read fuel d path in
  lift (ok_or (from_utf8 content) Decode).

Definition external_disk (fuel : nat) : Disk OnExternalFdeDisk := {|
  check_file_exist_on_disk := external_exists;
  read_file_on_disk := external_read fuel;
  get_boot_dir_located_dev := external_boot_dev;
  get_efi_part_root_dir := external_efi_root;
  load_global_grub_env_file := external_grub_env fuel;
  fde_boot_type := external_boot_type;
|}.

(** *** Finding the partitions *)

(** [blkid] for a file system with a label. *)
Definition blkid_match (token : string) (hint : list string) : Command :=
  mkCommand "blkid" (["--match-types"; "ext4"; "--match-token"; token; "--list-one"; "--output"; "device"] ++ hint).

(** The device in the output of a command, if it succeeded and printed one. *)
Definition found_device (c : Command) : M (option string) :=
  let> r := run_cmd c in
  match r with
  | Ok stdout =>
    let device := trim (from_utf8_lossy stdout) in
    ok (if bool_decide (device = "") then None else Some device)
  | Err _ => ok None
  | Panic => panic
  end.

Definition root_label : string := "LABEL=" +:+ QUOT +:+ "root" +:+ QUOT.
Definition boot_partlabel : string := "PARTLABEL=" +:+ QUOT +:+ "boot" +:+ QUOT.

Definition detect_root_part (hint_device : option string) : M string :=
  let> source :=
    match hint_device with
    | None =>
      let> r := run_cmd (mkCommand "mountpoint" ["/"]) in
      match r with
      | Ok _ => findmnt_of_dir "/"
      | _ => bail "not a mount point"
      end
    | Some _ => bail "hint"
    end in
  match source with
  | Ok source => ok source
  | _ =>
    let* gpt_device := found_device (blkid_match root_label (option_list hint_device)) in
    match gpt_device with
    | Some device => ok device
    | None => bail "No boot partition found (GPT and MBR methods both failed)"
    end
  end.

(** A directory with a kernel: the entries up to the first match, an error
    before it is the result. *)
Fixpoint has_vmlinuz (entries : list (result anyhow DirEnt)) : result anyhow bool :=
  match entries with
  | [] => Ok false
  | Ok e :: entries => if starts_with (ent_name e) "vmlinuz" then Ok true else has_vmlinuz entries
  | Err e :: _ => Err e
  | Panic :: _ => Panic
  end.

Fixpoint find_boot_part (ls : list string) : M string :=
  match ls with
  | [] => bail "No boot partition found (GPT and MBR methods both failed)"
  | line :: ls =>
    match split_whitespace line with
    | [] => panic
    | dev :: _ =>
      let> has_boot_kernel :=
        with_mount dev (fun mount_point =>
          let* entries := call (ReadDir mount_point) in
          lift (has_vmlinuz entries)) in
      match has_boot_kernel with
      | Ok true => ok dev
      | Ok false | Err _ => find_boot_part ls
      | Panic => panic
      end
    end
  end.

Definition detect_boot_part (hint_device : string) : M string :=
  let* gpt_device := found_device (blkid_match boot_partlabel [hint_device]) in
  match gpt_device with
  | Some device => ok device
  | None =>
    let* output := run_cmd (mkCommand "lsblk" ["-lnpo"; "NAME,FSTYPE"; hint_device]) in
    find_boot_part (lines (from_utf8_lossy output))
  end.

(** [line.chars().last().map(|c| c.is_numeric()).unwrap_or(false)], for the
    ASCII names of devices. *)
Definition ends_in_digit (line : string) : bool :=
  match str_rev line "" with
  | String a _ => is_ascii_digit a
  | EmptyString => false
  end.

Fixpoint find_efi_part (parts : list string) : M string :=
  match parts with
  | [] => bail "No valid EFI partition found"
  | part :: parts =>
    let> is_efi_part :=
      with_mount part (fun mount_point =>
        let> has_efi := call (PathExists (join_str mount_point "EFI")) in
        let* matches := call (Glob (join_str mount_point "vmlinuz-*")) in
        ok (has_efi && bool_decide (length matches = 0%nat))) in
    match is_efi_part with
    | Ok true => ok part
    | Ok false | Err _ => find_efi_part parts
    | Panic => panic
    end
  end.

Definition detect_efi_part (hint_device : string) : M string :=
  let* stdout := run_cmd (mkCommand "lsblk" ["-lnpo"; "NAME"; hint_device]) in
  let* text := lift (ok_or (from_utf8 stdout) Decode) in
  find_efi_part (List.filter ends_in_digit (lines text)).

Section Commands.
Context `{Hex, Base64, JsonText, BinaryTools, HashOrder, FdeToml, Sha384}.
Context (fuel : nat).

(** [read(file)] and [assume_uki_image]. *)
Definition is_uki_file (file : string) : M bool :=
  let> exists_ := call (PathExists file) in
  if (exists_ : bool)
  then
    let> r := call (ReadFile file) in
    match r with
    | Ok data =>
      match assume_uki_image data with
      | Ok _ => ok true
      | Err _ => ok false
      | Panic => panic
      end
    | Err _ => ok false
    | Panic => panic
    end
  else ok false.

Definition current_new : M OnCurrentSystemFdeDisk :=
  let* uki := is_uki_file UKI_FILE_PATH in
  if (uki : bool) then ok CurUki
  else
    let> boot_dev := findmnt_of_dir "/boot" in
    match boot_dev with
    | Ok boot_dev => ok (CurGrub boot_dev)
    | Err _ =>
      let* root_dev := findmnt_of_dir "/" in
      ok (CurNoFde root_dev)
    | Panic => panic
    end.

(** The type of the disk, once its EFI partition is mounted. *)
Definition detect_disk_type (disk_device efi_dev : string) (efi : TmpMountPoint) : M ExternalDiskType :=
  let* uki := is_uki_file (join_str (mount_dir efi) UKI_FILE_PATH_IN_EFI_PART) in
  if (uki : bool) then ok (ExtUki efi_dev efi)
  else
    let> boot := detect_boot_part disk_device in
    match boot with
    | Ok boot_dev =>
      let* boot_dev_tmp_mount := tmp_mount boot_dev false in
      ok (ExtGrub boot_dev boot_dev_tmp_mount efi_dev efi)
    | Err _ =>
      let* root_dev := detect_root_part (Some disk_device) in
      let* root_dev_tmp_mount := tmp_mount root_dev false in
      ok (ExtNoFde efi_dev efi root_dev root_dev_tmp_mount)
    | Panic => panic
    end.

Definition drop_opt_nbd (d : option NbdDevice) : sys unit :=
  match d with
  | Some d => drop_nbd d
  | None => Ret tt
  end.

Definition new_from_disk (disk : string) : M OnExternalFdeDisk :=
  let> exists_ := call (PathExists disk) in
  if negb exists_ then bail "File not exist"
  else
    let* real_block_device := call (IsBlockDevice disk) in
    let* nbd := (if (real_block_device : bool) then ok None
                 else let* d := nbd_connect disk in ok (Some d)) in
    let disk_device := match nbd with Some d => nbd_path d | None => disk end in
    on_error (drop_opt_nbd nbd)
      (let* efi_dev := detect_efi_part disk_device in
       let* efi := tmp_mount efi_dev false in
       let* t := on_error (drop_mount efi) (detect_disk_type disk_device efi_dev efi) in
       ok (mkExternal nbd t)).

(** The mounts of a disk, in the order of the fields. *)
Definition disk_mounts (t : ExternalDiskType) : list TmpMountPoint :=
  match t with
  | ExtNoFde _ efi _ root => [efi; root]
  | ExtGrub _ boot _ efi => [boot; efi]
  | ExtUki _ efi => [efi]
  end.

Fixpoint drop_mounts (ms : list TmpMountPoint) : sys unit :=
  match ms with
  | [] => Ret tt
  | m :: ms => let> _ := drop_mount m in drop_mounts ms
  end.

(** The drop of an external disk: its fields in the order of the struct. *)
Definition drop_external (d : OnExternalFdeDisk) : sys unit :=
  let> _ := drop_opt_nbd (nbd_device d) in
  drop_mounts (disk_mounts (disk_type d)).

(** The boot artifacts of the disk a command is for. *)
Definition with_boot_artifacts {A} (disk : option string) (k : BootArtifactsType -> M A) : M A :=
  match disk with
  | Some disk =>
    let* d := new_from_disk disk in
    let> r := (let* a := @extract_boot_artifacts _ _ _ (external_disk fuel) d in k a) in
    let> _ := drop_external d in
    lift r
  | None =>
    let* d := current_new in
    let* a := extract_boot_artifacts d in
    k a
  end.

(** ** show_reference_value.rs *)

(** The map that is printed. *)
Definition show_reference_value_run (disk : option string) (hash_algos : list HashAlgo) : M IndexMap :=
  if bool_decide (hash_algos = []) then bail "No hash algorithm specified"
  else with_boot_artifacts disk (fun a => lift (common_insert a hash_algos [])).

(** ** kernel.rs *)

(** [Command::run] in a directory. *)
Definition run_cmd_in (dir program : string) (args : list string) : M bytes :=
  let* output := call (SpawnIn dir program args) in
  match status_code output with
  | Some code => if negb (code =? 0) then bail "Bad exit code" else ok (out_stdout output)
  | None => lift (Err KilledBySignal)
  end.

(** A block with a temporary directory. *)
Definition with_temp_dir {A} (body : string -> M A) : M A :=
  let* dir := call (TempDir ".tmp") in
  let> r := body dir in
  let> _ := drop_temp_dir dir in
  lift r.

Definition extract_cryptpilot_files (k : KernelArtifacts) : M (FdeConfigBundle * Metadata) :=
  with_temp_dir (fun dir =>
    let initrd_path := join_str dir "initrd.img" in
    let* _ := call (WriteFile initrd_path (of_bytes (kernel_initrd k))) in
    let* _ := run_cmd_in dir "lsinitrd" ["--unpack"; initrd_path; join_str FDE_CONFIG_DIR_DEFAULT "*"] in
    let config_dir := join_str dir "etc/cryptpilot" in
    let> exists_ := call (PathExists config_dir) in
    if negb exists_ then bail "No cryptpilot config found in initrd"
    else
      let* bundle := fs_get_fde_config_bundle config_dir in
      let* metadata := load_metadata_from_file (join_str dir "etc/cryptpilot/metadata.toml") in
      ok (bundle, metadata)).

(** ** config/dump.rs *)

(** The bundles that could be extracted. *)
Fixpoint extract_bundles (ks : list KernelArtifacts) : M (list FdeConfigBundle) :=
  match ks with
  | [] => ok []
  | k :: ks =>
    let> r := extract_cryptpilot_files k in
    let* rest := extract_bundles ks in
    match r with
    | Ok (b, _) => ok (b :: rest)
    | Err _ => ok rest
    | Panic => panic
    end
  end.

(** The text that is printed, with the newline [println!] ends it with;
    [bundle_pretty] is [toml::to_string_pretty]. *)
Context (bundle_pretty : FdeConfigBundle -> option string).

Definition dump_text (hash_hex content : string) : string :=
  CLOUD_INIT_FDE_CONFIG_BUNDLE_HEADER +:+ LF +:+ LF +:+
  "# This config is generated by cryptpilot. And you can also put this cloud-init user data of your instance" +:+ LF
  +:+ "#" +:+ LF +:+ "# The sha384 hash of this config is: " +:+ hash_hex +:+ LF +:+ LF +:+ LF +:+ content +:+ LF.

(** The bundle that is dumped: the first that can be extracted from the
    kernels. *)
Definition dump_bundle (a : BootArtifactsType) : M FdeConfigBundle :=
  let* kernels := lift (extract_kernel_artifacts a) in
  let* config_bundles := extract_bundles kernels in
  match config_bundles with
  | [] => bail "No fde config bundle found"
  | b :: _ => ok b
  end.

Definition config_dump_run (disk : option string) : M string :=
  with_boot_artifacts disk (fun a =>
    let* b := dump_bundle a in
    let* hash_hex := lift (gen_hash_hex b) in
    let* content := lift (ok_or (bundle_pretty b) (Bail "toml")) in
    ok (dump_text hash_hex content)).

(** ** config/check.rs *)

(** The providers of the volumes, in the order they are checked. *)
Definition fde_providers (c : FdeConfig) : list KeyProviderConfig :=
  option_list (rootfs_encrypt (fde_rootfs c)) ++ [delta_encrypt (fde_delta c)].

(** The keys of the volumes; whether there was an error. *)
Fixpoint check_fde_keys (keep_checking skip_check_passphrase : bool) (ps : list KeyProviderConfig) : M bool :=
  match ps with
  | [] => ok false
  | p :: ps =>
    let* is_error :=
      (if skip_check_passphrase then ok false
       else
         let> r := get_key p in
         match r with
         | Ok _ => ok false
         | Err e => if keep_checking then ok true else lift (Err e)
         | Panic => panic
         end) in
    let* rest := check_fde_keys keep_checking skip_check_passphrase ps in
    ok (is_error || rest)
  end.

Definition fde_config_check_run (source : M FdeConfigBundle) (keep_checking skip_check_passphrase : bool) : M unit :=
  let* b := source in
  let* b := source in
  let* is_error :=
    match bundle_fde b with
    | Some fde => check_fde_keys keep_checking skip_check_passphrase (fde_providers fde)
    | None => ok false
    end in
  if (is_error : bool) then bail "FDE config check failed, please check the errors above" else ok tt.
End Commands.
