(* ===== verification/FdeDiskProofs.v ===== *)
(** * Paths and symbolic links on an external disk

    A path of the disk is found under the temporary mount of its partition:
    the lookup is the longest mount point that is a prefix of the path.  What
    the loop over symbolic links does, and where it differs from a file
    system. *)

From Stdlib Require Import Ascii.
From stdpp Require Import base list strings gmap pretty.
From Stdlib Require Import ZArith Lia.
From S2P Require Import Prelude RustPath RustString Sys Cmd Luks2 Luks2Spec FdeConfig GrubConfig Nbd FdeDisk FdeDiskImpl.

(** ** Text of joined paths *)

Lemma ends_with_app s p : ends_with s p = true -> exists a, s = a +:+ p.
Proof.
  unfold ends_with. intros [_ Hs%bool_decide_eq_true]%andb_true_iff.
  exists (first_n (String.length s - String.length p) s). rewrite <- Hs at 2.
  generalize (String.length s - String.length p)%nat as n. clear.
  induction s as [|a s IH]; intros [|n]; try done. simpl. rewrite string_cons_app. by rewrite <- IH.
Qed.

Lemma not_rooted p : starts_with p "/" = false -> path_from p = comps p.
Proof.
  destruct p as [|a p]; [done|]. unfold path_from. case_decide as Ha; [subst; by destruct p|done].
Qed.

Lemma path_from_app_sep a b :
  a <> "" -> path_from (a +:+ String "/" b) = path_from a ++ comps b.
Proof.
  intros Ha. destruct a as [|x a]; [done|]. unfold path_from.
  change (filter _ (split_char _ _ (?s))) with (comps s). rewrite string_cons_app.
  cbn [String.append]. rewrite <- string_cons_app, comps_app. by case_decide.
Qed.

(** A relative path that is joined is appended, component by component. *)
Lemma path_from_join_str base p :
  starts_with p "/" = false -> path_from (join_str base p) = path_from base ++ path_from p.
Proof.
  intros Hp. unfold join_str. rewrite Hp, (not_rooted p Hp). case_bool_decide as Hb.
  - subst. cbn [orb]. change ("" +:+ p) with p. by rewrite not_rooted.
  - cbn [orb]. destruct (ends_with base "/") eqn:He; [|by apply path_from_app_sep].
    apply ends_with_app in He as [a ->]. rewrite <- string_app_assoc.
    change ("/" +:+ p) with (String "/" p). destruct a as [|x a].
    + change (path_from (String "/" p) = path_from (String "/" "") ++ comps p). reflexivity.
    + rewrite (path_from_app_sep _ p), (path_from_app_sep _ "") by done. by rewrite app_nil_r.
Qed.

(** ** The mounts of a disk *)

(** Where the partitions of a disk belong in its tree, the longest mount point
    first. *)
Definition mount_table (t : ExternalDiskType) : list (string * TmpMountPoint) :=
  match t with
  | ExtNoFde _ efi _ root => [("/boot/efi", efi); ("/", root)]
  | ExtGrub _ boot _ efi => [("/boot/efi", efi); ("/boot", boot)]
  | ExtUki _ efi => [("/boot/efi", efi)]
  end.

(** [real] names [path] in the tree of the mount that holds it: the mount
    point is a prefix of the path, none that is longer is. *)
Definition located (t : ExternalDiskType) (path real : string) : Prop :=
  exists mp m rest, (mp, m) ∈ mount_table t /\
    strip_prefix (path_from path) (path_from mp) = Some rest /\
    path_from real = path_from (mount_dir m) ++ rest /\
    (forall mp' m', (mp', m') ∈ mount_table t -> path_starts_with path mp' = true ->
       length (path_from mp') <= length (path_from mp)).

Lemma path_rest_comps path mp rest n :
  strip_prefix (path_from path) (path_from mp) = Some rest -> length (path_from mp) = S n ->
  Forall valid_name rest /\ path_from (path_rest path mp) = rest /\ starts_with (path_rest path mp) "/" = false.
Proof.
  intros Hs Hn. unfold path_rest. rewrite Hs. cbn [fmap option_fmap option_map default].
  unfold strip_prefix in Hs. case_decide; [|done]. injection Hs as <-. rewrite Hn.
  assert (Hv := path_from_drop path n). split; [done|]. split; [by apply path_from_to_string|].
  destruct (drop (S n) (path_from path)) as [|c l]; [done|]. apply Forall_inv in Hv as (H1 & _ & H3).
  destruct c as [|a c]; [done|]. cbn [no_sep] in H3. apply andb_true_iff in H3 as [H3 _].
  apply negb_true_iff, bool_decide_eq_false in H3. unfold path_to_string. 
  assert (Ascii.eqb "/" a = false) as Ha by (by apply Ascii.eqb_neq).
  destruct l as [|d l]; cbn [String.concat]; [|rewrite string_cons_app]; cbn -[Ascii.eqb]; by rewrite Ha.
Qed.

Lemma located_join t path mp m rest n :
  (mp, m) ∈ mount_table t -> length (path_from mp) = S n ->
  strip_prefix (path_from path) (path_from mp) = Some rest ->
  (forall mp' m', (mp', m') ∈ mount_table t -> path_starts_with path mp' = true ->
     length (path_from mp') <= length (path_from mp)) ->
  located t path (join_str (mount_dir m) (path_rest path mp)).
Proof.
  intros Hm Hn Hs Hmax. destruct (path_rest_comps path mp rest n Hs Hn) as (_ & Hr & Ha).
  exists mp, m, rest. by rewrite path_from_join_str, Hr.
Qed.

Lemma path_starts_with_some path mp :
  path_starts_with path mp = true -> exists rest, strip_prefix (path_from path) (path_from mp) = Some rest.
Proof. unfold path_starts_with. destruct (strip_prefix _ _) as [r|]; [by exists r|done]. Qed.

Lemma path_starts_with_root path : path_starts_with path "/boot" = true -> path_starts_with path "/" = true.
Proof.
  intros [r Hr]%path_starts_with_some. unfold path_starts_with, strip_prefix in *.
  case_decide as H1; [|done]. change (path_from "/boot") with ["/"; "boot"] in H1.
  destruct (path_from path) as [|c l]; [done|]. cbn [length take] in H1. injection H1 as -> _.
  change (path_from "/") with ["/"]. cbn [length take]. by rewrite decide_True.
Qed.

Ltac locate H :=
  destruct (path_starts_with_some _ _ H) as [rest Hrest];
  eapply located_join;
    [set_solver|vm_compute; reflexivity|exact Hrest|
     intros ?mp' ?m' Hin; cbn in Hin; set_unfold in Hin;
     destruct_or? Hin; simplify_eq; intros ?; vm_compute; first [lia|congruence]].

(** Without parent components a located path stays inside the tree of its
    mount: what follows the mount are names. *)
Definition confined (t : ExternalDiskType) (real : string) : Prop :=
  exists m rest, m ∈ disk_mounts t /\ path_from real = path_from (mount_dir m) ++ rest /\
    Forall valid_name rest /\ ".." ∉ rest.

Lemma located_confined t path real : located t path real -> ".." ∉ path_from path -> confined t real.
Proof.
  intros (mp & m & rest & Hin & Hs & He & _) Hdd. exists m, rest.
  assert (exists n, length (path_from mp) = S n) as [n Hn].
  { destruct t; cbn in Hin; set_unfold in Hin; destruct_or? Hin; simplify_eq; by eexists. }
  assert (rest = drop (S n) (path_from path)) as Hd.
  { unfold strip_prefix in Hs. case_decide; [|done]. injection Hs as <-. by rewrite Hn. }
  split; [|split; [done|split]].
  - destruct t; cbn in *; set_solver.
  - by destruct (path_rest_comps path mp rest n Hs Hn).
  - rewrite Hd. intros Hi. apply Hdd. rewrite <- (take_drop (S n) (path_from path)). set_solver.
Qed.

Lemma located_and t path real : located t path real ->
  true = true /\ located t path real /\ (".." ∉ path_from path -> confined t real).
Proof. intros Hl. split; [done|]. split; [done|]. by eapply located_confined. Qed.

(** C22: A path is looked up on an external disk the way a mount table is: a
    path below /boot is found in the partition with the longest mount point
    that is a prefix of it, at the rest of the path, and the lookup fails
    exactly when the path is not below /boot or no mount point of the disk is a
    prefix of it.
    What is opened stays inside the tree of a mount of the disk when the path
    has no parent component. *)
Theorem resolve_refines_mounts d path :
  match resolve_path_on_real_disk d path with
  | Ok real => path_starts_with path "/boot" = true /\ located (disk_type d) path real /\
               (".." ∉ path_from path -> confined (disk_type d) real)
  | Err _ => path_starts_with path "/boot" = false \/
             (forall mp m, (mp, m) ∈ mount_table (disk_type d) -> path_starts_with path mp = false)
  | Panic => False
  end.
Proof.
  unfold resolve_path_on_real_disk. destruct (path_starts_with path "/boot") eqn:Hb; cbn [negb]; [|by left].
  pose proof (path_starts_with_root path Hb) as Hr.
  destruct (disk_type d) as [e efi r root|b boot e efi|e efi]; destruct (path_starts_with path "/boot/efi") eqn:He;
    rewrite ?Hr.
  - apply located_and. locate He.
  - apply located_and. locate Hr.
  - apply located_and. locate He.
  - apply located_and. locate Hb.
  - apply located_and. locate He.
  - right. cbn. intros mp m Hin%list_elem_of_singleton. by simplify_eq.
Qed.

(** A parent component leaves the mount. *)
Example resolve_parent_escapes :
  resolve_path_on_real_disk
    (mkExternal None (ExtGrub "/dev/nbd0p2" (mkTmpMount "/tmp/a" "/dev/nbd0p2") "/dev/nbd0p1" (mkTmpMount "/tmp/b" "/dev/nbd0p1")))
    "/boot/../../etc/shadow" = Ok "/tmp/a/../../etc/shadow"%string.
Proof. vm_compute. reflexivity. Qed.

(** ** Symbolic links *)

Section Links.
Context {W : Type} `{!Handler sysop W} `{!Cryptsetup W}.
Implicit Types (w : W) (d : OnExternalFdeDisk).

(** Following the links of a path: [n] links lead from [path] to a file that
    is not one. *)
Inductive follows w d : nat -> string -> string -> Prop :=
| follows_file path real :
    resolve_path_on_real_disk d path = Ok real ->
    fst (handle (IsSymlink real) w) = false ->
    follows w d 0 path real
| follows_link n path real link target :
    resolve_path_on_real_disk d path = Ok real ->
    fst (handle (IsSymlink real) w) = true ->
    fst (handle (ReadLink real) w) = Ok link ->
    follows w d n (join_str path link) target ->
    follows w d (S n) path target.

(** One turn of the loop. *)
Lemma run_real_path_of fuel d path w :
  run (real_path_of (S fuel) d path) w =
    match resolve_path_on_real_disk d path with
    | Ok real =>
      if (fst (handle (IsSymlink real) w) : bool)
      then match fst (handle (ReadLink real) w) with
           | Ok link => run (real_path_of fuel d (join_str path link)) w
           | Err e => (Err e, w)
           | Panic => (Panic, w)
           end
      else (Ok real, w)
    | Err e => (Err e, w)
    | Panic => (Panic, w)
    end.
Proof.
  cbn [real_path_of]. rewrite run_rpbind. cbn [lift run].
  destruct (resolve_path_on_real_disk d path) as [real|e|]; [|done..].
  rewrite run_bind, run_query by done. destruct (fst (handle (IsSymlink real) w)); [|done].
  rewrite run_rpbind, run_query by done. by destruct (fst (handle (ReadLink real) w)).
Qed.

Lemma run_real_path_of_0 d path w : run (real_path_of 0 d path) w = (Panic, w).
Proof. cbn [real_path_of]. by rewrite run_bind, run_query by done. Qed.

(** Reading a path of the disk opens the file its links lead to: the loop
    ends with that file when they lead to one, for every bound above the
    number of links, and it ends with a file only then. *)
Theorem real_path_follows d path w real :
  (forall n fuel, follows w d n path real -> n < fuel -> run (real_path_of fuel d path) w = (Ok real, w)) /\
  (forall fuel w', run (real_path_of fuel d path) w = (Ok real, w') ->
     w' = w /\ exists n, n < fuel /\ follows w d n path real).
Proof.
  split.
  - intros n fuel Hf. revert fuel. induction Hf as [path real Hr Hs|n path real link target Hr Hs Hl Hf IH];
      intros [|fuel] Hn; try lia; rewrite run_real_path_of, Hr, Hs; [done|]. rewrite Hl. apply IH. lia.
  - intros fuel. revert path. induction fuel as [|fuel IH]; intros path w'; [by rewrite run_real_path_of_0|].
    rewrite run_real_path_of. destruct (resolve_path_on_real_disk d path) as [r|e|] eqn:Hr; [|done..].
    destruct (fst (handle (IsSymlink r) w)) eqn:Hs.
    + destruct (fst (handle (ReadLink r) w)) as [link|e|] eqn:Hl; [|done..].
      intros Hrun. destruct (IH _ _ Hrun) as (-> & n & Hn & Hf). split; [done|].
      exists (S n). split; [lia|]. by econstructor.
    + intros [= -> ->]. split; [done|]. exists 0. split; [lia|]. by constructor.
Qed.

(** A link to its own path is never resolved: whatever the number of
    turns, the loop has not ended. *)
Theorem symlink_loop_diverges d path real w :
  resolve_path_on_real_disk d path = Ok real ->
  fst (handle (IsSymlink real) w) = true ->
  fst (handle (ReadLink real) w) = Ok path -> starts_with path "/" = true ->
  forall fuel, exists r, Ev StillLooping r ∈ trace (external_read fuel d path) w.
Proof.
  intros Hr Hs Hl Hp fuel. unfold external_read. rewrite trace_rpbind.
  assert (exists r, Ev StillLooping r ∈ trace (real_path_of fuel d path) w) as [r Hin];
    [|exists r; apply elem_of_app; by left].
  induction fuel as [|fuel IH]; 
    [cbn; destruct (handle StillLooping w) as [r w1]; exists r; by left|].
  cbn [real_path_of]. rewrite trace_rpbind. cbn [lift run trace app]. rewrite Hr.
  rewrite trace_bind, run_query, Hs by done. rewrite trace_rpbind, run_query, Hl by done.
  destruct IH as [r IH]. exists r. rewrite !elem_of_app. right. right.
  unfold join_str. by rewrite Hp.
Qed.

(** The target of a relative link is looked up below the link itself and
    not in its directory: the path of the next turn is that of the link with
    the components of the target appended. *)
Theorem relative_link_below_itself d path real w link fuel :
  resolve_path_on_real_disk d path = Ok real ->
  fst (handle (IsSymlink real) w) = true ->
  fst (handle (ReadLink real) w) = Ok link -> starts_with link "/" = false ->
  run (real_path_of (S fuel) d path) w = run (real_path_of fuel d (join_str path link)) w /\
  path_from (join_str path link) = path_from path ++ path_from link.
Proof.
  intros Hr Hs Hl Hp. split; [|by apply path_from_join_str]. by rewrite run_real_path_of, Hr, Hs, Hl.
Qed.
End Links.
