(* ===== verification/DiskResources.v ===== *)
(** * Mounts, directories, nbd devices: what is taken is given back

    A logic of the resources a program holds.  [owns pre p post]: run while it
    holds [pre], whatever the answers of the system, [p] only gives back what
    it holds and ends holding [post] of its result.  The rules follow the
    programs.  On a trace, [balanced]: all that was taken was passed to the call
    that gives it back, and what is left behind is that for which this call
    failed; [endless]: a chain of symbolic links was not followed to its end. *)

From Stdlib Require Import Ascii.
From stdpp Require Import base list strings gmap pretty.
From Stdlib Require Import ZArith Lia.
From S2P Require Import Prelude RustPath RustString Sys Cmd Luks2 KeyProvider FdeConfig GrubConfig Nbd FdeDisk FdeDiskImpl FdeDiskProofs.
From S2P Require Import FileVerifier.

Local Open Scope Z_scope.

(** ** Resources *)

Inductive Resource :=
| RMount (dir : string)
| RWritableMount (dir : string)
| RDir (dir : string)
| RNbd (dev : string)
| RRule (path : string).

Definition rule_path : string := join_str UDEV_RULES_DIR "99-cryptpilot-ignore.rules".

Definition succeeded_with (r : result anyhow Output) : bool :=
  match r with
  | Ok o => bool_decide (status_code o = Some 0)
  | _ => false
  end.

(** What a process takes when it succeeds, and what it gives back when it is
    run. *)
Definition spawn_acquires (program : string) (args : list string) : list Resource :=
  if bool_decide (program = "mount"%string)
  then (if bool_decide (take 2 args = ["-o"; "ro"]%string) then RMount else RWritableMount) <$> option_list (last args)
  else if bool_decide (program = "qemu-nbd"%string /\ head args = Some "--connect"%string)
  then RNbd <$> option_list (args !! 1%nat)
  else [].

Definition spawn_releases (program : string) (args : list string) : list Resource :=
  if bool_decide (program = "umount"%string) then RMount <$> option_list (last args)
  else if bool_decide (program = "qemu-nbd"%string /\ head args = Some "--disconnect"%string)
  then RNbd <$> option_list (args !! 1%nat)
  else [].

Definition acquired {R} (e : sysop R) : R -> list Resource :=
  match e in sysop R return R -> list Resource with
  | TempDir _ => fun r => match r with Ok dir => [RDir dir] | _ => [] end
  | CreateFile p => fun r => match r with Ok _ => if bool_decide (p = rule_path) then [RRule p] else [] | _ => [] end
  | Spawn program args _ => fun r => if succeeded_with r then spawn_acquires program args else []
  | _ => fun _ => []
  end.

(** What a call is meant to give back. *)
Definition attempted {R} (e : sysop R) : list Resource :=
  match e with
  | RemoveDirAll dir => [RDir dir]
  | RemoveFile p => [RRule p]
  | Spawn program args _ => spawn_releases program args
  | _ => []
  end.

Definition call_succeeded {R} (e : sysop R) : R -> bool :=
  match e in sysop R return R -> bool with
  | RemoveDirAll _ | RemoveFile _ => fun r => is_ok r
  | Spawn _ _ _ => succeeded_with
  | _ => fun _ => true
  end.

(** What a call gives back, when it succeeds; and what is left behind: what it
    was to give back when it fails, and the file of the udev rule when its
    text cannot be written. *)
Definition released {R} (e : sysop R) (r : R) : list Resource :=
  if call_succeeded e r then attempted e else [].

Definition unwritten {R} (e : sysop R) : R -> list Resource :=
  match e in sysop R return R -> list Resource with
  | WriteAll p _ => fun r => if is_ok r then [] else if bool_decide (p = rule_path) then [RRule p] else []
  | _ => fun _ => []
  end.

Definition left_behind {R} (e : sysop R) (r : R) : list Resource :=
  (if call_succeeded e r then [] else attempted e) ++ unwritten e r.

Lemma released_or_left {R} (e : sysop R) (r : R) :
  attempted e ++ unwritten e r ≡ₚ released e r ++ left_behind e r.
Proof. unfold released, left_behind. by destruct (call_succeeded e r); rewrite ?app_nil_r. Qed.

(** ** The logic *)

Fixpoint owns {A} (pre : list Resource) (p : sys A) (post : A -> list Resource) : Prop :=
  match p with
  | Ret a => pre ≡ₚ post a
  | Vis e k => forall r, exists held,
      pre ++ acquired e r ≡ₚ (attempted e ++ unwritten e r) ++ held /\ owns held (k r) post
  end.

#[global] Instance owns_proper {A} :
  Proper ((≡ₚ) ==> eq ==> pointwise_relation A (≡ₚ) ==> iff) owns.
Proof.
  assert (forall (p : sys A) pre pre' post post', pre ≡ₚ pre' ->
    pointwise_relation A (≡ₚ) post post' -> owns pre p post -> owns pre' p post') as H.
  { intros p. induction p as [a|R e k IH]; intros pre pre' post post' Hpre Hpost; cbn [owns].
    - intros Hp. by rewrite <- Hpre, <- (Hpost a).
    - intros Hp r. destruct (Hp r) as (held & Hh & Hk). exists held. split; [by rewrite <- Hpre|].
      by eapply IH. }
  intros pre pre' Hpre p p' <- post post' Hpost. split; apply H; try done.
Qed.

Lemma owns_post {A} pre (p : sys A) post post' :
  (forall a, post a ≡ₚ post' a) -> owns pre p post -> owns pre p post'.
Proof. intros Hp Ho. by rewrite <- (Hp : pointwise_relation A (≡ₚ) post post'). Qed.

Lemma owns_bind {A B} pre (p : sys A) (f : A -> sys B) mid post :
  owns pre p mid -> (forall a, owns (mid a) (f a) post) -> owns pre (pbind p f) post.
Proof.
  revert pre. induction p as [a|R e k IH]; intros pre Hp Hf; cbn [pbind owns] in *.
  - by rewrite Hp.
  - intros r. destruct (Hp r) as (held & Hh & Hk). exists held. split; [done|]. by apply IH.
Qed.

Lemma owns_frame {A} pre (p : sys A) post held :
  owns pre p post -> owns (pre ++ held) p (fun a => post a ++ held).
Proof.
  revert pre. induction p as [a|R e k IH]; intros pre Hp; cbn [owns] in *; [by rewrite Hp|].
  intros r. destruct (Hp r) as (h & Hh & Hk). exists (h ++ held). split; [|by apply IH].
  rewrite (app_assoc (attempted e ++ unwritten e r)), <- Hh, <- !app_assoc. f_equiv. apply Permutation_app_comm.
Qed.

(** A program that takes and gives nothing. *)
Definition neutral {R} (e : sysop R) : Prop :=
  attempted e = [] /\ forall r, acquired e r = [] /\ unwritten e r = [].

Lemma owns_neutral {A} held (p : sys A) : all_ops (@neutral) p -> owns held p (fun _ => held).
Proof.
  induction p as [a|R e k IH]; cbn [all_ops owns]; [done|].
  intros [[Hr Ha] Hk] r. exists held. destruct (Ha r) as [-> ->]. rewrite Hr, app_nil_r. auto.
Qed.

(** Held on success only. *)
Definition on_ok {A} (own : A -> list Resource) (r : result anyhow A) : list Resource :=
  match r with
  | Ok a => own a
  | _ => []
  end.

Lemma owns_rpbind {A B} pre (p : M A) (f : A -> M B) own post :
  owns pre p (on_ok own) -> (forall a, owns (own a) (f a) post) ->
  (forall e, post (Err e) = []) -> post Panic = [] -> owns pre (rpbind p f) post.
Proof.
  intros Hp Hf He Hpanic. eapply owns_bind; [exact Hp|]. intros [a|e|]; cbn [on_ok owns]; [auto|..].
  - by rewrite He.
  - by rewrite Hpanic.
Qed.

(** A step that takes nothing, before the rest. *)
Lemma owns_rpbind_neutral {A B} held (p : M A) (f : A -> M B) post :
  all_ops (@neutral) p -> (forall a, owns held (f a) post) ->
  (forall e, post (Err e) = held) -> post Panic = held -> owns held (rpbind p f) post.
Proof.
  intros Hp Hf He Hpanic. eapply owns_bind; [by apply owns_neutral|]. intros [a|e|]; [auto|..]; cbn [owns].
  - by rewrite He.
  - by rewrite Hpanic.
Qed.

Lemma owns_bind_neutral {A B} held (p : sys A) (f : A -> sys B) post :
  all_ops (@neutral) p -> (forall a, owns held (f a) post) -> owns held (pbind p f) post.
Proof. intros Hp Hf. eapply owns_bind; [by apply owns_neutral|done]. Qed.

Lemma neutral_spawn program args input :
  program ∉ ["mount"; "umount"; "qemu-nbd"]%string -> neutral (Spawn program args input).
Proof.
  intros Hp. assert (program <> "mount" /\ program <> "umount" /\ program <> "qemu-nbd")%string as (H1 & H2 & H3)
    by set_solver.
  split; [|intros r; split; [|done]; cbn [acquired]; destruct (succeeded_with r); [|done]]; cbn [attempted];
    unfold spawn_releases, spawn_acquires; repeat (rewrite bool_decide_eq_false_2 by intuition idtac); done.
Qed.

Create HintDb neutral.
Ltac neutral_op :=
  match goal with
  | |- neutral (Spawn _ _ _) => apply neutral_spawn; cbn [cmd_program]; set_solver
  | |- neutral _ => by split
  end.
Ltac neutral := all_ops; try neutral_op; try (by auto with neutral).

Lemma neutral_run_cmd program args :
  program ∉ ["mount"; "umount"; "qemu-nbd"]%string -> all_ops (@neutral) (run_cmd (mkCommand program args)).
Proof. intros Hp. by apply all_ops_run_cmd, neutral_spawn. Qed.

Lemma neutral_ensure_module_loaded name args : all_ops (@neutral) (ensure_module_loaded name args).
Proof. apply all_ops_ensure_module_loaded; [done|apply neutral_spawn; set_solver]. Qed.

Lemma neutral_findmnt dir : all_ops (@neutral) (findmnt_of_dir dir).
Proof. unfold findmnt_of_dir. neutral. apply neutral_run_cmd. set_solver. Qed.

#[export] Hint Resolve neutral_ensure_module_loaded neutral_findmnt : neutral.
#[export] Hint Extern 1 (all_ops _ (run_cmd (mkCommand _ _))) => apply neutral_run_cmd; set_solver : neutral.

(** ** Temporary mounts *)

Definition mount_res (m : TmpMountPoint) : list Resource := [RMount (mount_dir m); RDir (mount_dir m)].

(** A process that takes something when it succeeds. *)
Lemma owns_run_cmd held program args :
  spawn_releases program args = [] ->
  owns held (run_cmd (mkCommand program args))
    (fun r => match r with Ok _ => held ++ spawn_acquires program args | _ => held end).
Proof.
  intros Hr. unfold run_cmd, run_with_input, run_with_input_and_status_checker. cbn [cmd_program cmd_args].
  intros r. cbn [acquired attempted unwritten]. rewrite Hr.
  exists (held ++ if succeeded_with r then spawn_acquires program args else []). split; [done|].
  destruct r as [o|e|]; cbn; [|by rewrite app_nil_r..].
  destruct (status_code o) as [code|]; cbn; [|by rewrite app_nil_r].
  destruct (code =? 0) eqn:Hc; cbn.
  - apply Z.eqb_eq in Hc. subst. by rewrite bool_decide_eq_true_2.
  - apply Z.eqb_neq in Hc. rewrite bool_decide_eq_false_2 by congruence. by rewrite app_nil_r.
Qed.

(** A process that gives something back, whatever its outcome. *)
Lemma owns_run_release held program args :
  (forall r, succeeded_with r = true -> spawn_acquires program args = []) ->
  owns (spawn_releases program args ++ held) (run_cmd (mkCommand program args)) (fun _ => held).
Proof.
  intros Ha. unfold run_cmd, run_with_input, run_with_input_and_status_checker. cbn [cmd_program cmd_args].
  intros r. cbn [acquired attempted unwritten]. exists held. split.
  - destruct (succeeded_with r) eqn:E; [rewrite (Ha r E)|]; by rewrite !app_nil_r.
  - destruct r as [o|e|]; [destruct (status_code o) as [c|] eqn:Hc; cbn; rewrite ?Hc|..]; cbn; reflexivity.
Qed.

Lemma owns_drop_temp_dir held dir : owns (RDir dir :: held) (drop_temp_dir dir) (fun _ => held).
Proof. intros r. exists held. split; [cbn; by rewrite app_nil_r|cbn; done]. Qed.

Lemma owns_on_error {A} pre held own (p : M A) cleanup :
  owns pre p (fun r => match r with Ok a => own a | _ => held end) ->
  owns held cleanup (fun _ => []) -> owns pre (on_error cleanup p) (on_ok own).
Proof.
  intros Hp Hc. unfold on_error. eapply owns_bind; [exact Hp|]. intros [a|e|]; [by cbn|..];
    (eapply owns_bind; [exact Hc|by cbn]).
Qed.

Lemma owns_tmp_mount dev : owns [] (tmp_mount dev false) (on_ok mount_res).
Proof.
  unfold tmp_mount. eapply (owns_rpbind _ _ _ (fun dir => [RDir dir])); [|intros dir|done..].
  { intros r. exists (on_ok (fun dir => [RDir dir]) r). destruct r; by cbn. }
  eapply owns_on_error; [|apply owns_drop_temp_dir].
  eapply owns_bind; [by apply owns_run_cmd|].
  intros [o|e|]; [cbn; apply Permutation_swap|by cbn..].
Qed.

Lemma owns_drop_mount m held : owns (mount_res m ++ held) (drop_mount m) (fun _ => held).
Proof.
  unfold drop_mount. eapply owns_bind; [|intros; apply owns_drop_temp_dir].
  apply (owns_run_release (RDir (mount_dir m) :: held) "umount" [mount_dir m]). done.
Qed.

(** Nothing is held at the end, and a step that may fail in the middle. *)
Definition none {A} (_ : A) : list Resource := [].

Lemma owns_lift {A} (r : result anyhow A) : owns [] (lift r) none.
Proof. by cbn. Qed.

Lemma owns_with_mount {A} dev (body : string -> M A) :
  (forall dir, owns [] (body dir) none) -> owns [] (with_mount dev body) none.
Proof.
  intros Hb. unfold with_mount. eapply owns_rpbind; [apply owns_tmp_mount|intros m|done..].
  eapply owns_bind; [exact (owns_frame [] _ _ (mount_res m) (Hb (mount_dir m)))|]. intros r.
  eapply owns_bind; [exact (owns_drop_mount m [])|intros; by cbn].
Qed.

(** ** nbd devices *)

Definition rule_res (r : UdevRule) : list Resource := RRule <$> option_list r.
Definition nbd_res (d : NbdDevice) : list Resource := RNbd (nbd_path d) :: rule_res (udev_rule d).

Lemma neutral_first_free_nbd nums : all_ops (@neutral) (first_free_nbd nums).
Proof. induction nums as [|i nums IH]; cbn [first_free_nbd]; neutral. Qed.
#[export] Hint Resolve neutral_first_free_nbd : neutral.

Lemma neutral_get_avaliable : all_ops (@neutral) get_avaliable.
Proof. unfold get_avaliable. neutral. Qed.

Lemma neutral_holder_names es : all_ops (@neutral) (holder_names es).
Proof. induction es as [|e es IH]; cbn [holder_names]; neutral. Qed.
#[export] Hint Resolve neutral_get_avaliable neutral_holder_names : neutral.

Lemma neutral_remove_holder_dm_devices d : all_ops (@neutral) (remove_holder_dm_devices d).
Proof. unfold remove_holder_dm_devices. neutral. apply all_ops_for_each. intros x _. neutral. Qed.
#[export] Hint Resolve neutral_remove_holder_dm_devices : neutral.

Lemma owns_drop_udev_rule r held : owns (rule_res r ++ held) (drop_udev_rule r) (fun _ => held).
Proof.
  destruct r as [path|]; [|cbn; reflexivity]. unfold drop_udev_rule.
  eapply (owns_bind _ _ _ (fun _ => held)); [intros r; exists held; split; [by rewrite app_nil_r|by cbn]|].
  intros _. apply owns_neutral. neutral.
Qed.

Lemma owns_drop_nbd d held : owns (nbd_res d ++ held) (drop_nbd d) (fun _ => held).
Proof.
  unfold drop_nbd. eapply owns_bind.
  { apply (owns_run_release (rule_res (udev_rule d) ++ held) "qemu-nbd" ["--disconnect"; nbd_path d]%string). done. }
  intros ?. cbn beta. apply owns_bind_neutral; [neutral|]. intros ?. apply owns_drop_udev_rule.
Qed.

Lemma owns_install_ignore_nbd_rule : owns [] install_ignore_nbd_rule (on_ok rule_res).
Proof.
  unfold install_ignore_nbd_rule. apply owns_bind_neutral; [neutral|]. intros [u|]; [|by cbn].
  apply owns_bind_neutral; [neutral|]. intros ex.
  apply owns_rpbind_neutral; [neutral|intros _|done..].
  eapply (owns_rpbind _ _ _ (fun _ => [RRule rule_path])); [|intros _|done..].
  { intros r. exists (on_ok (fun _ => [RRule rule_path]) r). destruct r; by cbn. }
  eapply (owns_rpbind _ _ _ (fun _ => [RRule rule_path])); [|intros _|done..].
  { intros r. exists (on_ok (fun _ => [RRule rule_path]) r). destruct r; by cbn. }
  apply owns_bind_neutral; [neutral|]. intros reload. apply owns_bind_neutral; [neutral|]. intros _. by cbn.
Qed.

Lemma owns_nbd_connect img : owns [] (nbd_connect img) (on_ok nbd_res).
Proof.
  unfold nbd_connect. apply owns_bind_neutral; [neutral|]. intros ex. destruct (negb ex); [by cbn|].
  apply owns_rpbind_neutral; [neutral|intros num|done..].
  eapply owns_rpbind; [apply owns_install_ignore_nbd_rule|intros rule|done..].
  apply (owns_on_error _ (rule_res rule)); [|rewrite <- (app_nil_r (rule_res rule)); apply owns_drop_udev_rule].
  eapply owns_bind; [by apply owns_run_cmd|]. intros [o|e|]; [|by cbn..].
  apply owns_bind_neutral; [neutral|]. intros _. cbn. apply Permutation_app_comm.
Qed.

(** ** The partitions of a disk *)

Lemma neutral_found_device program args :
  program ∉ ["mount"; "umount"; "qemu-nbd"]%string -> all_ops (@neutral) (found_device (mkCommand program args)).
Proof. intros Hp. unfold found_device. neutral. Qed.

Lemma neutral_detect_root_part hint : all_ops (@neutral) (detect_root_part hint).
Proof. unfold detect_root_part, blkid_match. neutral; apply neutral_found_device; set_solver. Qed.
#[export] Hint Resolve neutral_detect_root_part : neutral.

(** A call, and a value of its result. *)
Lemma owns_neutral_none {A} (p : sys A) : all_ops (@neutral) p -> owns [] p none.
Proof. exact (owns_neutral [] p). Qed.

Lemma owns_find_boot_part ls : owns [] (find_boot_part ls) none.
Proof.
  induction ls as [|l ls IH]; cbn [find_boot_part]; [by cbn|]. destruct (split_whitespace l) as [|dev ?]; [by cbn|].
  eapply owns_bind; [apply owns_with_mount; intros dir; apply owns_neutral_none; neutral|].
  intros [[|]|e|]; try done; by cbn.
Qed.

Lemma owns_detect_boot_part hint : owns [] (detect_boot_part hint) none.
Proof.
  unfold detect_boot_part. apply owns_rpbind_neutral; [apply neutral_found_device; set_solver| |done..].
  intros [dev|]; [by cbn|]. apply owns_rpbind_neutral; [neutral|intros out|done..]. apply owns_find_boot_part.
Qed.

Lemma owns_find_efi_part parts : owns [] (find_efi_part parts) none.
Proof.
  induction parts as [|part parts IH]; cbn [find_efi_part]; [by cbn|].
  eapply owns_bind; [apply owns_with_mount; intros dir; apply owns_neutral_none; neutral|].
  intros [[|]|e|]; try done; by cbn.
Qed.

Lemma owns_detect_efi_part hint : owns [] (detect_efi_part hint) none.
Proof.
  unfold detect_efi_part. apply owns_rpbind_neutral; [neutral|intros out|done..].
  apply owns_rpbind_neutral; [neutral|intros text|done..]. apply owns_find_efi_part.
Qed.

(** ** External disks *)

Definition mounts_res (ms : list TmpMountPoint) : list Resource := ms ≫= mount_res.
Definition disk_res (d : OnExternalFdeDisk) : list Resource :=
  (option_list (nbd_device d) ≫= nbd_res) ++ mounts_res (disk_mounts (disk_type d)).

Lemma owns_drop_mounts ms : owns (mounts_res ms) (drop_mounts ms) none.
Proof.
  induction ms as [|m ms IH]; cbn [drop_mounts]; [by cbn|].
  eapply owns_bind; [apply owns_drop_mount|]. intros ?. exact IH.
Qed.

Lemma owns_drop_opt_nbd o held : owns ((option_list o ≫= nbd_res) ++ held) (drop_opt_nbd o) (fun _ => held).
Proof.
  destruct o as [d|]; [|by cbn].
  assert ((option_list (Some d) ≫= nbd_res) = nbd_res d) as -> by exact (app_nil_r _). apply owns_drop_nbd.
Qed.

Lemma owns_drop_external d : owns (disk_res d) (drop_external d) none.
Proof.
  unfold drop_external, disk_res. eapply owns_bind; [apply owns_drop_opt_nbd|]. intros ?. apply owns_drop_mounts.
Qed.

Section Disks.
Context `{Hex, Base64, JsonText, BinaryTools, HashOrder, FdeToml, Sha384}.

Lemma neutral_is_uki_file file : all_ops (@neutral) (is_uki_file file).
Proof. unfold is_uki_file. neutral. Qed.
#[local] Hint Resolve neutral_is_uki_file : neutral.

Lemma owns_held_tmp_mount held dev :
  owns held (tmp_mount dev false) (fun r => match r with Ok m => mount_res m ++ held | _ => held end).
Proof.
  eapply owns_post; [|exact (owns_frame [] _ _ held (owns_tmp_mount dev))]. by intros [m|e|].
Qed.

Lemma owns_detect_disk_type dev efi_dev efi :
  owns (mount_res efi) (detect_disk_type dev efi_dev efi)
    (fun r => match r with Ok t => mounts_res (disk_mounts t) | _ => mount_res efi end).
Proof.
  unfold detect_disk_type. apply owns_rpbind_neutral; [neutral|intros uki|done..].
  destruct uki; [cbn; done|].
  eapply owns_bind; [exact (owns_frame [] _ _ (mount_res efi) (owns_detect_boot_part dev))|].
  intros [boot|e|]; [| |by cbn].
  - eapply owns_bind; [apply (owns_held_tmp_mount (mount_res efi))|]. intros [m|e|]; by cbn.
  - apply owns_rpbind_neutral; [neutral|intros root|done..].
    eapply owns_bind; [apply (owns_held_tmp_mount (mount_res efi))|]. intros [m|e'|]; [|by cbn..].
    cbn. apply (Permutation_app_comm (mount_res m) (mount_res efi)).
Qed.

Lemma owns_connect_image (real_block_device : bool) disk :
  owns [] (if real_block_device then ok None else let* d := nbd_connect disk in ok (Some d))
    (on_ok (fun o => option_list o ≫= nbd_res)).
Proof.
  destruct real_block_device; [by cbn|]. eapply owns_rpbind; [apply owns_nbd_connect|intros d|done..].
  cbn. by rewrite app_nil_r.
Qed.

Lemma owns_new_from_disk disk : owns [] (new_from_disk disk) (on_ok disk_res).
Proof.
  unfold new_from_disk. apply owns_bind_neutral; [neutral|]. intros ex. destruct (negb ex); [by cbn|].
  apply owns_rpbind_neutral; [neutral|intros real_block_device|done..].
  eapply owns_rpbind; [apply owns_connect_image|intros nbd|done..].
  set (N := option_list nbd ≫= nbd_res).
  apply (owns_on_error _ N).
  2: { rewrite <- (app_nil_r N). apply owns_drop_opt_nbd. }
  eapply owns_bind; [exact (owns_frame [] _ _ N (owns_detect_efi_part _))|]. intros [efi_dev|e|]; [|by cbn..].
  eapply owns_bind; [apply (owns_held_tmp_mount N)|]. intros [efi|e|]; [|by cbn..].
  eapply owns_bind.
  { apply (owns_frame (mount_res efi) _ (on_ok (fun t => mounts_res (disk_mounts t))) N).
    eapply owns_on_error; [apply owns_detect_disk_type|exact (owns_drop_mount efi [])]. }
  intros [t|e|]; cbn; [apply Permutation_app_comm|done..].
Qed.

(** *** Reading the artifacts takes nothing *)

Lemma neutral_real_path_of fuel d path : all_ops (@neutral) (real_path_of fuel d path).
Proof. revert path. induction fuel as [|fuel IH]; intros path; cbn [real_path_of]; neutral; apply IH. Qed.
#[local] Hint Resolve neutral_real_path_of : neutral.

Lemma neutral_external_read fuel d path : all_ops (@neutral) (external_read fuel d path).
Proof. unfold external_read. neutral. Qed.

Lemma neutral_external_exists d path : all_ops (@neutral) (external_exists d path).
Proof. unfold external_exists. neutral. Qed.
#[local] Hint Resolve neutral_external_read neutral_external_exists : neutral.

Lemma neutral_external_grub_env fuel d : all_ops (@neutral) (external_grub_env fuel d).
Proof. unfold external_grub_env, external_has. neutral. Qed.

(** A disk whose methods take nothing. *)
Class NeutralDisk D `{!Disk D} := {
  neutral_check d path : all_ops (@neutral) (check_file_exist_on_disk d path);
  neutral_read d path : all_ops (@neutral) (read_file_on_disk d path);
  neutral_env d : all_ops (@neutral) (load_global_grub_env_file d);
}.

#[local] Instance neutral_external fuel : @NeutralDisk _ (external_disk fuel).
Proof.
  constructor; intros; cbn [external_disk check_file_exist_on_disk read_file_on_disk load_global_grub_env_file];
    auto using neutral_external_grub_env with neutral.
Qed.

#[local] Instance neutral_current : NeutralDisk OnCurrentSystemFdeDisk.
Proof.
  constructor; intros; cbn [current_disk check_file_exist_on_disk read_file_on_disk load_global_grub_env_file]; neutral.
Qed.

Section AnyDisk.
Context {D : Type} `{!Disk D, !NeutralDisk D}.
#[local] Hint Resolve neutral_check neutral_read neutral_env : neutral.

Lemma neutral_read_to_string (d : D) path : all_ops (@neutral) (read_file_on_disk_to_string d path).
Proof. unfold read_file_on_disk_to_string. neutral. Qed.
#[local] Hint Resolve neutral_read_to_string : neutral.

Lemma neutral_load_kernel_artifacts (d : D) vars cfg : all_ops (@neutral) (load_kernel_artifacts d vars cfg).
Proof.
  unfold load_kernel_artifacts, load_from_loader_entry_file, detect_disk_partition_type, detect_partition_table_type.
  neutral.
Qed.
#[local] Hint Resolve neutral_load_kernel_artifacts : neutral.

Lemma neutral_read_grub_files es g : all_ops (@neutral) (read_grub_files es g).
Proof. revert g. induction es as [|e es IH]; intros g; cbn [read_grub_files]; neutral; auto. Qed.
#[local] Hint Resolve neutral_read_grub_files : neutral.

Lemma neutral_load_grub_dirs dirs : all_ops (@neutral) (load_grub_dirs dirs).
Proof. induction dirs as [|dir dirs IH]; cbn [load_grub_dirs]; neutral. Qed.
#[local] Hint Resolve neutral_load_grub_dirs : neutral.

Lemma neutral_extract_grub_items (d : D) env cfg gs : all_ops (@neutral) (extract_grub_items d env cfg gs).
Proof. induction gs as [|g gs IH]; cbn [extract_grub_items]; neutral. Qed.
#[local] Hint Resolve neutral_extract_grub_items : neutral.

Lemma neutral_extract_boot_artifacts (d : D) : all_ops (@neutral) (extract_boot_artifacts d).
Proof.
  unfold extract_boot_artifacts, extract_boot_artifacts_grub, extract_boot_artifacts_uki, load_global_grub_cfg_file,
    load_grub_artifacts, exists_on_disk, ok_opt. neutral.
Qed.
End AnyDisk.

Lemma neutral_current_new : all_ops (@neutral) current_new.
Proof. unfold current_new. neutral. Qed.
#[local] Hint Resolve neutral_current_new : neutral.

(** ** The commands *)

Lemma owns_with_boot_artifacts {A} fuel disk (k : BootArtifactsType -> M A) :
  (forall a, owns [] (k a) none) -> owns [] (with_boot_artifacts fuel disk k) none.
Proof.
  intros Hk. unfold with_boot_artifacts. destruct disk as [disk|].
  - eapply owns_rpbind; [apply owns_new_from_disk|intros d|done..].
    eapply (owns_bind _ _ _ (fun _ => disk_res d)).
    { apply owns_rpbind_neutral; [apply (neutral_extract_boot_artifacts (D := OnExternalFdeDisk))|intros a|done..].
      exact (owns_frame [] _ _ (disk_res d) (Hk a)). }
    intros r. eapply owns_bind; [apply owns_drop_external|]. intros ?. apply owns_lift.
  - apply owns_rpbind_neutral; [neutral|intros d|done..].
    apply owns_rpbind_neutral; [apply neutral_extract_boot_artifacts|intros a|done..]. apply Hk.
Qed.

Lemma owns_with_temp_dir {A} (body : string -> M A) :
  (forall dir, all_ops (@neutral) (body dir)) -> owns [] (with_temp_dir body) none.
Proof.
  intros Hb. unfold with_temp_dir. eapply (owns_rpbind _ _ _ (fun dir => [RDir dir])); [|intros dir|done..].
  { intros r. exists (on_ok (fun dir => [RDir dir]) r). destruct r; by cbn. }
  eapply owns_bind; [by apply owns_neutral|]. intros r.
  eapply owns_bind; [exact (owns_drop_temp_dir [] dir)|]. intros ?. apply owns_lift.
Qed.

Lemma owns_extract_cryptpilot_files k : owns [] (extract_cryptpilot_files k) none.
Proof.
  apply owns_with_temp_dir. intros dir.
  unfold run_cmd_in, fs_get_fde_config_bundle, load_global_config, load_fde_config, load_metadata_from_file, read_toml.
  neutral.
Qed.

Lemma owns_extract_bundles ks : owns [] (extract_bundles ks) none.
Proof.
  induction ks as [|k ks IH]; cbn [extract_bundles]; [by cbn|].
  eapply owns_bind; [apply owns_extract_cryptpilot_files|]. intros r.
  eapply owns_bind; [exact IH|]. intros [rest|e|]; [|by cbn..]. destruct r as [[b md]|e|]; by cbn.
Qed.

Lemma owns_dump_bundle a : owns [] (dump_bundle a) none.
Proof.
  apply owns_rpbind_neutral; [neutral|intros ks|done..].
  eapply owns_bind; [apply owns_extract_bundles|]. by intros [[|b bs]|e|]; cbn.
Qed.

(** ** On traces *)

(** What is taken, what is given back and what is left behind in a run. *)
Definition taken (tr : list (event sysop)) : list Resource :=
  tr ≫= fun ev => match ev with Ev e r => acquired e r end.
Definition given (tr : list (event sysop)) : list Resource :=
  tr ≫= fun ev => match ev with Ev e r => released e r end.
Definition left_over (tr : list (event sysop)) : list Resource :=
  tr ≫= fun ev => match ev with Ev e r => left_behind e r end.

Section Traces.
Context {W : Type} `{!Handler sysop W}.
Implicit Types (w : W).

Lemma owns_trace {A} pre (p : sys A) post w :
  owns pre p post ->
  pre ++ taken (trace p w) ≡ₚ (given (trace p w) ++ left_over (trace p w)) ++ post (fst (run p w)).
Proof.
  revert pre w. induction p as [a|R e k IH]; intros pre w Ho; cbn [owns trace run] in *.
  - cbn. by rewrite app_nil_r.
  - destruct (handle e w) as [r w1]. destruct (Ho r) as (held & Hh & Hk). specialize (IH r held w1 Hk).
    change (pre ++ acquired e r ++ taken (trace (k r) w1)
      ≡ₚ ((released e r ++ given (trace (k r) w1)) ++ left_behind e r ++ left_over (trace (k r) w1)) ++
           post (fst (run (k r) w1))).
    rewrite app_assoc, Hh, released_or_left, <- app_assoc, IH. solve_Permutation.
Qed.

Lemma owns_prefix {A} pre (p : sys A) post w tr1 tr2 :
  owns pre p post -> trace p w = tr1 ++ tr2 -> given tr1 ++ left_over tr1 ⊆+ pre ++ taken tr1.
Proof.
  revert pre w tr1. induction p as [a|R e k IH]; intros pre w tr1 Ho; cbn [owns trace] in *.
  - destruct tr1; [|done]. intros _. apply submseteq_nil_l.
  - destruct (handle e w) as [r w1]. destruct (Ho r) as (held & Hh & Hk).
    destruct tr1 as [|ev tr1]; [intros _; apply submseteq_nil_l|]. intros [= <- Htr].
    change ((released e r ++ given tr1) ++ left_behind e r ++ left_over tr1 ⊆+ pre ++ acquired e r ++ taken tr1).
    rewrite (app_assoc pre), Hh, released_or_left, <- (app_assoc _ held).
    assert ((released e r ++ given tr1) ++ left_behind e r ++ left_over tr1 ≡ₚ
      (released e r ++ left_behind e r) ++ given tr1 ++ left_over tr1) as -> by solve_Permutation.
    apply submseteq_skips_l. by eapply IH.
Qed.

(** A run in which everything taken is given back or left behind by the call
    that was to give it back, each once and not before it was taken, without a
    writable mount. *)
Definition balanced {A} (p : sys A) w : Prop :=
  taken (trace p w) ≡ₚ given (trace p w) ++ left_over (trace p w) /\
  (forall tr1 tr2, trace p w = tr1 ++ tr2 -> given tr1 ++ left_over tr1 ⊆+ taken tr1) /\
  (forall dir, RWritableMount dir ∉ taken (trace p w)).

(** The run did not end within the bound on its loops. *)
Definition endless {A} (p : sys A) w : Prop := exists r, Ev StillLooping r ∈ trace p w.

Lemma attempted_no_writable dir {R} (e : sysop R) : RWritableMount dir ∉ attempted e.
Proof.
  destruct e; cbn; try set_solver. unfold spawn_releases. repeat case_bool_decide; [..|set_solver];
    intros (x & Hx & _)%list_elem_of_fmap; done.
Qed.

Lemma given_no_writable dir tr : RWritableMount dir ∉ given tr ++ left_over tr.
Proof.
  unfold given, left_over. intros [([R e r] & Hin & _)%list_elem_of_bind|([R e r] & Hin & _)%list_elem_of_bind]%elem_of_app;
    unfold released, left_behind in Hin; pose proof (attempted_no_writable dir e).
  - destruct (call_succeeded e r); set_solver.
  - apply elem_of_app in Hin as [Hin|Hin]; [destruct (call_succeeded e r); set_solver|].
    destruct e; cbn in Hin; try set_solver. destruct (is_ok r); [set_solver|]. case_bool_decide; set_solver.
Qed.

Lemma owns_balanced {A} (p : sys A) w : owns [] p none -> balanced p w.
Proof.
  intros Ho. pose proof (owns_trace [] p none w Ho) as Ht. cbn [app] in Ht. unfold none in Ht. rewrite app_nil_r in Ht.
  split; [done|]. split; [by intros tr1 tr2; apply (owns_prefix [] p none)|].
  intros dir. rewrite Ht. apply given_no_writable.
Qed.

(** C19: The commands that inspect a disk clean up after themselves: whatever
    the system answers, and whether they succeed, fail or panic, a run that
    ends (every symbolic link resolved within the bound) has passed every
    directory, mount, nbd device and udev rule it took to the call that gives
    it back, each once and after it was taken; what remains are exactly those
    for which that call failed, and the file of the udev rule when its text
    could not be written; and they only mount read-only. *)
Theorem disk_commands_balanced fuel bundle_pretty disk algos w :
  (endless (show_reference_value_run fuel disk algos) w \/ balanced (show_reference_value_run fuel disk algos) w) /\
  (endless (config_dump_run fuel bundle_pretty disk) w \/ balanced (config_dump_run fuel bundle_pretty disk) w).
Proof.
  split; right; apply owns_balanced.
  - unfold show_reference_value_run. case_bool_decide; [by cbn|]. apply owns_with_boot_artifacts. intros a. by cbn.
  - apply owns_with_boot_artifacts. intros a. eapply owns_bind; [apply owns_dump_bundle|].
    intros [b|e|]; [|by cbn..]. apply owns_neutral_none. neutral.
Qed.

(** An image is disconnected from its nbd device while its partitions are
    still mounted: the first call of the drop is the disconnection, and every
    mount of the disk is to be given back after it. *)
Theorem disconnected_before_umount d nd w :
  nbd_device d = Some nd ->
  exists r tr, trace (drop_external d) w = Ev (Spawn "qemu-nbd" ["--disconnect"; nbd_path nd] None) r :: tr /\
    forall m, m ∈ disk_mounts (disk_type d) -> RMount (mount_dir m) ∈ given tr ++ left_over tr.
Proof.
  intros Hd. pose proof (owns_trace _ _ _ w (owns_drop_external d)) as Ht.
  assert (exists r tr, trace (drop_external d) w = Ev (Spawn "qemu-nbd" ["--disconnect"; nbd_path nd] None) r :: tr)
    as (r & tr & Etr).
  { unfold drop_external. rewrite Hd. cbn. destruct (handle _ w) as [r w1]. by do 2 eexists. }
  exists r, tr. split; [exact Etr|]. intros m Hm. rewrite Etr in Ht.
  assert (RMount (mount_dir m) ∈ disk_res d ++ taken (Ev (Spawn "qemu-nbd" ["--disconnect"; nbd_path nd] None) r :: tr)) as Hi.
  { apply elem_of_app; left. apply elem_of_app; right. apply list_elem_of_bind. exists m. set_solver. }
  rewrite Ht in Hi. unfold none in Hi. rewrite app_nil_r in Hi.
  change (RMount (mount_dir m) ∈ (released (Spawn "qemu-nbd" ["--disconnect"; nbd_path nd] None) r ++ given tr) ++
    left_behind (Spawn "qemu-nbd" ["--disconnect"; nbd_path nd] None) r ++ left_over tr) in Hi.
  unfold released, left_behind in Hi. cbn [attempted unwritten] in Hi.
  change (spawn_releases "qemu-nbd" ["--disconnect"; nbd_path nd]%string) with [RNbd (nbd_path nd)] in Hi.
  destruct (call_succeeded _ r); set_solver.
Qed.
End Traces.
End Disks.
