(* ===== verification/FdeHostProofs.v ===== *)
(** * The host commands of cryptpilot-fde

    What show-reference-value prints for the artifacts of a disk, that the
    hash config dump prints is the one measured when the dump is used, what
    config check means, and which nbd device an image is connected to. *)

From Stdlib Require Import Ascii.
From stdpp Require Import base list strings gmap pretty.
From Stdlib Require Import ZArith Lia.
From S2P Require Import Prelude RustPath RustString Sys Cmd Luks2 Luks2Spec KeyProvider FdeConfig GrubConfig Nbd FdeBootProofs FdeDisk FdeDiskImpl FdeDiskProofs.
From S2P Require Import FileVerifier.

Local Open Scope Z_scope.

(** ** The map that is printed *)

Lemma imap_lookup_insert_eq k v m : imap_lookup k (imap_insert k v m) = Some v.
Proof.
  unfold imap_lookup. induction m as [|[k' v'] m IH]; cbn [imap_insert].
  - cbn. by rewrite bool_decide_eq_true_2.
  - case_decide; cbn [List.find fst]; [by rewrite bool_decide_eq_true_2|].
    by rewrite bool_decide_eq_false_2.
Qed.

Lemma imap_lookup_insert_ne k k' v m : k <> k' -> imap_lookup k (imap_insert k' v m) = imap_lookup k m.
Proof.
  intros Hk. unfold imap_lookup. induction m as [|[k1 v1] m IH]; cbn [imap_insert].
  - cbn. by rewrite bool_decide_eq_false_2.
  - case_decide as H1; cbn [List.find fst].
    + subst. by rewrite !bool_decide_eq_false_2.
    + by case_bool_decide.
Qed.

Lemma imap_lookup_insert k k' v m :
  imap_lookup k (imap_insert k' v m) = if decide (k = k') then Some v else imap_lookup k m.
Proof. case_decide; [subst; apply imap_lookup_insert_eq|by apply imap_lookup_insert_ne]. Qed.

Section Values.
Context `{Hex, BinaryTools}.

Lemma collect_ok {A B} (f : A -> result anyhow B) l ys :
  collect f l = Ok ys <-> Forall2 (fun x y => f x = Ok y) l ys.
Proof.
  revert ys. induction l as [|x l IH]; intros ys; cbn [collect].
  - split; [intros [= <-]; constructor|intros Hf; by inversion Hf].
  - destruct (f x) as [y|e|] eqn:Hx; cbn.
    + destruct (collect f l) as [l'|e|] eqn:Hc; cbn.
      * split; [intros [= <-]; constructor; [done|by apply IH]|].
        intros Hf. inversion Hf as [|? ? ? ? Hy Hl]; subst. apply IH in Hl. congruence.
      * split; [done|]. intros Hf. inversion Hf as [|? ? ? ? Hy Hl]; subst. by apply IH in Hl.
      * split; [done|]. intros Hf. inversion Hf as [|? ? ? ? Hy Hl]; subst. by apply IH in Hl.
    + split; [done|]. intros Hf. inversion Hf. congruence.
    + split; [done|]. intros Hf. inversion Hf. congruence.
Qed.

(** The reference value of a key: the command lines in clear, and for each
    algorithm the hashes of the command lines, kernels and initrds, and the
    Authenticode hashes of the boot loaders, one for each installation. *)
Inductive reference_value (T : HashAlgo) : BootArtifactsType -> string -> list string -> Prop :=
| ref_cmdlines items :
    reference_value T (GrubBoot items) "kernel_cmdline"
      ((fun c => "grub_kernel_cmdline " +:+ c) <$> concat ((fun i => kernel_cmdlines (item_kernel i)) <$> items))
| ref_cmdline_hashes items :
    reference_value T (GrubBoot items) ("measurement.kernel_cmdline." +:+ hash_key T)
      ((fun c => hash_hex T (as_bytes c)) <$> concat ((fun i => kernel_cmdlines (item_kernel i)) <$> items))
| ref_kernels items :
    reference_value T (GrubBoot items) ("measurement.kernel." +:+ hash_key T)
      ((fun i => hash_hex T (kernel_image (item_kernel i))) <$> items)
| ref_initrds items :
    reference_value T (GrubBoot items) ("measurement.initrd." +:+ hash_key T)
      ((fun i => hash_hex T (kernel_initrd (item_kernel i))) <$> items)
| ref_grubs items hs :
    Forall2 (fun i h => calculate_authenticode_hash T (grub_data (item_grub i)) = Ok h) items hs ->
    reference_value T (GrubBoot items) ("measurement.grub." +:+ hash_key T) hs
| ref_shims items hs :
    Forall2 (fun i h => calculate_authenticode_hash T (shim_data (item_grub i)) = Ok h) items hs ->
    reference_value T (GrubBoot items) ("measurement.shim." +:+ hash_key T) hs
| ref_uki uki_data h :
    calculate_authenticode_hash T uki_data = Ok h ->
    reference_value T (UkiBoot uki_data) ("measurement.uki." +:+ hash_key T) [h].

Lemma collect_fun {A B} (f : A -> result anyhow B) l ys zs :
  Forall2 (fun x y => f x = Ok y) l ys -> Forall2 (fun x y => f x = Ok y) l zs -> ys = zs.
Proof. intros Hy%collect_ok Hz%collect_ok. congruence. Qed.

Lemma reference_value_fun T T' a k v v' :
  reference_value T a k v -> reference_value T' a k v' -> v = v'.
Proof.
  intros H1 H2. destruct H1; inversion H2; subst; try done; destruct T, T';
    lazymatch goal with
    | Hk : (_ +:+ _) = _ |- _ => vm_compute in Hk; try discriminate Hk
    | Hk : _ = (_ +:+ _) |- _ => vm_compute in Hk; try discriminate Hk
    | _ => idtac
    end; try done; try congruence;
    match goal with Ha : Forall2 _ _ _, Hb : Forall2 _ _ _ |- _ => exact (collect_fun _ _ _ _ Ha Hb) end.
Qed.

(** The branches of a map after insertions. *)
Ltac imap_cases :=
  repeat (rewrite imap_lookup_insert; case_decide; [left; subst; eexists; split; [by constructor|reflexivity]|]).

Lemma insert_reference_value_lookup a T m m' k :
  insert_reference_value a T m = Ok m' ->
  (exists v, reference_value T a k v /\ imap_lookup k m' = Some v) \/
  ((forall v, ~ reference_value T a k v) /\ imap_lookup k m' = imap_lookup k m).
Proof.
  destruct a as [items|uki]; cbn [insert_reference_value].
  - unfold grub_insert_reference_value.
    destruct (collect (fun i => calculate_authenticode_hash T (grub_data _)) items) as [gs|e|] eqn:Hg; cbn; [|done..].
    destruct (collect (fun i => calculate_authenticode_hash T (shim_data _)) items) as [ss|e|] eqn:Hs; cbn; [|done..].
    apply collect_ok in Hg, Hs. intros [= <-]. imap_cases.
    right. split; [|done]. intros v Hv. by inversion Hv.
  - unfold uki_insert_reference_value. destruct (calculate_authenticode_hash T uki) as [h|e|] eqn:Hh; cbn; [|done..].
    intros [= <-]. imap_cases. right. split; [|done]. intros v Hv. by inversion Hv.
Qed.

(** The binaries of the boot loaders can be hashed. *)
Definition hashable (a : BootArtifactsType) (T : HashAlgo) : Prop :=
  match a with
  | GrubBoot items =>
    Forall (fun i => (exists h, calculate_authenticode_hash T (grub_data (item_grub i)) = Ok h) /\
                     (exists h, calculate_authenticode_hash T (shim_data (item_grub i)) = Ok h)) items
  | UkiBoot uki_data => exists h, calculate_authenticode_hash T uki_data = Ok h
  end.

Lemma collect_is_ok {A B} (f : A -> result anyhow B) l :
  (exists ys, collect f l = Ok ys) <-> Forall (fun x => exists y, f x = Ok y) l.
Proof.
  split.
  - intros [ys Hf%collect_ok]. induction Hf; constructor; eauto.
  - intros Hf. induction Hf as [|x l [y Hy] _ [ys IH]]; [by exists []|]. exists (y :: ys). cbn. by rewrite Hy, IH.
Qed.

Lemma insert_reference_value_ok a T m : (exists m', insert_reference_value a T m = Ok m') <-> hashable a T.
Proof.
  destruct a as [items|uki]; cbn [insert_reference_value hashable].
  - rewrite Forall_and, <- !collect_is_ok. unfold grub_insert_reference_value.
    destruct (collect (fun i => calculate_authenticode_hash T (grub_data _)) items) as [gs|e|]; cbn;
      [|naive_solver..].
    destruct (collect (fun i => calculate_authenticode_hash T (shim_data _)) items) as [ss|e|]; cbn; naive_solver.
  - unfold uki_insert_reference_value. destruct (calculate_authenticode_hash T uki); cbn; naive_solver.
Qed.

Lemma common_insert_lookup a algos m m' k :
  common_insert a algos m = Ok m' ->
  (exists T v, T ∈ algos /\ reference_value T a k v /\ imap_lookup k m' = Some v) \/
  ((forall T v, T ∈ algos -> ~ reference_value T a k v) /\ imap_lookup k m' = imap_lookup k m).
Proof.
  revert m. induction algos as [|T algos IH]; intros m; cbn [common_insert].
  - intros [= <-]. right. split; [set_solver|done].
  - destruct (insert_reference_value a T m) as [m1|e|] eqn:Hi; cbn; [|done..]. intros Hc.
    destruct (IH m1 Hc) as [(T' & v & HT & Hv & Hl)|[Hno Hl]].
    + left. exists T', v. set_solver.
    + destruct (insert_reference_value_lookup a T m m1 k Hi) as [(v & Hv & Hl1)|[Hno1 Hl1]].
      * left. exists T, v. split; [set_solver|]. split; [done|]. congruence.
      * right. split; [|congruence]. intros T' v [-> | HT]%elem_of_cons; [apply Hno1|by apply Hno].
Qed.

Lemma common_insert_ok a algos m : (exists m', common_insert a algos m = Ok m') <-> Forall (hashable a) algos.
Proof.
  revert m. induction algos as [|T algos IH]; intros m; cbn [common_insert]; [split; eauto|].
  rewrite Forall_cons, <- (insert_reference_value_ok a T m).
  destruct (insert_reference_value a T m) as [m1|e|]; cbn; [rewrite (IH m1)|..]; naive_solver.
Qed.

(** C23: The reference values that are printed are exactly those of the
    artifacts: under every key the hashes of all installations for the
    algorithm of the key, for every requested algorithm and for no other key;
    they are printed if and only if every boot loader binary can be hashed
    with every requested algorithm. *)
Theorem reference_values_exact a algos :
  ((exists m, common_insert a algos [] = Ok m) <-> Forall (hashable a) algos) /\
  (forall m k v, common_insert a algos [] = Ok m ->
     imap_lookup k m = Some v <-> exists T, T ∈ algos /\ reference_value T a k v).
Proof.
  split; [apply common_insert_ok|]. intros m k v Hc.
  destruct (common_insert_lookup a algos [] m k Hc) as [(T & v' & HT & Hv & ->)|[Hno ->]].
  - split; [intros [= <-]; eauto|]. intros (T' & HT' & Hv'). f_equal. by eapply reference_value_fun.
  - split; [done|]. intros (T & HT & Hv). by destruct (Hno T v HT).
Qed.
End Values.

(** ** Dump and measurement *)

Section Dump.
Context `{Hex, Base64, JsonText, BinaryTools, HashOrder, FdeToml, Sha384}.
Context (bundle_pretty : FdeConfigBundle -> option string).

(** Printing a configuration and parsing it again, the comments of the dump
    before it. *)
Hypothesis pretty_parses : forall b content h, bundle_pretty b = Some content ->
  toml_bundle (dump_text (hex_encode h) content) = Some b.

Lemma dump_text_header h content :
  starts_with (dump_text h content) CLOUD_INIT_FDE_CONFIG_BUNDLE_HEADER = true /\ trim (dump_text h content) <> "".
Proof.
  split; [apply starts_with_app|]. rewrite <- (of_bytes_as_bytes (dump_text h content)).
  unfold dump_text, CLOUD_INIT_FDE_CONFIG_BUNDLE_HEADER.
  match goal with |- context [?u +:+ ?s] => change (u +:+ s) with (String "#" (skip 1 u +:+ s)) end.
  change (as_bytes (String ?a ?s)) with (byte_of_ascii a :: as_bytes s). by apply trim_not_blank.
Qed.

Lemma parse_dump b content h :
  bundle_pretty b = Some content -> parse_from_user_data (dump_text (hex_encode h) content) = Ok b.
Proof.
  intros Hc. destruct (dump_text_header (hex_encode h) content) as [Hh Ht].
  unfold parse_from_user_data. rewrite bool_decide_eq_false_2 by done. by rewrite Hh, (pretty_parses b content h Hc).
Qed.

Context {W : Type} `{!Handler sysop W}.
Implicit Types (w : W).

(** What comes after reading the artifacts, computed from what was read. *)
Lemma with_boot_artifacts_then {A B} fuel disk (k : BootArtifactsType -> M A) (f : A -> M B) (g : A -> result anyhow B) w x w1 :
  (forall a v, run (f a) v = (g a, v)) ->
  run (with_boot_artifacts fuel disk (fun a => let* y := k a in f y)) w = (Ok x, w1) ->
  exists y, run (with_boot_artifacts fuel disk k) w = (Ok y, w1) /\ g y = Ok x.
Proof.
  intros Hf. unfold with_boot_artifacts. destruct disk as [disk|].
  - intros (d & w2 & Rd & Hrun & _)%rpbind_inv. rewrite run_bind in Hrun.
    destruct (run (rpbind _ _) w2) as [r w3] eqn:Er. rewrite run_bind in Hrun.
    destruct (run (drop_external d) w3) as [[] w4] eqn:Ed. injection Hrun as -> ->.
    apply rpbind_inv in Er as (a & w5 & Ra & Hk & _). apply rpbind_inv in Hk as (y & w6 & Rk & Hy & _).
    rewrite Hf in Hy. injection Hy as Hy ->. exists y. split; [|done].
    rewrite run_rpbind, Rd, run_bind, run_rpbind, Ra, Rk. by rewrite run_bind, Ed.
  - intros (d & w2 & Rd & Hrun & _)%rpbind_inv. apply rpbind_inv in Hrun as (a & w3 & Ra & Hk & _).
    apply rpbind_inv in Hk as (y & w6 & Rk & Hy & _). rewrite Hf in Hy. injection Hy as Hy ->.
    exists y. split; [|done]. by rewrite run_rpbind, Rd, run_rpbind, Ra.
Qed.

Lemma config_dump_inv fuel disk w text w1 :
  run (config_dump_run fuel bundle_pretty disk) w = (Ok text, w1) ->
  exists b toml content, run (with_boot_artifacts fuel disk dump_bundle) w = (Ok b, w1) /\
    bundle_to_toml b = Some toml /\ bundle_pretty b = Some content /\
    text = dump_text (hex_encode (sha384 toml)) content.
Proof.
  unfold config_dump_run. intros (b & Hb & Hx)%(with_boot_artifacts_then _ _ _ _ (fun b =>
    let? hash_hex := gen_hash_hex b in
    let? content := ok_or (bundle_pretty b) (Bail "toml") in
    Ok (dump_text hash_hex content))); cycle 1.
  { intros b v. rewrite run_rpbind. cbn [lift run]. destruct (gen_hash_hex b); [|done..]. cbn [rbind].
    rewrite run_rpbind. cbn [lift run]. by destruct (ok_or (bundle_pretty b) _). }
  unfold gen_hash_hex, gen_hash_content in Hx. destruct (bundle_to_toml b) as [toml|] eqn:Ht; [|done].
  cbn in Hx. destruct (bundle_pretty b) as [content|] eqn:Hc; [|done]. injection Hx as <-.
  by exists b, toml, content.
Qed.

(** The user data of the instance is [text], and the attestation agent
    answers. *)
Definition served (text : string) w : Prop :=
  exists w1, run (let* _ := check_is_aliyun_ecs in get_aliyun_ecs_cloudinit_user_data) w = (Ok text, w1) /\
    fst (handle (TtrpcConnect ATTESTATION_AGENT_TTRPC_SOCKET_DEFAULT_PATH) w1) = Ok tt.

Lemma run_cloud_init w text w1 :
  run (let* _ := check_is_aliyun_ecs in get_aliyun_ecs_cloudinit_user_data) w = (Ok text, w1) ->
  run cloud_init_get_fde_config_bundle w = (parse_from_user_data text, w1).
Proof.
  unfold cloud_init_get_fde_config_bundle. rewrite !run_rpbind.
  destruct (run check_is_aliyun_ecs w) as [[[]|e|] w2]; [|done..]. rewrite run_rpbind.
  by intros ->.
Qed.

(** C20: The hash config dump prints is the one that is measured: when the text
    it prints, of the first bundle that can be extracted from the disk, is the
    user data of an instance whose attestation agent answers, the boot service
    extends exactly that hash into the runtime measurement before it uses the
    configuration, and uses the bundle that was extracted if the extension
    succeeded.  (Printed bundles parse back to themselves.) *)
Theorem dumped_hash_is_measured fuel disk w text w1 :
  run (config_dump_run fuel bundle_pretty disk) w = (Ok text, w1) ->
  exists b h content, run (with_boot_artifacts fuel disk dump_bundle) w = (Ok b, w1) /\
    text = dump_text h content /\
    forall guest, served text guest ->
      exists r, trace (load_untrusted_config true) guest =
        trace cloud_init_get_fde_config_bundle guest ++
          [Ev (TtrpcConnect ATTESTATION_AGENT_TTRPC_SOCKET_DEFAULT_PATH) (Ok tt);
           Ev (ExtendMeasurement AAEL_DOMAIN OPERATION_NAME_LOAD_CONFIG_UNTRUSTED h) r] /\
        (r = Ok tt -> fst (run (load_untrusted_config true) guest) = Ok (Some b)).
Proof.
  intros Hrun. destruct (config_dump_inv _ _ _ _ _ Hrun) as (b & toml & content & Hb & Ht & Hc & ->).
  exists b, (hex_encode (sha384 toml)), content. split; [done|]. split; [done|]. intros guest (g1 & Hg & Ha).
  apply run_cloud_init in Hg. rewrite (parse_dump b content _ Hc) in Hg.
  unfold load_untrusted_config. rewrite run_bind, trace_bind, Hg.
  unfold gen_hash_content. rewrite Ht. cbn [ok_or]. change (rpbind (lift (Ok toml)) ?f) with (f toml). cbv beta.
  unfold measure_new, aael_new. cbn [pbind call run trace].
  destruct (handle (TtrpcConnect _) g1) as [r g2] eqn:Et. cbn [fst] in Ha. subst r.
  cbn [pbind run trace extend_measurement_hash extend_measurement aael_extend_measurement call].
  unfold calculate_hashed_measurement_value.
  destruct (handle (ExtendMeasurement _ _ _) g2) as [r g3] eqn:Em. exists r.
  destruct r as [[]|e|]; by cbn.
Qed.
End Dump.

(** ** config check *)

Section Check.
Context `{Hex, Base64, JsonText, FdeToml, Sha384} {W : Type} `{!Handler sysop W}.
Implicit Types (w : W).

(** The check in short: load the configuration, fetch every key. *)
Definition fetch_key (p : KeyProviderConfig) : M unit := let* _ := get_key p in ok tt.

Definition config_check_reference (source : M FdeConfigBundle) (skip_check_passphrase : bool) : M unit :=
  let* _ := source in
  let* b := source in
  for_each (if skip_check_passphrase then [] else from_option fde_providers [] (bundle_fde b)) fetch_key.

Lemma run_fetch_key p w :
  run (fetch_key p) w = match run (get_key p) w with
                        | (Ok _, w1) => (Ok tt, w1)
                        | (Err e, w1) => (Err e, w1)
                        | (Panic, w1) => (Panic, w1)
                        end.
Proof. unfold fetch_key. rewrite run_rpbind. by destruct (run (get_key p) w) as [[]]. Qed.

Lemma run_check_fde_keys_skip keep ps w : run (check_fde_keys keep true ps) w = (Ok false, w).
Proof. induction ps as [|p ps IH]; [done|]. cbn [check_fde_keys]. rewrite run_rpbind. cbn. by rewrite run_rpbind, IH. Qed.

Lemma run_check_fde_keys keep ps w w' :
  run (check_fde_keys keep false ps) w = (Ok false, w') <-> run (for_each ps fetch_key) w = (Ok tt, w').
Proof.
  revert w. induction ps as [|p ps IH]; intros w; [cbn; naive_solver congruence|].
  cbn [check_fde_keys for_each]. rewrite !run_rpbind, run_fetch_key, run_bind.
  destruct (run (get_key p) w) as [[k|e|] w1]; cbn [run ok lift panic].
  - rewrite run_rpbind. rewrite <- (IH w1). destruct (run (check_fde_keys keep false ps) w1) as [[[|]|e|] w2]; cbn; naive_solver.
  - destruct keep; cbn [run ok lift]; [|naive_solver]. rewrite run_rpbind.
    destruct (run (check_fde_keys true false ps) w1) as [[[|]|e'|] w2]; cbn; naive_solver.
  - naive_solver.
Qed.

(** Config check passes exactly when the configuration can be loaded and,
    unless told otherwise, the key of every volume can be fetched: with
    [--keep-checking] and without, a run of the check that succeeds is a run
    of that, to the same state. *)
Theorem config_check_equivalent source keep_checking skip_check_passphrase w w' :
  run (fde_config_check_run source keep_checking skip_check_passphrase) w = (Ok tt, w') <->
  run (config_check_reference source skip_check_passphrase) w = (Ok tt, w').
Proof.
  unfold fde_config_check_run, config_check_reference. rewrite !run_rpbind.
  destruct (run source w) as [[b0|e|] w1]; [|naive_solver..]. rewrite !run_rpbind.
  destruct (run source w1) as [[b|e|] w2]; [|naive_solver..]. rewrite run_rpbind.
  destruct (bundle_fde b) as [fde|]; cbn [from_option].
  2: { destruct skip_check_passphrase; cbn; naive_solver. }
  destruct skip_check_passphrase; [rewrite run_check_fde_keys_skip; cbn; naive_solver|].
  rewrite <- (run_check_fde_keys keep_checking).
  destruct (run (check_fde_keys keep_checking false _) w2) as [[[|]|e|] w3]; cbn; naive_solver.
Qed.
End Check.

(** ** nbd devices *)

Section NbdDevices.
Context {W : Type} `{Cryptsetup W}.
Implicit Types (w : W).

(** A device with no image connected, and one that cannot be used. *)
Definition nbd_free w (i : Z) : Prop :=
  fst (handle (PathExists (nbd_num_path i)) w) = true /\
  exists s, fst (handle (BlockDeviceSize (nbd_num_path i)) w) = Ok (0, s).

Definition nbd_unusable w (i : Z) : Prop :=
  fst (handle (PathExists (nbd_num_path i)) w) = false \/
  (exists n s, fst (handle (BlockDeviceSize (nbd_num_path i)) w) = Ok (n, s) /\ n <> 0) \/
  (exists e, fst (handle (BlockDeviceSize (nbd_num_path i)) w) = Err e).

Lemma run_first_free_nbd nums w i w' :
  run (first_free_nbd nums) w = (Ok i, w') <->
  w' = w /\ exists l1 l2, nums = l1 ++ i :: l2 /\ nbd_free w i /\ Forall (nbd_unusable w) l1.
Proof.
  induction nums as [|j nums IH]; cbn [first_free_nbd].
  { cbn. split; [done|]. by intros (_ & [|? l1] & l2 & Hn & _). }
  assert (Hskip : nbd_unusable w j -> ~ nbd_free w j ->
    run (first_free_nbd nums) w = (Ok i, w') <->
    w' = w /\ exists l1 l2, j :: nums = l1 ++ i :: l2 /\ nbd_free w i /\ Forall (nbd_unusable w) l1).
  { intros Hu Hf. rewrite IH. split.
    - intros (-> & l1 & l2 & -> & Hi & Hl). split; [done|]. exists (j :: l1), l2. split; [done|]. split; [done|]. by constructor.
    - intros (-> & [|j' l1] & l2 & Hn & Hi & Hl); simplify_list_eq; [done|].
      split; [done|]. exists l1, l2. apply Forall_cons in Hl as [_ Hl]. done. }
  rewrite run_bind, run_query by done.
  destruct (fst (handle (PathExists (nbd_num_path j)) w)) eqn:He; cbn [negb].
  2: { apply Hskip; [by left|]. unfold nbd_free. rewrite He. by intros [? _]. }
  rewrite run_bind, run_query by done.
  destruct (fst (handle (BlockDeviceSize (nbd_num_path j)) w)) as [[n s]|e|] eqn:Hs.
  - destruct (n =? 0) eqn:Hn.
    + apply Z.eqb_eq in Hn as ->. cbn. split.
      * intros [= <- <-]. split; [done|]. exists [], nums. split; [done|]. split; [|constructor]. split; [done|]. by exists s.
      * intros (-> & [|j' l1] & l2 & Hn & Hi & Hl); simplify_list_eq; [done|].
        apply Forall_cons in Hl as [[Hx|[(n & s' & Hx & Hne)|(e & Hx)]] _]; congruence.
    + apply Z.eqb_neq in Hn. apply Hskip; [right; left; eauto|]. intros [_ [s' Hx]]. congruence.
  - apply Hskip; [right; right; eauto|]. intros [_ [s' Hx]]. congruence.
  - cbn. split; [done|]. intros (-> & [|j' l1] & l2 & Hn & Hi & Hl); simplify_list_eq.
    + destruct Hi as [_ [s' Hx]]. congruence.
    + apply Forall_cons in Hl as [[Hx|[(n & s' & Hx & Hne)|(e & Hx)]] _]; congruence.
Qed.

Lemma seqZ_split n i (P : Z -> Prop) :
  (exists l1 l2, seqZ 0 n = l1 ++ i :: l2 /\ Forall P l1) <-> 0 <= i < n /\ (forall j, 0 <= j < i -> P j).
Proof.
  split.
  - intros (l1 & l2 & Hn & Hl). assert (seqZ 0 n !! length l1 = Some i) as [Ei Hi]%lookup_seqZ.
    { rewrite Hn. by apply list_lookup_middle. }
    split; [lia|]. intros j Hj. rewrite Forall_forall in Hl. apply Hl.
    apply (list_elem_of_lookup_2 _ (Z.to_nat j)). assert (l1 = take (length l1) (seqZ 0 n)) as ->.
    { by rewrite Hn, take_app_length. }
    rewrite lookup_take_lt by lia. apply lookup_seqZ. lia.
  - intros [Hi HP]. exists (seqZ 0 i), (seqZ (i + 1) (n - i - 1)). split.
    + replace n with (i + (n - i)) at 1 by lia. rewrite seqZ_app by lia. f_equal.
      rewrite seqZ_cons by lia. rewrite Z.add_0_l. repeat f_equal; lia.
    + apply Forall_forall. intros j Hj%elem_of_seqZ. apply HP. lia.
Qed.

(** An image is connected to the first of the hundred nbd devices that
    exists and has no image connected; the devices before it do not exist, are
    connected, or cannot be asked. *)
Theorem nbd_first_free w i w' :
  fst (handle (PathExists "/dev/nbd0") w) = true ->
  run get_avaliable w = (Ok i, w') <->
  w' = w /\ 0 <= i < 100 /\ nbd_free w i /\ (forall j, 0 <= j < i -> nbd_unusable w j).
Proof.
  intros H0. unfold get_avaliable. rewrite run_bind, run_query by done. rewrite H0. cbn [negb].
  rewrite run_bind. cbn [run]. rewrite run_first_free_nbd.
  pose proof (seqZ_split 100 i (nbd_unusable w)). naive_solver.
Qed.
End NbdDevices.
