(* ===== verification/HostInstances.v ===== *)
(** * Disks, GRUB and blktrace: concrete runs

    The theorems of [GrubProofs], [FdeDiskProofs], [FdeHostProofs] and
    [BlktraceProofs] applied to concrete data, on [ToyMachine] where they run a
    program. *)

From Stdlib Require Import Ascii.
From stdpp Require Import base list strings gmap pretty.
From Stdlib Require Import ZArith Lia.
From S2P Require Import Prelude Slices RustPath RustString Sys Cmd Luks2 Luks2Spec KeyProvider Mkfs MkfsProofs ToyMachine.
From S2P Require Import CryptInstances FdeConfig FdeInstances Blktrace BlktraceProofs GrubConfig GrubProofs Nbd FdeDisk FdeDiskImpl FdeDiskProofs FdeHostProofs.
From S2P Require Import FileVerifier.

Local Open Scope Z_scope.

(** ** GRUB *)

Definition grub_vars0 : list (string * string) := [("root", "UUID=1"); ("tuned_params", "")]%string.

Lemma substitute_simultaneous_witness :
  substitute grub_vars0 "root=$root ro $tuned_params" = "root=UUID=1 ro "%string /\
  substitute (rev grub_vars0) "root=$root ro $tuned_params" = substitute grub_vars0 "root=$root ro $tuned_params".
Proof.
  destruct (substitute_simultaneous grub_vars0 (rev grub_vars0) "root=$root ro $tuned_params") as [E1 E2].
  - split; [repeat constructor|].
    repeat (apply Forall_cons_2; [intros n v Hin; cbn in Hin; set_unfold in Hin;
      destruct_or? Hin; simplify_eq; vm_compute; first [discriminate|reflexivity]|]). apply Forall_nil_2.
  - intros x y Hx Hy. cbn in Hx, Hy. set_unfold in Hx; set_unfold in Hy. destruct_or? Hx; destruct_or? Hy; subst;
      vm_compute; intros Hs; first [reflexivity|discriminate Hs].
  - apply Permutation_rev.
  - split; [vm_compute; reflexivity|exact E2].
Defined.

Definition NL : string := LF.

(** A menu with two entries. *)
Definition grub_cfg0 : string :=
  "menuentry 'old' {" +:+ NL +:+ " linux /vmlinuz-1 ro" +:+ NL +:+ "}" +:+ NL +:+
  "menuentry 'new' {" +:+ NL +:+ "  linux /vmlinuz-2 root=/dev/vda3 quiet" +:+ NL +:+ "  initrd /initrd-2" +:+ NL +:+ "}" +:+ NL.

Lemma grub_menu_entry_witness :
  load_from_grub_cfg "'new'" grub_cfg0 = ("/boot/vmlinuz-2", "/boot/initrd-2", "root=/dev/vda3 quiet")%string.
Proof.
  etransitivity.
  - apply (grub_menu_entry "'new'" grub_cfg0 ["menuentry 'old' {"; " linux /vmlinuz-1 ro"; "}"]%string "menuentry 'new' {"
      ["  linux /vmlinuz-2 root=/dev/vda3 quiet"; "  initrd /initrd-2"]%string "}" []).
    + vm_compute. reflexivity.
    + repeat constructor.
    + vm_compute. reflexivity.
    + repeat constructor; vm_compute; discriminate.
    + vm_compute. reflexivity.
  - vm_compute. reflexivity.
Defined.

Lemma disk_of_partition_witness :
  get_disk_root_device "/dev/sda3" = "/dev/sda"%string /\ get_disk_root_device "/dev/nvme0n1p3" = "/dev/nvme0n1"%string /\
  get_disk_root_device "/dev/sda12" = "/dev/sda1"%string.
Proof.
  destruct (disk_of_partition "/dev/sd" "a" "3" "2" eq_refl eq_refl) as (H1 & _ & _).
  destruct (disk_of_partition "/dev/nvme0n1" "p" "3" "2" eq_refl eq_refl) as (_ & H2 & _).
  destruct (disk_of_partition "/dev/sda" "a" "1" "2" eq_refl eq_refl) as (_ & _ & H3).
  split; [apply H1; discriminate|]. split; [exact H2|exact H3].
Defined.

Lemma grub_env_roundtrip_witness :
  parse_grub_env_vars (env_text [("saved_entry", "new"); ("boot_success", "1")]%string) grub_cfg0 !! "saved_entry"%string
    = Some "new"%string.
Proof.
  apply (grub_env_roundtrip [("saved_entry", "new"); ("boot_success", "1")]%string grub_cfg0 "saved_entry" "new").
  - repeat constructor.
  - vm_compute map. repeat constructor; set_solver.
  - by left.
Defined.

(** ** Links on a disk *)

Definition disk0 : OnExternalFdeDisk :=
  mkExternal None (ExtGrub "/dev/vdb2" (mkTmpMount "/tmp/a" "/dev/vdb2") "/dev/vdb1" (mkTmpMount "/tmp/b" "/dev/vdb1")).

(** /boot/vmlinuz is a link to /boot/vmlinuz-2, and /boot/loop one to itself. *)
Definition disk_machine : machine :=
  mkMachine ∅ ∅ [] ["/dev/nbd0"; "/dev/nbd1"; "/boot/efi/EFI/BOOT/BOOTX64.EFI"; "/tmp/.tmp/etc/cryptpilot"]%string
    (<["/tmp/a/vmlinuz ->" := "/boot/vmlinuz-2"%string]>
      (<["/tmp/a/loop ->" := "/boot/loop"%string]>
        (<["/boot/efi/EFI/BOOT/BOOTX64.EFI" := "uki"%string]>
          (<["/tmp/.tmp/etc/cryptpilot/metadata.toml" := "metadata"%string]> ∅))))
    (fun _ _ => Byte.x00).

Lemma real_path_follows_witness :
  follows disk_machine disk0 1 "/boot/vmlinuz" "/tmp/a/vmlinuz-2" /\
  run (real_path_of 5 disk0 "/boot/vmlinuz") disk_machine = (Ok "/tmp/a/vmlinuz-2"%string, disk_machine).
Proof.
  assert (F : follows disk_machine disk0 1 "/boot/vmlinuz" "/tmp/a/vmlinuz-2").
  { eapply follows_link; [vm_compute; reflexivity..|]. apply follows_file; vm_compute; reflexivity. }
  split; [exact F|]. apply (proj1 (real_path_follows disk0 "/boot/vmlinuz" disk_machine "/tmp/a/vmlinuz-2") 1%nat 5%nat F).
  lia.
Defined.

(** ** nbd devices *)

Lemma nbd_first_free_witness : run get_avaliable disk_machine = (Ok 0, disk_machine).
Proof.
  apply (nbd_first_free disk_machine 0 disk_machine); [vm_compute; reflexivity|].
  split; [reflexivity|]. split; [lia|]. split; [|intros j Hj; lia].
  split; [vm_compute; reflexivity|]. exists 4. vm_compute. reflexivity.
Defined.

(** ** A dump that is measured *)

Definition empty_bundle : FdeConfigBundle := mkBundle None None.

Definition host_toml : FdeToml := {|
  toml_global := fun _ => None;
  toml_fde := fun _ => None;
  toml_bundle := fun _ => Some empty_bundle;
  toml_metadata := fun s => if bool_decide (s = "metadata"%string) then Some (mkMetadata 1 "ab") else None;
  bundle_to_toml := fun _ => Some "bundle"%string;
  initrd_state_to_toml := fun _ => Some "state"%string;
  toml_initrd_state := fun _ => Some empty_bundle;
|}.

Definition host_pretty (b : FdeConfigBundle) : option string :=
  match b with
  | mkBundle None None => Some "pretty"%string
  | _ => None
  end.

(** Every file is an image with the three sections. *)
Definition host_tools : BinaryTools := {|
  digest_of := fun _ l => l;
  object_parse := fun l => Some (mkObject Pe (fun _ => Some (Some l)));
  PeImage := bytes;
  pe_parse64 := Some;
  pe_parse32 := Some;
  authenticode_digest := fun _ l => Some l;
|}.

Definition host_order : HashOrder := {| map_order := map_to_list; set_order := fun l => l |}.

#[local] Existing Instances toy_hex toy_base64 toy_json_text host_toml toy_sha384 host_tools host_order.

Definition dump0 : M string := config_dump_run 5 host_pretty None.
Definition dumped : string := dump_text (hex_encode (sha384 "bundle")) "pretty".

(** The instance whose user data is the dump. *)
Definition guest_machine : machine :=
  mkMachine ∅ ∅ [] [] (<["user-data" := dumped]> ∅) (fun _ _ => Byte.x00).

Lemma dumped_hash_is_measured_witness :
  run dump0 disk_machine = (Ok dumped, snd (run dump0 disk_machine)) /\
  exists b h content,
    run (with_boot_artifacts 5 None dump_bundle) disk_machine = (Ok b, snd (run dump0 disk_machine)) /\
    dumped = dump_text h content /\
    forall guest : machine, served dumped guest ->
      exists r, trace (load_untrusted_config true) guest =
        trace cloud_init_get_fde_config_bundle guest ++
          [Ev (TtrpcConnect ATTESTATION_AGENT_TTRPC_SOCKET_DEFAULT_PATH) (Ok tt);
           Ev (ExtendMeasurement AAEL_DOMAIN OPERATION_NAME_LOAD_CONFIG_UNTRUSTED h) r] /\
        (r = Ok tt -> fst (run (load_untrusted_config true) guest) = Ok (Some b)).
Proof.
  assert (E : run dump0 disk_machine = (Ok dumped, snd (run dump0 disk_machine))).
  { apply CryptInstances.run_pair. vm_compute. reflexivity. }
  split; [exact E|].
  refine (dumped_hash_is_measured host_pretty _ 5%nat None disk_machine dumped _ E).
  intros [[g|] [f|]] content h; [discriminate..|]. intros [= <-]. reflexivity.
Defined.

(** Such an instance exists. *)
Example guest_is_served : served dumped guest_machine.
Proof. eexists. split; vm_compute; reflexivity. Qed.
