(* ===== verification/BlktraceInstances.v ===== *)
(** * Recording: the layout of the kernel

    The layout of [struct blk_io_trace] of [linux/blktrace_api.h], little
    endian, has what the readers rely on; the theorems of [BlktraceProofs]
    applied to it. *)

From stdpp Require Import base list strings.
From Stdlib Require Import ZArith Lia.
From S2P Require Import Prelude Slices RustString Sys Mkfs MkfsProofs Blktrace BlktraceProofs CryptInstances.

Local Open Scope Z_scope.

Fixpoint from_le_bytes (l : bytes) : Z :=
  match l with
  | [] => 0
  | b :: l => Z_of_byte b + 256 * from_le_bytes l
  end.

Lemma from_to_le_bytes n z : 0 <= z < 256 ^ Z.of_nat n -> from_le_bytes (to_le_bytes n z) = z.
Proof.
  revert z. induction n as [|n IH]; intros z Hz; [cbn in *; lia|].
  rewrite Nat2Z.inj_succ, Z.pow_succ_r in Hz by lia. cbn [to_le_bytes from_le_bytes].
  rewrite IH by (split; [apply Z.div_pos; lia|apply Z.div_lt_upper_bound; lia]).
  rewrite Z_of_byte_of_Z. pose proof (Z.div_mod z 256). lia.
Qed.

(** Magic, sequence and time, sector, bytes, action, process to error, length
    of the data. *)
Definition kernel_encode (h : TraceHeader) : bytes :=
  to_le_bytes 4 (hd_magic h) ++ zeros 12 ++ to_le_bytes 8 (bt_sector (hd_trace h)) ++
  to_le_bytes 4 (bt_bytes (hd_trace h)) ++ to_le_bytes 4 (bt_action (hd_trace h)) ++ zeros 14 ++
  to_le_bytes 2 (hd_pdu_len h).

Definition field (off n : nat) (l : bytes) : Z := from_le_bytes (take n (drop off l)).

Definition kernel_decode (l : bytes) : TraceHeader :=
  mkHeader (field 0 4 l) (field 46 2 l) (mkTrace (field 28 4 l) (field 16 8 l) (field 24 4 l)).

#[global] Instance kernel_abi : BlkTraceAbi := {|
  BLK_IO_TRACE_MAGIC := 0x65617400;
  BLK_IO_TRACE_VERSION := 0x07;
  EVENT_SIZE := 48;
  decode_header := kernel_decode;
|}.

Definition fits (h : TraceHeader) : Prop :=
  0 <= hd_magic h < 2 ^ 32 /\ 0 <= hd_pdu_len h < 2 ^ 16 /\ 0 <= bt_action (hd_trace h) < 2 ^ 32 /\
  0 <= bt_sector (hd_trace h) < 2 ^ 64 /\ 0 <= bt_bytes (hd_trace h) < 2 ^ 32.

Lemma field_skip a l off n : (length a <= off)%nat -> field off n (a ++ l) = field (off - length a) n l.
Proof. intros Ha. unfold field. by rewrite drop_app_ge. Qed.

Lemma field_here n z l : 0 <= z < 256 ^ Z.of_nat n -> field 0 n (to_le_bytes n z ++ l) = z.
Proof.
  intros Hz. unfold field. rewrite drop_0. rewrite take_app_length' by (by rewrite to_le_bytes_length).
  by apply from_to_le_bytes.
Qed.

Lemma kernel_decode_encode h : fits h -> kernel_decode (kernel_encode h) = h.
Proof.
  intros (H1 & H2 & H3 & H4 & H5). destruct h as [m pl [ac se by_]]. cbn [hd_magic hd_pdu_len hd_trace bt_action bt_sector bt_bytes] in *.
  unfold kernel_decode, kernel_encode. cbn [hd_magic hd_pdu_len hd_trace bt_action bt_sector bt_bytes].
  repeat f_equal;
    repeat (rewrite field_skip by (rewrite ?to_le_bytes_length, ?zeros_length; lia);
            rewrite ?to_le_bytes_length, ?zeros_length; cbn [Nat.sub]);
    try (rewrite field_here by done; reflexivity).
  rewrite <- (app_nil_r (to_le_bytes 2 pl)). by rewrite field_here.
Qed.

#[global] Instance kernel_abi_spec : BlkTraceAbiSpec.
Proof.
  refine {| header_ok := fits; encode_header := kernel_encode |}.
  - cbn. lia.
  - intros h. unfold kernel_encode. by rewrite !length_app, !to_le_bytes_length, !zeros_length.
  - exact kernel_decode_encode.
Defined.

(** ** Two processors *)

Definition trace_event (action sector bytes : Z) (data : list byte) : BlkTraceEvent :=
  mkEvent (mkHeader 0x65617407 (Z.of_nat (length data)) (mkTrace action sector bytes)) data.

Definition write_event (sector : Z) : BlkTraceEvent := trace_event (2 * 2 ^ 16) sector 4096 [Byte.x01].
Definition read_event0 : BlkTraceEvent := trace_event (1 * 2 ^ 16) 8 512 [].

Definition cpu0 : Channel := mkChannel [write_event 0] [(false, []); (true, [read_event0])].
Definition cpu1 : Channel := mkChannel [] [(false, [write_event 64; read_event0])].

Lemma cpus_valid : Forall channel_valid [cpu0; cpu1].
Proof.
  repeat constructor; cbn; try lia; try discriminate; intros Hc; discriminate.
Qed.

Lemma relay_roundtrip_witness :
  relay_read 8 (encode_events [write_event 0]) (polls_of (ch_segs cpu0) ++ [quiescent])
    = ([write_event 0; read_event0], Some (Ok tt)).
Proof.
  apply (relay_roundtrip [write_event 0] (ch_segs cpu0) 8).
  - apply (Forall_inv cpus_valid).
  - apply (Forall_inv cpus_valid).
  - vm_compute. lia.
Defined.

Lemma relay_reader_terminates_witness :
  exists r, snd (relay_read 60 (zeros 50) ([mkPoll false []] ++ [quiescent])) = Some r.
Proof. apply (relay_reader_terminates 60 (zeros 50) [mkPoll false []]). vm_compute. lia. Defined.

#[local] Existing Instance toy_consts.

Lemma recorded_pages_complete_witness :
  exists ps, touched_positions 4096 (trace_of <$> [write_event 0; write_event 64; read_event0; read_event0]) = Ok ps /\
    NoDup (rw_positions ps) /\
    forall i, i ∈ rw_positions ps <->
      exists c e b, c ∈ [cpu0; cpu1] /\ e ∈ channel_events c /\ is_recorded (trace_of e) = true /\
        touches_byte 4096 (trace_of e) b /\ b / 4096 = i.
Proof.
  apply (recorded_pages_complete 8 [cpu0; cpu1] [write_event 0; write_event 64; read_event0; read_event0] 4096).
  - exact cpus_valid.
  - repeat constructor; vm_compute; lia.
  - vm_compute. do 2 constructor.
  - lia.
  - repeat constructor; vm_compute; discriminate.
Defined.
