(* ===== verification/Passthrough.v ===== *)
(** * The passthrough mount

    [verity-fuse/src/bin/verity-fuse.rs]: a verifier that accepts every block,
    over the inode table it numbers from the source directory, mounted with the
    file system of [VerityFs].  Another instance of the interface of
    [FileVerifier]. *)

From stdpp Require Import base list numbers option strings gmap sets.
From Stdlib Require Import ZArith Lia.
From S2P Require Import Prelude Slices FileVerifier FileHandleCache VerityFs.

(** ** Files that are not verified *)

Record PassthroughFile `{RelativePath} := mkPassthroughFile {
  pf_ino : Z;
  pf_path : RelPath;
}.
Arguments mkPassthroughFile {_}.
Arguments pf_ino {_}.
Arguments pf_path {_}.

(** Every file has the expected size zero; every block is accepted. *)
#[export] Instance PassthroughFile_VerifiableFile `{RelativePath} : VerifiableFile PassthroughFile := {
  file_ino := pf_ino;
  file_path := pf_path;
  expected_size _ := Some 0%Z;
  file_block_size _ := Some 4096%Z;
  file_verify_data_block _ _ _ := Ok tt;
}.

Record PassthroughVerifier `{RelativePath} := mkPassthroughVerifier {
  pv_path_to_ino : gmap RelPath Z;
  pv_ino_to_file : gmap Z PassthroughFile;
}.
Arguments mkPassthroughVerifier {_}.
Arguments pv_path_to_ino {_}.
Arguments pv_ino_to_file {_}.

#[export] Instance PassthroughVerifier_FileVerifier `{RelativePath}
  : FileVerifier PassthroughVerifier PassthroughFile := {
  lookup_by_ino self ino := pv_ino_to_file self !! ino;
  lookup_by_path self path := ino ← pv_path_to_ino self !! path; pv_ino_to_file self !! ino;
}.

(** ** The source directory *)

(** An entry of a directory; no type when it cannot be read or is another one
    than these, and symbolic links are not followed. *)
Record SourceEntry := mkSourceEntry {
  se_name : string;
  se_file_type : option FileType;
}.

#[export] Instance FileType_eq_dec : EqDecision FileType.
Proof. solve_decision. Defined.

Definition is_file (entry : SourceEntry) : bool := bool_decide (se_file_type entry = Some FtRegularFile).
Definition is_dir (entry : SourceEntry) : bool := bool_decide (se_file_type entry = Some FtDirectory).

(** [Dir::open_ambient_dir] of the verifier and of the file system, [Dir::read_dir] ([None] entries are those that
    [flatten] leaves out) and what [main] asks of the two paths. *)
Class SourceDir := {
  source_exists : bool;
  source_is_dir : bool;
  mount_point_exists : bool;
  source_opens : bool;
  source_reopens : bool;
  source_read_dir : string -> option (list (option SourceEntry));
}.

Inductive PassthroughError `{RelativePath} :=
| SourceMissing
| SourceNotADirectory
| MountPointNotFound
| OpenDirFailed
| FsNewFailed
| ReadDirFailed (path : RelPath)
| InvalidEntryName (name : string).

Section Preload.
Context `{PathConv, SourceDir}.

Definition relative_path_to_path (relative_path : RelPath) : string := to_logical_path relative_path.

Record PreloadState := mkPreload {
  ps_path_to_ino : gmap RelPath Z;
  ps_ino_to_file : gmap Z PassthroughFile;
  ps_next_ino : Z;
}.

(** An inode for a path that has none yet; regular files are entered. *)
Definition allocate_inode (st : PreloadState) (child_path : RelPath) (file : bool) : PreloadState :=
  match ps_path_to_ino st !! child_path with
  | Some _ => st
  | None =>
    let ino := ps_next_ino st in
    {| ps_next_ino := wrap64 (ino + 1);
       ps_path_to_ino := <[child_path := ino]> (ps_path_to_ino st);
       ps_ino_to_file :=
         if file then <[ino := mkPassthroughFile ino child_path]> (ps_ino_to_file st)
         else ps_ino_to_file st |}
  end.

(** The [for] loop over the entries of one directory; the stack has its top
    first. *)
Fixpoint preload_entries (current_path : RelPath) (entries : list (option SourceEntry))
    (st : PreloadState) (stack : list RelPath)
  : result PassthroughError (PreloadState * list RelPath) :=
  match entries with
  | [] => Ok (st, stack)
  | None :: entries => preload_entries current_path entries st stack
  | Some entry :: entries =>
    let? rel := ok_or (rp_from_path (se_name entry)) (InvalidEntryName (se_name entry)) in
    let child_path := rp_join current_path rel in
    let st := allocate_inode st child_path (is_file entry) in
    let stack := if is_dir entry then child_path :: stack else stack in
    preload_entries current_path entries st stack
  end.

(** The [while let] loop; [fuel] bounds the directories read. *)
Fixpoint preload_loop (fuel : nat) (stack : list RelPath) (st : PreloadState)
  : option (result PassthroughError PreloadState) :=
  match stack with
  | [] => Some (Ok st)
  | current_path :: stack =>
    match fuel with
    | O => None
    | S fuel =>
      match source_read_dir (relative_path_to_path current_path) with
      | None => Some (Err (ReadDirFailed current_path))
      | Some entries =>
        match preload_entries current_path entries st stack with
        | Ok (st, stack) => preload_loop fuel stack st
        | Err e => Some (Err e)
        | Panic => Some Panic
        end
      end
    end
  end.

Definition preload_recursive (fuel : nat) (st : PreloadState) (dir_path : RelPath)
  : option (result PassthroughError PreloadState) := preload_loop fuel [dir_path] st.

Definition passthrough_new (fuel : nat) : option (result PassthroughError PassthroughVerifier) :=
  if negb source_opens then Some (Err OpenDirFailed)
  else
    let root_path := rp_from ROOT_PATH in
    let st := {| ps_path_to_ino := <[root_path := ROOT_INO]> ∅;
                 ps_ino_to_file := ∅;
                 ps_next_ino := wrap64 (ROOT_INO + 1) |} in
    r ← preload_recursive fuel st root_path;
    Some (let? st := r in Ok (mkPassthroughVerifier (ps_path_to_ino st) (ps_ino_to_file st))).

Inductive MountOption := RO | FSName (name : string) | AllowOther | NoAtime.

(** [main] up to the blocking mount: what is mounted, with which options. *)
Definition passthrough_main (fuel : nat)
  : option (result PassthroughError (PassthroughVerifier * list MountOption)) :=
  if negb source_exists then Some (Err SourceMissing)
  else if negb source_is_dir then Some (Err SourceNotADirectory)
  else if negb mount_point_exists then Some (Err MountPointNotFound)
  else
    r ← passthrough_new fuel;
    Some (let? verifier := r in
          if negb source_reopens then Err FsNewFailed
          else Ok (verifier, [RO; FSName "verity-fuse"; AllowOther; NoAtime])).
End Preload.

(** ** What the preload computes *)

Section PreloadProofs.
Context `{PathConv, SourceDir}.
Implicit Types (p c : RelPath) (st : PreloadState) (e : SourceEntry).

Definition root_path : RelPath := rp_from ROOT_PATH.

(** The path of an entry of the directory [p]. *)
Definition entry_path_in p e c : Prop :=
  exists rel, rp_from_path (se_name e) = Some rel /\ c = rp_join p rel.

Definition reads p (entries : list (option SourceEntry)) : Prop :=
  source_read_dir (relative_path_to_path p) = Some entries.

(** The directories of the source tree, and the entries it lists. *)
Inductive source_dir : RelPath -> Prop :=
| source_dir_root : source_dir root_path
| source_dir_child p entries e c :
    source_dir p -> reads p entries -> Some e ∈ entries -> is_dir e = true ->
    entry_path_in p e c -> source_dir c.

Definition listed c e : Prop :=
  exists p entries, source_dir p /\ reads p entries /\ Some e ∈ entries /\ entry_path_in p e c.

Definition child_dir p (entry : option SourceEntry) : option RelPath :=
  e ← entry; rel ← rp_from_path (se_name e);
  if is_dir e then Some (rp_join p rel) else None.

(** A source tree: [size] bounds the entries below each directory, a path is
    listed once, and the root is not listed. *)
Record source_wf (size : RelPath -> nat) : Prop := {
  sw_pos p : 1 <= size p;
  sw_finite p entries : reads p entries ->
    1 + length entries + sum_list_with size (omap (child_dir p) entries) <= size p;
  sw_unique c e e' : listed c e -> listed c e' -> e = e';
  sw_root e : ~ listed root_path e;
}.

Record preload_inv st : Prop := {
  pi_next : (2 <= ps_next_ino st)%Z;
  pi_root : ps_path_to_ino st !! root_path = Some ROOT_INO;
  pi_range p i : ps_path_to_ino st !! p = Some i -> (ROOT_INO <= i < ps_next_ino st)%Z;
  pi_inj p q i : ps_path_to_ino st !! p = Some i -> ps_path_to_ino st !! q = Some i -> p = q;
  pi_listed p i : ps_path_to_ino st !! p = Some i -> p = root_path \/ exists e, listed p e;
  pi_file i f : ps_ino_to_file st !! i = Some f ->
    pf_ino f = i /\ ps_path_to_ino st !! pf_path f = Some i /\
    exists e, listed (pf_path f) e /\ is_file e = true;
  pi_regular p e i : listed p e -> is_file e = true -> ps_path_to_ino st !! p = Some i ->
    ps_ino_to_file st !! i = Some (mkPassthroughFile i p);
}.

(** More paths are numbered, with at most [n] more inodes. *)
Definition grown st st' (n : nat) : Prop :=
  ps_path_to_ino st ⊆ ps_path_to_ino st' /\ (ps_next_ino st' <= ps_next_ino st + Z.of_nat n)%Z.

Lemma grown_trans st1 st2 st3 n m : grown st1 st2 n -> grown st2 st3 m -> grown st1 st3 (n + m).
Proof. intros [? ?] [? ?]. split; [by etrans|lia]. Qed.

Context (size : RelPath -> nat) (Hwf : source_wf size).

Lemma allocate_inv st c e :
  preload_inv st -> listed c e -> (ps_next_ino st + 1 < u64_modulus)%Z ->
  let st' := allocate_inode st c (is_file e) in
  preload_inv st' /\ grown st st' 1 /\ is_Some (ps_path_to_ino st' !! c).
Proof.
  intros Hi Hl Hn. unfold allocate_inode. destruct (ps_path_to_ino st !! c) as [i|] eqn:Ec.
  { split; [done|]. split; [split; [done|lia]|]. by rewrite Ec. }
  pose proof (pi_next st Hi) as H2. unfold ROOT_INO in *.
  assert (wrap64 (ps_next_ino st + 1) = ps_next_ino st + 1)%Z as Ew by (apply wrap64_small; lia).
  assert (root_path <> c) as Hrc by (intros <-; rewrite (pi_root st Hi) in Ec; done).
  assert (forall p i, ps_path_to_ino st !! p = Some i -> i <> ps_next_ino st) as Hfresh
    by (intros p i Ep; apply (pi_range st Hi) in Ep; lia).
  cbn zeta. split; [|split; [split|]]; cbn [ps_path_to_ino ps_next_ino].
  - constructor; cbn [ps_path_to_ino ps_ino_to_file ps_next_ino]; rewrite ?Ew.
    + lia.
    + rewrite lookup_insert_ne by done. apply (pi_root st Hi).
    + intros p i. rewrite lookup_insert_Some. intros [[<- <-]|[_ Ep]]; unfold ROOT_INO; [lia|].
      apply (pi_range st Hi) in Ep. unfold ROOT_INO in Ep. lia.
    + intros p q i. rewrite !lookup_insert_Some.
      intros [[<- <-]|[_ Ep]] [[<- Eq]|[_ Eq]]; [done| | |by eapply (pi_inj st Hi)].
      * by apply Hfresh in Eq.
      * subst. by apply Hfresh in Ep.
    + intros p i. rewrite lookup_insert_Some. intros [[<- <-]|[_ Ep]]; [eauto|by eapply (pi_listed st Hi)].
    + intros i f Ef.
      assert (ps_ino_to_file st !! i = Some f \/
        is_file e = true /\ i = ps_next_ino st /\ f = mkPassthroughFile (ps_next_ino st) c) as [Ei|(Hf & -> & ->)].
      { destruct (is_file e); [|by left]. apply lookup_insert_Some in Ef as [[<- <-]|[_ Ef]]; auto. }
      * destruct (pi_file st Hi i f Ei) as (E1 & E2 & E3). split; [done|]. split; [|done].
        rewrite lookup_insert_ne; [done|]. intros ->. congruence.
      * simpl. rewrite lookup_insert_eq. eauto.
    + intros p e' i Hl' Hf. rewrite lookup_insert_Some. intros [[<- <-]|[Hne Ep]].
      * assert (e' = e) as -> by by eapply (sw_unique size Hwf). rewrite Hf. by rewrite lookup_insert_eq.
      * pose proof (pi_regular st Hi p e' i Hl' Hf Ep) as Ei. apply Hfresh in Ep.
        destruct (is_file e); [|done]. by rewrite lookup_insert_ne.
  - by apply insert_subseteq.
  - rewrite Ew. lia.
  - rewrite lookup_insert_eq. eauto.
Qed.

(** An entry whose name is not a relative path stops the preload. *)
Definition bad_name (name : string) : Prop :=
  exists p entries e, source_dir p /\ reads p entries /\ Some e ∈ entries /\
    se_name e = name /\ rp_from_path name = None.

Lemma preload_entries_inv p all : source_dir p -> reads p all ->
  forall entries st stack,
  (forall e, Some e ∈ entries -> Some e ∈ all) -> preload_inv st ->
  (ps_next_ino st + Z.of_nat (length entries) < u64_modulus)%Z ->
  match preload_entries p entries st stack with
  | Ok (st', stack') => preload_inv st' /\ grown st st' (length entries) /\
      stack' = reverse (omap (child_dir p) entries) ++ stack /\
      forall e c, Some e ∈ entries -> entry_path_in p e c -> is_Some (ps_path_to_ino st' !! c)
  | Err (InvalidEntryName name) => bad_name name
  | _ => False
  end.
Proof.
  intros Hp Hr. induction entries as [|[e|] entries IH]; intros st stack Hin Hi Hn.
  - simpl. split; [done|]. split; [split; [done|simpl; lia]|]. split; [done|].
    by intros e c Hx%elem_of_nil.
  - cbn [preload_entries length] in *. assert (Some e ∈ all) as He by (apply Hin; left).
    destruct (rp_from_path (se_name e)) as [rel|] eqn:Erel; cbn [ok_or rbind].
    2:{ exists p, all, e. done. }
    set (c := rp_join p rel). assert (entry_path_in p e c) as Hc by by exists rel.
    destruct (allocate_inv st c e Hi) as (Hi1 & Hg1 & Hd1); [by exists p, all|lia|].
    specialize (IH (allocate_inode st c (is_file e)) (if is_dir e then c :: stack else stack)
      (fun e' He' => Hin e' (list_elem_of_further _ _ _ He')) Hi1 ltac:(destruct Hg1; lia)).
    destruct (preload_entries _ _ _ _) as [[st' stack']|[]|]; try done.
    destruct IH as (Hi' & Hg' & -> & Hall). split; [done|].
    split; [by apply (grown_trans _ _ _ 1 _ Hg1)|]. split.
    + simpl. unfold child_dir at 2. simpl. rewrite Erel. simpl.
      destruct (is_dir e); simpl; [by rewrite reverse_cons, <- app_assoc|done].
    + intros e' c' [[= ->]|He']%elem_of_cons Hc'; [|by eapply Hall].
      assert (c' = c) as -> by (destruct Hc' as (rel' & E' & ->); unfold c; congruence).
      destruct Hd1 as [i Hd1]. exists i. by eapply lookup_weaken; [|apply Hg'].
  - cbn [preload_entries length] in *.
    specialize (IH st stack (fun e' He' => Hin e' (list_elem_of_further _ _ _ He')) Hi ltac:(lia)).
    destruct (preload_entries _ _ _ _) as [[st' stack']|[]|]; try done.
    destruct IH as (Hi' & Hg' & -> & Hall). split; [done|].
    split; [destruct Hg'; split; [done|simpl; lia]|]. split; [done|].
    intros e' c' [?|He']%elem_of_cons Hc'; [done|by eapply Hall].
Qed.

(** The directories read so far: their entries are numbered and those of them
    that are directories were read or are on the stack. *)
Definition covers (read : RelPath -> Prop) (stack : list RelPath) st : Prop :=
  (read root_path \/ root_path ∈ stack) /\
  forall p entries e c, read p -> reads p entries -> Some e ∈ entries -> entry_path_in p e c ->
    is_Some (ps_path_to_ino st !! c) /\ (is_dir e = true -> read c \/ c ∈ stack).

Lemma child_dir_elem p (entries : list (option SourceEntry)) c :
  c ∈ omap (child_dir p) entries <->
  exists e, Some e ∈ entries /\ is_dir e = true /\ entry_path_in p e c.
Proof.
  rewrite list_elem_of_omap. split.
  - intros ([e|] & He & Ec); [|done]. exists e. split; [done|]. unfold child_dir in Ec. simpl in Ec.
    destruct (rp_from_path (se_name e)) as [rel|] eqn:E; [|done]. simpl in Ec.
    destruct (is_dir e) eqn:Ed; [|done]. injection Ec as <-. split; [done|]. by exists rel.
  - intros (e & He & Hd & rel & E & ->). exists (Some e). split; [done|].
    unfold child_dir. simpl. rewrite E. simpl. by rewrite Hd.
Qed.

Lemma covers_step (read : RelPath -> Prop) p stack st st' (entries : list (option SourceEntry)) :
  covers read (p :: stack) st -> reads p entries -> ps_path_to_ino st ⊆ ps_path_to_ino st' ->
  (forall e c, Some e ∈ entries -> entry_path_in p e c -> is_Some (ps_path_to_ino st' !! c)) ->
  covers (fun q => read q \/ q = p) (reverse (omap (child_dir p) entries) ++ stack) st'.
Proof.
  intros [Hroot Hc] Hr Hsub Hall. split.
  - rewrite elem_of_app. rewrite elem_of_cons in Hroot. tauto.
  - intros q es e c [Hq| ->] Hes He Hec.
    + destruct (Hc q es e c Hq Hes He Hec) as [[i Hi] Hd]. split.
      * exists i. by eapply lookup_weaken.
      * intros [?|Hin]%Hd; [by do 2 left|]. apply elem_of_cons in Hin as [->|Hin]; [by left; right|].
        right. rewrite elem_of_app. by right.
    + assert (es = entries) as -> by (unfold reads in *; congruence). split; [by eapply Hall|].
      intros Hd. right. rewrite elem_of_app, elem_of_reverse, child_dir_elem. left. eauto.
Qed.

(** Nothing is left on the stack: the whole tree was read. *)
Lemma covers_all (read : RelPath -> Prop) st c e :
  covers read [] st -> listed c e -> is_Some (ps_path_to_ino st !! c).
Proof.
  intros [Hroot Hc] (p & entries & Hp & Hr & He & Hec).
  assert (read p) as Hread.
  { clear Hr He Hec entries e c. induction Hp as [|p entries e c Hp IH Hr He Hd Hec].
    - destruct Hroot as [?|Hx%elem_of_nil]; done.
    - destruct (Hc p entries e c IH Hr He Hec) as [_ [?|Hx%elem_of_nil]%(fun f => f Hd)]; done. }
  by eapply Hc.
Qed.

Definition unread_dir p : Prop := source_dir p /\ source_read_dir (relative_path_to_path p) = None.

Lemma preload_loop_inv fuel : forall stack st (read : RelPath -> Prop),
  (forall p, p ∈ stack -> source_dir p) -> preload_inv st -> covers read stack st ->
  sum_list_with size stack <= fuel ->
  (ps_next_ino st + Z.of_nat (sum_list_with size stack) < u64_modulus)%Z ->
  exists r, preload_loop fuel stack st = Some r /\
  match r with
  | Ok st' => preload_inv st' /\ exists read', covers read' [] st'
  | Err (ReadDirFailed p) => unread_dir p
  | Err (InvalidEntryName name) => bad_name name
  | _ => False
  end.
Proof.
  induction fuel as [|fuel IH]; intros [|p stack] st read Hs Hi Hc Hf Hn;
    cbn [preload_loop sum_list_with] in *.
  1, 3: exists (Ok st); eauto.
  { pose proof (sw_pos size Hwf p). lia. }
  assert (source_dir p) as Hp by (apply Hs; left).
  destruct (source_read_dir (relative_path_to_path p)) as [entries|] eqn:Er.
  2:{ exists (Err (ReadDirFailed p)). by split. }
  pose proof (sw_finite size Hwf p entries Er) as Hsz.
  pose proof (preload_entries_inv p entries Hp Er entries st stack (fun _ x => x) Hi ltac:(lia)) as He.
  destruct (preload_entries _ _ _ _) as [[st' stack']|[]|]; try done; [|by eexists].
  destruct He as (Hi' & [Hsub Hg] & -> & Hall). apply IH with (fun q => read q \/ q = p).
  - intros q [Hq|Hq]%elem_of_app; [|apply Hs; by right].
    apply elem_of_reverse, child_dir_elem in Hq as (e & He & Hd & Hec). by eapply source_dir_child.
  - done.
  - by apply (covers_step _ _ _ st).
  - rewrite sum_list_with_app, sum_list_with_reverse. lia.
  - rewrite sum_list_with_app, sum_list_with_reverse. lia.
Qed.

Definition initial_state : PreloadState := {|
  ps_path_to_ino := <[root_path := ROOT_INO]> ∅;
  ps_ino_to_file := ∅;
  ps_next_ino := wrap64 (ROOT_INO + 1) |}.

Lemma initial_inv : preload_inv initial_state.
Proof.
  constructor; simpl.
  - done.
  - by rewrite lookup_insert_eq.
  - intros p i [[_ <-]|[_ ?%lookup_empty_Some]]%lookup_insert_Some; [|done]. by vm_compute.
  - intros p q i [[<- _]|[_ ?%lookup_empty_Some]]%lookup_insert_Some
      [[<- _]|[_ ?%lookup_empty_Some]]%lookup_insert_Some; done.
  - intros p i [[<- _]|[_ ?%lookup_empty_Some]]%lookup_insert_Some; [by left|done].
  - by intros i f ?%lookup_empty_Some.
  - intros p e i Hl Hf [[<- _]|[_ ?%lookup_empty_Some]]%lookup_insert_Some; [|done].
    by apply (sw_root size Hwf) in Hl.
Qed.

(** The verifier of a source tree, with the bound on its size as fuel. *)
Lemma passthrough_new_inv fuel :
  size root_path <= fuel -> (Z.of_nat (2 + size root_path) < u64_modulus)%Z -> source_opens = true ->
  exists r, passthrough_new fuel = Some r /\
  match r with
  | Ok v => exists st, preload_inv st /\ (exists read, covers read [] st) /\
      v = mkPassthroughVerifier (ps_path_to_ino st) (ps_ino_to_file st)
  | Err (ReadDirFailed p) => unread_dir p
  | Err (InvalidEntryName name) => bad_name name
  | _ => False
  end.
Proof.
  intros Hf Hn Ho. unfold passthrough_new. rewrite Ho. cbn [negb].
  fold root_path. fold initial_state. unfold preload_recursive.
  destruct (preload_loop_inv fuel [root_path] initial_state (fun _ => False)) as (r & -> & Hr).
  - intros p ->%list_elem_of_singleton. constructor.
  - apply initial_inv.
  - split; [right; by left|]. intros p entries e c [].
  - simpl. lia.
  - simpl. change (wrap64 (ROOT_INO + 1)) with 2%Z. lia.
  - cbn [mbind option_bind]. eexists. split; [done|].
    destruct r as [st|[]|]; cbn [rbind]; try done. destruct Hr as [? ?]. by exists st.
Qed.
End PreloadProofs.

(** ** Properties *)

Section PassthroughProperties.
Context `{PathConv, SourceDir}.

Lemma passthrough_lookup st v c f :
  preload_inv st -> v = mkPassthroughVerifier (ps_path_to_ino st) (ps_ino_to_file st) ->
  lookup_by_path v c = Some f ->
  file_path f = c /\ lookup_by_ino v (file_ino f) = Some f /\
  exists e, listed c e /\ is_file e = true.
Proof.
  intros Hi -> E. simpl in E. destruct (ps_path_to_ino st !! c) as [i|] eqn:Ec; [|done]. simpl in E.
  destruct (pi_file st Hi i f E) as (<- & Ep & He). simpl.
  assert (pf_path f = c) as <- by by eapply (pi_inj st Hi). done.
Qed.

(** Over a finite source tree the preload ends, and numbers it: it fails only
    at a directory that cannot be read or a name that is not a relative path,
    and otherwise exactly the regular files that the tree lists are found by
    their path, each with that path and found by its inode, and distinct paths
    have distinct inodes. *)
Theorem passthrough_preload_correct (size : RelPath -> nat) fuel :
  source_wf size -> size root_path <= fuel -> (Z.of_nat (2 + size root_path) < u64_modulus)%Z ->
  source_opens = true ->
  exists r, passthrough_new fuel = Some r /\
  match r with
  | Ok v =>
      (forall c, is_Some (lookup_by_path v c) <-> exists e, listed c e /\ is_file e = true) /\
      (forall c f, lookup_by_path v c = Some f ->
        file_path f = c /\ lookup_by_ino v (file_ino f) = Some f) /\
      (forall c c' f f', lookup_by_path v c = Some f -> lookup_by_path v c' = Some f' ->
        file_ino f = file_ino f' -> c = c')
  | Err (ReadDirFailed p) => unread_dir p
  | Err (InvalidEntryName name) => bad_name name
  | _ => False
  end.
Proof.
  intros Hwf Hf Hn Ho. destruct (passthrough_new_inv size Hwf fuel Hf Hn Ho) as (r & -> & Hr).
  exists r. split; [done|]. destruct r as [v|[]|]; try done.
  destruct Hr as (st & Hi & (read & Hc) & Ev).
  pose proof (fun c f => passthrough_lookup st v c f Hi Ev) as Hl.
  split; [|split].
  - intros c. split; [intros [f Ef]; by apply Hl in Ef as (_ & _ & ?)|].
    intros (e & He & Hfile). destruct (covers_all _ _ _ _ Hc He) as [i Ei].
    exists (mkPassthroughFile i c). subst v. simpl. rewrite Ei. simpl. by eapply (pi_regular st Hi).
  - intros c f Ef. by apply Hl in Ef as (? & ? & _).
  - intros c c' f f' Ef Ef' Eino. apply Hl in Ef as (<- & Ef & _), Ef' as (<- & Ef' & _). congruence.
Qed.

Context {HL1 : LruCache Z Z} {HL2 : LruCache BlockKey bytes} {HO : OS}.

(** The passthrough mount cannot be used: the root directory has no file, so
    that the kernel's requests on it all end in [ENOENT], and the attributes of
    a regular file are refused with [EIO] unless it is empty. *)
Theorem passthrough_root_unusable (size : RelPath -> nat) fuel v :
  source_wf size -> size root_path <= fuel -> (Z.of_nat (2 + size root_path) < u64_modulus)%Z ->
  passthrough_new fuel = Some (Ok v) ->
  forall s : VerityFS,
  fs_getattr v ROOT_INO s = Some (Err ENOENT, s) /\
  (forall name, fs_lookup v ROOT_INO name s = Some (Err ENOENT, s)) /\
  (forall capacity offset, fs_readdir v capacity ROOT_INO offset s = Some (Err ENOENT, s)) /\
  (forall i f md, lookup_by_ino v i = Some f ->
    os_symlink_metadata (calls s) (to_logical_path (file_path f)) = Ok md ->
    md_is_file md = true -> md_len md <> 0%Z ->
    exists s', fs_getattr v i s = Some (Err EIO, s')).
Proof.
  intros Hwf Hf Hn E s.
  assert (source_opens = true) as Ho
    by (destruct source_opens eqn:Eo; [done|]; unfold passthrough_new in E; by rewrite Eo in E).
  destruct (passthrough_new_inv size Hwf fuel Hf Hn Ho) as (r & Er & Hr).
  rewrite E in Er. injection Er as <-. destruct Hr as (st & Hi & _ & Ev).
  assert (lookup_by_ino v ROOT_INO = None) as Hroot.
  { subst v. simpl. destruct (ps_ino_to_file st !! ROOT_INO) as [f|] eqn:Ef; [|done].
    destruct (pi_file st Hi _ _ Ef) as (_ & Ep & e & He & _).
    rewrite (pi_inj st Hi _ _ _ Ep (pi_root st Hi)) in He. by apply (sw_root size Hwf) in He. }
  split; [|split; [|split]].
  - unfold fs_getattr, mbindM, lift. by rewrite Hroot.
  - intros name. unfold fs_lookup, mbindM, lift. by rewrite Hroot.
  - intros capacity offset. unfold fs_readdir, readdir_entries, mbindM, lift. by rewrite Hroot.
  - intros i f md Ef Emd Hfile Hlen. eexists. unfold fs_getattr, mbindM, lift. rewrite Ef.
    cbn [ok_or]. unfold get_metadata, syscall, relative_path_to_path_in_source_dir. rewrite Emd.
    cbn [map_err rbind]. unfold check_metadata_file_size. rewrite Hfile. cbn [orb ok_or expected_size rbind].
    simpl. by rewrite decide_True.
Qed.
End PassthroughProperties.
