(* ===== verification/PassthroughInstances.v ===== *)
(** * The passthrough mount of a concrete directory

    The theorems of [Passthrough] applied to a directory with a subdirectory. *)

From stdpp Require Import base list numbers option strings gmap.
From Stdlib Require Import ZArith Lia.
From S2P Require Import Prelude Slices FileVerifier FileHandleCache VerityFs VerityFsInstances Passthrough.

#[local] Existing Instances toy_path toy_conv handle_lru block_lru honest_os.

Definition dir_d : SourceEntry := mkSourceEntry "d" (Some FtDirectory).
Definition file_in_root : SourceEntry := mkSourceEntry "a" (Some FtRegularFile).
Definition file_in_d : SourceEntry := mkSourceEntry "b" (Some FtRegularFile).

#[local] Instance toy_source : SourceDir := {|
  source_exists := true;
  source_is_dir := true;
  mount_point_exists := true;
  source_opens := true;
  source_reopens := true;
  source_read_dir path :=
    if decide (path = "") then Some [Some dir_d; None; Some file_in_root]
    else if decide (path = "d") then Some [Some file_in_d]
    else None;
|}.

Definition toy_size (p : RelPath) : nat :=
  if decide (String.concat "/" p = "") then 30 else if decide (String.concat "/" p = "d") then 4 else 1.

Lemma toy_source_dirs p : source_dir p -> p = [] \/ p = ["d"].
Proof.
  induction 1 as [|p entries e c _ IH Hr He Hd (rel & Erel & ->)]; [by left|right].
  injection Erel as <-. destruct IH as [-> | ->].
  - injection Hr as <-. repeat (apply elem_of_cons in He as [He|He]; [simplify_eq; try done|]).
    by apply elem_of_nil in He.
  - injection Hr as <-. apply elem_of_cons in He as [He|He%elem_of_nil]; [by simplify_eq|done].
Qed.

Lemma toy_listed c e :
  listed c e ->
  (c, e) = (["d"], dir_d) \/ (c, e) = (["a"], file_in_root) \/ (c, e) = (["d"; "b"], file_in_d).
Proof.
  intros (p & entries & Hp & Hr & He & rel & Erel & ->). injection Erel as <-.
  apply toy_source_dirs in Hp as [-> | ->]; injection Hr as <-;
    repeat (apply elem_of_cons in He as [He|He]; [simplify_eq; auto|]); by apply elem_of_nil in He.
Qed.

Lemma concat_not_empty p : String.concat "/" (p ++ ["d"]) <> "".
Proof.
  destruct p as [|x [|y p]]; [done| |]; cbn [app String.concat];
    destruct x; cbn [String.append]; discriminate.
Qed.

Lemma toy_source_wf : source_wf toy_size.
Proof.
  constructor.
  - intros p. unfold toy_size. repeat case_decide; lia.
  - intros p entries Hr. unfold reads, relative_path_to_path in Hr. simpl in Hr. unfold toy_size at 2.
    repeat case_decide; simplify_eq; simpl; try lia.
    assert (toy_size (rp_join p ["d"]) <= 4) as Hd; [|simpl in *; lia].
    unfold toy_size, rp_join. simpl. repeat case_decide; try lia. exfalso. by eapply concat_not_empty.
  - intros c e e' Hl Hl'. apply toy_listed in Hl, Hl'. naive_solver.
  - intros e Hl. apply toy_listed in Hl. naive_solver.
Qed.

Lemma passthrough_preload_witness :
  exists r, passthrough_new 30 = Some r /\
  match r with
  | Ok v =>
      (forall c, is_Some (lookup_by_path v c) <-> exists e, listed c e /\ is_file e = true) /\
      (forall c f, lookup_by_path v c = Some f ->
        file_path f = c /\ lookup_by_ino v (file_ino f) = Some f) /\
      (forall c c' f f', lookup_by_path v c = Some f -> lookup_by_path v c' = Some f' ->
        file_ino f = file_ino f' -> c = c')
  | Err (ReadDirFailed p) => unread_dir p
  | Err (InvalidEntryName name) => bad_name name
  | _ => False
  end.
Proof.
  apply (passthrough_preload_correct toy_size 30 toy_source_wf); [|done|done].
  vm_compute. lia.
Defined.

Definition toy_verifier : PassthroughVerifier :=
  match passthrough_new 30 with Some (Ok v) => v | _ => mkPassthroughVerifier ∅ ∅ end.

(** The files of the directory, numbered after the root and the directory. *)
Example toy_verifier_files :
  pf_path <$> lookup_by_ino toy_verifier 3 = Some ["a"] /\
  pf_path <$> lookup_by_ino toy_verifier 4 = Some ["d"; "b"].
Proof. by vm_compute. Qed.

Lemma passthrough_root_unusable_witness :
  fs_getattr toy_verifier ROOT_INO fs_new = Some (Err ENOENT, fs_new) /\
  (forall name, fs_lookup toy_verifier ROOT_INO name fs_new = Some (Err ENOENT, fs_new)) /\
  (forall capacity offset,
    fs_readdir toy_verifier capacity ROOT_INO offset fs_new = Some (Err ENOENT, fs_new)) /\
  (forall i f md, lookup_by_ino toy_verifier i = Some f ->
    os_symlink_metadata (calls fs_new) (to_logical_path (file_path f)) = Ok md ->
    md_is_file md = true -> md_len md <> 0%Z ->
    exists s', fs_getattr toy_verifier i fs_new = Some (Err EIO, s')).
Proof.
  apply (passthrough_root_unusable toy_size 30 toy_verifier toy_source_wf).
  - vm_compute. lia.
  - done.
  - vm_compute. reflexivity.
Defined.
