(* ===== verification/Template.v ===== *)
(** * Templates of the configuration files

    [cryptpilot-crypt/src/bin/gen-template/main.rs] and
    [cryptpilot-fde/src/bin/gen-template/main.rs]: the example configurations,
    and the documentation comments that are put before the keys and tables of
    their TOML documents.  Writing and parsing TOML, and the documentation the
    build derives for the configuration structs, are interfaces. *)

From Stdlib Require Import Ascii.
From stdpp Require Import base list numbers option strings.
From S2P Require Import Prelude RustString Luks2 KeyProvider VolumeConfig FdeConfig.

(** ** Documents *)

(** The text before a key or a table: comments, blanks and line ends. *)
Record Decor := mkDecor {
  decor_prefix : option string;
}.

Record Key := mkKey {
  key_get : string;
  leaf_decor : Decor;
}.

(** [toml_edit::Item] and [Table]; a value is its text. *)
Inductive Item :=
| INone
| IValue (v : string)
| ITable (t : Table)
| IArrayOfTables (ts : list Table)
with Table := mkTable (d : Decor) (items : list (Key * Item)).

Definition table_decor (t : Table) : Decor := match t with mkTable d _ => d end.
Definition table_items (t : Table) : list (Key * Item) := match t with mkTable _ es => es end.
Definition set_decor (t : Table) (d : Decor) : Table := mkTable d (table_items t).

(** [get_mut] followed by [as_table_mut]. *)
Fixpoint find_table (es : list (Key * Item)) (name : string) : option Table :=
  match es with
  | [] => None
  | (k, item) :: es =>
    if decide (key_get k = name)
    then match item with ITable t => Some t | _ => None end
    else find_table es name
  end.

(** The effect of a change through that reference. *)
Fixpoint put_table (es : list (Key * Item)) (name : string) (t : Table) : list (Key * Item) :=
  match es with
  | [] => []
  | (k, item) :: es =>
    if decide (key_get k = name) then (k, ITable t) :: es else (k, item) :: put_table es name t
  end.

Definition get_table (t : Table) (name : string) : option Table := find_table (table_items t) name.
Definition set_table (t : Table) (name : string) (s : Table) : Table :=
  mkTable (table_decor t) (put_table (table_items t) name s).

(** The structs with derived documentation. *)
Inductive DocType :=
| DocVolumeConfig | DocExtraConfig | DocOtpConfig | DocKmsConfig | DocKbsConfig | DocOidcConfig
| DocAliyunKmsConfig | DocExecConfig | DocGlobalConfig | DocBootServiceConfig | DocFdeConfig
| DocRootFsConfig | DocDeltaConfig.

Class Documented := {
  get_field_docs : DocType -> string -> option string;
  DOCS : DocType -> string;
}.

Inductive TemplateError := SerializeFailed | NoneItem | EmptyArray.

(** [to_string_pretty(self)?.parse::<DocumentMut>()?]. *)
Class TomlEdit := {
  volume_to_toml : VolumeConfig -> option Table;
  global_to_toml : GlobalConfig -> option Table;
  fde_to_toml : FdeConfig -> option Table;
}.

(** ** Annotations *)

(** [format!("# {l}\n")], or just the sign for an empty line. *)
Definition comment_line (l : string) : string :=
  if decide (l = "") then String "#" (String (ascii_of_nat 10) "")
  else "# " +:+ l +:+ String (ascii_of_nat 10) "".

Definition concat_str (ls : list string) : string := foldr (fun l r => l +:+ r) "" ls.

Definition append_docs_as_toml_comments (decor : Decor) (docs : string)
  : result TemplateError Decor :=
  let old_prefix := decor_prefix decor in
  let last_line := prefix ← old_prefix; last (lines prefix) in
  let comments := concat_str (map comment_line (lines docs)) in
  let? new_prefix :=
    match old_prefix, last_line with
    | None, None => Ok comments
    | Some prefix, None => if decide (prefix = "") then Ok comments else Panic
    | None, Some _ => Panic
    | Some prefix, Some l =>
      if decide (l = "") then Ok (prefix +:+ comments)
      else Ok (prefix +:+ String "#" (String (ascii_of_nat 10) "") +:+ comments)
    end in
  Ok (mkDecor (Some new_prefix)).

Section Annotate.
Context `{Documented}.

Definition annotate_item (docs : string) (key : Key) (value : Item)
  : result TemplateError (Key * Item) :=
  match value with
  | INone => Err NoneItem
  | IValue v =>
    let? d := append_docs_as_toml_comments (leaf_decor key) docs in
    Ok (mkKey (key_get key) d, IValue v)
  | ITable sub_table =>
    let? d := append_docs_as_toml_comments (table_decor sub_table) docs in
    Ok (key, ITable (set_decor sub_table d))
  | IArrayOfTables [] => Err EmptyArray
  | IArrayOfTables (first_table :: array) =>
    let? d := append_docs_as_toml_comments (table_decor first_table) docs in
    Ok (key, IArrayOfTables (set_decor first_table d :: array))
  end.

Fixpoint annotate_items (T : DocType) (es : list (Key * Item)) : result TemplateError (list (Key * Item)) :=
  match es with
  | [] => Ok []
  | (key, value) :: es =>
    let? kv :=
      match get_field_docs T (key_get key) with
      | None => Ok (key, value)
      | Some docs => annotate_item docs key value
      end in
    let? es := annotate_items T es in
    Ok (kv :: es)
  end.

Definition annotate_toml_table (T : DocType) (table : Table) : result TemplateError Table :=
  let? es := annotate_items T (table_items table) in
  Ok (mkTable (table_decor table) es).

(** The documentation of the struct itself, then of its fields. *)
Definition annotate_struct (T : DocType) (table : Table) : result TemplateError Table :=
  let? d := append_docs_as_toml_comments (table_decor table) (DOCS T) in
  annotate_toml_table T (set_decor table d).

(** A subtable that need not be there; [false] is the early return of the
    function, with the document as it is. *)
Definition annotate_at (name : string) (f : Table -> result TemplateError (Table * bool)) (table : Table)
  : result TemplateError (Table * bool) :=
  match get_table table name with
  | None => Ok (table, false)
  | Some sub => let? (sub, go) := f sub in Ok (set_table table name sub, go)
  end.

Definition annotated (T : DocType) (table : Table) : result TemplateError (Table * bool) :=
  let? table := annotate_struct T table in Ok (table, true).

(** The table of the key provider, in [encrypt]. *)
Definition annotate_provider (key_provider : KeyProviderConfig) (encrypt : Table)
  : result TemplateError (Table * bool) :=
  match key_provider with
  | Otp _ => annotate_at "otp" (annotated DocOtpConfig) encrypt
  | KmsProvider _ => annotate_at "kms" (annotated DocKmsConfig) encrypt
  | Kbs _ => annotate_at "kbs" (annotated DocKbsConfig) encrypt
  | Oidc _ =>
    annotate_at "oidc" (fun provider_config =>
      let? provider_config := annotate_struct DocOidcConfig provider_config in
      annotate_at "kms" (annotated DocAliyunKmsConfig) provider_config) encrypt
  | Exec _ => annotate_at "exec" (annotated DocExecConfig) encrypt
  | Tpm2 _ => Ok (encrypt, true)
  end.

Definition annotate_encrypt (key_provider : KeyProviderConfig) (encrypt : Table)
  : result TemplateError (Table * bool) :=
  let? (encrypt, go) := annotate_provider key_provider encrypt in
  if go then let? encrypt := annotate_toml_table DocExtraConfig encrypt in Ok (encrypt, true)
  else Ok (encrypt, false).

Definition annotate_volume (config : VolumeConfig) (toml : Table) : result TemplateError Table :=
  let? toml := annotate_toml_table DocVolumeConfig toml in
  let? toml := annotate_toml_table DocExtraConfig toml in
  let? (toml, _) := annotate_at "encrypt" (annotate_encrypt (key_provider config)) toml in
  Ok toml.

(** [if let Some(item) = toml.get_mut(name).and_then(as_table_mut)]. *)
Definition annotate_sub (name : string) (T : DocType) (toml : Table) : result TemplateError Table :=
  match get_table toml name with
  | None => Ok toml
  | Some item => let? item := annotate_toml_table T item in Ok (set_table toml name item)
  end.

Definition annotate_global (toml : Table) : result TemplateError Table :=
  let? toml := annotate_toml_table DocGlobalConfig toml in
  annotate_sub "boot" DocBootServiceConfig toml.

Definition annotate_fde (toml : Table) : result TemplateError Table :=
  let? toml := annotate_toml_table DocFdeConfig toml in
  let? toml := annotate_sub "rootfs" DocRootFsConfig toml in
  annotate_sub "delta" DocDeltaConfig toml.

Context `{TomlEdit}.

Definition volume_as_annotated_toml (self : VolumeConfig) : result TemplateError Table :=
  let? toml := ok_or (volume_to_toml self) SerializeFailed in annotate_volume self toml.

Definition global_as_annotated_toml (self : GlobalConfig) : result TemplateError Table :=
  let? toml := ok_or (global_to_toml self) SerializeFailed in annotate_global toml.

Definition fde_as_annotated_toml (self : FdeConfig) : result TemplateError Table :=
  let? toml := ok_or (fde_to_toml self) SerializeFailed in annotate_fde toml.
End Annotate.

(** ** The example configurations *)

(** Lines of text, and the quotes of a JSON text. *)
Definition text (ls : list string) : string :=
  concat_str (map (fun l => l +:+ String (ascii_of_nat 10) "") ls).
Definition quoted (s : string) : string := String (ascii_of_nat 34) s +:+ String (ascii_of_nat 34) "".

Definition example_cert : string := text [
  "-----BEGIN CERTIFICATE-----";
  "XXXXXXXXXXXXXXXXXXXXXXXXXXXXXXXXXXXXXXXXXXXXX";
  "XXXXXXXXXXXXXXXXXXXXXXXXXXXXXXXXXXXXXXXXXXXXX";
  "-----END CERTIFICATE-----" ].

Definition example_client_key : string :=
  text [ "{";
         "  " +:+ quoted "KeyId" +:+ ": " +:+ quoted "KAAP.XXXXXXXXX" +:+ ",";
         "  " +:+ quoted "PrivateKeyData" +:+ ": " +:+ quoted "XXXXXXXXX" ] +:+ "}".

Definition new_client_key (instance_id secret client_key client_key_password kms_cert_pem : string)
  : KmsConfig :=
  {| kms_instance_id := instance_id;
     secret_name := secret;
     kms_auth := ClientKey client_key client_key_password kms_cert_pem |}.

Definition new_ecs_ram_role (instance_id secret : string) (ecs_ram_role_name region_id : option string)
  : KmsConfig :=
  {| kms_instance_id := instance_id;
     secret_name := secret;
     kms_auth := EcsRamRole ecs_ram_role_name region_id |}.

(** The argument of the command: the kind of volume. *)
Inductive TemplateVolumeType := VtOtp | VtKms | VtKbs | VtOidc | VtExec.

Definition example_provider (self : TemplateVolumeType) : KeyProviderConfig :=
  match self with
  | VtOtp => Otp mkOtp
  | VtKms => KmsProvider (new_client_key "kst-XXXXXXXXX" "XXXXXXXXX" example_client_key "XXXXXXXXX"
      example_cert)
  | VtKbs => Kbs (mkKbs (OneShot "https://1.2.3.4:8080" (Some example_cert))
      "kbs:///default/mykey/volume_data0")
  | VtOidc => Oidc (mkOidc "some-cli" ["-c"; "/etc/config.json"; "get-token"] "disk-decryption-key"
      (Aliyun (mkAliyunKms "acs:ram::113511544585:oidc-provider/TestOidcIdp"
        "acs:ram::113511544585:role/testoidc" "cn-beijing")))
  | VtExec => Exec (mkExec "echo" ["passphrase"])
  end.

Definition template_volume_config (self : TemplateVolumeType) : VolumeConfig := {|
  vc_dev := "/dev/nvme1n1p1";
  vc_volume := "data0";
  extra_config := mkExtra (Some true) (Some Ext4) (Some true);
  key_provider := example_provider self |}.

Definition template_global_config : GlobalConfig := mkGlobal (Some (mkBootService false)).

Definition example_kbs (uri : string) : KeyProviderConfig :=
  Kbs (mkKbs (OneShot "https://1.2.3.4:8080" (Some example_cert)) uri).

Definition template_fde_config : FdeConfig := {|
  fde_rootfs := mkRootFs (Some Disk) (Some DmSnapshot)
    (Some (example_kbs "kbs:///default/mykey/rootfs_partition"));
  fde_delta := mkDelta true (example_kbs "kbs:///default/mykey/data_partition") |}.

(** [main] of the two programs: what is printed. *)
Inductive TemplateType := TGlobal | TFde.

Definition crypt_template_main `{Documented, TomlEdit} (volume_type : TemplateVolumeType)
  : result TemplateError Table := volume_as_annotated_toml (template_volume_config volume_type).

Definition fde_template_main `{Documented, TomlEdit} (template : TemplateType)
  : result TemplateError Table :=
  match template with
  | TGlobal => global_as_annotated_toml template_global_config
  | TFde => fde_as_annotated_toml template_fde_config
  end.
