(* ===== verification/TemplateProofs.v ===== *)
(** * What the annotation of a template does

    Annotating a document changes comments only: its keys, values and tables
    are kept, in order, the text before each of them stays made of blank and
    comment lines, and no arm marked unreachable is reached.  The template of a
    volume with a one-time key is refused by the program's own configuration
    check. *)

From Stdlib Require Import Ascii.
From stdpp Require Import base list numbers option strings.
From S2P Require Import Prelude RustString Sys Cmd Blkid Luks2 Luks2Spec KeyProvider VolumeConfig FdeConfig Template.
From S2P Require Import FileVerifier Mkfs CryptCmd CryptCmdProofs.

(** ** Documents without their decoration *)

Definition bare : Decor := mkDecor None.

Fixpoint erase_item (i : Item) : Item :=
  match i with
  | ITable t => ITable (erase_table t)
  | IArrayOfTables ts => IArrayOfTables (map erase_table ts)
  | _ => i
  end
with erase_table (t : Table) : Table :=
  match t with
  | mkTable _ es =>
    mkTable bare (map (fun ki => (mkKey (key_get (fst ki)) bare, erase_item (snd ki))) es)
  end.

Definition erase_entry (ki : Key * Item) : Key * Item :=
  (mkKey (key_get (fst ki)) bare, erase_item (snd ki)).

(** ** Decorations *)

Definition NEWLINE : ascii := ascii_of_nat 10.

Fixpoint no_newline (s : string) : bool :=
  match s with
  | EmptyString => true
  | String a s => negb (Ascii.eqb a NEWLINE) && no_newline s
  end.

(** A line of blanks, or a comment. *)
Fixpoint blank (s : string) : bool :=
  match s with
  | EmptyString => true
  | String a s => (Ascii.eqb a " " || Ascii.eqb a (ascii_of_nat 9)) && blank s
  end.

Definition trivia_line (l : string) : Prop :=
  no_newline l = true /\ (blank l = true \/ starts_with l "#" = true).

(** Whole lines of that kind. *)
Definition trivia (s : string) : Prop :=
  exists ls, Forall trivia_line ls /\ s = text ls.

Definition decor_ok (d : Decor) : Prop := forall s, decor_prefix d = Some s -> trivia s.

(** Every decoration of a document, no item is [None] and no array is empty. *)
Fixpoint item_ok (i : Item) : Prop :=
  match i with
  | INone => False
  | IValue _ => True
  | ITable t => table_ok t
  | IArrayOfTables ts => ts <> [] /\ foldr (fun t P => table_ok t /\ P) True ts
  end
with table_ok (t : Table) : Prop :=
  match t with
  | mkTable d es =>
    decor_ok d /\ foldr (fun ki P => decor_ok (leaf_decor (fst ki)) /\ item_ok (snd ki) /\ P) True es
  end.

Definition entry_ok (ki : Key * Item) : Prop := decor_ok (leaf_decor (fst ki)) /\ item_ok (snd ki).

Lemma table_ok_iff d es : table_ok (mkTable d es) <-> decor_ok d /\ Forall entry_ok es.
Proof.
  simpl. apply and_iff_compat_l. induction es as [|ki es IH]; simpl.
  - split; [constructor|done].
  - rewrite Forall_cons. unfold entry_ok at 1. rewrite <- IH. tauto.
Qed.

(** ** Text *)

Lemma concat_str_app l1 l2 : concat_str (l1 ++ l2) = concat_str l1 +:+ concat_str l2.
Proof.
  induction l1 as [|x l1 IH]; [done|].
  change (x +:+ concat_str (l1 ++ l2) = (x +:+ concat_str l1) +:+ concat_str l2).
  by rewrite IH, string_app_assoc.
Qed.

Lemma trivia_nil : trivia "".
Proof. by exists []. Qed.

Lemma trivia_app a b : trivia a -> trivia b -> trivia (a +:+ b).
Proof.
  intros (la & Ha & ->) (lb & Hb & ->). exists (la ++ lb). split; [by apply Forall_app|].
  unfold text. by rewrite map_app, concat_str_app.
Qed.

Lemma trivia_one l : trivia_line l -> trivia (l +:+ String NEWLINE "").
Proof. intros Hl. exists [l]. split; [by constructor|]. unfold text. simpl. by rewrite string_app_nil_r. Qed.

Lemma no_newline_app a b : no_newline (a +:+ b) = no_newline a && no_newline b.
Proof. induction a as [|x a IH]; [done|]. rewrite string_cons_app. simpl. by rewrite IH, andb_assoc. Qed.

Lemma split_no_newline acc s :
  no_newline acc = true -> Forall (fun l => no_newline l = true) (split_on NEWLINE acc s).
Proof.
  revert acc. induction s as [|a s IH]; intros acc Ha; simpl; [by constructor|].
  destruct (Ascii.eqb a NEWLINE) eqn:E.
  - constructor; [done|]. by apply IH.
  - apply IH. rewrite no_newline_app, Ha. simpl. by rewrite E.
Qed.

Lemma no_newline_first_n n s : no_newline s = true -> no_newline (first_n n s) = true.
Proof.
  revert n. induction s as [|a s IH]; intros [|n] Hs; simpl in *; try done.
  apply andb_true_iff in Hs as [-> Hs]. by apply IH.
Qed.

Lemma Forall_removelast {A} (P : A -> Prop) l : Forall P l -> Forall P (removelast l).
Proof.
  induction 1 as [|x l Hx Hl IH]; [constructor|]. simpl. destruct l; [constructor|by constructor].
Qed.

Lemma lines_no_newline s : Forall (fun l => no_newline l = true) (lines s).
Proof.
  unfold lines. fold NEWLINE. pose proof (split_no_newline "" s eq_refl) as Hs.
  assert (Forall (fun l => no_newline l = true)
    (match last (split_on NEWLINE "" s) with Some "" => removelast (split_on NEWLINE "" s)
     | _ => split_on NEWLINE "" s end)) as Hl.
  { destruct (last _) as [[|]|]; try done. by apply Forall_removelast. }
  apply Forall_fmap. eapply Forall_impl; [exact Hl|]. intros l Hn. simpl.
  unfold str_strip_suffix. destruct (ends_with _ _); simpl; [by apply no_newline_first_n|done].
Qed.

Lemma split_on_nonempty sep acc s : split_on sep acc s <> [].
Proof. revert acc. induction s as [|a s IH]; intros acc; simpl; [done|]. by destruct (Ascii.eqb a sep). Qed.

Lemma split_on_single sep acc s : split_on sep acc s = [""%string] -> acc = "" /\ s = "".
Proof.
  revert acc. induction s as [|a s IH]; intros acc E; simpl in E; [by injection E|].
  destruct (Ascii.eqb a sep).
  - injection E as _ E. by apply split_on_nonempty in E.
  - apply IH in E as [E _]. by destruct acc.
Qed.

(** Only the empty text has no lines. *)
Lemma last_lines_none s : last (lines s) = None -> s = "".
Proof.
  unfold lines. fold NEWLINE. intros E. apply last_None, map_eq_nil in E.
  pose proof (split_on_nonempty NEWLINE "" s) as Hn. pose proof (split_on_single NEWLINE "" s) as H1.
  destruct (split_on NEWLINE "" s) as [|x [|y l]]; [done| |]; simpl in *.
  - destruct x; [by apply H1|done].
  - destruct (last (y :: l)) as [[|]|]; try done.
Qed.

(** ** Annotations *)

Lemma comment_line_trivia l : no_newline l = true -> trivia (comment_line l).
Proof.
  intros Hl. unfold comment_line. case_decide.
  - apply (trivia_one "#"). split; [done|by right].
  - apply (trivia_one ("# " +:+ l)). split; [by rewrite no_newline_app, Hl|right; done].
Qed.

Lemma comments_trivia docs : trivia (concat_str (map comment_line (lines docs))).
Proof.
  pose proof (lines_no_newline docs) as Hl. induction Hl as [|l ls Hl _ IH]; [apply trivia_nil|].
  apply trivia_app; [by apply comment_line_trivia|done].
Qed.

(** The two arms marked unreachable are: the result is a decoration, of whole
    lines if the old one was. *)
Lemma append_docs_ok d docs :
  exists d', append_docs_as_toml_comments d docs = Ok d' /\ (decor_ok d -> decor_ok d').
Proof.
  pose proof (comments_trivia docs) as Hc. unfold append_docs_as_toml_comments.
  destruct d as [[prefix|]]; cbn [decor_prefix mbind option_bind].
  - destruct (last (lines prefix)) as [l|] eqn:El.
    + assert (decor_ok (mkDecor (Some prefix)) -> trivia prefix) as Hp by (intros Hd; by apply Hd).
      case_decide; cbn [rbind]; (eexists; split; [done|]); intros Hd s [= <-]; apply trivia_app; auto.
      apply trivia_app; [|done]. apply (trivia_one "#"). split; [done|by right].
    + apply last_lines_none in El as ->. cbn [rbind]. eexists. split; [done|]. by intros _ s [= <-].
  - cbn [rbind]. eexists. split; [done|]. by intros _ s [= <-].
Qed.

Section AnnotateProofs.
Context `{Documented}.

Lemma table_ok_decor t d : table_ok t -> decor_ok d -> table_ok (set_decor t d).
Proof. destruct t as [d0 es]. unfold set_decor. rewrite !table_ok_iff. tauto. Qed.

Lemma table_ok_prefix t : table_ok t -> decor_ok (table_decor t).
Proof. destruct t as [d es]. by intros [? _]%table_ok_iff. Qed.

Lemma erase_set_decor t d : erase_table (set_decor t d) = erase_table t.
Proof. by destruct t. Qed.

Lemma annotate_item_ok docs k i :
  entry_ok (k, i) ->
  exists ki, annotate_item docs k i = Ok ki /\ entry_ok ki /\ erase_entry ki = erase_entry (k, i).
Proof.
  intros [Hk Hi]. cbn [fst snd] in *. destruct i as [|v|t|[|t ts]]; cbn [annotate_item]; cbn [item_ok] in Hi.
  - done.
  - destruct (append_docs_ok (leaf_decor k) docs) as (d & -> & Hd). eexists. split; [done|].
    split; [split; [by apply Hd|done]|done].
  - destruct (append_docs_ok (table_decor t) docs) as (d & -> & Hd). eexists. split; [done|].
    split; [split; [done|]|].
    + apply table_ok_decor; [done|]. by apply Hd, table_ok_prefix.
    + unfold erase_entry. cbn [fst snd erase_item]. by rewrite erase_set_decor.
  - by destruct Hi.
  - destruct Hi as [_ [Ht Hts]]. destruct (append_docs_ok (table_decor t) docs) as (d & -> & Hd).
    eexists. split; [done|]. split; [split; [done|]|].
    + cbn [snd item_ok foldr]. split; [done|]. split; [|done].
      apply table_ok_decor; [done|]. by apply Hd, table_ok_prefix.
    + unfold erase_entry. cbn [fst snd erase_item map]. by rewrite erase_set_decor.
Qed.

Lemma annotate_items_ok T es :
  Forall entry_ok es ->
  exists es', annotate_items T es = Ok es' /\ Forall entry_ok es' /\
    map erase_entry es' = map erase_entry es.
Proof.
  induction 1 as [|[k i] es Hki _ (es' & IH & Hes' & Eq)]; [by exists []|]. cbn [annotate_items].
  assert (exists ki, (match get_field_docs T (key_get k) with
      | None => Ok (k, i) | Some docs => annotate_item docs k i end) = Ok ki /\
      entry_ok ki /\ erase_entry ki = erase_entry (k, i)) as (ki & -> & Hok & Ee).
  { destruct (get_field_docs _ _); [by apply annotate_item_ok|by exists (k, i)]. }
  cbn [rbind]. rewrite IH. cbn [rbind]. exists (ki :: es'). split; [done|].
  split; [by constructor|]. cbn [map]. by rewrite Ee, Eq.
Qed.

(** A step of the annotation that succeeds, keeps the document, and leaves its
    decorations in order. *)
Definition annotates (f : Table -> result TemplateError Table) : Prop :=
  forall t, table_ok t ->
  exists t', f t = Ok t' /\ table_ok t' /\ erase_table t' = erase_table t.

Definition annotates_flag (f : Table -> result TemplateError (Table * bool)) : Prop :=
  forall t, table_ok t ->
  exists t' go, f t = Ok (t', go) /\ table_ok t' /\ erase_table t' = erase_table t.

Lemma annotates_seq f g : annotates f -> annotates g -> annotates (fun t => rbind (f t) g).
Proof.
  intros Hf Hg t Ht. destruct (Hf t Ht) as (t1 & -> & Ht1 & E1). cbn [rbind].
  destruct (Hg t1 Ht1) as (t2 & -> & Ht2 & E2). exists t2. by rewrite E2.
Qed.

Lemma annotates_keep f : annotates f -> annotates_flag (fun t => rbind (f t) (fun t => Ok (t, true))).
Proof.
  intros Hf t Ht. destruct (Hf t Ht) as (t1 & -> & ? & ?). by exists t1, true.
Qed.

Lemma annotate_toml_table_ok T : annotates (annotate_toml_table T).
Proof.
  intros [d es] [Hd Hes]%table_ok_iff. destruct (annotate_items_ok T es Hes) as (es' & E & Hes' & Eq).
  unfold annotate_toml_table. cbn [table_items table_decor]. rewrite E. cbn [rbind]. eexists. split; [done|].
  split; [by apply table_ok_iff|]. simpl. by rewrite <- (map_ext erase_entry), Eq.
Qed.

Lemma annotate_struct_ok T : annotates (annotate_struct T).
Proof.
  intros t Ht. unfold annotate_struct.
  destruct (append_docs_ok (table_decor t) (DOCS T)) as (d & -> & Hd). cbn [rbind].
  destruct (annotate_toml_table_ok T (set_decor t d)) as (t' & -> & Ht' & E).
  { apply table_ok_decor; [done|]. by apply Hd, table_ok_prefix. }
  exists t'. by rewrite E, erase_set_decor.
Qed.

Lemma find_table_ok es name s : Forall entry_ok es -> find_table es name = Some s -> table_ok s.
Proof.
  induction 1 as [|[k i] es [_ Hi] _ IH]; [done|]. cbn [find_table]. case_decide; [|done].
  destruct i; try done. by intros [= ->].
Qed.

Lemma put_table_ok es name s s' :
  Forall entry_ok es -> find_table es name = Some s -> table_ok s' -> erase_table s' = erase_table s ->
  Forall entry_ok (put_table es name s') /\
  map erase_entry (put_table es name s') = map erase_entry es.
Proof.
  intros Hes Hf Hs' Ee. induction Hes as [|[k i] es Hki Hes IH]; [done|].
  cbn [find_table put_table] in *. case_decide.
  - destruct i; try done. injection Hf as ->. split.
    + constructor; [|done]. destruct Hki as [? _]. by split.
    + cbn [map]. unfold erase_entry at 1 3. cbn [fst snd erase_item]. by rewrite Ee.
  - destruct (IH Hf) as [? Eq]. split; [by constructor|]. cbn [map]. by rewrite Eq.
Qed.

Lemma set_table_ok t name s s' :
  table_ok t -> get_table t name = Some s -> table_ok s' -> erase_table s' = erase_table s ->
  table_ok (set_table t name s') /\ erase_table (set_table t name s') = erase_table t.
Proof.
  destruct t as [d es]. intros [Hd Hes]%table_ok_iff Hf Hs' Ee. unfold get_table, set_table in *.
  cbn [table_items table_decor] in *. destruct (put_table_ok es name s s' Hes Hf Hs' Ee) as [Hp Eq].
  split; [by apply table_ok_iff|]. simpl. change (mkTable bare (map erase_entry (put_table es name s')) =
    mkTable bare (map erase_entry es)). by rewrite Eq.
Qed.

Lemma get_table_ok t name s : table_ok t -> get_table t name = Some s -> table_ok s.
Proof. destruct t as [d es]. intros [_ Hes]%table_ok_iff. by apply find_table_ok. Qed.

Lemma annotate_at_ok name f : annotates_flag f -> annotates_flag (annotate_at name f).
Proof.
  intros Hf t Ht. unfold annotate_at. destruct (get_table t name) as [s|] eqn:Es; [|by exists t, false].
  destruct (Hf s (get_table_ok _ _ _ Ht Es)) as (s' & go & -> & Hs' & Ee). cbn [rbind].
  destruct (set_table_ok t name s s' Ht Es Hs' Ee) as [? ?]. by eexists _, go.
Qed.

Lemma annotate_sub_ok name T : annotates (annotate_sub name T).
Proof.
  intros t Ht. unfold annotate_sub. destruct (get_table t name) as [s|] eqn:Es; [|by exists t].
  destruct (annotate_toml_table_ok T s (get_table_ok _ _ _ Ht Es)) as (s' & -> & Hs' & Ee). cbn [rbind].
  destruct (set_table_ok t name s s' Ht Es Hs' Ee) as [? ?]. by eexists.
Qed.

Hint Resolve annotates_keep annotates_seq annotate_toml_table_ok annotate_struct_ok annotate_at_ok
  annotate_sub_ok : cryptpilot.

Lemma annotate_provider_ok kp : annotates_flag (annotate_provider kp).
Proof.
  unfold annotate_provider, annotated. destruct kp; auto with cryptpilot.
  - intros t Ht. by exists t, true.
  - apply annotate_at_ok. intros t Ht. destruct (annotate_struct_ok DocOidcConfig t Ht) as (t1 & -> & Ht1 & E1).
    cbn [rbind]. destruct (annotate_at_ok "kms" _ (annotates_keep _ (annotate_struct_ok DocAliyunKmsConfig)) t1 Ht1)
      as (t2 & go & E & ? & E2). exists t2, go. split; [exact E|]. split; [done|congruence].
Qed.

Lemma annotate_encrypt_ok kp : annotates_flag (annotate_encrypt kp).
Proof.
  intros t Ht. unfold annotate_encrypt.
  destruct (annotate_provider_ok kp t Ht) as (t1 & go & -> & Ht1 & E1). cbn [rbind].
  destruct go; [|by exists t1, false].
  destruct (annotate_toml_table_ok DocExtraConfig t1 Ht1) as (t2 & -> & Ht2 & E2). cbn [rbind].
  exists t2, true. split; [done|]. split; [done|congruence].
Qed.

Lemma annotate_volume_ok config : annotates (annotate_volume config).
Proof.
  apply annotates_seq; [auto with cryptpilot|]. apply annotates_seq; [auto with cryptpilot|].
  intros t Ht. destruct (annotate_at_ok "encrypt" _ (annotate_encrypt_ok (key_provider config)) t Ht)
    as (t' & go & -> & ? & ?). cbn [rbind]. by exists t'.
Qed.

Lemma annotate_global_ok : annotates annotate_global.
Proof. apply annotates_seq; auto with cryptpilot. Qed.

Lemma annotate_fde_ok : annotates annotate_fde.
Proof. apply annotates_seq; auto with cryptpilot. Qed.
End AnnotateProofs.

(** ** Properties *)

Section TemplateProperties.
Context `{Documented, TomlEdit}.

(** The annotation of a configuration, for any documentation: whatever its
    TOML document is, every step succeeds, no arm marked unreachable is
    reached, the keys, values and tables stay as they were and in their order,
    and the text before each of them is still made of whole blank and comment
    lines, so that the printed template reads as the same document. *)
Theorem templates_keep_data :
  (forall config toml, volume_to_toml config = Some toml -> table_ok toml ->
    exists toml', volume_as_annotated_toml config = Ok toml' /\ table_ok toml' /\
      erase_table toml' = erase_table toml) /\
  (forall config toml, global_to_toml config = Some toml -> table_ok toml ->
    exists toml', global_as_annotated_toml config = Ok toml' /\ table_ok toml' /\
      erase_table toml' = erase_table toml) /\
  (forall config toml, fde_to_toml config = Some toml -> table_ok toml ->
    exists toml', fde_as_annotated_toml config = Ok toml' /\ table_ok toml' /\
      erase_table toml' = erase_table toml).
Proof.
  unfold volume_as_annotated_toml, global_as_annotated_toml, fde_as_annotated_toml.
  split; [|split]; intros config toml E Ht; rewrite E; cbn [ok_or rbind].
  - by apply annotate_volume_ok.
  - by apply annotate_global_ok.
  - by apply annotate_fde_ok.
Qed.
End TemplateProperties.

Section TemplateChecks.
Context `{Hex, Base64, JsonText, BlkTraceConsts} {W : Type} `{Cryptsetup W}.

(** The template of a volume with a one-time key opens it automatically, which
    [config check] refuses while the device is blank: the program's own example
    does not pass the program's own check. *)
Theorem otp_template_fails_check o w :
  luks_subsystem w "/dev/nvme1n1p1" = None ->
  ~ check_passes o [template_volume_config VtOtp] w.
Proof.
  intros Hl. apply (otp_auto_open_fails_check o [template_volume_config VtOtp] (template_volume_config VtOtp) mkOtp w).
  - intros c c' ->%list_elem_of_singleton ->%list_elem_of_singleton. reflexivity.
  - by left.
  - reflexivity.
  - reflexivity.
  - exact Hl.
Qed.
End TemplateChecks.
