(* ===== verification/TemplateInstances.v ===== *)
(** * Templates: concrete documents

    A small serializer and documentation: the theorems of [TemplateProofs]
    applied, and the comments that are printed for them. *)

From Stdlib Require Import Ascii.
From stdpp Require Import base list numbers option strings gmap.
From S2P Require Import Prelude RustString Sys Cmd Blkid Luks2 Luks2Spec KeyProvider VolumeConfig FdeConfig Template.
From S2P Require Import CryptCmd CryptCmdProofs TemplateProofs FileVerifier ToyMachine CryptInstances.

#[local] Existing Instances toy_hex toy_base64 toy_json_text toy_consts.

Definition newline : string := String (ascii_of_nat 10) "".

Definition entry (name : string) (i : Item) : Key * Item := (mkKey name (mkDecor (Some "")), i).
Definition plain (prefix : string) (es : list (Key * Item)) : Table := mkTable (mkDecor (Some prefix)) es.

#[local] Instance toy_toml_edit : TomlEdit := {|
  volume_to_toml c := Some (plain "" [
    entry "volume" (IValue (vc_volume c)); entry "dev" (IValue (vc_dev c));
    entry "encrypt" (ITable (plain newline [entry "otp" (ITable (plain newline []))])) ]);
  global_to_toml c := Some (plain "" [entry "boot" (ITable (plain "" [entry "verbose" (IValue "false")]))]);
  fde_to_toml c := Some (plain "" [entry "rootfs" (ITable (plain "" []))]);
|}.

#[local] Instance toy_docs : Documented := {|
  get_field_docs T name :=
    match T with
    | DocVolumeConfig => if decide (name = "dev") then Some ("A device." +:+ newline +:+ newline +:+ "Any.") else None
    | _ => None
    end;
  DOCS T := "One-time";
|}.

Lemma plain_ok prefix es :
  trivia prefix -> Forall entry_ok es -> table_ok (plain prefix es).
Proof. intros Hp Hes. apply table_ok_iff. split; [|done]. by intros s [= <-]. Qed.

Lemma entry_is_ok name i : item_ok i -> entry_ok (entry name i).
Proof. intros Hi. split; [|done]. intros s [= <-]. apply trivia_nil. Qed.

Lemma newline_trivia : trivia newline.
Proof. apply (trivia_one ""). split; [done|by left]. Qed.

Lemma templates_keep_data_witness :
  exists toml', volume_as_annotated_toml (template_volume_config VtOtp) = Ok toml' /\ table_ok toml' /\
    erase_table toml' = erase_table (default (plain "" []) (volume_to_toml (template_volume_config VtOtp))).
Proof.
  apply (proj1 templates_keep_data); [reflexivity|].
  apply plain_ok; [apply trivia_nil|]. constructor; [by apply entry_is_ok|].
  constructor; [by apply entry_is_ok|]. constructor; [apply entry_is_ok|constructor].
  apply plain_ok; [apply newline_trivia|]. constructor; [apply entry_is_ok|constructor].
  apply plain_ok; [apply newline_trivia|constructor].
Defined.

(** What is printed before [dev] and before [encrypt.otp]. *)
Example otp_comments :
  match crypt_template_main VtOtp with
  | Ok t =>
    (decor_prefix ∘ leaf_decor ∘ fst) <$> table_items t !! 1 =
      Some (Some (text ["# A device."; "#"; "# Any."])) /\
    (t ← get_table t "encrypt"; t ← get_table t "otp"; decor_prefix (table_decor t)) =
      Some (text [""; "# One-time"])
  | _ => False
  end.
Proof. vm_compute. split; reflexivity. Qed.

Lemma otp_template_fails_check_witness :
  ~ check_passes (mkCheckOptions true false) [template_volume_config VtOtp] machine0.
Proof.
  apply (otp_template_fails_check (mkCheckOptions true false) machine0). vm_compute. reflexivity.
Defined.
