(* ===== verification/Dispatch.v ===== *)
(** * The entry points of cryptpilot-crypt and cryptpilot-fde-host

    [cryptpilot-crypt/src/main.rs], [cryptpilot-fde/src/bin/host.rs], the
    subcommands of [cli.rs] and their dispatch in [cmd/mod.rs]: which
    configuration a command is run on.  The argument parser, logging and the
    printing of results are left out; a command returns what it prints.

    Both programs put the source of the configuration behind a cache.  A
    command that uses the source begins by that, so the mains load it first
    and hand the command the loaded value; [cached_loop_prefetched] shows that
    this is the cache of [cached.rs] threaded through the loop of a command. *)

From Stdlib Require Import Ascii.
From stdpp Require Import base list strings.
From Stdlib Require Import ZArith Lia.
From S2P Require Import Prelude RustString Sys Cmd Blkid Luks2 KeyProvider Mkfs VolumeConfig CryptCmd.
From S2P Require Import FileVerifier FdeConfig GrubConfig Nbd FdeDisk FdeDiskImpl.

(** ** cryptpilot-crypt *)

Inductive CryptBootStage := SystemVolumesAutoOpen.

Inductive CryptConfigSubcommand := CryptConfigCheck (o : ConfigCheckOptions).

Inductive CryptSubcommand :=
| Show (o : ShowOptions)
| Init (o : InitOptions)
| Open (o : CryptCmd.OpenOptions)
| Close (o : CloseOptions)
| CryptConfig (command : CryptConfigSubcommand)
| CryptBootService (stage : CryptBootStage).

Record CryptCli := mkCryptCli { crypt_command : CryptSubcommand; crypt_config_dir : option string }.

(** What a command prints: the rows of show, or nothing. *)
Definition CryptOutput := option (list ShowVolume).

Definition no_output (p : M unit) : M CryptOutput := let* _ := p in ok None.

Section Crypt.
Context `{Hex, Base64, JsonText, BlkTraceConsts, Toml}.

(** [BootServiceCommand::run] *)
Definition crypt_boot_service_run (source : M (list VolumeConfig)) (stage : CryptBootStage) : M unit :=
  match stage with
  | SystemVolumesAutoOpen => setup_user_provided_volumes source
  end.

(** [into_command().run()] *)
Definition crypt_into_command (source : M (list VolumeConfig)) (c : CryptSubcommand) : M CryptOutput :=
  match c with
  | Show o => let* rows := show_run source o in ok (Some rows)
  | Init o => no_output (init_run source o)
  | Open o => no_output (open_cmd_run source o)
  | Close o => no_output (close_cmd_run o)
  | CryptConfig (CryptConfigCheck o) => no_output (config_check_run source o)
  | CryptBootService stage => no_output (crypt_boot_service_run source stage)
  end.

(** The commands that use the source of the configuration. *)
Definition uses_source (c : CryptSubcommand) : bool :=
  match c with
  | Init o => negb (bool_decide (init_volume o = []))
  | Open o => negb (bool_decide (open_volume o = []))
  | Close _ => false
  | _ => true
  end.

(** A command over a cached source. *)
Definition crypt_cached_command (source : M (list VolumeConfig)) (c : CryptSubcommand) : M CryptOutput :=
  if uses_source c
  then let* volumes := source in crypt_into_command (ok volumes) c
  else crypt_into_command source c.

(** [main] *)
Definition crypt_main (args : CryptCli) : M CryptOutput :=
  let* config_dir :=
    match crypt_config_dir args with
    | Some config_dir =>
      let> exists_ := call (PathExists config_dir) in
      if negb exists_ then bail "Config dir does not exist or not a directory"
      else
        let> is_dir := call (PathIsDir config_dir) in
        if negb is_dir then bail "Config dir does not exist or not a directory" else ok config_dir
    | None => ok CRYPTPILOT_CONFIG_DIR_DEFAULT
    end in
  crypt_cached_command (load_volume_configs config_dir) (crypt_command args).
End Crypt.

(** ** cryptpilot-fde-host *)

Inductive FdeConfigSubcommand :=
| FdeConfigCheck (keep_checking skip_check_passphrase : bool)
| FdeConfigDump (disk : option string).

Inductive FdeSubcommand :=
| ShowReferenceValue (disk : option string) (hash_algos : list HashAlgo)
| FdeConfigCommand (command : FdeConfigSubcommand).

Record FdeCli := mkFdeCli { fde_command : FdeSubcommand; fde_config_dir : option string }.

(** What a command prints. *)
Inductive FdeOutput :=
| ReferenceValues (values : IndexMap)
| DumpedConfig (text : string)
| NothingPrinted.

Section Host.
Context `{Hex, Base64, JsonText, BinaryTools, HashOrder, FdeToml, Sha384}.
Context (fuel : nat) (bundle_pretty : FdeConfigBundle -> option string).

(** [into_command().run()]; of these commands config check alone uses the
    source, and begins by loading from it. *)
Definition fde_into_command (source : M FdeConfigBundle) (c : FdeSubcommand) : M FdeOutput :=
  match c with
  | ShowReferenceValue disk hash_algos =>
    let* values := show_reference_value_run fuel disk hash_algos in
    ok (ReferenceValues values)
  | FdeConfigCommand (FdeConfigCheck keep skip) =>
    let* bundle := source in
    let* _ := fde_config_check_run (ok bundle) keep skip in
    ok NothingPrinted
  | FdeConfigCommand (FdeConfigDump disk) =>
    let* text := config_dump_run fuel bundle_pretty disk in
    ok (DumpedConfig text)
  end.

(** [InitrdStateConfigSource::exist] *)
Definition initrd_state_exist : sys bool := call (PathExists CRYPTPILOT_INITRD_STATE_PATH).

(** The source [main] sets, or the one the crate starts with. *)
Definition host_config_source : sys (M FdeConfigBundle) :=
  let> in_initrd := call (PathExists "/etc/initrd-release") in
  if (in_initrd : bool)
  then
    let> saved := initrd_state_exist in
    Ret (if (saved : bool) then initrd_state_load else fs_get_fde_config_bundle FDE_CONFIG_DIR_DEFAULT)
  else Ret (fs_get_fde_config_bundle FDE_CONFIG_DIR_DEFAULT).

(** [main] *)
Definition host_main (args : FdeCli) : M FdeOutput :=
  match fde_config_dir args with
  | Some _ => bail "Cannot specify `--config-dir` with `show-reference-value` or `config` subcommand"
  | None =>
    let> source := host_config_source in
    fde_into_command source (fde_command args)
  end.
End Host.

(** ** The cache *)

(** The loop over volumes of init and open as it is written: every round asks
    the cached source. *)
Fixpoint cached_for_each (inner : M (list VolumeConfig)) (cache : option (list VolumeConfig))
    (volumes : list string) (body : VolumeConfig -> M unit) : M unit :=
  match volumes with
  | [] => ok tt
  | volume :: volumes =>
    let> (r, cache) := cached_get_volume_configs inner cache in
    let* volume_config := get_volume_config (lift r) volume in
    let* _ := body volume_config in
    cached_for_each inner cache volumes body
  end.

Section Cache.
Context `{Hex, Base64, JsonText, BlkTraceConsts, Toml} {W : Type} `{!Handler sysop W}.

(** A loop over volumes, given their configurations. *)
Definition volumes_loop (source : M (list VolumeConfig)) (volumes : list string) (body : VolumeConfig -> M unit) : M unit :=
  for_each volumes (fun volume => let* c := get_volume_config source volume in body c).

Lemma cached_loop_loaded inner cs volumes body (w : W) :
  run (cached_for_each inner (Some cs) volumes body) w = run (volumes_loop (ok cs) volumes body) w.
Proof.
  revert w. induction volumes as [|v vs IH]; intros w; [done|].
  unfold volumes_loop in *. cbn [cached_for_each for_each cached_get_volume_configs pbind].
  rewrite !run_rpbind. unfold lift, ok in *. destruct (run (get_volume_config _ v) w) as [[c|e|] w1]; [|done|done].
  rewrite run_rpbind. destruct (run (body c) w1) as [[] ?]; [apply IH|done|done].
Qed.

(** With at least one round, asking the cache in every round is loading
    once before the loop. *)
Lemma cached_loop_prefetched inner volumes body (w : W) :
  volumes <> [] ->
  run (cached_for_each inner None volumes body) w =
  run (let* cs := inner in volumes_loop (ok cs) volumes body) w.
Proof.
  destruct volumes as [|v vs]; [done|]. intros _.
  cbn [cached_for_each cached_get_volume_configs]. rewrite run_bind, run_bind, run_rpbind.
  destruct (run inner w) as [[cs|e|] w1]; [|done|done].
  exact (cached_loop_loaded inner cs (v :: vs) body w1).
Qed.

(** The commands with the cache threaded through their loops. *)
Definition crypt_threaded_command (source : M (list VolumeConfig)) (c : CryptSubcommand) : M CryptOutput :=
  match c with
  | Init o =>
    no_output (cached_for_each source None (init_volume o) (fun c =>
      match volume_type (key_provider c) with
      | Temporary => ok tt
      | Persistent => persistent_disk_init o c
      end))
  | Open o =>
    no_output (cached_for_each source None (open_volume o) (fun c => open_for_specific_volume c (check_fs o)))
  | c => crypt_into_command source c
  end.

Lemma run_no_output (p : M unit) (w : W) :
  run (no_output p) w = let '(r, w) := run p w in
    (match r with Ok _ => Ok None | Err e => Err e | Panic => Panic end, w).
Proof. unfold no_output. rewrite run_rpbind. by destruct (run p w) as [[] ?]. Qed.

(** A loop command over the cached source. *)
Lemma prefetch_loop source volumes body (w : W) :
  run (if negb (bool_decide (volumes = [])) then let* cs := source in no_output (volumes_loop (ok cs) volumes body)
       else no_output (volumes_loop source volumes body)) w =
  run (no_output (cached_for_each source None volumes body)) w.
Proof.
  case_bool_decide as Hv; cbn [negb]; [by subst|].
  rewrite run_no_output, (cached_loop_prefetched _ _ _ _ Hv), !run_rpbind.
  destruct (run source w) as [[cs|e|] w1]; [|done|done]. apply run_no_output.
Qed.

Lemma cached_command_threaded source c (w : W) :
  run (crypt_cached_command source c) w = run (crypt_threaded_command source c) w.
Proof.
  destruct c as [o|o|o|o|[o]|[]]; unfold crypt_cached_command; cbn [uses_source crypt_into_command crypt_threaded_command].
  - unfold show_run. rewrite !run_rpbind. destruct (run source w) as [[] ?]; [|done|done]. by rewrite run_rpbind.
  - apply prefetch_loop.
  - apply prefetch_loop.
  - done.
  - rewrite run_rpbind, run_no_output. unfold config_check_run. rewrite run_rpbind.
    destruct (run source w) as [[] ?]; [|done|done]. by rewrite run_no_output.
  - rewrite run_rpbind, run_no_output. unfold crypt_boot_service_run, setup_user_provided_volumes.
    rewrite run_rpbind. destruct (run source w) as [[] ?]; [|done|done]. by rewrite run_no_output.
Qed.

(** C35: cryptpilot-crypt runs the command it is given on the configurations
    of the directory given, or of /etc/cryptpilot, with every use of them
    through the cache; a directory that is missing, or that is something else,
    is refused before anything but those two questions is asked. *)
Theorem crypt_main_correct (args : CryptCli) (w : W) :
  run (crypt_main args) w =
  match crypt_config_dir args with
  | None => run (crypt_threaded_command (load_volume_configs CRYPTPILOT_CONFIG_DIR_DEFAULT) (crypt_command args)) w
  | Some d =>
    let '(exists_, w) := handle (PathExists d) w in
    if (exists_ : bool) then
      let '(is_dir, w) := handle (PathIsDir d) w in
      if (is_dir : bool) then run (crypt_threaded_command (load_volume_configs d) (crypt_command args)) w
      else (Err (Bail "Config dir does not exist or not a directory"), w)
    else (Err (Bail "Config dir does not exist or not a directory"), w)
  end.
Proof.
  unfold crypt_main. rewrite run_rpbind. destruct (crypt_config_dir args) as [d|]; [|apply cached_command_threaded].
  rewrite run_bind, run_call. destruct (handle (PathExists d) w) as [[] w1]; [|done].
  cbn [negb]. rewrite run_bind, run_call. destruct (handle (PathIsDir d) w1) as [[] w2]; [|done].
  apply cached_command_threaded.
Qed.
End Cache.

(** ** cryptpilot-fde-host *)

Section HostProperties.
Context `{Hex, Base64, JsonText, BinaryTools, HashOrder, FdeToml, Sha384} {W : Type} `{!Handler sysop W}.
Context (fuel : nat) (bundle_pretty : FdeConfigBundle -> option string).

(** One load, then the keys of the volumes. *)
Definition load_and_check (source : M FdeConfigBundle) (keep skip : bool) : M FdeOutput :=
  let* bundle := source in
  let* is_error :=
    match bundle_fde bundle with
    | Some fde => check_fde_keys keep skip (fde_providers fde)
    | None => ok false
    end in
  if (is_error : bool) then bail "FDE config check failed, please check the errors above" else ok NothingPrinted.

(** cryptpilot-fde-host refuses every command line with --config-dir
    without one call of the system.  Without it config check checks the
    configuration the boot service saved when it runs in the initrd and there
    is one, and that of /etc/cryptpilot otherwise. *)
Theorem host_main_config :
  (forall command d, exists e, host_main fuel bundle_pretty (mkFdeCli command (Some d)) = Ret (Err e)) /\
  (forall keep skip (w : W),
    run (host_main fuel bundle_pretty (mkFdeCli (FdeConfigCommand (FdeConfigCheck keep skip)) None)) w =
    let '(in_initrd, w) := handle (PathExists "/etc/initrd-release") w in
    let '(saved, w) :=
      if (in_initrd : bool) then handle (PathExists CRYPTPILOT_INITRD_STATE_PATH) w else (false, w) in
    run (load_and_check
           (if (saved : bool) then initrd_state_load else fs_get_fde_config_bundle "/etc/cryptpilot") keep skip) w).
Proof.
  split; [by eexists|]. intros keep skip w.
  unfold host_main, host_config_source. cbn [fde_config_dir fde_command]. rewrite run_bind, run_bind, run_call.
  assert (Hk : forall (source : M FdeConfigBundle) v,
    run (fde_into_command fuel bundle_pretty source (FdeConfigCommand (FdeConfigCheck keep skip))) v =
    run (load_and_check source keep skip) v).
  { intros source v. unfold load_and_check. cbn [fde_into_command]. rewrite !run_rpbind. destruct (run source v) as [[b|e|] v1]; [|done|done].
    rewrite run_rpbind. unfold fde_config_check_run, ok. cbn [rpbind pbind]. rewrite !run_rpbind.
    destruct (run (match bundle_fde b with Some _ => _ | None => _ end) v1) as [[[]| |] ?]; done. }
  destruct (handle (PathExists "/etc/initrd-release") w) as [[] w1]; [|apply Hk].
  rewrite run_bind. unfold initrd_state_exist. rewrite run_call.
  destruct (handle (PathExists CRYPTPILOT_INITRD_STATE_PATH) w1) as [[] w2]; apply Hk.
Qed.
End HostProperties.
