(* ===== verification/DeviceMapper.v ===== *)
(** * Zero devices of the device mapper

    [cryptpilot-core/src/fs/block/devicemapper.rs]: a device of zeroes under a
    random name, removed when its value is dropped.  The calls are the ioctls
    of the [devicemapper] crate and its check of names. *)

From stdpp Require Import base list strings.
From Stdlib Require Import ZArith Lia.
From S2P Require Import Prelude RustString Sys.

Inductive dmop : Type -> Type :=
| RandomName (n : nat) : dmop string
| DmNew : dmop (result anyhow unit)
| DmNameNew (name : string) : dmop (result anyhow unit)
| DeviceCreate (name : string) : dmop (result anyhow unit)
| TableLoad (name : string) (table : list (Z * Z * string * string)) (persistent : bool) : dmop (result anyhow unit)
| DeviceSuspend (name : string) : dmop (result anyhow unit)
| DeviceRemove (name : string) : dmop (result anyhow unit).

Record DeviceMapperDevice := mkDmDevice { device_name : string }.

Definition new_zero (device_size : Z) : prog dmop (result anyhow DeviceMapperDevice) :=
  let> random_part := call (RandomName 16) in
  let device_name := "cryptpilot-" +:+ random_part in
  let* _ := call DmNew in
  let* _ := call (DmNameNew device_name) in
  let* _ := call (DeviceCreate device_name) in
  let table := [(0%Z, device_size, "zero", "")] in
  let* _ := call (TableLoad device_name table true) in
  let* _ := call (DeviceSuspend device_name) in
  Ret (Ok (mkDmDevice device_name)).

Definition dm_path (d : DeviceMapperDevice) : string := "/dev/mapper/" +:+ device_name d.

(** [Drop]: failures are logged. *)
Definition drop_dm (d : DeviceMapperDevice) : prog dmop unit :=
  let> valid := call (DmNameNew (device_name d)) in
  match valid with
  | Ok _ => let> _ := call (DeviceRemove (device_name d)) in Ret tt
  | _ => Ret tt
  end.

(** ** Properties *)

(** The names of the devices that a trace leaves behind. *)
Fixpoint left_behind (devices : list string) (tr : list (event dmop)) : list string :=
  match tr with
  | [] => devices
  | Ev e r :: tr =>
    left_behind
      (match e in dmop R return R -> list string with
       | DeviceCreate name => fun r => if is_ok r then name :: devices else devices
       | DeviceRemove name => fun r => if is_ok r then filter (fun d => d <> name) devices else devices
       | _ => fun _ => devices
       end r) tr
  end.

Section Properties.
Context {W : Type} `{!Handler dmop W}.

(** A device that was made is the one that exists, and the drop, unless the
    driver refuses, leaves nothing. *)
Theorem zero_device_balanced size (w : W) d w' :
  run (new_zero size) w = (Ok d, w') ->
  left_behind [] (trace (new_zero size) w) = [device_name d] /\
  (fst (handle (DmNameNew (device_name d)) w') = Ok tt ->
   fst (handle (DeviceRemove (device_name d)) (snd (handle (DmNameNew (device_name d)) w'))) = Ok tt ->
   left_behind [device_name d] (trace (drop_dm d) w') = []).
Proof.
  unfold new_zero, drop_dm. cbn.
  destruct (handle (RandomName 16) w) as [name w1]. cbn.
  destruct (handle DmNew w1) as [[[]|e|] w2]; cbn; [|done..].
  destruct (handle (DmNameNew _) w2) as [[[]|e|] w3]; cbn; [|done..].
  destruct (handle (DeviceCreate _) w3) as [[[]|e|] w4]; cbn; [|done..].
  destruct (handle (TableLoad _ _ _) w4) as [[[]|e|] w5]; cbn; [|done..].
  destruct (handle (DeviceSuspend _) w5) as [[[]|e|] w6]; cbn; [|done..].
  intros [= <- <-]. cbn. split; [done|].
  destruct (handle (DmNameNew _) w6) as [r w7]. cbn. intros ->. cbn.
  destruct (handle (DeviceRemove _) w7) as [r w8]. cbn. intros ->. cbn.
  by rewrite decide_False by (intros Hn; by apply Hn).
Qed.
End Properties.

(** Making a device never removes one: when its table cannot be loaded, or it
    cannot be resumed, the device that was created is left behind, since there
    is no value whose drop would remove it. *)
Theorem new_zero_never_removes size :
  all_ops (fun _ e => match e with DeviceRemove _ => False | _ => True end) (new_zero size).
Proof. repeat (split; [done|]; intros [[]|e|] || intros ?); done. Qed.
